(* ===== verification/_CoqProject ===== *)
-Q . S2P
Prelude.v
Utf8.v
GoStrings.v
Base64.v
Json.v
JsonPrefix.v
Envelope.v
Factory.v
Wire.v
Pb.v
PbInit.v
Codec.v
Limits.v
Conn.v
Frame.v
FrameIO.v
Session.v
WsSend.v
Gateway.v
Servers.v
Heartbeat.v
WsLoop.v
WsKeepalive.v
Lifecycle.v
WsLifecycle.v
Config.v
CmdClient.v
Tools.v
Http.v
Observe.v
Client.v
Events.v
Hub.v
HubFacts.v
Membership.v
Broadcast.v
HubConc.v
Bans.v
Subscriber.v
Delivery.v
Redis.v
Bus.v
BusFaults.v
Wiring.v
Registry.v
Builtin.v
Main.v
