(* ===== verification/Prelude.v ===== *)
(** * chat-go: a verification of the chat server

    chat-go is a chat server in Go.  Clients connect over TCP (length-prefixed
    frames) or WebSocket and exchange message envelopes encoded as JSON or
    Protocol Buffers.  The transports decode envelopes and hand them to a
    gateway; the chat core (hub, clients, event handlers, slash commands) keeps
    the online users and delivers text; a Redis stream connects several nodes.
    This development translates those parts into executable Rocq definitions
    and proves what makes them correct.  This file is the root: it holds the
    shared notation, the effect monad and the generic lemmas.

    ** Modelling conventions

    - A Go [byte] is [ascii], a [string] is [String.string], a [[]byte] is
      [list byte].  Fixed-width integers are [Z] with their wrap-around written
      out ([wrap64], [wrapU32]); durations and times are nanoseconds.
    - A call returns or panics: [outcome].  [GoM S A] is a computation on a
      shared state [S]; a panic keeps the writes made before it.  Go error
      values are constructors of the component's error type.
    - Objects reached through pointers ([*Client], sessions, session contexts)
      live in a heap and are passed by address, so aliasing is visible.
    - Order the language leaves open is an argument: the order of
      [sync.Map.Range], the buffer [sync.Pool.Get] hands out, the chunks of a
      connection, the schedule of goroutines (a step relation).

    ** Files, and the source each models (paths under src/)

    - Utf8, GoStrings, Base64, Json, Conn: what the program uses of the Go
      standard library (runes; [strings], [strconv], [fmt]; [encoding/base64];
      [encoding/json]; [net.Conn], [io.ReadFull], [encoding/binary]).
      JsonPrefix shows that reading a JSON value is stable under extension of
      the input.
    - Envelope: internal/protocol/envelope.go and the structs of protocol.go,
      with the way [encoding/json] fills a struct.
    - Factory: internal/protocol/message_factory.go.
    - Wire, Pb: the wire format of Protocol Buffers, and the generated code
      internal/protocol/pb/envelope.pb.go (enums, message, getters, embedded
      descriptor) with the reading and writing of its message in that format.
      PbInit: the tables and the initialisation of that package, the texts of its
      enums, reflection.
    - Codec: internal/protocol/json_codec.go, protobuf_codec.go, codec.go and
      the manager of protocol.go.  The Go interface [MessageCodec] is a record of
      operations.  [CodecLaw] is the promise of a codec to the transports; both
      codecs are instances, and the theorems about the servers use only it.
      Limits: what the size limit of [Decode] does to oversize messages.
    - Frame: internal/transport/frame.go.  [frame_spec] is the abstract frame
      reader on a flat byte stream; module [Writers] is the step relation of
      concurrent [WriteFrame] calls.  FrameIO: reads and writes in any order, and
      the equivalence of connections up to chunking.
    - Session: internal/transport/session.go, session_manager.go, errors.go and
      the session objects of tcp.go and ws.go.  The Go interface [Session] is a
      type class, its laws another, both session types are instances.  WsSend
      takes [wsSession.SendEnvelope] apart: concurrent calls, one operation at a
      time.
    - Gateway: internal/transport/gateway.go, gateway_dispatcher.go, for any
      type with the [Session] interface.
    - Servers: internal/transport/tcp.go, ws.go, options.go, transport.go:
      accepting, read loops, watchers; the Go interface [Transport] is a class.  Heartbeat runs the heartbeat watcher over timed events.
      WsLoop holds the contract of the WebSocket loop,
      WsKeepalive the deadlines, pings and pongs of [setupHeartbeat] and a whole
      WebSocket connection.  Lifecycle is the TCP server as a transition system:
      the accept loop of [Start] and the three goroutines of every connection,
      one operation at a time, in any order; WsLifecycle is the WebSocket server
      in the same way, with its read and ping loops.
    - Config: internal/config/config.go, pkg/logger/logger.go, and
      the options cmd/server/main.go builds from the configuration.
    - CmdClient, Tools: cmd/client/main.go (frame functions; envelope and [main])
      and cmd/peek/main.go (parsing and rendering; [main]).
    - Http: the routes of internal/observe/http.go and of [WebSocketServer.Start].
    - Observe: internal/observe/metrics.go, the metric calls as a log, and the
      collectors with the values they show.
    - Client, Events, Hub: internal/chat.  HubFacts and Membership hold the
      theorems about the hub; [hub_step] is its transition system, in which every
      call is possible at any time, and [hub_run] counts the registrations that
      find their ID taken or their client closed.  Broadcast
      runs the walks of [SendToAll] and [SendToUser] beside other hub calls,
      HubConc the calls that change membership and Bans those that ban, one
      operation at a time.
    - Subscriber: internal/subscriber/subscriber.go, the event handlers; Delivery
      runs them one operation at a time beside other hub calls.
    - Redis: the interface of the stream service and its laws, with an instance.
      Bus: internal/bus/redisstream/bus.go on top of that interface; BusFaults runs
      [Consume] on several nodes, one read, handler call or acknowledgement at a
      time, with crashes, restarts and lost replies.
    - Wiring: the publishers and the consumer callback of cmd/server/main.go.
    - Registry, Builtin: internal/command/registry.go, builtin.go.
    - Main: [main] of cmd/server/main.go up to its [select]; its bus goroutine,
      statement by statement; the node as a transition system over hub,
      goroutines, commands and bus, in which the single operations of the calls
      may come in any order.

    ** What the theorems show

    - Transport.  Frames written in sequence are read back in order in any
      chunking ([frames_roundtrip]); reads and writes through the pooled codec
      refine the flat connection, so that chunks and pool cannot be observed
      ([frame_io_refines_flat]); concurrent writers never tear a frame
      ([concurrent_writes_whole_frames]); the TCP read loop is a function of
      the byte stream ([tcp_readLoop_refines_stream]), ends on every finite
      input ([tcp_readLoop_terminates]) and, composed with the sender, delivers
      the envelopes sent ([tcp_end_to_end]); a WebSocket connection is a function
      of its timed frames and ends as well ([ws_connection_refines]);
      concurrent sends of a WebSocket session are atomic and never write at the
      same time ([ws_sends_are_atomic]).
    - Lifecycle.  In every interleaving of a TCP server the session manager and
      its counter are accounted for ([server_sessions_accounted]) and a closed
      connection unwinds ([closed_connection_unwinds]); the WebSocket server
      counts exactly ([ws_sessions_accounted]), and its connections can always
      end, ping loop included ([ws_connection_ends]).  A silent TCP peer is
      disconnected within bounds and an active one never ([heartbeat_window]); a
      WebSocket peer that answers pings is never timed out
      ([keepalive_sustains]).
    - Tools.  The sample client and the server understand each other
      ([client_meets_server]); peek shows what is sent ([peek_shows_sent]).
    - Protocol.  Both codecs round-trip up to a stated normalisation
      ([json_codec_roundtrip], [protobuf_codec_roundtrip]); the JSON decoder
      decides every input ([json_decode_outcomes]); an oversize message is
      refused by the JSON codec ([json_oversize_refused]) but may be taken for a
      shorter one by the other ([protobuf_oversize]); the descriptor in the
      generated code describes the schema ([descriptor_is_schema]), whose
      messages survive the wire ([wire_roundtrip]), and so do the tables beside it
      ([tables_match_descriptor]); factory messages carry what they should
      ([factory_messages]).
    - Gateway and sessions.  One pong per ping, silence after closing.
    - Chat core.  A client is a bounded lossy queue ([client_is_lossy_fifo]);
      the online gauge is ahead of the number of online clients by exactly the
      registrations that found their ID taken ([online_gauge_is_membership]); kicks and broadcasts do exactly what
      they say, whatever the walk order; a handler beside other calls reaches
      those who stay ([handler_reaches_stayers]) unless a leaving client cuts it
      short ([handler_cut_short]); private messages stay private.  The same
      holds of the gauge whenever concurrent membership calls have returned
      ([gauge_settles]); a ban holds for its time unless a check that is cleaning
      up deletes it ([ban_outlives_checks]).
    - Commands.  The invariant of the registry, lookup after registration, the
      permission check, and the behaviour of the privileged commands.
    - Bus.  Messages survive the stream ([bus_roundtrip]); whatever the outages,
      the consumer hands over each entry at most once and in order
      ([consume_in_order]), without outages every entry exactly once
      ([consume_catches_up]); whatever fails, an entry is handed over at most
      once, and one that was lost stays pending for ever
      ([lost_entries_stay_lost]); nodes that share a group divide the entries
      ([cluster_entry_reaches_one_node]).
    - The node.  Start-up succeeds in every environment ([main_boots]); in every
      reachable state the handlers are those that have been subscribed and every
      waiting goroutine has an event of the type its handler asserts
      ([node_type_safe]); the collectors show what the log of
      metric calls says ([scrape_is_log]).
    - Behaviour that surprises is proved as well: a deadline that overflows, a
      timeout below the ping period, a session counter that drifts, private
      messages that circulate on the bus for ever, messages that are lost with a
      reply or a leaving client, a codec limit of zero, an administrator who kicks
      himself, WebSocket sessions that outlive the shutdown of their server, a gauge
      that counts a client twice.

    ** Fuel and bounds

    [parse_value] takes fuel [2 * length + 1], and [parse_no_fuel] shows that no
    input exhausts it; the records of the wire format take as much, and
    [parse_records_total] shows that it is enough.  Decimal printing takes 20 digits, enough for 64 bits.
    [ioReadFull] takes one unit more than the number of chunks.  The TCP loop
    consumes one buffer choice per iteration, and [tcp_readLoop_terminates]
    shows how many are enough; the WebSocket loop takes fuel and reports with a
    flag whether it has ended, and one unit more than the number of messages is
    enough ([ws_connection_refines]).  [Consume] loops for ever: the model takes
    one [ctx.Err()] per iteration, and [consume_catches_up] shows how many are
    enough.  [peek_loop] takes one buffer choice per frame ([peek_shows_sent]).
    Everything else is structural.

    ** Parameters, for code outside the repository

    [ProtoLib] with [ProtoLaws] ([proto.Marshal], [proto.Unmarshal]; the wire
    format of Pb.v is an instance; [ProtoWire] says that a library writes the set
    fields in that format, each once and in an order of its own, reads them in any
    order and refuses a message that ends inside a field);
    [ProtoImpl] (the builder of the generated types, the text of an enum value,
    gzip) with [ProtoImplLaws] (only the texts of enum values); [UnicodeTables] (the lower-case table); [RtEnv] (the values of [uuid.New] and
    [time.Now]); [TimeText] with its law (RFC 3339 text of a time); the
    local-time text of a time ([format_time]); [Redis] with [RedisView] and
    [RedisLaws] (streams and consumer groups; [RedisReliable] when the service
    has no outages); the Prometheus handler and the file server.  Each class of
    laws has a concrete instance, which the examples of the theorems use.  The
    theorems of Lifecycle and WsLifecycle assume that identifiers are never
    issued twice, [ws_connection_ends] that the decoder does not panic.

    ** Not modelled

    Running out of memory: a slice can be made of every length up to [maxAlloc]
    and panics beyond it.  Listening sockets and the HTTP upgrade, flag parsing,
    the zap logger and its output, the texts of most error values, and of the generated code the
    version check and the text of a whole message, which are calls of the Protocol
    Buffers library.  The three functions at the end of gateway.go are commented
    out.  The theorems about single slash commands run a handler as one action;
    [node_type_safe] lets its operations come apart. *)

From Stdlib Require Export ZArith Ascii String Lia.
From stdpp Require Export base decidable option list gmap strings relations.

Set Default Goal Selector "!".

(** Automation database of the development: lemmas on bytes, integers and
    outcomes that close the routine side conditions. *)
Create HintDb chatgo.
Create Rewrite HintDb chatgo.

(** ** Bytes and byte strings

    A Go [byte] is an 8-bit value ([ascii]); a Go [string] is an immutable
    byte sequence, a [[]byte] a mutable one.  Strings are [String.string],
    byte slices are [list byte]. *)
Abbreviation byte := ascii.
Abbreviation bytes := list_ascii_of_string.
Abbreviation str := string_of_list_ascii.

Definition b2z (b : byte) : Z := Z.of_N (N_of_ascii b).
Definition z2b (z : Z) : byte := ascii_of_N (Z.to_N (z mod 256)).

Lemma b2z_range b : (0 <= b2z b < 256)%Z.
Proof. unfold b2z. pose proof (N_ascii_bounded b). lia. Qed.

Lemma z2b_b2z b : z2b (b2z b) = b.
Proof.
  unfold z2b. rewrite Z.mod_small by apply b2z_range.
  unfold b2z. rewrite N2Z.id. apply ascii_N_embedding.
Qed.

Lemma b2z_z2b_mod z : b2z (z2b z) = (z mod 256)%Z.
Proof.
  unfold b2z, z2b. pose proof (Z.mod_pos_bound z 256 ltac:(lia)).
  rewrite N_ascii_embedding by lia. lia.
Qed.

Lemma b2z_z2b z : (0 <= z < 256)%Z -> b2z (z2b z) = z.
Proof. intros. rewrite b2z_z2b_mod. by apply Z.mod_small. Qed.

Lemma b2z_inj a b : b2z a = b2z b -> a = b.
Proof. intros E. rewrite <- (z2b_b2z a), <- (z2b_b2z b). by rewrite E. Qed.

#[export] Instance b2z_inj_instance : Inj (=) (=) b2z.
Proof. intros ??. apply b2z_inj. Qed.

#[export] Hint Resolve b2z_range : chatgo.
#[export] Hint Rewrite z2b_b2z string_of_list_ascii_of_string
  list_ascii_of_string_of_list_ascii : chatgo.

(** ** Machine-width integers

    [int] and [int64] are 64 bits wide on the platforms the server targets;
    arithmetic wraps around in two's complement. *)
Definition max_int64 : Z := 9223372036854775807.
Definition min_int64 : Z := -9223372036854775808.

Definition wrap64 (z : Z) : Z :=
  ((z + 9223372036854775808) mod 18446744073709551616 - 9223372036854775808)%Z.
Definition wrapU32 (z : Z) : Z := (z mod 4294967296)%Z.
Definition wrapU64 (z : Z) : Z := (z mod 18446744073709551616)%Z.

Definition in_int64 (z : Z) : Prop := (min_int64 <= z <= max_int64)%Z.

#[export] Instance in_int64_dec z : Decision (in_int64 z).
Proof. unfold in_int64. apply _. Defined.

Lemma wrap64_range z : in_int64 (wrap64 z).
Proof.
  unfold in_int64, min_int64, max_int64, wrap64.
  pose proof (Z.mod_pos_bound (z + 9223372036854775808) 18446744073709551616 ltac:(lia)).
  lia.
Qed.

Lemma wrap64_id z : in_int64 z -> wrap64 z = z.
Proof.
  unfold in_int64, min_int64, max_int64, wrap64. intros.
  rewrite Z.mod_small by lia. lia.
Qed.

Lemma wrap64_idemp z : wrap64 (wrap64 z) = wrap64 z.
Proof. apply wrap64_id, wrap64_range. Qed.

#[export] Hint Resolve wrap64_range wrap64_id : chatgo.

(** ** Outcomes and the Go effect monad

    A Go call either returns or panics.  [GoM S A] is a computation on a
    shared state [S]; a panic keeps the writes made before it, as in Go. *)
Inductive outcome (A : Type) : Type :=
| Ret (a : A)
| Panic (msg : string).
Arguments Ret {A} _.
Arguments Panic {A} _.

Definition GoM (S A : Type) : Type := S -> outcome A * S.

#[export] Instance GoM_ret {S} : MRet (GoM S) := fun A a s => (Ret a, s).
#[export] Instance GoM_bind {S} : MBind (GoM S) := fun A B f c s =>
  match c s with
  | (Ret a, s') => f a s'
  | (Panic m, s') => (Panic m, s')
  end.

Definition get {S} : GoM S S := fun s => (Ret s, s).
Definition put {S} (s : S) : GoM S unit := fun _ => (Ret tt, s).
Definition modify {S} (f : S -> S) : GoM S unit := fun s => (Ret tt, f s).
Definition gets {S A} (f : S -> A) : GoM S A := fun s => (Ret (f s), s).
Definition panic {S A} (msg : string) : GoM S A := fun s => (Panic msg, s).

(** An effectful body over a list, threading an accumulator: the shape of a Go
    [for range]. *)
Fixpoint fold_each {S A B} (f : B -> A -> GoM S B) (b : B) (l : list A) : GoM S B :=
  match l with
  | [] => mret b
  | x :: l' => f b x ≫= fun b' => fold_each f b' l'
  end.

Lemma bind_assoc {S A B C} (c : GoM S A) (f : A -> GoM S B) (g : B -> GoM S C) s :
  ((c ≫= f) ≫= g) s = (c ≫= fun a => f a ≫= g) s.
Proof. unfold mbind, GoM_bind. by destruct (c s) as [[a|m] s']. Qed.

(** ** Generic list and relation lemmas *)

(** Invariants of a step relation hold in every reachable state. *)
Lemma rtc_invariant {A} (R : relation A) (P : A -> Prop) x y :
  (forall a b, P a -> R a b -> P b) -> P x -> rtc R x y -> P y.
Proof. intros HR Hx Hr. revert Hx. induction Hr; eauto. Qed.

Lemma take_app_exact {A} (l k : list A) n : n = length l -> take n (l ++ k) = l.
Proof. intros ->. by rewrite take_app_length. Qed.

Lemma drop_app_exact {A} (l k : list A) n : n = length l -> drop n (l ++ k) = k.
Proof. intros ->. by rewrite drop_app_length. Qed.

Lemma filter_none {A} (P : A -> Prop) `{forall x, Decision (P x)} (l : list A) :
  Forall (fun x => ~ P x) l -> filter P l = [].
Proof. induction 1 as [|x l Hx _ IH]; [done|]. by rewrite filter_cons_False. Qed.

Lemma filter_all {A} (P : A -> Prop) `{forall x, Decision (P x)} (l : list A) :
  Forall P l -> filter P l = l.
Proof. induction 1; [done|]. rewrite filter_cons_True by done. congruence. Qed.

(** ** Tactics *)

(** Case analysis on the scrutinee of a match or [if] in the goal. *)
Ltac case_go :=
  match goal with
  | |- context [match ?x with _ => _ end] => destruct x eqn:?; simpl in *
  end.

(** ** Preservation

    [keeps P c]: whatever [c] returns, and also when it panics, it leaves a state
    in [P].  The rules are hints of the database [keeps]. *)
Definition keeps {S A} (P : S -> Prop) (c : GoM S A) : Prop := forall s, P s -> P (c s).2.

Create HintDb keeps.

Section keeps.
Context {S : Type} (P : S -> Prop).

Lemma keeps_ret {A} (a : A) : keeps P (mret a).
Proof. by intros s. Qed.

Lemma keeps_panic {A} msg : keeps P (panic (A := A) msg).
Proof. by intros s. Qed.

Lemma keeps_get : keeps P get.
Proof. by intros s. Qed.

Lemma keeps_modify f : (forall s, P s -> P (f s)) -> keeps P (modify f).
Proof. intros Hf s. apply Hf. Qed.

Lemma bind_keeps {A B} (c : GoM S A) (f : A -> GoM S B) s :
  P (c s).2 -> (forall a, keeps P (f a)) -> P ((c ≫= f) s).2.
Proof. intros Hc Hf. unfold mbind, GoM_bind. destruct (c s) as [[a|m] s']; [by apply Hf|done]. Qed.

Lemma keeps_bind {A B} (c : GoM S A) (f : A -> GoM S B) :
  keeps P c -> (forall a, keeps P (f a)) -> keeps P (c ≫= f).
Proof. intros Hc Hf s Hs. apply bind_keeps; [by apply Hc|done]. Qed.

Lemma keeps_fold_each {A B} (f : B -> A -> GoM S B) b l :
  (forall b x, keeps P (f b x)) -> keeps P (fold_each f b l).
Proof.
  intros Hf. revert b. induction l as [|x l IH]; intros b; [apply keeps_ret|].
  apply keeps_bind; [apply Hf|done].
Qed.
End keeps.

#[export] Hint Resolve keeps_ret keeps_panic keeps_get : keeps.
#[export] Hint Extern 2 (keeps _ (_ ≫= _)) => apply keeps_bind; [|intros ?] : keeps.
#[export] Hint Extern 2 (keeps _ (fold_each _ _ _)) => apply keeps_fold_each; intros ? ? : keeps.
#[export] Hint Extern 3 (keeps _ (match ?x with _ => _ end)) => destruct x : keeps.

(** Unfolds the monad in the goal and in the hypotheses. *)
Ltac unfold_go :=
  unfold mbind, mret, GoM_bind, GoM_ret, get, put, modify, gets, panic in *;
  cbn beta iota in *.

Ltac go_auto := simplify_eq/=; eauto with chatgo; try lia; try done.
