(* ===== verification/Utf8.v ===== *)
(** * UTF-8 as the Go runtime decodes it

    The command registry trims, splits and lower-cases user input, and the
    codecs re-encode strings; all of these walk a byte string rune by rune the
    way [for range] and [utf8.DecodeRune] do: an ill-formed byte counts as one
    rune U+FFFD of width 1.  [segs] is that walk, [encode_rune] is
    [utf8.AppendRune]; the lemmas show that they are inverse to each other. *)

From S2P Require Import Prelude.

Local Open Scope Z_scope.

Definition RuneError : Z := 65533.

(** One step of the walk: the rune, the bytes it was read from, and whether
    those bytes were well formed. *)
Record seg := mkSeg { rune : Z; raw : list byte; wf : bool }.

#[export] Instance seg_eq_dec : EqDecision seg.
Proof. solve_decision. Defined.

(** Continuation bytes are 80..BF. *)
Definition is_cont (b : byte) : bool := (128 <=? b2z b) && (b2z b <=? 191).

Definition in_range (lo hi : Z) (b : byte) : bool := (lo <=? b2z b) && (b2z b <=? hi).

(** The two-, three- and four-byte forms that are well formed (no overlong
    forms, no surrogates, nothing above U+10FFFF). *)
Definition ok2 (b0 b1 : byte) : bool := in_range 194 223 b0 && is_cont b1.

Definition ok3 (b0 b1 b2 : byte) : bool :=
  is_cont b2 &&
  ((in_range 224 224 b0 && in_range 160 191 b1) ||
   (in_range 237 237 b0 && in_range 128 159 b1) ||
   ((in_range 225 236 b0 || in_range 238 239 b0) && is_cont b1)).

Definition ok4 (b0 b1 b2 b3 : byte) : bool :=
  is_cont b2 && is_cont b3 &&
  ((in_range 240 240 b0 && in_range 144 191 b1) ||
   (in_range 244 244 b0 && in_range 128 143 b1) ||
   (in_range 241 243 b0 && is_cont b1)).

Definition val2 (b0 b1 : byte) : Z := (b2z b0 - 192) * 64 + (b2z b1 - 128).
Definition val3 (b0 b1 b2 : byte) : Z :=
  (b2z b0 - 224) * 4096 + (b2z b1 - 128) * 64 + (b2z b2 - 128).
Definition val4 (b0 b1 b2 b3 : byte) : Z :=
  (b2z b0 - 240) * 262144 + (b2z b1 - 128) * 4096 + (b2z b2 - 128) * 64 + (b2z b3 - 128).

Fixpoint segs (s : list byte) : list seg :=
  match s with
  | [] => []
  | b0 :: s1 =>
      if b2z b0 <? 128 then mkSeg (b2z b0) [b0] true :: segs s1 else
      match s1 with
      | [] => [mkSeg RuneError [b0] false]
      | b1 :: s2 =>
          if ok2 b0 b1 then mkSeg (val2 b0 b1) [b0; b1] true :: segs s2 else
          match s2 with
          | [] => mkSeg RuneError [b0] false :: segs s1
          | b2 :: s3 =>
              if ok3 b0 b1 b2 then mkSeg (val3 b0 b1 b2) [b0; b1; b2] true :: segs s3 else
              match s3 with
              | [] => mkSeg RuneError [b0] false :: segs s1
              | b3 :: s4 =>
                  if ok4 b0 b1 b2 b3
                  then mkSeg (val4 b0 b1 b2 b3) [b0; b1; b2; b3] true :: segs s4
                  else mkSeg RuneError [b0] false :: segs s1
              end
          end
      end
  end.

(** [utf8.Valid] *)
Definition utf8_valid (s : list byte) : bool := forallb wf (segs s).

(** The Unicode scalar values: what [utf8.ValidRune] accepts. *)
Definition valid_rune (r : Z) : bool :=
  ((0 <=? r) && (r <? 55296)) || ((57344 <=? r) && (r <=? 1114111)).

(** [utf8.AppendRune]; an invalid rune is written as U+FFFD. *)
Definition encode_rune (r : Z) : list byte :=
  let r := if valid_rune r then r else RuneError in
  if r <? 128 then [z2b r]
  else if r <? 2048 then [z2b (192 + r / 64); z2b (128 + r mod 64)]
  else if r <? 65536 then
    [z2b (224 + r / 4096); z2b (128 + r / 64 mod 64); z2b (128 + r mod 64)]
  else
    [z2b (240 + r / 262144); z2b (128 + r / 4096 mod 64);
     z2b (128 + r / 64 mod 64); z2b (128 + r mod 64)].

Definition unsegs (l : list seg) : list byte := concat (raw <$> l).

(** Replaces every ill-formed byte by the encoding of U+FFFD, which is what
    [strings.Map], [encoding/json] and [[]rune] conversions do. *)
Definition sanitize (s : list byte) : list byte := concat (encode_rune ∘ rune <$> segs s).

(** ** The walk *)

(** Induction along the walk: the body of [segs] with its recursive calls. *)
Lemma segs_ind (P : list byte -> list seg -> Prop) :
  P [] [] ->
  (forall b s, b2z b < 128 -> P s (segs s) -> P (b :: s) (mkSeg (b2z b) [b] true :: segs s)) ->
  (forall b0 b1 s, ok2 b0 b1 = true -> P s (segs s) ->
     P (b0 :: b1 :: s) (mkSeg (val2 b0 b1) [b0; b1] true :: segs s)) ->
  (forall b0 b1 b2 s, ok3 b0 b1 b2 = true -> P s (segs s) ->
     P (b0 :: b1 :: b2 :: s) (mkSeg (val3 b0 b1 b2) [b0; b1; b2] true :: segs s)) ->
  (forall b0 b1 b2 b3 s, ok4 b0 b1 b2 b3 = true -> P s (segs s) ->
     P (b0 :: b1 :: b2 :: b3 :: s) (mkSeg (val4 b0 b1 b2 b3) [b0; b1; b2; b3] true :: segs s)) ->
  (forall b s, 128 <= b2z b -> P s (segs s) -> P (b :: s) (mkSeg RuneError [b] false :: segs s)) ->
  forall s, P s (segs s).
Proof.
  intros H0 H1 H2 H3 H4 HE s.
  induction s as [s IH] using (induction_ltof1 _ (@length byte)); unfold ltof in IH.
  destruct s as [|b0 s1]; [done|].
  assert (IH' : forall t k, s1 = k ++ t -> P t (segs t)).
  { intros t k ->. apply IH. simpl. rewrite length_app. lia. }
  clear IH. simpl. destruct (Z.ltb_spec (b2z b0) 128); [by apply H1, (IH' s1 [])|].
  destruct s1 as [|b1 s2]; [by apply HE|].
  destruct (ok2 b0 b1) eqn:E2; [by apply H2, (IH' s2 [b1])|].
  destruct s2 as [|b2 s3]; [by apply HE, (IH' [b1] [])|].
  destruct (ok3 b0 b1 b2) eqn:E3; [by apply H3, (IH' s3 [b1; b2])|].
  destruct s3 as [|b3 s4]; [by apply HE, (IH' [b1; b2] [])|].
  destruct (ok4 b0 b1 b2 b3) eqn:E4; [by apply H4, (IH' s4 [b1; b2; b3])|].
  by apply HE, (IH' (b1 :: b2 :: b3 :: s4) []).
Qed.

(** The walk loses no byte. *)
Lemma unsegs_segs s : unsegs (segs s) = s.
Proof.
  apply (segs_ind (fun s l => unsegs l = s));
    intros; unfold unsegs in *; simpl in *; repeat f_equal; done.
Qed.

(** Boolean range tests as arithmetic facts. *)
Ltac solve_utf8 :=
  unfold ok2, ok3, ok4, is_cont, in_range, valid_rune in *;
  repeat match goal with
  | H : _ && _ = true |- _ => apply andb_true_iff in H as [? ?]
  | H : _ || _ = true |- _ => apply orb_true_iff in H as [?|?]
  | H : (_ <=? _) = true |- _ => apply Z.leb_le in H
  | H : (_ <? _) = true |- _ => apply Z.ltb_lt in H
  end.

Lemma segs_cons_ascii b s : b2z b < 128 -> segs (b :: s) = mkSeg (b2z b) [b] true :: segs s.
Proof. intros H. simpl. by rewrite (proj2 (Z.ltb_lt _ _) H). Qed.

Lemma not_ascii_ltb b : 128 <= b2z b -> (b2z b <? 128) = false.
Proof. apply Z.ltb_ge. Qed.

Lemma ok2_lead b0 b1 : ok2 b0 b1 = true -> 194 <= b2z b0 <= 223.
Proof. intros. solve_utf8. lia. Qed.
Lemma ok3_lead b0 b1 b2 : ok3 b0 b1 b2 = true -> 224 <= b2z b0 <= 239.
Proof. intros. solve_utf8; lia. Qed.
Lemma ok4_lead b0 b1 b2 b3 : ok4 b0 b1 b2 b3 = true -> 240 <= b2z b0 <= 244.
Proof. intros. solve_utf8; lia. Qed.

Lemma ok2_excl b0 b1 : 224 <= b2z b0 -> ok2 b0 b1 = false.
Proof. intros. destruct (ok2 b0 b1) eqn:E; [|done]. apply ok2_lead in E. lia. Qed.
Lemma ok3_excl b0 b1 b2 : 240 <= b2z b0 -> ok3 b0 b1 b2 = false.
Proof. intros. destruct (ok3 b0 b1 b2) eqn:E; [|done]. apply ok3_lead in E. lia. Qed.

Lemma segs_ok2 b0 b1 s : ok2 b0 b1 = true ->
  segs (b0 :: b1 :: s) = mkSeg (val2 b0 b1) [b0; b1] true :: segs s.
Proof. intros E. pose proof (ok2_lead _ _ E). cbn [segs]. by rewrite not_ascii_ltb, E by lia. Qed.

Lemma segs_ok3 b0 b1 b2 s : ok3 b0 b1 b2 = true ->
  segs (b0 :: b1 :: b2 :: s) = mkSeg (val3 b0 b1 b2) [b0; b1; b2] true :: segs s.
Proof.
  intros E. pose proof (ok3_lead _ _ _ E). cbn [segs].
  by rewrite not_ascii_ltb, ok2_excl, E by lia.
Qed.

Lemma segs_ok4 b0 b1 b2 b3 s : ok4 b0 b1 b2 b3 = true ->
  segs (b0 :: b1 :: b2 :: b3 :: s) = mkSeg (val4 b0 b1 b2 b3) [b0; b1; b2; b3] true :: segs s.
Proof.
  intros E. pose proof (ok4_lead _ _ _ _ E). cbn [segs].
  by rewrite not_ascii_ltb, ok2_excl, ok3_excl, E by lia.
Qed.

(** ** Encoding after decoding, decoding after encoding *)

Ltac zdm :=
  repeat match goal with
  | |- context [?a / ?b] => lazymatch goal with H : a = b * (a / b) + a mod b |- _ => fail | _ =>
      pose proof (Z.div_mod a b ltac:(lia)); pose proof (Z.mod_pos_bound a b ltac:(lia)) end
  | |- context [?a mod ?b] => lazymatch goal with H : a = b * (a / b) + a mod b |- _ => fail | _ =>
      pose proof (Z.div_mod a b ltac:(lia)); pose proof (Z.mod_pos_bound a b ltac:(lia)) end
  end.

Lemma valid_rune_spec r :
  valid_rune r = true <-> (0 <= r < 55296 \/ 57344 <= r <= 1114111).
Proof. unfold valid_rune. lia. Qed.

(** The bytes of a valid rune, by length. *)
Lemma segs_encode_rune r s :
  valid_rune r = true -> segs (encode_rune r ++ s) = mkSeg r (encode_rune r) true :: segs s.
Proof.
  intros Hv. pose proof (proj1 (valid_rune_spec r) Hv) as Hr.
  unfold encode_rune. rewrite Hv.
  destruct (Z.ltb_spec r 128).
  { cbn [app]. rewrite segs_cons_ascii by (rewrite b2z_z2b; lia). by rewrite b2z_z2b by lia. }
  destruct (Z.ltb_spec r 2048).
  { cbn [app]. rewrite segs_ok2.
    - f_equal. f_equal. unfold val2. zdm. rewrite !b2z_z2b by lia. lia.
    - unfold ok2, is_cont, in_range. zdm. rewrite !b2z_z2b by lia. lia. }
  destruct (Z.ltb_spec r 65536).
  { cbn [app]. rewrite segs_ok3.
    - f_equal. f_equal. unfold val3. zdm. rewrite !b2z_z2b by lia. lia.
    - unfold ok3, is_cont, in_range. zdm. rewrite !b2z_z2b by lia. lia. }
  cbn [app]. rewrite segs_ok4.
  - f_equal. f_equal. unfold val4. zdm. rewrite !b2z_z2b by lia. lia.
  - unfold ok4, is_cont, in_range. zdm. rewrite !b2z_z2b by lia. lia.
Qed.

(** A well-formed segment is the encoding of its rune; an ill-formed one is a
    single byte read as U+FFFD. *)
Definition seg_ok (g : seg) : Prop :=
  valid_rune (rune g) = true /\
  if wf g then raw g = encode_rune (rune g)
  else rune g = RuneError /\ exists b, raw g = [b] /\ 128 <= b2z b.

Lemma encode_val2 b0 b1 : ok2 b0 b1 = true ->
  valid_rune (val2 b0 b1) = true /\ [b0; b1] = encode_rune (val2 b0 b1).
Proof.
  intros E. solve_utf8. pose proof (b2z_range b0). pose proof (b2z_range b1).
  assert (Hv : valid_rune (val2 b0 b1) = true) by (apply valid_rune_spec; unfold val2; lia).
  split; [done|]. unfold encode_rune. rewrite Hv. unfold val2 in *.
  destruct (Z.ltb_spec ((b2z b0 - 192) * 64 + (b2z b1 - 128)) 128); [lia|].
  destruct (Z.ltb_spec ((b2z b0 - 192) * 64 + (b2z b1 - 128)) 2048); [|lia].
  repeat f_equal; apply b2z_inj; zdm; rewrite b2z_z2b by lia; lia.
Qed.

Lemma encode_val3 b0 b1 b2 : ok3 b0 b1 b2 = true ->
  valid_rune (val3 b0 b1 b2) = true /\ [b0; b1; b2] = encode_rune (val3 b0 b1 b2).
Proof.
  intros E.
  assert (Hv : 2048 <= val3 b0 b1 b2 < 65536 /\ valid_rune (val3 b0 b1 b2) = true /\
    224 <= b2z b0 <= 239 /\ 128 <= b2z b1 <= 191 /\ 128 <= b2z b2 <= 191).
  { solve_utf8; unfold val3; repeat split; try lia; apply valid_rune_spec; lia. }
  clear E. destruct Hv as (? & Hv & ? & ? & ?).
  split; [done|]. unfold encode_rune. rewrite Hv.
  rewrite (proj2 (Z.ltb_ge _ 128)), (proj2 (Z.ltb_ge _ 2048)),
    (proj2 (Z.ltb_lt _ 65536)) by lia. unfold val3 in *. clear Hv.
  repeat f_equal; apply b2z_inj; zdm; rewrite b2z_z2b by lia; lia.
Qed.

Lemma encode_val4 b0 b1 b2 b3 : ok4 b0 b1 b2 b3 = true ->
  valid_rune (val4 b0 b1 b2 b3) = true /\ [b0; b1; b2; b3] = encode_rune (val4 b0 b1 b2 b3).
Proof.
  intros E.
  assert (Hv : 65536 <= val4 b0 b1 b2 b3 /\ valid_rune (val4 b0 b1 b2 b3) = true /\
    240 <= b2z b0 <= 244 /\ 128 <= b2z b1 <= 191 /\ 128 <= b2z b2 <= 191 /\ 128 <= b2z b3 <= 191).
  { solve_utf8; unfold val4; repeat split; try lia; apply valid_rune_spec; lia. }
  clear E. destruct Hv as (? & Hv & ? & ? & ? & ?).
  split; [done|]. unfold encode_rune. rewrite Hv.
  rewrite (proj2 (Z.ltb_ge _ 128)), (proj2 (Z.ltb_ge _ 2048)),
    (proj2 (Z.ltb_ge _ 65536)) by lia. unfold val4 in *. clear Hv.
  repeat f_equal; apply b2z_inj; zdm; rewrite b2z_z2b by lia; lia.
Qed.

Lemma encode_ascii z : 0 <= z < 128 -> encode_rune z = [z2b z].
Proof.
  intros. unfold encode_rune. rewrite (proj2 (valid_rune_spec z)) by lia.
  by rewrite (proj2 (Z.ltb_lt _ _)) by lia.
Qed.

Lemma encode_b2z b : b2z b < 128 -> encode_rune (b2z b) = [b].
Proof.
  intros. pose proof (b2z_range b). rewrite encode_ascii by lia. by rewrite z2b_b2z.
Qed.

Lemma segs_seg_ok s : Forall seg_ok (segs s).
Proof.
  apply (segs_ind (fun _ l => Forall seg_ok l)); intros; constructor; try done.
  - split; simpl; [|by rewrite encode_b2z].
    pose proof (b2z_range b). apply valid_rune_spec. lia.
  - by apply encode_val2.
  - by apply encode_val3.
  - by apply encode_val4.
  - split; [done|]. simpl. eauto.
Qed.

Lemma segs_sanitize s : segs (sanitize s) = (fun g => mkSeg (rune g) (encode_rune (rune g)) true) <$> segs s.
Proof.
  unfold sanitize. generalize (segs_seg_ok s). generalize (segs s) as l.
  induction l as [|g l IH]; intros Hl; [done|]. inversion Hl as [|?? [Hg _] Hl']; subst.
  simpl. rewrite segs_encode_rune by done. f_equal. by apply IH.
Qed.

Lemma sanitize_id s : utf8_valid s = true -> sanitize s = s.
Proof.
  unfold utf8_valid, sanitize. intros Hv. transitivity (unsegs (segs s)); [|apply unsegs_segs].
  unfold unsegs. revert Hv. generalize (segs_seg_ok s). generalize (segs s) as l.
  induction l as [|g l IH]; intros Hl Hv; [done|]. inversion Hl as [|?? [_ Hg] Hl']; subst.
  simpl in Hv. apply andb_true_iff in Hv as [Hw Hv]. rewrite Hw in Hg.
  simpl. rewrite Hg. f_equal. by apply IH.
Qed.

(** A byte below 80 in the string is a segment of its own. *)
Lemma segs_ascii_elem b s : b2z b < 128 -> b ∈ s -> mkSeg (b2z b) [b] true ∈ segs s.
Proof.
  intros Hb. apply (segs_ind (fun s l => b ∈ s -> mkSeg (b2z b) [b] true ∈ l));
    [set_solver|..]; intros; rewrite ?elem_of_cons in *; destruct_or?; subst;
    try (by auto); exfalso; solve_utf8; lia.
Qed.

Lemma segs_all_ascii s :
  Forall (fun b => b2z b < 128) s -> segs s = (fun b => mkSeg (b2z b) [b] true) <$> s.
Proof.
  induction 1 as [|b s Hb Hs IH]; [done|]. rewrite segs_cons_ascii by done. by rewrite IH.
Qed.

(** ** Segmentation of concatenations *)

Lemma ok2_cont b0 b1 : b2z b1 < 128 -> ok2 b0 b1 = false.
Proof. intros. destruct (ok2 b0 b1) eqn:E; [|done]. solve_utf8. lia. Qed.
Lemma ok3_cont b0 b1 b2 : b2z b1 < 128 \/ b2z b2 < 128 -> ok3 b0 b1 b2 = false.
Proof. intros. destruct (ok3 b0 b1 b2) eqn:E; [|done]. solve_utf8; lia. Qed.
Lemma ok4_cont b0 b1 b2 b3 :
  b2z b1 < 128 \/ b2z b2 < 128 \/ b2z b3 < 128 -> ok4 b0 b1 b2 b3 = false.
Proof. intros. destruct (ok4 b0 b1 b2 b3) eqn:E; [|done]. solve_utf8; lia. Qed.

(** When the first byte of a string is read as ill formed. *)
Definition head_bad (b0 : byte) (s : list byte) : Prop :=
  128 <= b2z b0 /\
  match s with
  | [] => True
  | b1 :: s2 => ok2 b0 b1 = false /\
      match s2 with
      | [] => True
      | b2 :: s3 => ok3 b0 b1 b2 = false /\
          match s3 with [] => True | b3 :: _ => ok4 b0 b1 b2 b3 = false end
      end
  end.

Lemma segs_head_bad b s : head_bad b s -> segs (b :: s) = mkSeg RuneError [b] false :: segs s.
Proof.
  intros [Hb H]. destruct s as [|b1 [|b2 [|b3 s]]]; simpl in H; destruct_and?;
    cbn [segs]; rewrite not_ascii_ltb by done;
    repeat match goal with E : _ = false |- _ => rewrite E; clear E end; done.
Qed.

Lemma head_bad_ascii b c s t : b2z c < 128 -> head_bad b s -> head_bad b (s ++ c :: t).
Proof.
  intros Hc [Hb H]. split; [done|].
  destruct s as [|b1 [|b2 [|b3 s]]]; simpl in *; destruct_and?; repeat split;
    auto using ok2_cont, ok3_cont, ok4_cont.
  - destruct t as [|? [|? ?]]; repeat split; auto using ok3_cont, ok4_cont.
  - destruct t; repeat split; auto using ok3_cont, ok4_cont.
Qed.

Lemma head_bad_prefix b s t : head_bad b (s ++ t) -> head_bad b s.
Proof.
  intros [Hb H]. split; [done|].
  destruct s as [|b1 [|b2 [|b3 s]]]; simpl in *; destruct_and?; repeat split; done.
Qed.

(** As [segs_ind], with the reason why the first byte is ill formed. *)
Lemma segs_ind' (P : list byte -> list seg -> Prop) :
  P [] [] ->
  (forall g t, seg_ok g -> wf g = true -> (forall u, segs (raw g ++ u) = g :: segs u) ->
     P t (segs t) -> P (raw g ++ t) (g :: segs t)) ->
  (forall b s, head_bad b s -> P s (segs s) -> P (b :: s) (mkSeg RuneError [b] false :: segs s)) ->
  forall s, P s (segs s).
Proof.
  intros H0 Hw HB s.
  cut (forall s, P s (segs s)); [auto|]. clear s.
  assert (Hok : forall g s, segs (raw g ++ s) = g :: segs s -> seg_ok g).
  { intros g s E. pose proof (segs_seg_ok (raw g ++ s)) as HF. rewrite E in HF. by inversion HF. }
  intros s. induction s as [s IH] using (induction_ltof1 _ (@length byte)); unfold ltof in IH.
  destruct s as [|b0 s1]; [done|].
  assert (Hstep : forall g t, wf g = true -> b0 :: s1 = raw g ++ t ->
    (forall u, segs (raw g ++ u) = g :: segs u) -> 0 < Z.of_nat (length (raw g)) ->
    P (b0 :: s1) (segs (b0 :: s1))).
  { intros g t Hg Es Eg Hl. rewrite Es, Eg. apply Hw; [by eapply (Hok g t)|done|done|].
    apply IH. rewrite Es, length_app. lia. }
  destruct (Z.ltb_spec (b2z b0) 128) as [Hb|Hb].
  { apply (Hstep (mkSeg (b2z b0) [b0] true) s1); try done. intros u. by apply segs_cons_ascii. }
  assert (Hbad : head_bad b0 s1 -> P (b0 :: s1) (segs (b0 :: s1))).
  { intros Hh. rewrite segs_head_bad by done. apply HB; [done|]. apply IH. simpl. lia. }
  destruct s1 as [|b1 s2]; [by apply Hbad|].
  destruct (ok2 b0 b1) eqn:E2.
  { apply (Hstep (mkSeg (val2 b0 b1) [b0; b1] true) s2); try done. intros u. by apply segs_ok2. }
  destruct s2 as [|b2 s3]; [by apply Hbad|].
  destruct (ok3 b0 b1 b2) eqn:E3.
  { apply (Hstep (mkSeg (val3 b0 b1 b2) [b0; b1; b2] true) s3); try done. intros u. by apply segs_ok3. }
  destruct s3 as [|b3 s4]; [by apply Hbad|].
  destruct (ok4 b0 b1 b2 b3) eqn:E4; [|by apply Hbad].
  apply (Hstep (mkSeg (val4 b0 b1 b2 b3) [b0; b1; b2; b3] true) s4); try done.
  intros u. by apply segs_ok4.
Qed.

(** An ASCII byte is a boundary of the walk. *)
Lemma segs_app_ascii a c t : b2z c < 128 -> segs (a ++ c :: t) = segs a ++ segs (c :: t).
Proof.
  intros Hc.
  apply (segs_ind' (fun a l => segs (a ++ c :: t) = l ++ segs (c :: t))); [done|..].
  - intros g u _ _ Eg IH. rewrite <- app_assoc, Eg, IH. done.
  - intros b s Hb IH. rewrite <- app_comm_cons, segs_head_bad by (by apply head_bad_ascii).
    by rewrite IH.
Qed.

(** Cutting a string at a boundary of the walk cuts the walk. *)
Lemma segs_unsegs_prefix s l1 l2 : segs s = l1 ++ l2 -> segs (unsegs l1) = l1.
Proof.
  revert l1. apply (segs_ind' (fun _ l => forall l1, l = l1 ++ l2 -> segs (unsegs l1) = l1)).
  - intros l1 E. symmetry in E. apply app_eq_nil in E as [-> _]. done.
  - intros g t _ _ Eg IH [|g' l1] E; [done|]. simplify_eq/=.
    change (unsegs (g' :: l1)) with (raw g' ++ unsegs l1). rewrite Eg. f_equal. by apply IH.
  - intros b t Hb IH [|g' l1] E; [done|]. simplify_eq/=.
    assert (Et : t = unsegs l1 ++ unsegs l2).
    { rewrite <- (unsegs_segs t). unfold unsegs. rewrite <- concat_app, <- fmap_app. congruence. }
    trans (segs (b :: unsegs l1)); [done|].
    rewrite segs_head_bad by (apply (head_bad_prefix _ _ (unsegs l2)); by rewrite <- Et).
    f_equal. by apply IH.
Qed.

Lemma segs_unsegs_suffix s l1 l2 : segs s = l1 ++ l2 -> segs (unsegs l2) = l2.
Proof.
  assert (Hall : forall t, segs (unsegs (segs t)) = segs t) by (intros; by rewrite unsegs_segs).
  revert l1. apply (segs_ind' (fun _ l => forall l1, l = l1 ++ l2 -> segs (unsegs l2) = l2)).
  - intros l1 E. symmetry in E. apply app_eq_nil in E as [_ ->]. done.
  - intros g t _ _ Eg IH [|g' l1] E; cbn [app] in E; [subst l2|injection E as <- E; by apply (IH l1)].
    rewrite <- (Eg t). apply Hall.
  - intros b t Hb IH [|g' l1] E; cbn [app] in E; [subst l2|injection E as <- E; by apply (IH l1)].
    rewrite <- (segs_head_bad b t Hb). apply Hall.
Qed.
