(* ===== verification/GoStrings.v ===== *)
(** * The parts of [strings], [strconv] and [fmt] that chat-go calls

    [strings.TrimSpace], [Fields], [ToLower], [HasPrefix], [TrimPrefix],
    [Contains] and [Join]; [strconv.Atoi]; [fmt.Sscan] into an integer; [%d].
    The white-space set is the whole of [unicode.IsSpace].  The lower-case
    table above ASCII ([unicode.ToLower]) is Unicode data and is a parameter,
    the class [UnicodeTables]. *)

From S2P Require Import Prelude Utf8.

Local Open Scope Z_scope.

(** ** White space *)

(** [unicode.IsSpace] *)
Definition is_space (r : Z) : bool :=
  ((9 <=? r) && (r <=? 13)) || (r =? 32) || (r =? 133) || (r =? 160) || (r =? 5760)
  || ((8192 <=? r) && (r <=? 8202)) || (r =? 8232) || (r =? 8233) || (r =? 8239)
  || (r =? 8287) || (r =? 12288).

Definition space_seg (g : seg) : bool := is_space (rune g).

Fixpoint drop_while {A} (p : A -> bool) (l : list A) : list A :=
  match l with
  | [] => []
  | x :: l' => if p x then drop_while p l' else l
  end.

Definition trim_segs (l : list seg) : list seg :=
  rev (drop_while space_seg (rev (drop_while space_seg l))).

Definition TrimSpace (s : string) : string := str (unsegs (trim_segs (segs (bytes s)))).

(** The words of a rune sequence; [cur] holds the current word, reversed. *)
Fixpoint fields_segs (cur l : list seg) : list (list seg) :=
  match l with
  | [] => match cur with [] => [] | _ => [rev cur] end
  | g :: l' =>
      if space_seg g
      then match cur with [] => fields_segs [] l' | _ => rev cur :: fields_segs [] l' end
      else fields_segs (g :: cur) l'
  end.

Definition Fields (s : string) : list string :=
  (fun w => str (unsegs w)) <$> fields_segs [] (segs (bytes s)).

(** ** Prefixes, containment, joining *)

Fixpoint HasPrefix (s p : string) {struct p} : bool :=
  match p, s with
  | EmptyString, _ => true
  | String c p', String d s' => bool_decide (c = d) && HasPrefix s' p'
  | String _ _, EmptyString => false
  end.

Fixpoint skip_prefix (s p : string) {struct p} : string :=
  match p, s with
  | EmptyString, _ => s
  | String _ p', String _ s' => skip_prefix s' p'
  | String _ _, EmptyString => s
  end.

Definition TrimPrefix (s p : string) : string :=
  if HasPrefix s p then skip_prefix s p else s.

Fixpoint Contains (s sub : string) : bool :=
  HasPrefix s sub || match s with EmptyString => false | String _ s' => Contains s' sub end.

Definition Join (l : list string) (sep : string) : string := String.concat sep l.

(** ** Lower case *)

Class UnicodeTables := { unicode_lower : Z -> Z }.

Definition rune_lower `{UnicodeTables} (r : Z) : Z :=
  if (65 <=? r) && (r <=? 90) then r + 32
  else if r <? 128 then r else unicode_lower r.

Definition ToLower `{UnicodeTables} (s : string) : string :=
  str (concat ((fun g => encode_rune (rune_lower (rune g))) <$> segs (bytes s))).

(** ** Integers in text *)

Inductive num_error := ErrSyntax | ErrRange.

#[export] Instance num_error_eq_dec : EqDecision num_error.
Proof. solve_decision. Defined.

Definition ascii_lower (b : byte) : Z :=
  if (65 <=? b2z b) && (b2z b <=? 90) then b2z b + 32 else b2z b.

(** The value of a digit character, as [strconv] reads it. *)
Definition digit_val (b : byte) : option Z :=
  if (48 <=? b2z b) && (b2z b <=? 57) then Some (b2z b - 48)
  else if (97 <=? ascii_lower b) && (ascii_lower b <=? 122) then Some (ascii_lower b - 87)
  else None.

Definition max_uint64 : Z := 18446744073709551615.

(** The digit loop of [strconv.ParseUint]; the boolean records that an
    underscore was skipped, which only base 0 allows. *)
Fixpoint parse_digits (base0 : bool) (base n : Z) (us : bool) (s : list byte)
  : (Z * bool) + num_error :=
  match s with
  | [] => inl (n, us)
  | c :: s' =>
      if base0 && (b2z c =? 95) then parse_digits base0 base n true s' else
      match digit_val c with
      | None => inr ErrSyntax
      | Some d =>
          if base <=? d then inr ErrSyntax
          else if max_uint64 <? n * base + d then inr ErrRange
          else parse_digits base0 base (n * base + d) us s'
      end
  end.

Inductive saw := SawStart | SawDigit | SawUnder | SawOther.

(** [strconv.underscoreOK]: underscores only between digits or after the prefix. *)
Fixpoint underscore_loop (hex : bool) (st : saw) (s : list byte) : bool :=
  match s with
  | [] => match st with SawUnder => false | _ => true end
  | c :: s' =>
      if ((48 <=? b2z c) && (b2z c <=? 57)) ||
         (hex && (97 <=? ascii_lower c) && (ascii_lower c <=? 102))
      then underscore_loop hex SawDigit s'
      else if b2z c =? 95
      then match st with SawDigit => underscore_loop hex SawUnder s' | _ => false end
      else match st with SawUnder => false | _ => underscore_loop hex SawOther s' end
  end.

Definition underscore_ok (s : list byte) : bool :=
  match s with
  | c0 :: c1 :: s' =>
      if (b2z c0 =? 48) &&
         ((ascii_lower c1 =? 98) || (ascii_lower c1 =? 111) || (ascii_lower c1 =? 120))
      then underscore_loop (ascii_lower c1 =? 120) SawDigit s'
      else underscore_loop false SawStart s
  | _ => underscore_loop false SawStart s
  end.

(** The base and the digits of a base-0 literal. *)
Definition detect_base (s : list byte) : Z * list byte :=
  match s with
  | c0 :: rest =>
      if negb (b2z c0 =? 48) then (10, s) else
      match rest with
      | c1 :: (_ :: _) as tl =>
          if ascii_lower c1 =? 98 then (2, List.tl rest)
          else if ascii_lower c1 =? 111 then (8, List.tl rest)
          else if ascii_lower c1 =? 120 then (16, List.tl rest)
          else (8, rest)
      | _ => (8, rest)
      end
  | [] => (10, s)
  end.

(** [strconv.ParseUint(s, base, 64)], [base] 10 or (with [base0]) 0; on
    [ErrRange] the value is the largest one, on [ErrSyntax] it is 0. *)
Definition ParseUint (base0 : bool) (s : list byte) : Z * option num_error :=
  match s with
  | [] => (0, Some ErrSyntax)
  | _ =>
      let '(base, ds) := if base0 then detect_base s else (10, s) in
      match parse_digits base0 base 0 false ds with
      | inl (n, us) => if us && negb (underscore_ok s) then (0, Some ErrSyntax) else (n, None)
      | inr ErrRange => (max_uint64, Some ErrRange)
      | inr ErrSyntax => (0, Some ErrSyntax)
      end
  end.

(** [strconv.ParseInt(s, base, 64)] *)
Definition ParseInt (base0 : bool) (s : list byte) : Z * option num_error :=
  let '(neg, ds) :=
    match s with
    | c :: s' => if b2z c =? 43 then (false, s') else if b2z c =? 45 then (true, s') else (false, s)
    | [] => (false, s)
    end in
  match ParseUint base0 ds with
  | (_, Some ErrSyntax) => (0, Some ErrSyntax)
  | (un, e) =>
      if negb neg && (9223372036854775808 <=? un) then (max_int64, Some ErrRange)
      else if neg && (9223372036854775808 <? un) then (min_int64, Some ErrRange)
      else (if neg then - un else un, e)
  end.

Definition Atoi (s : string) : Z * option num_error := ParseInt false (bytes s).

(** ** [fmt.Sscan] of one integer *)

Inductive scan_error := ScanEOF | ScanExpectedInteger | ScanNum (e : num_error).

Fixpoint take_while {A} (p : A -> bool) (l : list A) : list A :=
  match l with
  | [] => []
  | x :: l' => if p x then x :: take_while p l' else []
  end.

Definition one_of (set : string) (b : byte) : bool := existsb (fun c => bool_decide (c = b)) (bytes set).

Definition digits_dec : string := "0123456789_".
Definition digits_bin : string := "01_".
Definition digits_oct : string := "01234567_".
Definition digits_hex : string := "0123456789aAbBcCdDeEfF_".

(** The token [scanInt] collects: sign, base prefix, digits. *)
Definition scan_token (l : list byte) : (list byte) + scan_error :=
  let '(sign, l1) :=
    match l with c :: l' => if one_of "+-" c then ([c], l') else ([], l) | [] => ([], l) end in
  match l1 with
  | [] => inr ScanEOF
  | c0 :: l2 =>
      if b2z c0 =? 48 then
        match l2 with
        | c1 :: l3 =>
            if one_of "bB" c1 then inl (sign ++ c0 :: c1 :: take_while (one_of digits_bin) l3)
            else if one_of "oO" c1 then inl (sign ++ c0 :: c1 :: take_while (one_of digits_oct) l3)
            else if one_of "xX" c1 then inl (sign ++ c0 :: c1 :: take_while (one_of digits_hex) l3)
            else inl (sign ++ c0 :: take_while (one_of digits_oct) l2)
        | [] => inl (sign ++ [c0])
        end
      else if one_of digits_dec c0
      then inl (sign ++ take_while (one_of digits_dec) l1)
      else inr ScanExpectedInteger
  end.

Definition Sscan_int (s : string) : Z + scan_error :=
  match unsegs (drop_while space_seg (segs (bytes s))) with
  | [] => inr ScanEOF
  | l =>
      match scan_token l with
      | inr e => inr e
      | inl tok => match ParseInt true tok with
                   | (z, None) => inl z
                   | (_, Some e) => inr (ScanNum e)
                   end
      end
  end.

(** ** Decimal output *)

Fixpoint dec_digits (fuel : nat) (n : Z) (acc : list byte) : list byte :=
  match fuel with
  | O => acc
  | S f => if n <? 10 then z2b (48 + n) :: acc
           else dec_digits f (n / 10) (z2b (48 + n mod 10) :: acc)
  end.

(** [%d] of a 64-bit integer; 20 digits are enough for every [uint64]. *)
Definition format_uint (n : Z) : list byte := dec_digits 20 n [].
Definition Itoa (z : Z) : string :=
  str (if z <? 0 then z2b 45 :: format_uint (- z) else format_uint z).

(** ** Facts about trimming and splitting *)

(** No white space anywhere. *)
Definition no_space (s : string) : bool := forallb (fun g => negb (space_seg g)) (segs (bytes s)).

Lemma bytes_app (a b : string) : bytes (a ++ b)%string = bytes a ++ bytes b.
Proof.
  induction a as [|c a IH]; [done|].
  change (c :: bytes (a ++ b)%string = c :: (bytes a ++ bytes b)). by rewrite IH.
Qed.

Lemma drop_while_none {A} (p : A -> bool) l : forallb (fun x => negb (p x)) l = true -> drop_while p l = l.
Proof. destruct l as [|x l]; [done|]. simpl. by destruct (p x). Qed.

Lemma forallb_rev {A} (p : A -> bool) l : forallb p (rev l) = forallb p l.
Proof.
  induction l; simpl; [done|]. rewrite forallb_app. simpl. rewrite IHl.
  destruct (p a), (forallb p l); done.
Qed.

Lemma drop_while_suffix {A} (p : A -> bool) l : exists k, l = k ++ drop_while p l.
Proof.
  induction l as [|x l [k E]]; simpl; [by exists []|].
  destruct (p x); [exists (x :: k); simpl; congruence | by exists []].
Qed.

Lemma drop_while_head {A} (p : A -> bool) l x k : drop_while p l = x :: k -> p x = false.
Proof. induction l; simpl; [done|]. destruct (p a) eqn:E; [done|]. congruence. Qed.

Lemma TrimSpace_no_space s : no_space s = true -> TrimSpace s = s.
Proof.
  intros H. unfold no_space in H. unfold TrimSpace, trim_segs. rewrite (drop_while_none _ (segs (bytes s))) by done.
  rewrite drop_while_none by (by rewrite forallb_rev).
  rewrite rev_involutive, unsegs_segs. apply string_of_list_ascii_of_string.
Qed.

(** [TrimSpace] keeps a contiguous part of the walk. *)
Lemma trim_segs_sub l : exists k1 k2, l = k1 ++ trim_segs l ++ k2.
Proof.
  unfold trim_segs. destruct (drop_while_suffix space_seg l) as [k1 E1].
  destruct (drop_while_suffix space_seg (rev (drop_while space_seg l))) as [k2 E2].
  exists k1, (rev k2). rewrite E1 at 1. f_equal.
  apply (f_equal (@rev _)) in E2. by rewrite rev_involutive, rev_app_distr in E2.
Qed.

Lemma segs_TrimSpace s : segs (bytes (TrimSpace s)) = trim_segs (segs (bytes s)).
Proof.
  unfold TrimSpace. rewrite list_ascii_of_string_of_list_ascii.
  destruct (trim_segs_sub (segs (bytes s))) as (k1 & k2 & E).
  pose proof (segs_unsegs_suffix _ _ _ E) as E2.
  by apply segs_unsegs_prefix in E2.
Qed.

Lemma trim_segs_idemp l : trim_segs (trim_segs l) = trim_segs l.
Proof.
  unfold trim_segs. set (a := drop_while space_seg l).
  destruct (drop_while_suffix space_seg (rev a)) as [k E].
  assert (Hd : drop_while space_seg (rev (drop_while space_seg (rev a))) =
               rev (drop_while space_seg (rev a))).
  { destruct (rev (drop_while space_seg (rev a))) as [|g r] eqn:Er; [done|].
    assert (Ea : a = (g :: r) ++ rev k).
    { rewrite <- Er, <- rev_app_distr, <- E. by rewrite rev_involutive. }
    simpl. pose proof (drop_while_head space_seg l g (r ++ rev k)) as Hg.
    fold a in Hg. rewrite Ea in Hg. by rewrite Hg. }
  rewrite Hd, rev_involutive. f_equal.
  destruct (drop_while space_seg (rev a)) as [|g r] eqn:Er; [done|].
  simpl. by rewrite (drop_while_head _ _ _ _ Er).
Qed.

Lemma TrimSpace_idemp s : TrimSpace (TrimSpace s) = TrimSpace s.
Proof.
  unfold TrimSpace at 1. rewrite segs_TrimSpace, trim_segs_idemp. reflexivity.
Qed.

Lemma fields_segs_no_space cur l rest :
  forallb (fun g => negb (space_seg g)) l = true ->
  fields_segs cur (l ++ rest) = fields_segs (rev l ++ cur) rest.
Proof.
  revert cur. induction l as [|g l IH]; intros cur H; [done|]. simpl in *.
  apply andb_true_iff in H as [Hg Hl]. destruct (space_seg g); [done|].
  rewrite IH by done. by rewrite <- app_assoc.
Qed.

Lemma segs_nonempty b s : segs (b :: s) <> [].
Proof.
  intros E. apply (f_equal unsegs) in E. rewrite unsegs_segs in E. done.
Qed.

Lemma rev_segs_nonempty k : k <> EmptyString -> rev (segs (bytes k)) <> [].
Proof.
  destruct k as [|c k]; [done|]. intros _ E.
  apply (f_equal (@rev _)) in E. rewrite rev_involutive in E. by apply segs_nonempty in E.
Qed.

Lemma fields_segs_flush cur g l :
  cur <> [] -> space_seg g = true -> fields_segs cur (g :: l) = rev cur :: fields_segs [] l.
Proof. intros Hc Hg. simpl. rewrite Hg. by destruct cur. Qed.

Lemma fields_segs_end cur : cur <> [] -> fields_segs cur [] = [rev cur].
Proof. by destruct cur. Qed.

Lemma str_unsegs_segs (k : string) : str (unsegs (rev (rev (segs (bytes k))))) = k.
Proof. rewrite rev_involutive, unsegs_segs. apply string_of_list_ascii_of_string. Qed.

(** The first word of a line that starts with a word. *)
Lemma Fields_cons k rest : no_space k = true -> k <> EmptyString ->
  Fields (k ++ String " " rest)%string = k :: Fields rest.
Proof.
  intros Hk Hne. unfold Fields. rewrite bytes_app. cbn [list_ascii_of_string].
  rewrite segs_app_ascii, segs_cons_ascii by (vm_compute; done).
  rewrite fields_segs_no_space by done. rewrite app_nil_r.
  rewrite fields_segs_flush by (done || by apply rev_segs_nonempty).
  rewrite fmap_cons. by rewrite str_unsegs_segs.
Qed.

Lemma Fields_one k : no_space k = true -> k <> EmptyString -> Fields k = [k].
Proof.
  intros Hk Hne. unfold Fields. rewrite <- (app_nil_r (segs (bytes k))).
  rewrite fields_segs_no_space, app_nil_r by done.
  rewrite fields_segs_end by (by apply rev_segs_nonempty).
  rewrite fmap_cons. by rewrite str_unsegs_segs.
Qed.

Lemma fields_segs_cur cur l : cur <> [] -> fields_segs cur l <> [].
Proof.
  revert cur. induction l as [|g l IH]; intros cur H; simpl.
  - by destruct cur.
  - destruct (space_seg g); [by destruct cur|]. by apply IH.
Qed.

(** A line that starts with a non-blank ASCII byte has a first word. *)
Lemma Fields_nonempty c s : b2z c < 128 -> is_space (b2z c) = false -> Fields (String c s) <> [].
Proof.
  intros Hc Hs. unfold Fields. simpl bytes. rewrite segs_cons_ascii by done.
  simpl. unfold space_seg at 1. simpl. rewrite Hs. intros E.
  apply fmap_nil_inv in E. by apply fields_segs_cur in E.
Qed.

(** ** Prefix, containment, case *)

Lemma HasPrefix_slash s : HasPrefix s "/" = true <-> exists s', s = String "/" s'.
Proof.
  destruct s as [|c s]; simpl; [naive_solver|].
  destruct (bool_decide_reflect ("/"%char = c)) as [<-|]; simpl; naive_solver.
Qed.

Lemma TrimPrefix_slash s : TrimPrefix (String "/" s) "/" = s.
Proof. reflexivity. Qed.

Lemma TrimPrefix_none s p : HasPrefix s p = false -> TrimPrefix s p = s.
Proof. unfold TrimPrefix. by intros ->. Qed.

Lemma HasPrefix_Contains s p : HasPrefix s p = true -> Contains s p = true.
Proof. destruct s; simpl; intros ->; done. Qed.

Lemma Contains_slash s : Contains s "/" = true <-> "/"%char ∈ bytes s.
Proof.
  induction s as [|c s IH]; [simpl; set_solver|].
  simpl. rewrite elem_of_cons, <- IH.
  destruct (bool_decide_reflect ("/"%char = c)) as [<-|]; simpl; naive_solver.
Qed.

Section lower.
Context `{UnicodeTables}.

(** Lower-casing keeps every '/': the separator check on the lower-cased
    name is a check on the name. *)
Lemma ToLower_slash s : Contains s "/" = true -> Contains (ToLower s) "/" = true.
Proof.
  rewrite !Contains_slash. intros Hs. unfold ToLower.
  rewrite list_ascii_of_string_of_list_ascii.
  apply (segs_ascii_elem "/"%char) in Hs; [|vm_compute; done].
  apply list_elem_of_In, in_concat. eexists; split.
  - apply list_elem_of_In, list_elem_of_fmap. eexists; split; [|exact Hs]. reflexivity.
  - vm_compute. auto.
Qed.

Definition ascii_string (s : string) : bool := forallb (fun b => b2z b <? 128) (bytes s).

Lemma ascii_string_Forall s : ascii_string s = true -> Forall (fun b => b2z b < 128) (bytes s).
Proof.
  unfold ascii_string. intros E. apply Forall_forall. intros b Hb.
  apply Z.ltb_lt. eapply forallb_forall in E; [exact E|]. by apply list_elem_of_In.
Qed.

(** On ASCII text lower-casing is byte by byte. *)
Lemma ToLower_ascii s : ascii_string s = true ->
  bytes (ToLower s) = (fun b => z2b (ascii_lower b)) <$> bytes s.
Proof.
  intros Hs. apply ascii_string_Forall in Hs. unfold ToLower.
  rewrite list_ascii_of_string_of_list_ascii, segs_all_ascii by done.
  induction Hs as [|b l Hb Hl IH]; [done|].
  rewrite !fmap_cons. cbn [concat]. rewrite IH. cbn [rune]. clear IH.
  unfold rune_lower, ascii_lower. pose proof (b2z_range b).
  destruct ((65 <=? b2z b) && (b2z b <=? 90)) eqn:E.
  - rewrite encode_ascii by lia. done.
  - rewrite (proj2 (Z.ltb_lt _ 128)) by lia. rewrite encode_b2z by done. by rewrite z2b_b2z.
Qed.

End lower.

(** ** Decimal round trip *)

Lemma parse_digit_char us n d s :
  0 <= d < 10 -> 0 <= n -> n * 10 + d <= max_uint64 ->
  parse_digits false 10 n us (z2b (48 + d) :: s) = parse_digits false 10 (n * 10 + d) us s.
Proof.
  intros Hd Hn Hm. cbn [parse_digits]. simpl andb.
  assert (E : digit_val (z2b (48 + d)) = Some d).
  { unfold digit_val. rewrite b2z_z2b by lia. case_match; [f_equal; lia | lia]. }
  rewrite E. unfold max_uint64 in *.
  by rewrite (proj2 (Z.leb_gt 10 d)), (proj2 (Z.ltb_ge _ (n * 10 + d))) by lia.
Qed.

(** What the printer writes, the parser reads back, with any digits after it. *)
Lemma parse_dec_digits fuel n acc us :
  0 <= n < 10 ^ Z.of_nat fuel -> n <= max_uint64 ->
  parse_digits false 10 0 us (dec_digits fuel n acc) = parse_digits false 10 n us acc.
Proof.
  revert n acc. induction fuel as [|f IH]; intros n acc Hn Hm.
  { simpl in *. by replace n with 0 by lia. }
  cbn [dec_digits]. destruct (Z.ltb_spec n 10).
  - rewrite parse_digit_char by (unfold max_uint64 in *; lia). done.
  - rewrite Nat2Z.inj_succ, Z.pow_succ_r in Hn by lia.
    pose proof (Z.div_mod n 10 ltac:(lia)). pose proof (Z.mod_pos_bound n 10 ltac:(lia)).
    rewrite IH by (unfold max_uint64 in *; lia).
    rewrite parse_digit_char by lia. f_equal. lia.
Qed.

Lemma dec_digits_cons fuel n acc : 0 <= n < 10 ^ Z.of_nat fuel -> (0 < fuel)%nat ->
  exists d l, dec_digits fuel n acc = z2b (48 + d) :: l /\ 0 <= d < 10.
Proof.
  revert n acc. induction fuel as [|f IH]; intros n acc Hn Hf; [lia|].
  cbn [dec_digits]. destruct (Z.ltb_spec n 10); [eauto with lia|].
  rewrite Nat2Z.inj_succ, Z.pow_succ_r in Hn by lia.
  pose proof (Z.div_mod n 10 ltac:(lia)). pose proof (Z.mod_pos_bound n 10 ltac:(lia)).
  destruct f as [|f]; [simpl in *; lia|]. apply IH; lia.
Qed.

Lemma ParseUint_format n : 0 <= n <= max_uint64 -> ParseUint false (format_uint n) = (n, None).
Proof.
  intros Hn. unfold ParseUint, format_uint.
  destruct (dec_digits_cons 20 n []) as (d & l & E & Hd); [unfold max_uint64 in *; lia|lia|].
  rewrite E, <- E. rewrite parse_dec_digits by (unfold max_uint64 in *; lia). done.
Qed.

(** [strconv.Atoi] inverts [%d] on every 64-bit integer. *)
Lemma Atoi_Itoa z : in_int64 z -> Atoi (Itoa z) = (z, None).
Proof.
  unfold in_int64, min_int64, max_int64. intros Hz. unfold Atoi, Itoa.
  rewrite list_ascii_of_string_of_list_ascii.
  destruct (Z.ltb_spec z 0).
  - unfold ParseInt. change (b2z (z2b 45) =? 43) with false. change (b2z (z2b 45) =? 45) with true.
    cbn iota. rewrite ParseUint_format by (unfold max_uint64; lia). simpl.
    rewrite (proj2 (Z.ltb_ge _ _)) by lia. f_equal. lia.
  - unfold ParseInt.
    destruct (dec_digits_cons 20 z []) as (d & l & E & Hd); [lia|lia|].
    fold (format_uint z) in E. pose proof (ParseUint_format z ltac:(unfold max_uint64; lia)) as HP.
    rewrite E in *. rewrite b2z_z2b by lia.
    rewrite (proj2 (Z.eqb_neq (48 + d) 43)), (proj2 (Z.eqb_neq (48 + d) 45)) by lia.
    rewrite HP. simpl. by rewrite (proj2 (Z.leb_gt _ _)) by lia.
Qed.

(** ** Splitting a trimmed line *)

Lemma drop_while_app_keep {A} (p : A -> bool) l x : p x = false -> drop_while p (l ++ [x]) = drop_while p l ++ [x].
Proof. intros Hx. induction l as [|y l IH]; simpl; [by rewrite Hx|]. by destruct (p y). Qed.

Lemma drop_while_dropped {A} (p : A -> bool) l :
  exists k, l = k ++ drop_while p l /\ forallb p k = true.
Proof.
  induction l as [|x l (k & E & Hk)]; simpl; [by exists []|].
  destruct (p x) eqn:Ex; [|by exists []].
  exists (x :: k). simpl. rewrite Ex. split; [by rewrite <- E|done].
Qed.

Lemma fields_drop_spaces l : fields_segs [] (drop_while space_seg l) = fields_segs [] l.
Proof. induction l as [|g l IH]; simpl; [done|]. destruct (space_seg g) eqn:E; simpl; rewrite ?E; done. Qed.

Lemma fields_spaces k : forallb space_seg k = true -> fields_segs [] k = [].
Proof. induction k as [|g k IH]; simpl; [done|]. destruct (space_seg g); [done|done]. Qed.

Lemma fields_trailing cur l k : forallb space_seg k = true -> fields_segs cur (l ++ k) = fields_segs cur l.
Proof.
  intros Hk. revert cur. induction l as [|g l IH]; intros cur.
  - destruct k as [|g k]; [done|]. simpl in Hk. apply andb_true_iff in Hk as [Hg Hk].
    cbn [app fields_segs]. rewrite Hg, fields_spaces by done. by destruct cur.
  - cbn [app fields_segs]. destruct (space_seg g); [|by apply IH]. destruct cur; [|f_equal]; apply IH.
Qed.

Lemma fields_trim l : fields_segs [] (trim_segs l) = fields_segs [] l.
Proof.
  unfold trim_segs. rewrite <- (fields_drop_spaces l). set (a := drop_while space_seg l).
  destruct (drop_while_dropped space_seg (rev a)) as (k & E & Hk).
  apply (f_equal (@rev _)) in E. rewrite rev_involutive, rev_app_distr in E.
  rewrite E at 2. by rewrite fields_trailing by (by rewrite forallb_rev).
Qed.

(** Trimming does not change the words. *)
Lemma Fields_TrimSpace s : Fields (TrimSpace s) = Fields s.
Proof. unfold Fields. by rewrite segs_TrimSpace, fields_trim. Qed.

(** Trimming keeps a non-blank first byte. *)
Lemma TrimSpace_head c s : b2z c < 128 -> is_space (b2z c) = false ->
  exists s', TrimSpace (String c s) = String c s'.
Proof.
  intros Hc Hs. unfold TrimSpace. cbn [list_ascii_of_string]. rewrite segs_cons_ascii by done.
  unfold trim_segs. cbn [drop_while]. unfold space_seg at 2. cbn [rune]. rewrite Hs. cbn [rev].
  rewrite drop_while_app_keep by done. rewrite rev_app_distr. cbn [rev app].
  eexists. unfold unsegs. rewrite fmap_cons. cbn [concat raw app]. reflexivity.
Qed.

Lemma no_space_cons c s : b2z c < 128 -> is_space (b2z c) = false ->
  no_space (String c s) = no_space s.
Proof.
  intros Hc Hs. unfold no_space. cbn [list_ascii_of_string]. rewrite segs_cons_ascii by done.
  cbn [forallb]. unfold space_seg at 1. cbn [rune]. by rewrite Hs.
Qed.
