(* ===== verification/Base64.v ===== *)
(** * [encoding/base64]: StdEncoding

    JSON carries the envelope payload as standard base64 with padding.
    Decoding ignores line breaks, requires the padding and does not look at the
    unused low bits of the last character, as the Go decoder does. *)

From S2P Require Import Prelude.

Local Open Scope Z_scope.

(** The alphabet: A-Z a-z 0-9 + / *)
Definition b64_char (v : Z) : byte :=
  if v <? 26 then z2b (65 + v)
  else if v <? 52 then z2b (71 + v)
  else if v <? 62 then z2b (v - 4)
  else if v <? 63 then z2b 43 else z2b 47.

Definition b64_val (b : byte) : option Z :=
  let c := b2z b in
  if (65 <=? c) && (c <=? 90) then Some (c - 65)
  else if (97 <=? c) && (c <=? 122) then Some (c - 71)
  else if (48 <=? c) && (c <=? 57) then Some (c + 4)
  else if c =? 43 then Some 62
  else if c =? 47 then Some 63
  else None.

Definition pad : byte := z2b 61.

Fixpoint b64_encode (s : list byte) : list byte :=
  match s with
  | [] => []
  | [a] => [b64_char (b2z a / 4); b64_char (b2z a mod 4 * 16); pad; pad]
  | [a; b] => [b64_char (b2z a / 4); b64_char (b2z a mod 4 * 16 + b2z b / 16);
               b64_char (b2z b mod 16 * 4); pad]
  | a :: b :: c :: s' =>
      b64_char (b2z a / 4) :: b64_char (b2z a mod 4 * 16 + b2z b / 16)
      :: b64_char (b2z b mod 16 * 4 + b2z c / 64) :: b64_char (b2z c mod 64) :: b64_encode s'
  end.

Definition is_pad (b : byte) : bool := b2z b =? 61.

(** Decodes groups of four characters; padding only in the last group. *)
Fixpoint b64_groups (s : list byte) : option (list byte) :=
  match s with
  | [] => Some []
  | a :: b :: c :: d :: s' =>
      match b64_val a, b64_val b with
      | Some va, Some vb =>
          if is_pad c then
            if is_pad d && bool_decide (s' = []) then Some [z2b (va * 4 + vb / 16)] else None
          else match b64_val c with
               | None => None
               | Some vc =>
                   if is_pad d then
                     if bool_decide (s' = [])
                     then Some [z2b (va * 4 + vb / 16); z2b (vb mod 16 * 16 + vc / 4)] else None
                   else match b64_val d, b64_groups s' with
                        | Some vd, Some r =>
                            Some (z2b (va * 4 + vb / 16) :: z2b (vb mod 16 * 16 + vc / 4)
                                  :: z2b (vc mod 4 * 64 + vd) :: r)
                        | _, _ => None
                        end
               end
      | _, _ => None
      end
  | _ => None
  end.

Definition is_newline (b : byte) : bool := (b2z b =? 10) || (b2z b =? 13).

Definition b64_decode (s : list byte) : option (list byte) :=
  b64_groups (List.filter (fun b => negb (is_newline b)) s).

(** ** Round trip *)

Lemma b64_char_range v : 0 <= v < 64 -> 43 <= b2z (b64_char v) <= 122 /\ b2z (b64_char v) <> 61 /\
  b2z (b64_char v) <> 92 /\ b2z (b64_char v) <> 60 /\ b2z (b64_char v) <> 62.
Proof.
  intros Hv. unfold b64_char.
  destruct (Z.ltb_spec v 26); [rewrite b2z_z2b; lia|].
  destruct (Z.ltb_spec v 52); [rewrite b2z_z2b; lia|].
  destruct (Z.ltb_spec v 62); [rewrite b2z_z2b; lia|].
  destruct (Z.ltb_spec v 63); rewrite b2z_z2b; lia.
Qed.

Lemma b64_val_char v : 0 <= v < 64 -> b64_val (b64_char v) = Some v.
Proof.
  intros Hv. unfold b64_val, b64_char.
  destruct (Z.ltb_spec v 26); [rewrite b2z_z2b by lia; repeat case_match; (f_equal; lia) || lia|].
  destruct (Z.ltb_spec v 52); [rewrite b2z_z2b by lia; repeat case_match; (f_equal; lia) || lia|].
  destruct (Z.ltb_spec v 62); [rewrite b2z_z2b by lia; repeat case_match; (f_equal; lia) || lia|].
  destruct (Z.ltb_spec v 63); rewrite b2z_z2b by lia; repeat case_match; (f_equal; lia) || lia.
Qed.

Lemma b64_char_not_pad v : 0 <= v < 64 -> is_pad (b64_char v) = false.
Proof. intros Hv. apply b64_char_range in Hv. unfold is_pad. lia. Qed.

(** Bytes in terms of their sextets. *)
Lemma sext1 a b : 0 <= b < 16 -> z2b (b2z a / 4 * 4 + (b2z a mod 4 * 16 + b) / 16) = a.
Proof.
  intros Hb. rewrite Z.div_add_l, (Z.div_small b) by lia.
  rewrite <- (z2b_b2z a) at 3. f_equal. pose proof (Z.div_mod (b2z a) 4). lia.
Qed.

Lemma sext2 a b c : 0 <= c < 4 ->
  z2b ((a * 16 + b2z b / 16) mod 16 * 16 + (b2z b mod 16 * 4 + c) / 4) = b.
Proof.
  intros Hc. pose proof (b2z_range b).
  rewrite Z.div_add_l, (Z.div_small c), Z.add_comm, Z.mul_comm by lia.
  replace ((a * 16 + b2z b / 16) mod 16) with (b2z b / 16).
  - rewrite <- (z2b_b2z b) at 3. f_equal. pose proof (Z.div_mod (b2z b) 16). lia.
  - rewrite Z.add_comm, Z.mod_add by lia. symmetry. apply Z.mod_small.
    split; [apply Z.div_pos; lia|apply Z.div_lt_upper_bound; lia].
Qed.

Lemma sext3 b c : z2b ((b * 4 + b2z c / 64) mod 4 * 64 + b2z c mod 64) = c.
Proof.
  pose proof (b2z_range c). rewrite (Z.add_comm (b * 4)), Z.mod_add by lia.
  rewrite (Z.mod_small (b2z c / 64)).
  - rewrite <- (z2b_b2z c) at 3. f_equal. pose proof (Z.div_mod (b2z c) 64). lia.
  - split; [apply Z.div_pos; lia|apply Z.div_lt_upper_bound; lia].
Qed.

Lemma sextet_bounds a : 0 <= b2z a / 4 < 64 /\ 0 <= b2z a mod 4 < 4 /\ 0 <= b2z a / 16 < 16 /\
  0 <= b2z a mod 16 < 16 /\ 0 <= b2z a / 64 < 4 /\ 0 <= b2z a mod 64 < 64.
Proof.
  pose proof (b2z_range a).
  repeat split; try (apply Z.div_pos; lia); try (apply Z.div_lt_upper_bound; lia);
    try (apply Z.mod_pos_bound; lia).
Qed.

(** Three-step induction along the encoder. *)
Lemma b64_ind (P : list byte -> Prop) :
  P [] -> (forall a, P [a]) -> (forall a b, P [a; b]) ->
  (forall a b c s, P s -> P (a :: b :: c :: s)) -> forall s, P s.
Proof.
  intros H0 H1 H2 H3. fix IH 1.
  intros [|a [|b [|c s]]]; [exact H0|apply H1|apply H2|apply H3, IH].
Qed.

Lemma b64_groups_encode s : b64_groups (b64_encode s) = Some s.
Proof.
  induction s as [|a|a b|a b c s IH] using b64_ind; [done|..].
  - pose proof (sextet_bounds a). cbn [b64_encode b64_groups].
    rewrite !b64_val_char by lia. simpl. f_equal. f_equal.
    rewrite <- (Z.add_0_r (b2z a mod 4 * 16)). apply sext1. lia.
  - pose proof (sextet_bounds a). pose proof (sextet_bounds b). cbn [b64_encode b64_groups].
    rewrite !b64_val_char, b64_char_not_pad by lia. simpl. f_equal. f_equal; [apply sext1; lia|].
    f_equal. rewrite <- (Z.add_0_r (b2z b mod 16 * 4)). apply sext2. lia.
  - pose proof (sextet_bounds a). pose proof (sextet_bounds b). pose proof (sextet_bounds c).
    cbn [b64_encode b64_groups]. rewrite !b64_val_char, !b64_char_not_pad, IH by lia.
    rewrite sext1, sext2, sext3 by lia. done.
Qed.

(** The characters the encoder uses. *)
Definition b64_safe (b : byte) : Prop :=
  43 <= b2z b <= 122 /\ b2z b <> 92 /\ b2z b <> 60 /\ b2z b <> 62.

Lemma b64_encode_safe s : Forall b64_safe (b64_encode s).
Proof.
  assert (Hc : forall v, 0 <= v < 64 -> b64_safe (b64_char v)).
  { intros v Hv. apply b64_char_range in Hv as (? & _ & ? & ? & ?). by split. }
  assert (Hp : b64_safe pad) by (unfold b64_safe, pad; rewrite b2z_z2b by lia; lia).
  induction s as [|a|a b|a b c s IH] using b64_ind; [done|..]; cbn [b64_encode].
  - pose proof (sextet_bounds a). repeat constructor; try done; apply Hc; lia.
  - pose proof (sextet_bounds a). pose proof (sextet_bounds b). repeat constructor; try done; apply Hc; lia.
  - pose proof (sextet_bounds a). pose proof (sextet_bounds b). pose proof (sextet_bounds c).
    constructor; [apply Hc; lia|]. constructor; [apply Hc; lia|].
    constructor; [apply Hc; lia|]. constructor; [apply Hc; lia|]. done.
Qed.

Lemma b64_roundtrip s : b64_decode (b64_encode s) = Some s.
Proof.
  unfold b64_decode.
  assert (E : List.filter (fun b => negb (is_newline b)) (b64_encode s) = b64_encode s).
  { generalize (b64_encode_safe s). induction (b64_encode s) as [|b l IH]; intros HF; [done|].
    inversion HF as [|? ? Hb Hl]; subst. simpl. unfold is_newline, b64_safe in *.
    rewrite (proj2 (Z.eqb_neq (b2z b) 10)), (proj2 (Z.eqb_neq (b2z b) 13)) by lia. simpl. f_equal. by apply IH. }
  rewrite E. apply b64_groups_encode.
Qed.

