(* ===== verification/Json.v ===== *)
(** * [encoding/json]: values, scanner, string literals

    What the codecs, the gateway and the bus use of the package: the grammar
    [json.Decoder] and [json.Unmarshal] accept (white space, literals, numbers,
    escapes, the nesting limit), the way string literals are unquoted, and the
    text [json.Marshal] writes (HTML-safe escapes, ill-formed UTF-8 replaced).
    [parse_first_enc]: parsing what the encoder writes gives the value back, its
    strings sanitised. *)

From S2P Require Import Prelude Utf8 GoStrings.

Local Open Scope Z_scope.

Inductive jval :=
| JNull
| JBool (b : bool)
| JNum (lit : list byte)
| JStr (s : list byte)
| JArr (l : list jval)
| JObj (l : list (list byte * jval)).

(** A syntax error, the end of the input inside a value, or (never, see
    [parse_no_fuel]) the end of the fuel. *)
Inductive jerr := JSyntax | JEOF | JFuel.

#[export] Instance jerr_eq_dec : EqDecision jerr.
Proof. solve_decision. Defined.

(** Results with the input left over. *)
Definition jres (A : Type) : Type := ((A * list byte) + jerr)%type.

Definition jbind {A B} (r : jres A) (f : A -> list byte -> jres B) : jres B :=
  match r with inl (a, s) => f a s | inr e => inr e end.

Definition is_ws (b : byte) : bool :=
  (b2z b =? 32) || (b2z b =? 9) || (b2z b =? 13) || (b2z b =? 10).

Definition skip_ws (s : list byte) : list byte := drop_while is_ws s.

Definition is_digit (b : byte) : bool := (48 <=? b2z b) && (b2z b <=? 57).

Definition hex_val (z : Z) : option Z :=
  if (48 <=? z) && (z <=? 57) then Some (z - 48)
  else if (97 <=? z) && (z <=? 102) then Some (z - 87)
  else if (65 <=? z) && (z <=? 70) then Some (z - 55)
  else None.

Definition is_hex (b : byte) : bool := bool_decide (is_Some (hex_val (b2z b))).

(** The characters that may follow a backslash, 'u' apart. *)
Definition is_esc (b : byte) : bool := one_of "bfnrt\/" b || (b2z b =? 34).

(** [k] hexadecimal digits. *)
Fixpoint scan_hex (k : nat) (s : list byte) : jres (list byte) :=
  match k with
  | O => inl ([], s)
  | S k' => match s with
            | [] => inr JEOF
            | b :: s' => if is_hex b then jbind (scan_hex k' s') (fun t r => inl (b :: t, r))
                         else inr JSyntax
            end
  end.

(** The body of a string literal up to the closing quote. *)
Fixpoint scan_str (fuel : nat) (s : list byte) : jres (list byte) :=
  match fuel with
  | O => inr JFuel
  | S f =>
      match s with
      | [] => inr JEOF
      | b :: s1 =>
          if b2z b =? 34 then inl ([], s1)
          else if b2z b =? 92 then
            match s1 with
            | [] => inr JEOF
            | e :: s2 =>
                if is_esc e then jbind (scan_str f s2) (fun t r => inl (b :: e :: t, r))
                else if b2z e =? 117 then
                  jbind (scan_hex 4 s2) (fun h s3 =>
                    jbind (scan_str f s3) (fun t r => inl (b :: e :: h ++ t, r)))
                else inr JSyntax
            end
          else if b2z b <? 32 then inr JSyntax
          else jbind (scan_str f s1) (fun t r => inl (b :: t, r))
      end
  end.

(** ** Unquoting *)

Definition hex4 (a b c d : Z) : option Z :=
  match hex_val a, hex_val b, hex_val c, hex_val d with
  | Some a, Some b, Some c, Some d => Some (((a * 16 + b) * 16 + c) * 16 + d)
  | _, _, _, _ => None
  end.

Definition is_surrogate (r : Z) : bool := (55296 <=? r) && (r <? 57344).

(** [utf16.DecodeRune] *)
Definition decode_pair (r1 r2 : Z) : option Z :=
  if ((55296 <=? r1) && (r1 <? 56320)) && ((56320 <=? r2) && (r2 <? 57344))
  then Some ((r1 - 55296) * 1024 + (r2 - 56320) + 65536) else None.

Definition unescape (r : Z) : option Z :=
  if (r =? 34) || (r =? 92) || (r =? 47) then Some r
  else if r =? 98 then Some 8
  else if r =? 102 then Some 12
  else if r =? 110 then Some 10
  else if r =? 114 then Some 13
  else if r =? 116 then Some 9
  else None.

Definition emit (r : Z) (t : option (list byte)) : option (list byte) :=
  (fun t => encode_rune r ++ t) <$> t.

(** [unquoteBytes] along the runes of the body; [None] when it is not the body
    of a string literal. *)
Fixpoint unquote (l : list seg) : option (list byte) :=
  match l with
  | [] => Some []
  | g :: l1 =>
      if negb (rune g =? 92) then emit (rune g) (unquote l1) else
      match l1 with
      | [] => None
      | e :: l2 =>
          if negb (rune e =? 117)
          then match unescape (rune e) with
               | Some r => emit r (unquote l2)
               | None => None
               end
          else
          match l2 with
          | a :: b :: c :: d :: l3 =>
              match hex4 (rune a) (rune b) (rune c) (rune d) with
              | None => None
              | Some r =>
                  if negb (is_surrogate r) then emit r (unquote l3) else
                  match l3 with
                  | g' :: e' :: a' :: b' :: c' :: d' :: l4 =>
                      if (rune g' =? 92) && (rune e' =? 117) then
                        match hex4 (rune a') (rune b') (rune c') (rune d') with
                        | Some r' =>
                            match decode_pair r r' with
                            | Some p => emit p (unquote l4)
                            | None => emit RuneError (unquote l3)
                            end
                        | None => emit RuneError (unquote l3)
                        end
                      else emit RuneError (unquote l3)
                  | _ => emit RuneError (unquote l3)
                  end
              end
          | _ => None
          end
      end
  end.

(** A string literal whose opening quote has been read. *)
Definition parse_str (s : list byte) : jres (list byte) :=
  jbind (scan_str (S (length s)) s) (fun body r =>
    match unquote (segs body) with
    | Some t => inl (t, r)
    | None => inr JSyntax
    end).

(** ** Numbers and literals *)

Definition scan_digits1 (s : list byte) : jres (list byte) :=
  match s with
  | [] => inr JEOF
  | b :: _ => if is_digit b then inl (take_while is_digit s, drop_while is_digit s) else inr JSyntax
  end.

Definition scan_int (s : list byte) : jres (list byte) :=
  match s with
  | [] => inr JEOF
  | b :: s' => if b2z b =? 48 then inl ([b], s') else scan_digits1 s
  end.

Definition scan_frac (s : list byte) : jres (list byte) :=
  match s with
  | b :: s' => if b2z b =? 46 then jbind (scan_digits1 s') (fun t r => inl (b :: t, r)) else inl ([], s)
  | [] => inl ([], s)
  end.

Definition scan_exp (s : list byte) : jres (list byte) :=
  match s with
  | b :: s' =>
      if (b2z b =? 101) || (b2z b =? 69) then
        match s' with
        | c :: s'' =>
            if (b2z c =? 43) || (b2z c =? 45)
            then jbind (scan_digits1 s'') (fun t r => inl (b :: c :: t, r))
            else jbind (scan_digits1 s') (fun t r => inl (b :: t, r))
        | [] => inr JEOF
        end
      else inl ([], s)
  | [] => inl ([], s)
  end.

Definition parse_num (s : list byte) : jres (list byte) :=
  let '(sign, s1) := match s with
                     | b :: s' => if b2z b =? 45 then ([b], s') else ([], s)
                     | [] => ([], s)
                     end in
  jbind (scan_int s1) (fun i s2 =>
  jbind (scan_frac s2) (fun f s3 =>
  jbind (scan_exp s3) (fun e s4 => inl (sign ++ i ++ f ++ e, s4)))).

(** The rest of a literal word. *)
Fixpoint expect (w s : list byte) : jres unit :=
  match w with
  | [] => inl (tt, s)
  | c :: w' => match s with
               | [] => inr JEOF
               | b :: s' => if bool_decide (b = c) then expect w' s' else inr JSyntax
               end
  end.

(** ** Values *)

Definition maxNestingDepth : Z := 10000.

Definition c_is (b : byte) (c : ascii) : bool := bool_decide (b = c).

Fixpoint parse_value (fuel : nat) (depth : Z) (s : list byte) : jres jval :=
  match fuel with
  | O => inr JFuel
  | S f =>
      match skip_ws s with
      | [] => inr JEOF
      | b :: r =>
          if c_is b "{" then
            if maxNestingDepth <=? depth then inr JSyntax
            else jbind (parse_members f (depth + 1) true r) (fun ms r' => inl (JObj ms, r'))
          else if c_is b "[" then
            if maxNestingDepth <=? depth then inr JSyntax
            else jbind (parse_elems f (depth + 1) true r) (fun l r' => inl (JArr l, r'))
          else if b2z b =? 34 then jbind (parse_str r) (fun t r' => inl (JStr t, r'))
          else if c_is b "t" then jbind (expect (bytes "rue") r) (fun _ r' => inl (JBool true, r'))
          else if c_is b "f" then jbind (expect (bytes "alse") r) (fun _ r' => inl (JBool false, r'))
          else if c_is b "n" then jbind (expect (bytes "ull") r) (fun _ r' => inl (JNull, r'))
          else if is_digit b || (b2z b =? 45) then jbind (parse_num (b :: r)) (fun t r' => inl (JNum t, r'))
          else inr JSyntax
      end
  end
with parse_members (fuel : nat) (depth : Z) (first : bool) (s : list byte) : jres (list (list byte * jval)) :=
  match fuel with
  | O => inr JFuel
  | S f =>
      match skip_ws s with
      | [] => inr JEOF
      | b :: r =>
          if b2z b =? 34 then
            jbind (parse_str r) (fun k r1 =>
            match skip_ws r1 with
            | [] => inr JEOF
            | c :: r2 =>
                if negb (c_is c ":") then inr JSyntax else
                jbind (parse_value f depth r2) (fun v r3 =>
                match skip_ws r3 with
                | [] => inr JEOF
                | d :: r4 =>
                    if c_is d "," then
                      jbind (parse_members f depth false r4) (fun ms r5 => inl ((k, v) :: ms, r5))
                    else if c_is d "}" then inl ([(k, v)], r4)
                    else inr JSyntax
                end)
            end)
          else if first && c_is b "}" then inl ([], r)
          else inr JSyntax
      end
  end
with parse_elems (fuel : nat) (depth : Z) (first : bool) (s : list byte) : jres (list jval) :=
  match fuel with
  | O => inr JFuel
  | S f =>
      match skip_ws s with
      | [] => inr JEOF
      | b :: r =>
          if first && c_is b "]" then inl ([], r) else
          jbind (parse_value f depth (b :: r)) (fun v r3 =>
          match skip_ws r3 with
          | [] => inr JEOF
          | d :: r4 =>
              if c_is d "," then
                jbind (parse_elems f depth false r4) (fun l r5 => inl (v :: l, r5))
              else if c_is d "]" then inl ([v], r4)
              else inr JSyntax
          end)
      end
  end.

(** The first value of a stream ([json.Decoder.Decode]): what follows it stays
    unread. *)
Definition parse_first (s : list byte) : jres jval := parse_value (S (2 * length s)) 0 s.

(** A whole document ([json.Unmarshal]): only white space may follow. *)
Definition parse_whole (s : list byte) : jval + jerr :=
  match parse_first s with
  | inl (v, r) => match skip_ws r with [] => inl v | _ => inr JSyntax end
  | inr e => inr e
  end.

(** ** Encoding *)

Definition hex_digit (z : Z) : byte := if z <? 10 then z2b (48 + z) else z2b (87 + z).

Definition esc_u (r : Z) : list byte :=
  [z2b 92; z2b 117; hex_digit (r / 4096); hex_digit (r / 256 mod 16);
   hex_digit (r / 16 mod 16); hex_digit (r mod 16)].

(** [appendString] with HTML escaping, rune by rune. *)
Definition escape_seg (g : seg) : list byte :=
  let r := rune g in
  if negb (wf g) then esc_u RuneError
  else if (r =? 92) || (r =? 34) then z2b 92 :: raw g
  else if r =? 8 then [z2b 92; z2b 98]
  else if r =? 12 then [z2b 92; z2b 102]
  else if r =? 10 then [z2b 92; z2b 110]
  else if r =? 13 then [z2b 92; z2b 114]
  else if r =? 9 then [z2b 92; z2b 116]
  else if (r <? 32) || (r =? 60) || (r =? 62) || (r =? 38) || (r =? 8232) || (r =? 8233) then esc_u r
  else raw g.

Definition escape (s : list byte) : list byte := concat (escape_seg <$> segs s).

Definition quote : byte := z2b 34.

Definition enc_str (s : list byte) : list byte := quote :: escape s ++ [quote].

Definition sep_by (sep : byte) (l : list (list byte)) : list byte :=
  match l with
  | [] => []
  | x :: l' => x ++ concat ((cons sep) <$> l')
  end.

Fixpoint enc (v : jval) : list byte :=
  match v with
  | JNull => bytes "null"
  | JBool true => bytes "true"
  | JBool false => bytes "false"
  | JNum lit => lit
  | JStr s => enc_str s
  | JArr l => "["%char :: sep_by "," (enc <$> l) ++ ["]"%char]
  | JObj l => "{"%char :: sep_by "," ((fun kv => enc_str kv.1 ++ ":"%char :: enc kv.2) <$> l) ++ ["}"%char]
  end.

Definition jint (z : Z) : jval := JNum (bytes (Itoa z)).

(** ** The fuel is enough

    A parser leaves at most the input less [k] bytes and never runs out of
    fuel. *)
Definition shrinks {A} (k : nat) (s : list byte) (r : jres A) : Prop :=
  match r with
  | inl (_, rest) => (length rest + k <= length s)%nat
  | inr e => e <> JFuel
  end.

Lemma shrinks_bind {A B} k k' s (r : jres A) (f : A -> list byte -> jres B) :
  shrinks k s r ->
  (forall a rest, (length rest + k <= length s)%nat -> shrinks k' s (f a rest)) ->
  shrinks k' s (jbind r f).
Proof. destruct r as [[a rest]|e]; simpl; auto. Qed.

Lemma shrinks_weaken {A} k k' s s' (r : jres A) :
  (length s + k' <= length s' + k)%nat -> shrinks k s r -> shrinks k' s' r.
Proof. destruct r as [[a rest]|e]; simpl; [lia|done]. Qed.

Lemma length_drop_while {A} (p : A -> bool) l : (length (drop_while p l) <= length l)%nat.
Proof. induction l as [|x l IH]; simpl; [done|]. destruct (p x); simpl; lia. Qed.

Lemma skip_ws_cons s b r : skip_ws s = b :: r -> (S (length r) <= length s)%nat.
Proof. intros E. pose proof (length_drop_while is_ws s) as H. fold (skip_ws s) in H. rewrite E in H. done. Qed.

Lemma scan_hex_shrinks k s : shrinks k s (scan_hex k s).
Proof.
  revert s. induction k as [|k IH]; intros s; [simpl; lia|].
  destruct s as [|b s]; [done|]. cbn [scan_hex]. destruct (is_hex b); [|done].
  eapply shrinks_bind; [exact (shrinks_weaken k (S k) s (b :: s) _ ltac:(simpl; lia) (IH s))|].
  intros a rest Hr. exact Hr.
Qed.

Lemma scan_str_shrinks fuel s : (length s < fuel)%nat -> shrinks 1 s (scan_str fuel s).
Proof.
  revert s. induction fuel as [|f IH]; intros s Hf; [lia|].
  assert (HI : forall t (g : list byte -> list byte), (length t < length s)%nat ->
    shrinks 1 s (jbind (scan_str f t) (fun x r => inl (g x, r)))).
  { intros t g Ht. eapply shrinks_bind;
      [exact (shrinks_weaken 1 1 t s _ ltac:(lia) (IH t ltac:(lia)))|]. intros a rest Hr. exact Hr. }
  cbn [scan_str]. destruct s as [|b s1]; [done|]. simpl in Hf.
  destruct (b2z b =? 34); [simpl; lia|].
  destruct (b2z b =? 92).
  - destruct s1 as [|e s2]; [done|]. destruct (is_esc e); [apply (HI s2 (fun t => b :: e :: t)); simpl; lia|].
    destruct (b2z e =? 117); [|done].
    eapply shrinks_bind; [exact (shrinks_weaken 4 4 s2 (b :: e :: s2) _ ltac:(simpl; lia) (scan_hex_shrinks 4 s2))|].
    intros h s3 Hs3. apply (HI s3 (fun t => b :: e :: h ++ t)). lia.
  - destruct (b2z b <? 32); [done|]. apply (HI s1 (cons b)). simpl; lia.
Qed.

Lemma parse_str_shrinks s : shrinks 1 s (parse_str s).
Proof.
  unfold parse_str. eapply shrinks_bind; [apply scan_str_shrinks; lia|].
  intros body r Hr. by destruct (unquote (segs body)).
Qed.

Lemma scan_digits1_shrinks s : shrinks 1 s (scan_digits1 s).
Proof.
  unfold scan_digits1. destruct s as [|b s]; [done|]. destruct (is_digit b) eqn:E; [|done].
  simpl. rewrite E. pose proof (length_drop_while is_digit s). lia.
Qed.

Lemma scan_int_shrinks s : shrinks 1 s (scan_int s).
Proof.
  unfold scan_int. destruct s as [|b s]; [done|]. destruct (b2z b =? 48); [simpl; lia|].
  apply scan_digits1_shrinks.
Qed.

Lemma digits1_then s s0 k (g : list byte -> list byte) :
  (length s0 + k <= length s)%nat ->
  shrinks k s (jbind (scan_digits1 s0) (fun t r => inl (g t, r))).
Proof.
  intros Hs. eapply shrinks_bind; [exact (shrinks_weaken 1 k s0 s _ ltac:(lia) (scan_digits1_shrinks s0))|].
  intros a rest Hr. exact Hr.
Qed.

Lemma scan_frac_shrinks s : shrinks 0 s (scan_frac s).
Proof.
  unfold scan_frac. destruct s as [|b s]; [simpl; lia|]. destruct (b2z b =? 46); [|simpl; lia].
  apply digits1_then. simpl; lia.
Qed.

Lemma scan_exp_shrinks s : shrinks 0 s (scan_exp s).
Proof.
  unfold scan_exp. destruct s as [|b s]; [simpl; lia|]. destruct (_ || _); [|simpl; lia].
  destruct s as [|c s]; [done|]. destruct (_ || _); apply digits1_then; simpl; lia.
Qed.

Lemma parse_num_shrinks s : shrinks 1 s (parse_num s).
Proof.
  unfold parse_num.
  assert (exists sign s1, (match s with
                     | b :: s' => if b2z b =? 45 then ([b], s') else ([], s)
                     | [] => ([], s)
                     end) = (sign, s1) /\ (length s1 <= length s)%nat) as (sign & s1 & -> & Hs).
  { destruct s as [|b s]; [by exists [], []|]. destruct (b2z b =? 45); do 2 eexists; (split; [reflexivity|simpl; lia]). }
  eapply shrinks_bind; [exact (shrinks_weaken 1 1 s1 s _ ltac:(lia) (scan_int_shrinks s1))|]. intros i s2 H2.
  eapply shrinks_bind; [exact (shrinks_weaken 0 1 s2 s _ ltac:(lia) (scan_frac_shrinks s2))|]. intros f s3 H3.
  eapply shrinks_bind; [exact (shrinks_weaken 0 1 s3 s _ ltac:(lia) (scan_exp_shrinks s3))|].
  intros e s4 H4. exact H4.
Qed.

Lemma expect_shrinks w s : shrinks (length w) s (expect w s).
Proof.
  revert s. induction w as [|c w IH]; intros s; [simpl; lia|]. destruct s as [|b s]; [done|]. cbn [expect].
  case_bool_decide; [|done]. exact (shrinks_weaken (length w) (length (c :: w)) s (b :: s) _ ltac:(simpl; lia) (IH s)).
Qed.

(** A parser for part of [s], followed by wrapping the result. *)
Lemma shrinks_part {A B} k s s0 (r : jres A) (g : A -> B) :
  (length s0 + 1 <= length s)%nat -> shrinks k s0 r -> shrinks 1 s (jbind r (fun a rest => inl (g a, rest))).
Proof.
  intros Hs Hr. eapply shrinks_bind; [exact (shrinks_weaken k 1 s0 s _ ltac:(lia) Hr)|].
  intros a rest H. exact H.
Qed.

Lemma parse_shrinks fuel :
  (forall d s, (2 * length s < fuel)%nat -> shrinks 1 s (parse_value fuel d s)) /\
  (forall d b s, (2 * length s < fuel)%nat -> shrinks 1 s (parse_members fuel d b s)) /\
  (forall d b s, (2 * length s + 1 < fuel)%nat -> shrinks 1 s (parse_elems fuel d b s)).
Proof.
  induction fuel as [|f (IHv & IHm & IHe)]; [split_and!; intros; lia|].
  split_and!; [intros d s Hf|intros d fst s Hf|intros d fst s Hf].
  - cbn [parse_value]. destruct (skip_ws s) as [|b r] eqn:Es; [done|]. apply skip_ws_cons in Es.
    destruct (c_is b "{"); [destruct (_ <=? _); [done|]; apply (shrinks_part 1 s r); [lia|apply IHm; lia]|].
    destruct (c_is b "["); [destruct (_ <=? _); [done|]; apply (shrinks_part 1 s r); [lia|apply IHe; lia]|].
    destruct (b2z b =? 34); [apply (shrinks_part 1 s r); [lia|apply parse_str_shrinks]|].
    destruct (c_is b "t"); [apply (shrinks_part (length (bytes "rue")) s r (expect (bytes "rue") r) (fun _ => JBool true)); [lia|apply expect_shrinks]|].
    destruct (c_is b "f"); [apply (shrinks_part (length (bytes "alse")) s r (expect (bytes "alse") r) (fun _ => JBool false)); [lia|apply expect_shrinks]|].
    destruct (c_is b "n"); [apply (shrinks_part (length (bytes "ull")) s r (expect (bytes "ull") r) (fun _ => JNull)); [lia|apply expect_shrinks]|].
    destruct (_ || _); [|done].
    eapply shrinks_bind; [exact (shrinks_weaken 1 1 (b :: r) s _ ltac:(simpl; lia) (parse_num_shrinks (b :: r)))|].
    intros a rest Hr. exact Hr.
  - cbn [parse_members]. destruct (skip_ws s) as [|b r] eqn:Es; [done|]. apply skip_ws_cons in Es.
    destruct (b2z b =? 34); [|destruct (_ && _); [simpl; lia|done]].
    eapply shrinks_bind; [exact (shrinks_weaken 1 2 r s _ ltac:(lia) (parse_str_shrinks r))|].
    intros k r1 H1. destruct (skip_ws r1) as [|c r2] eqn:E1; [done|]. apply skip_ws_cons in E1.
    destruct (negb _); [done|].
    eapply shrinks_bind; [exact (shrinks_weaken 1 4 r2 s _ ltac:(lia) (IHv d r2 ltac:(lia)))|].
    intros v r3 H3. destruct (skip_ws r3) as [|e r4] eqn:E3; [done|]. apply skip_ws_cons in E3.
    destruct (c_is e ","); [|destruct (c_is e "}"); [simpl; lia|done]].
    apply (shrinks_part 1 s r4); [lia|]. apply IHm. lia.
  - cbn [parse_elems]. destruct (skip_ws s) as [|b r] eqn:Es; [done|]. apply skip_ws_cons in Es.
    destruct (_ && _); [simpl; lia|].
    eapply shrinks_bind; [exact (shrinks_weaken 1 1 (b :: r) s _ ltac:(simpl; lia) (IHv d (b :: r) ltac:(simpl; lia)))|].
    intros v r3 H3. destruct (skip_ws r3) as [|e r4] eqn:E3; [done|]. apply skip_ws_cons in E3.
    destruct (c_is e ","); [|destruct (c_is e "]"); [simpl; lia|done]].
    apply (shrinks_part 1 s r4); [lia|]. apply IHe. lia.
Qed.

(** The parser always decides: it never runs out of fuel. *)
Lemma parse_no_fuel s : parse_first s <> inr JFuel.
Proof.
  destruct (parse_shrinks (S (2 * length s))) as [H _]. specialize (H 0 s ltac:(lia)).
  unfold parse_first. intros E. rewrite E in H. by apply H.
Qed.

(** ** String literals round-trip *)

Definition plain (b : byte) : Prop := 32 <= b2z b /\ b2z b <> 34 /\ b2z b <> 92.

(** The three shapes in which the encoder writes a rune. *)
Inductive escaped (g : seg) : list byte -> Prop :=
| esc_hex : 0 <= rune g < 65536 -> is_surrogate (rune g) = false -> escaped g (esc_u (rune g))
| esc_short c : is_esc c = true -> b2z c < 128 -> b2z c <> 117 -> unescape (b2z c) = Some (rune g) ->
    escaped g [z2b 92; c]
| esc_plain : valid_rune (rune g) = true -> rune g <> 92 -> Forall plain (encode_rune (rune g)) ->
    escaped g (encode_rune (rune g)).

Lemma encode_rune_plain r : valid_rune r = true -> 32 <= r -> r <> 34 -> r <> 92 -> Forall plain (encode_rune r).
Proof.
  intros Hv H1 H2 H3. pose proof (proj1 (valid_rune_spec r) Hv). unfold encode_rune. rewrite Hv.
  repeat case_match; repeat (apply Forall_cons_2; [unfold plain; zdm; rewrite b2z_z2b by lia; lia|]);
    apply Forall_nil_2.
Qed.

Lemma escape_seg_escaped g : seg_ok g -> escaped g (escape_seg g).
Proof.
  intros [Hv Hg]. pose proof (proj1 (valid_rune_spec _) Hv) as Hr. unfold escape_seg.
  destruct (wf g); simpl; cycle 1.
  { destruct Hg as [Hg _]. rewrite <- Hg. apply esc_hex; by rewrite Hg. }
  rewrite Hg.
  destruct ((rune g =? 92) || (rune g =? 34)) eqn:E1.
  { rewrite encode_ascii by lia. apply esc_short; rewrite ?b2z_z2b by lia; try lia.
    - assert (Ho : rune g = 92 \/ rune g = 34) by lia. destruct Ho as [-> | ->]; reflexivity.
    - unfold unescape. assert ((rune g =? 34) || (rune g =? 92) || (rune g =? 47) = true) as -> by lia. done. }
  destruct (Z.eqb_spec (rune g) 8) as [E|]; [by apply esc_short; rewrite ?E|].
  destruct (Z.eqb_spec (rune g) 12) as [E|]; [by apply esc_short; rewrite ?E|].
  destruct (Z.eqb_spec (rune g) 10) as [E|]; [by apply esc_short; rewrite ?E|].
  destruct (Z.eqb_spec (rune g) 13) as [E|]; [by apply esc_short; rewrite ?E|].
  destruct (Z.eqb_spec (rune g) 9) as [E|]; [by apply esc_short; rewrite ?E|].
  match goal with |- context [if ?c then _ else _] => destruct c eqn:E2 end.
  - apply esc_hex; [lia|]. unfold is_surrogate. lia.
  - apply esc_plain; [done|lia|]. apply encode_rune_plain; [done|lia..].
Qed.

Lemma hex_digit_spec z : 0 <= z < 16 ->
  b2z (hex_digit z) < 128 /\ hex_val (b2z (hex_digit z)) = Some z.
Proof.
  intros Hz. unfold hex_digit, hex_val.
  destruct (Z.ltb_spec z 10); rewrite b2z_z2b by lia; (split; [lia|]); repeat case_match; (f_equal; lia) || lia.
Qed.

(** The digits of a 16-bit value. *)
Lemma hex_digits r : 0 <= r < 65536 ->
  (0 <= r / 4096 < 16 /\ 0 <= r / 256 mod 16 < 16 /\ 0 <= r / 16 mod 16 < 16 /\ 0 <= r mod 16 < 16) /\
  ((r / 4096 * 16 + r / 256 mod 16) * 16 + r / 16 mod 16) * 16 + r mod 16 = r.
Proof. intros Hr. split; [split_and!|]; zdm; lia. Qed.

Lemma unquote_escaped g e t : escaped g e ->
  unquote (segs (e ++ t)) = emit (rune g) (unquote (segs t)).
Proof.
  intros [Hr Hs|c He Hc Hu Hn|Hv Hr Hp].
  - destruct (hex_digits _ Hr) as [(H1 & H2 & H3 & H4) Hsum]. unfold esc_u. cbn [app].
    apply hex_digit_spec in H1 as [A1 B1], H2 as [A2 B2], H3 as [A3 B3], H4 as [A4 B4].
    rewrite !segs_cons_ascii by (done || vm_compute; done). cbn [unquote rune]. unfold hex4.
    rewrite B1, B2, B3, B4, Hsum, Hs. rewrite !b2z_z2b by lia. done.
  - cbn [app]. rewrite !segs_cons_ascii by (done || vm_compute; done). cbn [unquote rune].
    rewrite b2z_z2b by lia. rewrite (proj2 (Z.eqb_neq _ 117)) by done. by rewrite Hn.
  - rewrite segs_encode_rune by done. cbn [unquote rune]. by rewrite (proj2 (Z.eqb_neq _ 92)).
Qed.

Lemma unquote_escape s : unquote (segs (escape s)) = Some (sanitize s).
Proof.
  unfold escape, sanitize. generalize (segs_seg_ok s). generalize (segs s) as l.
  induction l as [|g l IH]; intros Hl; [done|]. inversion Hl as [|?? Hg Hl']; subst.
  rewrite !fmap_cons. cbn [concat]. rewrite (unquote_escaped g) by (by apply escape_seg_escaped).
  by rewrite IH.
Qed.

Lemma scan_str_plain p t f : Forall plain p ->
  scan_str (length p + f) (p ++ t) = jbind (scan_str f t) (fun x r => inl (p ++ x, r)).
Proof.
  induction 1 as [|b p (H1 & H2 & H3) Hp IH]; cbn [app length Nat.add scan_str].
  - by destruct (scan_str f t) as [[x r]|e].
  - rewrite (proj2 (Z.eqb_neq _ 34)), (proj2 (Z.eqb_neq _ 92)), (proj2 (Z.ltb_ge _ 32)) by lia.
    rewrite IH. by destruct (scan_str f t) as [[x r]|e].
Qed.

Lemma scan_str_escaped g e t f : escaped g e -> (length (e ++ t) < f)%nat ->
  exists f', (length t < f')%nat /\
    scan_str f (e ++ t) = jbind (scan_str f' t) (fun x r => inl (e ++ x, r)).
Proof.
  intros He Hf. rewrite length_app in Hf. destruct He as [Hr Hs|c He Hc Hu Hn|Hv Hr Hp].
  - destruct f as [|f]; [lia|]. exists f. split; [simpl in *; lia|].
    destruct (hex_digits _ Hr) as [(H1 & H2 & H3 & H4) _].
    assert (Hx : forall z, 0 <= z < 16 -> is_hex (hex_digit z) = true).
    { intros z Hz. apply bool_decide_eq_true. apply hex_digit_spec in Hz as [_ ->]. eauto. }
    unfold esc_u. cbn [app scan_str scan_hex]. rewrite !Hx by done.
    rewrite !b2z_z2b by lia. simpl. by destruct (scan_str f t) as [[x r]|e].
  - destruct f as [|f]; [lia|]. exists f. split; [simpl in *; lia|].
    cbn [app scan_str]. rewrite He, b2z_z2b by lia. done.
  - exists (f - length (encode_rune (rune g)))%nat. split; [lia|].
    rewrite <- scan_str_plain by done. f_equal. lia.
Qed.

Lemma scan_str_escape s rest f : (length (escape s ++ quote :: rest) < f)%nat ->
  scan_str f (escape s ++ quote :: rest) = inl (escape s, rest).
Proof.
  unfold escape. generalize (segs_seg_ok s). generalize (segs s) as l. intros l. revert f.
  induction l as [|g l IH]; intros f Hl Hf.
  - destruct f as [|f]; [simpl in Hf; lia|]. done.
  - inversion Hl as [|?? Hg Hl']; subst. rewrite fmap_cons in *. cbn [concat] in *. rewrite <- app_assoc in *.
    destruct (scan_str_escaped g _ _ f (escape_seg_escaped g Hg) Hf) as (f' & Hf' & ->).
    by rewrite (IH f' Hl' Hf').
Qed.

Lemma parse_enc_str s rest : parse_str (escape s ++ quote :: rest) = inl (sanitize s, rest).
Proof. unfold parse_str. rewrite scan_str_escape by lia. cbn [jbind]. by rewrite unquote_escape. Qed.

(** ** Integers round-trip *)

Lemma dec_digits_all fuel n acc : 0 <= n -> Forall (fun b => is_digit b = true) acc ->
  Forall (fun b => is_digit b = true) (dec_digits fuel n acc).
Proof.
  assert (Hd : forall d, 0 <= d < 10 -> is_digit (z2b (48 + d)) = true).
  { intros d Hd. unfold is_digit. rewrite b2z_z2b by lia. lia. }
  revert n acc. induction fuel as [|f IH]; intros n acc Hn Ha; [done|]. cbn [dec_digits].
  destruct (Z.ltb_spec n 10); [constructor; [apply Hd; lia|done]|].
  apply IH; [apply Z.div_pos; lia|]. constructor; [|done]. apply Hd. apply Z.mod_pos_bound. lia.
Qed.

Lemma dec_digits_lead fuel n acc : 0 < n < 10 ^ Z.of_nat fuel ->
  exists d l, dec_digits fuel n acc = z2b (48 + d) :: l /\ 1 <= d < 10.
Proof.
  revert n acc. induction fuel as [|f IH]; intros n acc Hn; [simpl in Hn; lia|]. cbn [dec_digits].
  destruct (Z.ltb_spec n 10); [exists n, acc; split; [done|lia]|].
  rewrite Nat2Z.inj_succ, Z.pow_succ_r in Hn by lia.
  apply IH. pose proof (Z.div_mod n 10 ltac:(lia)). pose proof (Z.mod_pos_bound n 10 ltac:(lia)). lia.
Qed.

(** What may follow a number: nothing, or the end of a member or an element. *)
Definition delim (rest : list byte) : Prop :=
  match rest with [] => True | b :: _ => b = ","%char \/ b = "]"%char \/ b = "}"%char end.

Lemma delim_no_more rest : delim rest ->
  drop_while is_digit rest = rest /\ take_while is_digit rest = [] /\
  scan_frac rest = inl ([], rest) /\ scan_exp rest = inl ([], rest).
Proof. destruct rest as [|b rest]; [done|]. by intros [->|[->| ->]]. Qed.

Lemma digits_span l rest : Forall (fun b => is_digit b = true) l -> delim rest ->
  take_while is_digit (l ++ rest) = l /\ drop_while is_digit (l ++ rest) = rest.
Proof.
  intros Hl Hr. apply delim_no_more in Hr as (Hd & Ht & _).
  induction Hl as [|b l Hb Hl [IH1 IH2]]; [done|]. simpl. rewrite Hb. by rewrite IH1, IH2.
Qed.

Lemma scan_int_format n rest : 0 <= n <= max_uint64 -> delim rest ->
  scan_int (format_uint n ++ rest) = inl (format_uint n, rest).
Proof.
  intros Hn Hr. unfold format_uint. destruct (Z.eq_dec n 0) as [->|Hz]; [done|].
  destruct (dec_digits_lead 20 n []) as (d & l & E & Hd); [unfold max_uint64 in *; lia|].
  pose proof (dec_digits_all 20 n [] ltac:(lia) ltac:(constructor)) as Hall. rewrite E in *.
  destruct (digits_span _ rest Hall Hr) as [Ht Hdr]. unfold scan_int, scan_digits1. cbn [app].
  rewrite (b2z_z2b (48 + d)), (proj2 (Z.eqb_neq (48 + d) 48)) by lia.
  assert (is_digit (z2b (48 + d)) = true) as -> by (by inversion Hall).
  cbn [app] in Ht, Hdr. by rewrite Ht, Hdr.
Qed.

Lemma parse_num_Itoa z rest : in_int64 z -> delim rest ->
  parse_num (bytes (Itoa z) ++ rest) = inl (bytes (Itoa z), rest).
Proof.
  unfold in_int64, min_int64, max_int64. intros Hz Hr. unfold Itoa.
  rewrite list_ascii_of_string_of_list_ascii. unfold parse_num.
  pose proof (delim_no_more rest Hr) as (_ & _ & Hf & He). destruct (Z.ltb_spec z 0).
  - cbn [app]. rewrite b2z_z2b by lia. cbn iota. change (45 =? 45) with true. cbn iota.
    rewrite scan_int_format by (done || unfold max_uint64; lia). cbn [jbind].
    rewrite Hf. cbn [jbind]. rewrite He. cbn [jbind app]. by rewrite !app_nil_r.
  - destruct (dec_digits_cons 20 z []) as (d & l & E & Hd); [lia|lia|].
    fold (format_uint z) in E.
    pose proof (scan_int_format z rest ltac:(unfold max_uint64; lia) Hr) as Hs.
    rewrite E in *. cbn [app] in *. rewrite b2z_z2b by lia. rewrite (proj2 (Z.eqb_neq _ 45)) by lia.
    rewrite Hs. cbn [jbind]. rewrite Hf. cbn [jbind]. rewrite He. cbn [jbind app]. by rewrite !app_nil_r.
Qed.

Lemma Itoa_head z : in_int64 z ->
  exists b r, bytes (Itoa z) = b :: r /\ (is_digit b || (b2z b =? 45)) = true.
Proof.
  unfold in_int64, min_int64, max_int64. intros Hz. unfold Itoa. rewrite list_ascii_of_string_of_list_ascii.
  destruct (Z.ltb_spec z 0); [by do 2 eexists|].
  destruct (dec_digits_cons 20 z []) as (d & l & E & Hd); [lia|lia|].
  fold (format_uint z) in E. rewrite E. do 2 eexists. split; [done|].
  unfold is_digit. rewrite b2z_z2b by lia. lia.
Qed.

(** ** Values round-trip *)

Section jval_induction.
Variable P : jval -> Prop.
Hypothesis HNull : P JNull.
Hypothesis HBool : forall b, P (JBool b).
Hypothesis HNum : forall lit, P (JNum lit).
Hypothesis HStr : forall s, P (JStr s).
Hypothesis HArr : forall l, Forall P l -> P (JArr l).
Hypothesis HObj : forall l, Forall (fun kv => P kv.2) l -> P (JObj l).

Fixpoint jval_induct (v : jval) : P v :=
  match v with
  | JNull => HNull
  | JBool b => HBool b
  | JNum lit => HNum lit
  | JStr s => HStr s
  | JArr l => HArr l ((fix go l : Forall P l :=
      match l with [] => Forall_nil_2 _ | x :: l' => Forall_cons_2 _ _ _ (jval_induct x) (go l') end) l)
  | JObj l => HObj l ((fix go l : Forall (fun kv => P kv.2) l :=
      match l with [] => Forall_nil_2 _ | x :: l' => Forall_cons_2 _ _ _ (jval_induct x.2) (go l') end) l)
  end.
End jval_induction.

(** What the encoder is given: 64-bit integers, nesting at most [k]. *)
Fixpoint jfits (k : Z) (v : jval) : Prop :=
  match v with
  | JNum lit => exists z, in_int64 z /\ lit = bytes (Itoa z)
  | JArr l => 0 < k /\ foldr (fun x Q => jfits (k - 1) x /\ Q) True l
  | JObj l => 0 < k /\ foldr (fun x Q => jfits (k - 1) x.2 /\ Q) True l
  | _ => True
  end.

(** The value with its strings and keys made valid UTF-8. *)
Fixpoint jsan (v : jval) : jval :=
  match v with
  | JStr s => JStr (sanitize s)
  | JArr l => JArr (jsan <$> l)
  | JObj l => JObj ((fun kv => (sanitize kv.1, jsan kv.2)) <$> l)
  | _ => v
  end.

Lemma enc_head k v : jfits k v -> exists b r, enc v = b :: r /\ is_ws b = false /\ c_is b "]" = false.
Proof.
  destruct v as [|[]|lit|s|l|l]; simpl; intros Hv; try by do 2 eexists.
  destruct Hv as (z & Hz & ->). destruct (Itoa_head z Hz) as (b & r & -> & Hb).
  exists b, r. split; [done|]. unfold is_digit in Hb. unfold is_ws.
  split; [lia|]. apply bool_decide_eq_false. intros ->. by vm_compute in Hb.
Qed.

Lemma skip_ws_solid b r : is_ws b = false -> skip_ws (b :: r) = b :: r.
Proof. intros Hb. unfold skip_ws. simpl. by rewrite Hb. Qed.

Definition parses (v : jval) : Prop := forall f d rest,
  jfits (maxNestingDepth - d) v -> delim rest -> (2 * length (enc v ++ rest) < f)%nat ->
  parse_value f d (enc v ++ rest) = inl (jsan v, rest).

Definition enc_member (kv : list byte * jval) : list byte := enc_str kv.1 ++ ":"%char :: enc kv.2.

Lemma sep_by_cons2 sep x y l : sep_by sep (x :: y :: l) = x ++ sep :: sep_by sep (y :: l).
Proof. done. Qed.

Lemma parse_members_enc l : Forall (fun kv => parses kv.2) l -> l <> [] -> forall f d first rest,
  foldr (fun x Q => jfits (maxNestingDepth - d) x.2 /\ Q) True l ->
  (2 * length (sep_by "," (enc_member <$> l) ++ "}"%char :: rest) < f)%nat ->
  parse_members f d first (sep_by "," (enc_member <$> l) ++ "}"%char :: rest) =
    inl ((fun kv => (sanitize kv.1, jsan kv.2)) <$> l, rest).
Proof.
  induction 1 as [|[k v] l Hv Hl IH]; [done|]. intros _ f d first rest [Hk Hks] Hf.
  destruct f as [|f]; [lia|]. simpl in Hv, Hk.
  assert (Hgen : forall tail, delim tail -> (2 * length (enc_member (k, v) ++ tail) < S f)%nat ->
    parse_members (S f) d first (enc_member (k, v) ++ tail) =
      match skip_ws tail with
      | [] => inr JEOF
      | c :: r4 => if c_is c "," then jbind (parse_members f d false r4) (fun ms r5 => inl ((sanitize k, jsan v) :: ms, r5))
                   else if c_is c "}" then inl ([(sanitize k, jsan v)], r4) else inr JSyntax
      end).
  { intros tail Ht Hlen. unfold enc_member, enc_str in *. cbn [fst snd app] in *. cbn [parse_members].
    rewrite skip_ws_solid by done. rewrite <- !app_assoc. cbn [app].
    change (b2z quote =? 34) with true. cbn iota. rewrite parse_enc_str. cbn [jbind].
    rewrite skip_ws_solid by done. change (c_is ":" ":") with true. cbn [negb].
    rewrite Hv; [done|done|done|]. simpl in Hlen. repeat (rewrite ?length_app in *; simpl in * ). lia. }
  destruct l as [|kv2 l].
  - rewrite fmap_cons, fmap_nil in *. cbn [sep_by concat fmap list_fmap] in *. rewrite app_nil_r in *.
    rewrite Hgen by (done || by right; right). done.
  - rewrite !fmap_cons in *. rewrite sep_by_cons2, <- app_assoc in *. cbn [app] in *.
    rewrite Hgen by (done || by left). rewrite skip_ws_solid by done. change (c_is "," ",") with true. cbn iota.
    rewrite IH; [done|done|done|]. rewrite length_app in Hf. simpl in Hf. simpl. lia.
Qed.

Lemma parse_elems_enc l : Forall parses l -> l <> [] -> forall f d first rest,
  foldr (fun x Q => jfits (maxNestingDepth - d) x /\ Q) True l ->
  (2 * length (sep_by "," (enc <$> l) ++ "]"%char :: rest) + 1 < f)%nat ->
  parse_elems f d first (sep_by "," (enc <$> l) ++ "]"%char :: rest) = inl (jsan <$> l, rest).
Proof.
  induction 1 as [|v l Hv Hl IH]; [done|]. intros _ f d first rest [Hk Hks] Hf.
  destruct f as [|f]; [lia|]. destruct (enc_head _ _ Hk) as (b & r & Eb & Hws & Hbr).
  assert (Hgen : forall tail, delim tail -> (2 * length (enc v ++ tail) + 1 < S f)%nat ->
    parse_elems (S f) d first (enc v ++ tail) =
      match skip_ws tail with
      | [] => inr JEOF
      | c :: r4 => if c_is c "," then jbind (parse_elems f d false r4) (fun l r5 => inl (jsan v :: l, r5))
                   else if c_is c "]" then inl ([jsan v], r4) else inr JSyntax
      end).
  { intros tail Ht Hlen. cbn [parse_elems]. rewrite Eb. cbn [app]. rewrite skip_ws_solid by done.
    rewrite Hbr, andb_false_r. change (b :: r ++ tail) with ((b :: r) ++ tail). rewrite <- Eb.
    rewrite Hv by (done || lia). done. }
  destruct l as [|v2 l].
  - rewrite fmap_cons, fmap_nil in *. cbn [sep_by concat fmap list_fmap] in *. rewrite app_nil_r in *.
    rewrite Hgen by (done || by right; left). done.
  - rewrite !fmap_cons in *. rewrite sep_by_cons2, <- app_assoc in *. cbn [app] in *.
    rewrite Hgen by (done || by left). rewrite skip_ws_solid by done. change (c_is "," ",") with true. cbn iota.
    rewrite IH; [done|done|done|]. rewrite length_app in Hf. simpl in Hf. simpl. lia.
Qed.

Lemma fits_depth k : 0 < maxNestingDepth - k -> (maxNestingDepth <=? k) = false.
Proof. unfold maxNestingDepth. lia. Qed.

(** Parsing what the encoder writes gives the value back, sanitised. *)
Lemma parse_enc v : parses v.
Proof.
  induction v as [|b|lit|s|l IH|l IH] using jval_induct; intros f d rest Hk Hr Hf;
    (destruct f as [|f]; [lia|]).
  - done.
  - by destruct b.
  - destruct Hk as (z & Hz & ->). cbn [enc jsan]. destruct (Itoa_head z Hz) as (b & r & E & Hb).
    pose proof (parse_num_Itoa z rest Hz Hr) as Hp.
    assert (Hne : b2z b = 45 \/ 48 <= b2z b <= 57) by (unfold is_digit in Hb; lia).
    assert (Hc : forall c, b2z c <> 45 -> 57 < b2z c \/ b2z c < 48 -> c_is b c = false).
    { intros c H1 H2. apply bool_decide_eq_false. intros ->. lia. }
    rewrite E in *. cbn [app] in *. cbn [parse_value]. rewrite skip_ws_solid by (unfold is_ws; lia).
    rewrite !Hc by (vm_compute; (done || by left || by right)).
    rewrite (proj2 (Z.eqb_neq (b2z b) 34)) by lia. rewrite Hb, Hp. done.
  - cbn [enc jsan]. unfold enc_str. cbn [app]. rewrite <- app_assoc. cbn [parse_value app].
    rewrite skip_ws_solid by done. change (c_is quote "{") with false. change (c_is quote "[") with false.
    change (b2z quote =? 34) with true. cbn iota. by rewrite parse_enc_str.
  - destruct Hk as [Hk Hks]. cbn [enc jsan app] in *. rewrite <- app_assoc in *.
    cbn [parse_value app] in *. rewrite skip_ws_solid by done.
    change (c_is "[" "{") with false. change (c_is "[" "[") with true. cbn iota. rewrite fits_depth by done.
    destruct l as [|v l].
    + destruct f as [|f]; [simpl in Hf; lia|]. done.
    + rewrite parse_elems_enc; [done|done|done| |simpl in *; lia].
      by replace (maxNestingDepth - (d + 1)) with (maxNestingDepth - d - 1) by lia.
  - destruct Hk as [Hk Hks]. cbn [enc jsan app] in *. fold enc_member in *. rewrite <- app_assoc in *.
    cbn [parse_value app] in *. rewrite skip_ws_solid by done.
    change (c_is "{" "{") with true. cbn iota. rewrite fits_depth by done.
    destruct l as [|v l].
    + destruct f as [|f]; [simpl in Hf; lia|]. done.
    + rewrite parse_members_enc; [done|done|done| |simpl in *; lia].
      by replace (maxNestingDepth - (d + 1)) with (maxNestingDepth - d - 1) by lia.
Qed.

Lemma parse_first_enc v rest : jfits maxNestingDepth v -> delim rest ->
  parse_first (enc v ++ rest) = inl (jsan v, rest).
Proof. intros Hv Hr. apply parse_enc; [by rewrite Z.sub_0_r|done|lia]. Qed.

(** An object ends at its brace, whatever follows. *)
Lemma parse_object_enc l rest : jfits maxNestingDepth (JObj l) ->
  parse_first (enc (JObj l) ++ rest) = inl (jsan (JObj l), rest).
Proof.
  intros [Hk Hks]. unfold parse_first. cbn [enc jsan app]. fold enc_member. rewrite <- app_assoc.
  set (n := (2 * _)%nat). assert (Hn : n = (2 * length ("{"%char :: sep_by "," (enc_member <$> l) ++ ["}"%char] ++ rest))%nat) by done.
  clearbody n. cbn [parse_value app] in *. rewrite skip_ws_solid by done.
  change (c_is "{" "{") with true. cbn iota. rewrite fits_depth by (by rewrite Z.sub_0_r).
  destruct l as [|v l].
  - destruct n as [|n]; [simpl in Hn; lia|]. done.
  - rewrite parse_members_enc; [done| |done|done|simpl in *; lia].
    apply Forall_forall. intros kv _. apply parse_enc.
Qed.

Lemma parse_whole_enc v : jfits maxNestingDepth v -> parse_whole (enc v) = inl (jsan v).
Proof.
  intros Hv. unfold parse_whole. rewrite <- (app_nil_r (enc v)). by rewrite parse_first_enc.
Qed.
