(* ===== verification/JsonPrefix.v ===== *)
(** * A JSON object cut short is not an object

    The stream decoder reads a value from the front of its input.  Reading is
    stable: if it succeeds on a text, it succeeds with the same value on every
    extension of the text (a bare number at the very end apart, which the
    extension may continue).  Hence no proper prefix of an object's text parses,
    which is what the size limit of the JSON codec relies on. *)

From S2P Require Import Prelude Utf8 GoStrings Json.

Local Open Scope Z_scope.

Lemma jbind_inl {A B} (r : jres A) (f : A -> list byte -> jres B) x :
  jbind r f = inl x -> exists a s, r = inl (a, s) /\ f a s = inl x.
Proof. destruct r as [[a s]|e]; [|done]. eauto. Qed.

Ltac unbind H := let a := fresh "a" in let s := fresh "s" in let E := fresh "E" in
  apply jbind_inl in H as (a & s & E & H).

Lemma drop_while_ext (f : byte -> bool) s q b r : drop_while f s = b :: r -> drop_while f (s ++ q) = b :: r ++ q.
Proof.
  induction s as [|x s IH]; [done|]. simpl. destruct (f x); [apply IH|]. by intros [= -> ->].
Qed.

Lemma skip_ws_ext s q b r : skip_ws s = b :: r -> skip_ws (s ++ q) = b :: r ++ q.
Proof. apply drop_while_ext. Qed.

Lemma take_while_ext (f : byte -> bool) s q b r : drop_while f s = b :: r -> take_while f (s ++ q) = take_while f s.
Proof.
  induction s as [|x s IH]; [done|]. simpl. destruct (f x); [|done]. intros H. by rewrite IH.
Qed.

(** ** Strings and words: stable even at the end of the input *)

Lemma scan_hex_ext k s t r q : scan_hex k s = inl (t, r) -> scan_hex k (s ++ q) = inl (t, r ++ q).
Proof.
  revert s t r. induction k as [|k IH]; intros s t r; cbn [scan_hex]; [by intros [= <- <-]|].
  destruct s as [|b s]; [done|]. cbn [app]. destruct (is_hex b); [|done]. intros H. unbind H. injection H as <- <-.
  by rewrite (IH s a s0).
Qed.

Lemma scan_str_ext f g s t r q : (f <= g)%nat -> scan_str f s = inl (t, r) -> scan_str g (s ++ q) = inl (t, r ++ q).
Proof.
  revert g s t r. induction f as [|f IH]; [done|]. intros [|g] s t r Hg; [lia|].
  assert (IH' : forall s t r, scan_str f s = inl (t, r) -> scan_str g (s ++ q) = inl (t, r ++ q)) by (intros; apply IH; [lia|done]).
  clear IH. destruct s as [|b s1]; [done|]. cbn [scan_str app].
  destruct (b2z b =? 34); [by intros [= <- <-]|]. destruct (b2z b =? 92).
  - destruct s1 as [|e s2]; [done|]. cbn [app]. destruct (is_esc e).
    { intros H. unbind H. injection H as <- <-. by rewrite (IH' _ _ _ E). }
    destruct (b2z e =? 117); [|done]. intros H. unbind H. unbind H. injection H as <- <-.
    rewrite (scan_hex_ext _ _ _ _ q E). cbn [jbind]. by rewrite (IH' _ _ _ E0).
  - destruct (b2z b <? 32); [done|]. intros H. unbind H. injection H as <- <-. by rewrite (IH' _ _ _ E).
Qed.

Lemma parse_str_ext s t r q : parse_str s = inl (t, r) -> parse_str (s ++ q) = inl (t, r ++ q).
Proof.
  unfold parse_str. intros H. unbind H. destruct (unquote (segs a)) as [u|] eqn:Eu; [|done]. injection H as <- <-.
  rewrite (scan_str_ext (S (length s)) _ s a s0 q) by (done || rewrite length_app; lia). cbn [jbind]. by rewrite Eu.
Qed.

Lemma expect_ext w s u r q : expect w s = inl (u, r) -> expect w (s ++ q) = inl (u, r ++ q).
Proof.
  revert s. induction w as [|c w IH]; intros s; cbn [expect]; [by intros [= <- <-]|].
  destruct s as [|b s]; [done|]. cbn [app]. destruct (bool_decide (b = c)); [apply IH|done].
Qed.

(** ** Numbers: stable unless they end the input *)

Lemma scan_digits1_ext s t r q : scan_digits1 s = inl (t, r) -> r <> [] -> scan_digits1 (s ++ q) = inl (t, r ++ q).
Proof.
  destruct s as [|b s]; [done|]. unfold scan_digits1. destruct (is_digit b) eqn:Eb; [|done]. intros H Hr.
  assert (t = take_while is_digit (b :: s)) as -> by congruence.
  assert (r = drop_while is_digit (b :: s)) as -> by congruence.
  destruct (drop_while is_digit (b :: s)) as [|c r] eqn:E; [done|]. change ((b :: s) ++ q) with (b :: s ++ q). cbn iota beta. rewrite Eb.
  change (b :: s ++ q) with ((b :: s) ++ q). by rewrite (drop_while_ext _ _ q c r E), (take_while_ext _ _ q c r E).
Qed.

Lemma scan_int_ext s t r q : scan_int s = inl (t, r) -> r <> [] -> scan_int (s ++ q) = inl (t, r ++ q).
Proof.
  destruct s as [|b s]; [done|]. unfold scan_int. cbn [app]. destruct (b2z b =? 48); [by intros [= <- <-]|].
  apply (scan_digits1_ext (b :: s)).
Qed.

Lemma scan_frac_ext s t r q : scan_frac s = inl (t, r) -> r <> [] -> scan_frac (s ++ q) = inl (t, r ++ q).
Proof.
  destruct s as [|b s]; [by intros [= <- <-]|]. unfold scan_frac. cbn [app]. destruct (b2z b =? 46); [|by intros [= <- <-]].
  intros H Hr. unbind H. injection H as <- ->. by rewrite (scan_digits1_ext _ _ _ q E).
Qed.

Lemma scan_exp_ext s t r q : scan_exp s = inl (t, r) -> r <> [] -> scan_exp (s ++ q) = inl (t, r ++ q).
Proof.
  destruct s as [|b s]; [by intros [= <- <-]|]. unfold scan_exp. cbn [app].
  destruct (_ || _); [|by intros [= <- <-]]. destruct s as [|c s]; [done|]. cbn [app].
  destruct (_ || _); intros H Hr; unbind H; injection H as <- ->; [|change (c :: s ++ q) with ((c :: s) ++ q)];
    by rewrite (scan_digits1_ext _ _ _ q E).
Qed.

(** Rests that are not empty come from rests that are not empty. *)
Lemma shrinks_rest {A} k s (r : jres A) a s' : shrinks k s r -> r = inl (a, s') -> s' <> [] -> s <> [].
Proof. intros H -> Hs ->. simpl in H. destruct s'; simpl in *; [done|lia]. Qed.

Lemma parse_num_ext s t r q : parse_num s = inl (t, r) -> r <> [] -> parse_num (s ++ q) = inl (t, r ++ q).
Proof.
  assert (H : forall sg s1, jbind (scan_int s1) (fun i s2 => jbind (scan_frac s2) (fun f s3 =>
      jbind (scan_exp s3) (fun e s4 => inl (sg ++ i ++ f ++ e, s4)))) = inl (t, r) -> r <> [] ->
    jbind (scan_int (s1 ++ q)) (fun i s2 => jbind (scan_frac s2) (fun f s3 =>
      jbind (scan_exp s3) (fun e s4 => inl (sg ++ i ++ f ++ e, s4)))) = inl (t, r ++ q)).
  { intros sg s1 H Hr. unbind H. unbind H. unbind H. injection H as <- ->.
    pose proof (shrinks_rest _ _ _ _ _ (scan_exp_shrinks _) E1 Hr) as H0.
    pose proof (shrinks_rest _ _ _ _ _ (scan_frac_shrinks _) E0 H0) as H1.
    rewrite (scan_int_ext _ _ _ q E H1). cbn [jbind]. rewrite (scan_frac_ext _ _ _ q E0 H0). cbn [jbind].
    by rewrite (scan_exp_ext _ _ _ q E1 Hr). }
  destruct s as [|b s]; [done|]. unfold parse_num. cbn [app]. destruct (b2z b =? 45); [apply (H [b] s)|apply (H [] (b :: s))].
Qed.

(** ** Values *)

Definition is_num (v : jval) : bool := match v with JNum _ => true | _ => false end.

Definition stable (f g : nat) : Prop :=
  (forall d s v r q, parse_value f d s = inl (v, r) -> r <> [] \/ is_num v = false ->
     parse_value g d (s ++ q) = inl (v, r ++ q)) /\
  (forall d first s ms r q, parse_members f d first s = inl (ms, r) ->
     parse_members g d first (s ++ q) = inl (ms, r ++ q)) /\
  (forall d first s l r q, parse_elems f d first s = inl (l, r) ->
     parse_elems g d first (s ++ q) = inl (l, r ++ q)).

Lemma value_stable f g d s v r q : stable f g -> parse_value (S f) d s = inl (v, r) -> r <> [] \/ is_num v = false ->
  parse_value (S g) d (s ++ q) = inl (v, r ++ q).
Proof.
  intros (_ & IHm & IHe). cbn [parse_value]. destruct (skip_ws s) as [|b t] eqn:Es; [done|].
  rewrite (skip_ws_ext _ q _ _ Es). intros H Hn.
  destruct (c_is b "{").
  { destruct (_ <=? _); [done|]. unbind H. injection H as <- <-. by rewrite (IHm _ _ _ _ _ q E). }
  destruct (c_is b "[").
  { destruct (_ <=? _); [done|]. unbind H. injection H as <- <-. by rewrite (IHe _ _ _ _ _ q E). }
  destruct (b2z b =? 34); [unbind H; injection H as <- <-; by rewrite (parse_str_ext _ _ _ q E)|].
  destruct (c_is b "t"); [unbind H; injection H as <- <-; by rewrite (expect_ext _ _ _ _ q E)|].
  destruct (c_is b "f"); [unbind H; injection H as <- <-; by rewrite (expect_ext _ _ _ _ q E)|].
  destruct (c_is b "n"); [unbind H; injection H as <- <-; by rewrite (expect_ext _ _ _ _ q E)|].
  destruct (_ || _); [|done]. unbind H. injection H as <- <-. destruct Hn as [Hn|]; [|done].
  change (b :: t ++ q) with ((b :: t) ++ q). by rewrite (parse_num_ext _ _ _ q E).
Qed.

(** A value after which something was read. *)
Lemma value_then f g d s v r q c t : stable f g -> parse_value f d s = inl (v, r) -> skip_ws r = c :: t ->
  parse_value g d (s ++ q) = inl (v, r ++ q) /\ skip_ws (r ++ q) = c :: t ++ q.
Proof. intros (IH & _) H Hr. split; [apply IH; [done|left; by intros ->]|by apply skip_ws_ext]. Qed.

Lemma members_stable f g d first s ms r q : stable f g -> parse_members (S f) d first s = inl (ms, r) ->
  parse_members (S g) d first (s ++ q) = inl (ms, r ++ q).
Proof.
  intros IH. pose proof IH as (_ & IHm & _). cbn [parse_members]. destruct (skip_ws s) as [|b t] eqn:Es; [done|].
  rewrite (skip_ws_ext _ q _ _ Es). destruct (b2z b =? 34); [|destruct (_ && _); [by intros [= <- <-]|done]].
  intros H. unbind H. rewrite (parse_str_ext _ _ _ q E). cbn [jbind].
  destruct (skip_ws s0) as [|c r2] eqn:E0; [done|]. rewrite (skip_ws_ext _ q _ _ E0). destruct (negb _); [done|].
  unbind H. destruct (skip_ws s1) as [|e r4] eqn:E2; [done|].
  destruct (value_then f g d r2 a0 s1 q e r4 IH E1 E2) as [-> Hs]. cbn [jbind]. rewrite Hs.
  destruct (c_is e ","); [unbind H; injection H as <- <-; by rewrite (IHm _ _ _ _ _ q E3)|].
  destruct (c_is e "}"); [by injection H as <- <-|done].
Qed.

Lemma elems_stable f g d first s l r q : stable f g -> parse_elems (S f) d first s = inl (l, r) ->
  parse_elems (S g) d first (s ++ q) = inl (l, r ++ q).
Proof.
  intros IH. pose proof IH as (_ & _ & IHe). cbn [parse_elems]. destruct (skip_ws s) as [|b t] eqn:Es; [done|].
  rewrite (skip_ws_ext _ q _ _ Es). destruct (_ && _); [by intros [= <- <-]|].
  intros H. unbind H. destruct (skip_ws s0) as [|e r4] eqn:E0; [done|].
  destruct (value_then f g d (b :: t) a s0 q e r4 IH E E0) as [Hv Hs]. cbn [app] in Hv. rewrite Hv. cbn [jbind]. rewrite Hs.
  destruct (c_is e ","); [unbind H; injection H as <- <-; by rewrite (IHe _ _ _ _ _ q E1)|].
  destruct (c_is e "]"); [by injection H as <- <-|done].
Qed.

Lemma parse_stable f g : (f <= g)%nat -> stable f g.
Proof.
  revert g. induction f as [|f IH]; intros g Hg; [done|]. destruct g as [|g]; [lia|].
  specialize (IH g ltac:(lia)). split_and!; intros; [by eapply value_stable|by apply members_stable with f|by apply elems_stable with f].
Qed.

(** Reading the first value is stable under extension of the input. *)
Lemma parse_first_ext s v r q : parse_first s = inl (v, r) -> is_num v = false -> parse_first (s ++ q) = inl (v, r ++ q).
Proof.
  unfold parse_first. intros H Hn. apply (parse_stable (S (2 * length s))); [rewrite length_app; lia|done|by right].
Qed.

(** What starts with a brace is read as an object. *)
Lemma parse_first_object s v r : parse_first ("{"%char :: s) = inl (v, r) -> is_num v = false.
Proof.
  unfold parse_first. cbn [parse_value]. rewrite skip_ws_solid by done. change (c_is "{" "{") with true. cbn iota.
  destruct (_ <=? _); [done|]. intros H. unbind H. by injection H as <- <-.
Qed.

(** No proper prefix of the text of an object is read as a value. *)
Lemma parse_object_cut l p q : jfits maxNestingDepth (JObj l) -> enc (JObj l) = p ++ q -> q <> [] ->
  exists e, parse_first p = inr e.
Proof.
  intros Hl E Hq. destruct (parse_first p) as [[v r]|e] eqn:Ep; [|by exists e]. exfalso.
  destruct p as [|b p]; [done|]. assert (b = "{"%char) as -> by (by injection E).
  pose proof (parse_first_ext _ v r q Ep (parse_first_object _ _ _ Ep)) as H.
  rewrite <- E in H. pose proof (parse_object_enc l [] Hl) as H2. rewrite app_nil_r in H2. rewrite H2 in H.
  injection H as _ H. symmetry in H. by apply app_eq_nil in H as [_ H].
Qed.
