(* ===== verification/Envelope.v ===== *)
(** * Envelopes and payloads: [internal/protocol/envelope.go], [protocol.go]

    The message envelope, the payload structs, and how [encoding/json] stores a
    parsed object into a Go struct: members in order, keys matched up to case
    folding, [null] as a no-op, type mismatches recorded (the first one is
    reported) while the rest of the object is still decoded. *)

From S2P Require Import Prelude Utf8 GoStrings Base64 Json.

Local Open Scope Z_scope.

Definition MessageType := string.
Definition Encoding := string.

Definition MsgNick : MessageType := "nick".
Definition MsgText : MessageType := "text".
Definition MsgCommand : MessageType := "command".
Definition MsgFileMeta : MessageType := "file_meta".
Definition MsgFileChunk : MessageType := "file_chunk".
Definition MsgAck : MessageType := "ack".
Definition MsgPing : MessageType := "ping".
Definition MsgPong : MessageType := "pong".
Definition MsgHeartbeat : MessageType := "heartbeat".

Definition EncodingJSON : Encoding := "json".
Definition EncodingProtobuf : Encoding := "protobuf".

(** [Data] is a byte slice; no code of the program tells nil from empty. *)
Record Envelope := mkEnvelope {
  Version : string;
  Type_ : MessageType;
  Encoding_ : Encoding;
  From : string;
  Mid : string;
  Correlation : string;
  Ts : Z;
  Data : list byte;
}.

#[export] Instance envelope_eq_dec : EqDecision Envelope.
Proof. solve_decision. Defined.

Definition zero_envelope : Envelope := mkEnvelope "" "" "" "" "" "" 0 [].

(** ** Payloads *)

Record TextPayload := mkTextPayload { Text : string }.
Record SetNickPayload := mkSetNickPayload { Nick : string }.
Record ChatPayload := mkChatPayload { Chat_Content : string }.
Record CommandPayload := mkCommandPayload { Raw : string }.
Record AckPayload := mkAckPayload { Status : string }.
Record DirectPayload := mkDirectPayload { To : option (list string); Content : string }.
Record PingPayload := mkPingPayload { Seq : Z; Timestamp : Z }.
Record PongPayload := mkPongPayload { Pong_Seq : Z; Pong_Timestamp : Z }.
Record FileMetaPayload := mkFileMeta { FName : string; Size : Z; MimeType : string; Checksum : string }.
Record FileChunkPayload := mkFileChunk {
  FileID : string; ChunkID : Z; ChunkData : option (list byte); IsLast : bool; ChunkChecksum : string }.

(** ** Marshalling *)

Definition jstr (s : string) : jval := JStr (bytes s).
Definition field (name : string) (v : jval) : list byte * jval := (bytes name, v).

(** A non-nil byte slice is a base64 string, a nil one is [null]. *)
Definition jdata (d : option (list byte)) : jval :=
  match d with Some b => JStr (b64_encode b) | None => JNull end.
Definition jstrs (l : option (list string)) : jval :=
  match l with Some l => JArr (jstr <$> l) | None => JNull end.

Definition jTextPayload (p : TextPayload) : jval := JObj [field "text" (jstr (Text p))].
Definition jSetNickPayload (p : SetNickPayload) : jval := JObj [field "nick" (jstr (Nick p))].
Definition jCommandPayload (p : CommandPayload) : jval := JObj [field "raw" (jstr (Raw p))].
Definition jAckPayload (p : AckPayload) : jval := JObj [field "status" (jstr (Status p))].
Definition jDirectPayload (p : DirectPayload) : jval :=
  JObj [field "to" (jstrs (To p)); field "content" (jstr (Content p))].
Definition jPingPayload (p : PingPayload) : jval :=
  JObj [field "seq" (jint (Seq p)); field "timestamp" (jint (Timestamp p))].
Definition jPongPayload (p : PongPayload) : jval :=
  JObj [field "seq" (jint (Pong_Seq p)); field "timestamp" (jint (Pong_Timestamp p))].
Definition jFileMetaPayload (p : FileMetaPayload) : jval :=
  JObj [field "name" (jstr (FName p)); field "size" (jint (Size p));
        field "mime_type" (jstr (MimeType p)); field "checksum" (jstr (Checksum p))].
Definition jFileChunkPayload (p : FileChunkPayload) : jval :=
  JObj [field "file_id" (jstr (FileID p)); field "chunk_id" (jint (ChunkID p));
        field "data" (jdata (ChunkData p)); field "is_last" (JBool (IsLast p));
        field "checksum" (jstr (ChunkChecksum p))].

(** [data] is omitted when empty. *)
Definition jEnvelope (e : Envelope) : jval :=
  JObj ([field "version" (jstr (Version e)); field "type" (jstr (Type_ e));
         field "encoding" (jstr (Encoding_ e)); field "from" (jstr (From e));
         field "mid" (jstr (Mid e)); field "correlation_id" (jstr (Correlation e));
         field "ts" (jint (Ts e))] ++
        match Data e with [] => [] | d => [field "data" (jdata (Some d))] end).

(** [json.Marshal] *)
Definition Marshal (v : jval) : list byte := enc v.

(** ** Unmarshalling into structs *)

Inductive dec_error :=
| DecSyntax                      (** malformed JSON *)
| DecUnexpectedEOF
| DecType (what : string)        (** [UnmarshalTypeError] *)
| DecBase64.                     (** [CorruptInputError] *)

#[export] Instance dec_error_eq_dec : EqDecision dec_error.
Proof. solve_decision. Defined.

Definition of_jerr (e : jerr) : dec_error :=
  match e with JEOF => DecUnexpectedEOF | _ => DecSyntax end.

(** The kind of a value, as type errors name it. *)
Definition kind_of (v : jval) : string :=
  match v with
  | JNull => "null" | JBool _ => "bool" | JNum _ => "number"
  | JStr _ => "string" | JArr _ => "array" | JObj _ => "object"
  end.

(** Case folding of keys: ASCII letters, and the two non-ASCII runes that fold
    to ASCII ones (long s, Kelvin sign). *)
Definition fold_rune (r : Z) : Z :=
  if (97 <=? r) && (r <=? 122) then r - 32
  else if r =? 383 then 83
  else if r =? 8490 then 75
  else r.

Definition fold_name (k : list byte) : list Z := fold_rune ∘ rune <$> segs k.

(** The field a key selects: an exact name, else a name equal up to folding. *)
Definition field_of (names : list string) (k : list byte) : option string :=
  match List.find (fun n => bool_decide (bytes n = k)) names with
  | Some n => Some n
  | None => List.find (fun n => bool_decide (fold_name (bytes n) = fold_name k)) names
  end.

(** Keeps the first error. *)
Definition first_err (a b : option dec_error) : option dec_error :=
  match a with Some _ => a | None => b end.

(** A struct decoder: names of the fields and the assignment of one. *)
Definition setter (A : Type) : Type := string -> jval -> A -> A * option dec_error.

Fixpoint decode_members {A} (names : list string) (set : setter A)
  (ms : list (list byte * jval)) (a : A) (saved : option dec_error) : A * option dec_error :=
  match ms with
  | [] => (a, saved)
  | (k, v) :: ms' =>
      match field_of names k with
      | None => decode_members names set ms' a saved
      | Some n => let '(a', e) := set n v a in decode_members names set ms' a' (first_err saved e)
      end
  end.

Definition decode_struct {A} (names : list string) (set : setter A) (v : jval) (a : A)
  : A * option dec_error :=
  match v with
  | JObj ms => decode_members names set ms a None
  | JNull => (a, None)
  | _ => (a, Some (DecType (kind_of v)))
  end.

(** [json.Unmarshal(data, &a)] *)
Definition Unmarshal {A} (names : list string) (set : setter A) (data : list byte) (a : A)
  : A * option dec_error :=
  match parse_whole data with
  | inl v => decode_struct names set v a
  | inr e => (a, Some (of_jerr e))
  end.

Definition dec_string (v : jval) (old : string) : string * option dec_error :=
  match v with
  | JStr s => (str s, None)
  | JNull => (old, None)
  | _ => (old, Some (DecType (kind_of v)))
  end.

Definition dec_int64 (v : jval) (old : Z) : Z * option dec_error :=
  match v with
  | JNum lit => match ParseInt false lit with
                | (z, None) => (z, None)
                | (_, Some _) => (old, Some (DecType "number"))
                end
  | JNull => (old, None)
  | _ => (old, Some (DecType (kind_of v)))
  end.

(** One element of a JSON array stored into a byte. *)
Definition dec_uint8 (v : jval) (old : byte) : byte * option dec_error :=
  match v with
  | JNum lit => match ParseUint false lit with
                | (z, None) => if z <? 256 then (z2b z, None) else (old, Some (DecType "number"))
                | (_, Some _) => (old, Some (DecType "number"))
                end
  | JNull => (old, None)
  | _ => (old, Some (DecType (kind_of v)))
  end.

(** Elements into a backing array that reads as zero past its end. *)
Fixpoint dec_uint8s (l : list jval) (backing : list byte) : list byte * option dec_error :=
  match l with
  | [] => ([], None)
  | v :: l' =>
      let '(b, e) := dec_uint8 v (match backing with x :: _ => x | [] => zero end) in
      let '(bs, e') := dec_uint8s l' (List.tl backing) in (b :: bs, first_err e e')
  end.

(** A [[]byte] with the stale bytes of its array beyond the length: a later
    array value reuses the array. *)
Definition dec_bytes (v : jval) (old : list byte * list byte) : (list byte * list byte) * option dec_error :=
  match v with
  | JStr s => match b64_decode s with
              | Some b => ((b, []), None)
              | None => (old, Some DecBase64)
              end
  | JNull => (([], []), None)
  | JArr [] => (([], []), None)
  | JArr l => let backing := old.1 ++ old.2 in
              let '(bs, e) := dec_uint8s l backing in ((bs, drop (length l) backing), e)
  | _ => (old, Some (DecType (kind_of v)))
  end.

(** *** The envelope *)

Definition envelope_fields : list string :=
  ["version"; "type"; "encoding"; "from"; "mid"; "correlation_id"; "ts"; "data"]%string.

(** The struct under construction, with the stale bytes of [Data]. *)
Definition envelope_set : setter (Envelope * list byte) := fun n v es =>
  let '(e, spare) := es in
  let upd s (f : string -> Envelope) := let '(s', err) := dec_string v s in ((f s', spare), err) in
  if String.eqb n "version"%string then upd (Version e) (fun x => mkEnvelope x (Type_ e) (Encoding_ e) (From e) (Mid e) (Correlation e) (Ts e) (Data e))
  else if String.eqb n "type"%string then upd (Type_ e) (fun x => mkEnvelope (Version e) x (Encoding_ e) (From e) (Mid e) (Correlation e) (Ts e) (Data e))
  else if String.eqb n "encoding"%string then upd (Encoding_ e) (fun x => mkEnvelope (Version e) (Type_ e) x (From e) (Mid e) (Correlation e) (Ts e) (Data e))
  else if String.eqb n "from"%string then upd (From e) (fun x => mkEnvelope (Version e) (Type_ e) (Encoding_ e) x (Mid e) (Correlation e) (Ts e) (Data e))
  else if String.eqb n "mid"%string then upd (Mid e) (fun x => mkEnvelope (Version e) (Type_ e) (Encoding_ e) (From e) x (Correlation e) (Ts e) (Data e))
  else if String.eqb n "correlation_id"%string then upd (Correlation e) (fun x => mkEnvelope (Version e) (Type_ e) (Encoding_ e) (From e) (Mid e) x (Ts e) (Data e))
  else if String.eqb n "ts"%string then
    let '(z, err) := dec_int64 v (Ts e) in
    ((mkEnvelope (Version e) (Type_ e) (Encoding_ e) (From e) (Mid e) (Correlation e) z (Data e), spare), err)
  else
    let '((d, sp), err) := dec_bytes v (Data e, spare) in
    ((mkEnvelope (Version e) (Type_ e) (Encoding_ e) (From e) (Mid e) (Correlation e) (Ts e) d, sp), err).

Definition decode_envelope (v : jval) (e : Envelope) : Envelope * option dec_error :=
  let '((e', _), err) := decode_struct envelope_fields envelope_set v (e, []) in (e', err).

(** *** The ping payload *)

Definition ping_fields : list string := ["seq"; "timestamp"]%string.
Definition ping_set : setter PingPayload := fun n v p =>
  if String.eqb n "seq"%string
  then let '(z, err) := dec_int64 v (Seq p) in (mkPingPayload z (Timestamp p), err)
  else let '(z, err) := dec_int64 v (Timestamp p) in (mkPingPayload (Seq p) z, err).

Definition unmarshal_ping (data : list byte) : PingPayload * option dec_error :=
  Unmarshal ping_fields ping_set data (mkPingPayload 0 0).

(** Integers written by the encoder are read back. *)
Lemma ParseInt_Itoa z : in_int64 z -> ParseInt false (bytes (Itoa z)) = (z, None).
Proof. apply Atoi_Itoa. Qed.

Lemma dec_int64_jint z old : in_int64 z -> dec_int64 (jint z) old = (z, None).
Proof. intros Hz. unfold dec_int64, jint. by rewrite ParseInt_Itoa. Qed.
