(* ===== verification/Factory.v ===== *)
(** * Message factory: [internal/protocol/message_factory.go]

    The identifier [uuid.New] returns and the milliseconds each [time.Now] call
    returns are arguments, in the order of the calls. *)

From S2P Require Import Prelude Utf8 GoStrings Base64 Json Envelope.

Local Open Scope Z_scope.

Record MessageFactory := mkFactory { version : string }.

Definition NewMessageFactory : MessageFactory := mkFactory "1.0".

Definition CreateTextMessage (f : MessageFactory) (text : string) (mid : string) (ts : Z) : Envelope :=
  mkEnvelope (version f) MsgText EncodingJSON "" mid "" ts (Marshal (jTextPayload (mkTextPayload text))).

Definition CreateSetNickMessage (f : MessageFactory) (nick : string) (mid : string) (ts : Z) : Envelope :=
  mkEnvelope (version f) MsgText EncodingJSON "" mid "" ts (Marshal (jSetNickPayload (mkSetNickPayload nick))).

Definition CreateCommandMessage (f : MessageFactory) (command : string) (mid : string) (ts : Z) : Envelope :=
  mkEnvelope (version f) MsgCommand EncodingJSON "" mid "" ts (Marshal (jCommandPayload (mkCommandPayload command))).

Definition CreateAckMessage (f : MessageFactory) (status correlationID : string) (mid : string) (ts : Z) : Envelope :=
  mkEnvelope (version f) MsgAck EncodingJSON "" mid correlationID ts (Marshal (jAckPayload (mkAckPayload status))).

(** [t1] is read for the payload, [ts] for the envelope. *)
Definition CreatePingMessage (f : MessageFactory) (seq : Z) (t1 : Z) (mid : string) (ts : Z) : Envelope :=
  mkEnvelope (version f) MsgPing EncodingJSON "" mid "" ts (Marshal (jPingPayload (mkPingPayload seq t1))).

Definition CreatePongMessage (f : MessageFactory) (seq : Z) (correlationID : string) (t1 : Z) (mid : string) (ts : Z) : Envelope :=
  mkEnvelope (version f) MsgPong EncodingJSON "" mid correlationID ts (Marshal (jPongPayload (mkPongPayload seq t1))).

Definition CreateDirectMessage (f : MessageFactory) (from : string) (to : option (list string)) (content : string)
  (mid : string) (ts : Z) : Envelope :=
  mkEnvelope (version f) MsgText EncodingJSON from mid "" ts (Marshal (jDirectPayload (mkDirectPayload to content))).

Definition CreateFileMetaMessage (f : MessageFactory) (from : string) (meta : FileMetaPayload) (mid : string) (ts : Z) : Envelope :=
  mkEnvelope (version f) MsgFileMeta EncodingJSON from mid "" ts (Marshal (jFileMetaPayload meta)).

Definition CreateFileChunkMessage (f : MessageFactory) (from : string) (chunk : FileChunkPayload) (mid : string) (ts : Z) : Envelope :=
  mkEnvelope (version f) MsgFileChunk EncodingJSON from mid "" ts (Marshal (jFileChunkPayload chunk)).

(** ** What a created message is *)

(** The message of a factory call: fixed header, and data that parses back to
    the payload. *)
Record made (m : Envelope) (ty : MessageType) (payload : jval) (mid : string) (ts : Z) : Prop := {
  made_version : Version m = "1.0"%string;
  made_type : Type_ m = ty;
  made_encoding : Encoding_ m = EncodingJSON;
  made_mid : Mid m = mid;
  made_ts : Ts m = ts;
  made_data : parse_whole (Data m) = inl (jsan payload);
}.

Lemma made_payload ty payload mid ts fr co :
  jfits maxNestingDepth payload ->
  made (mkEnvelope "1.0" ty EncodingJSON fr mid co ts (Marshal payload)) ty payload mid ts.
Proof. intros Hp. split; try done. by apply parse_whole_enc. Qed.

Lemma jfits_jint k z : in_int64 z -> jfits k (jint z).
Proof. intros Hz. by exists z. Qed.

Lemma jfits_jstrs k l : 1 < k -> jfits (k - 1) (jstrs l).
Proof.
  intros Hk. destruct l as [l|]; [|done]. simpl. split; [lia|].
  induction l as [|s l IH]; [done|]. by split.
Qed.

#[export] Hint Resolve jfits_jint : chatgo.

(** The factory.  Every message carries the version, the JSON
    encoding, the id and time of the call, the type of its constructor (a
    set-nick message is typed as text, not nick) and data that parses back to
    its payload with ill-formed UTF-8 replaced. *)
Theorem factory_messages mid ts t1 seq text co fr to meta chunk :
  in_int64 t1 -> in_int64 seq -> in_int64 (Size meta) -> in_int64 (ChunkID chunk) ->
  let f := NewMessageFactory in
  made (CreateTextMessage f text mid ts) MsgText (jTextPayload (mkTextPayload text)) mid ts /\
  made (CreateSetNickMessage f text mid ts) MsgText (jSetNickPayload (mkSetNickPayload text)) mid ts /\
  made (CreateCommandMessage f text mid ts) MsgCommand (jCommandPayload (mkCommandPayload text)) mid ts /\
  made (CreateAckMessage f text co mid ts) MsgAck (jAckPayload (mkAckPayload text)) mid ts /\
  made (CreatePingMessage f seq t1 mid ts) MsgPing (jPingPayload (mkPingPayload seq t1)) mid ts /\
  made (CreatePongMessage f seq co t1 mid ts) MsgPong (jPongPayload (mkPongPayload seq t1)) mid ts /\
  made (CreateDirectMessage f fr to text mid ts) MsgText (jDirectPayload (mkDirectPayload to text)) mid ts /\
  made (CreateFileMetaMessage f fr meta mid ts) MsgFileMeta (jFileMetaPayload meta) mid ts /\
  made (CreateFileChunkMessage f fr chunk mid ts) MsgFileChunk (jFileChunkPayload chunk) mid ts.
Proof.
  intros H1 H2 H3 H4 f. split_and!; apply made_payload; (split; [done|]); cbn [foldr field fst snd].
  all: split_and?; try done; try (by apply jfits_jint).
  - by apply jfits_jstrs.
  - by destruct (ChunkData chunk).
Qed.

Lemma factory_messages_witness :
  parse_whole (Data (CreateTextMessage NewMessageFactory "hi" "m1" 5)) =
    inl (JObj [(bytes "text", JStr (bytes "hi"))]).
Proof.
  destruct (factory_messages "m1" 5 0 0 "hi" "" "" None (mkFileMeta "" 0 "" "") (mkFileChunk "" 0 None false ""))
    as (H & _); [vm_compute; split; discriminate..|]. exact (made_data _ _ _ _ _ H).
Defined.

(** Reading a ping or pong payload back. *)
Lemma unmarshal_ping_made seq t1 : in_int64 seq -> in_int64 t1 ->
  unmarshal_ping (Marshal (jPingPayload (mkPingPayload seq t1))) = (mkPingPayload seq t1, None).
Proof.
  intros Hs Ht. unfold unmarshal_ping, Unmarshal, Marshal. rewrite parse_whole_enc.
  - unfold jPingPayload, decode_struct. cbn [jsan]. rewrite !fmap_cons. cbn [fst snd field].
    cbn [Seq Timestamp].
    change (sanitize (bytes "seq")) with (bytes "seq"). change (sanitize (bytes "timestamp")) with (bytes "timestamp").
    change (jsan (jint seq)) with (jint seq). change (jsan (jint t1)) with (jint t1).
    cbn [decode_members]. change (field_of ping_fields (bytes "seq")) with (Some "seq"%string).
    change (field_of ping_fields (bytes "timestamp")) with (Some "timestamp"%string).
    cbn -[dec_int64 jint]. rewrite dec_int64_jint by done. cbn -[dec_int64 jint].
    by rewrite dec_int64_jint.
  - split; [done|]. cbn [foldr field fst snd]. split_and?; try done; by apply jfits_jint.
Qed.
