(* ===== verification/Wire.v ===== *)
(** * The Protocol Buffers wire format

    The documented encoding of messages: base-128 varints, tags that carry a
    field number and a wire type, length-delimited values, groups.  A message is
    a sequence of records; [parse_records] splits a text into them, and rejects
    what the format does not allow (truncated values, varints of more than 64
    bits, field numbers out of range, unbalanced groups).  Pb.v interprets the
    records by the schema of the generated code. *)

From S2P Require Import Prelude.

Local Open Scope Z_scope.

(** ** Varints *)

(** The low seven bits first; at most [k] bytes. *)
Fixpoint put_varint (k : nat) (z : Z) : list byte :=
  match k with
  | O => []
  | S k' => if z <? 128 then [z2b z] else z2b (z mod 128 + 128) :: put_varint k' (z / 128)
  end.

Inductive werr := WTruncated | WInvalid | WFuel.

#[export] Instance werr_eq_dec : EqDecision werr.
Proof. solve_decision. Defined.

(** Results with the input left over. *)
Definition wres (A : Type) : Type := ((A * list byte) + werr)%type.

Definition wbind {A B} (r : wres A) (f : A -> list byte -> wres B) : wres B :=
  match r with inl (a, s) => f a s | inr e => inr e end.

(** At most [k] bytes; the last of them may only hold one bit, as ten bytes
    carry 64. *)
Fixpoint get_varint (k : nat) (s : list byte) : wres Z :=
  match k with
  | O => inr WInvalid
  | S k' =>
      match s with
      | [] => inr WTruncated
      | b :: s' =>
          let y := b2z b in
          if y <? 128
          then if bool_decide (k' = O) && (1 <? y) then inr WInvalid else inl (y, s')
          else wbind (get_varint k' s') (fun v r => inl (y - 128 + 128 * v, r))
      end
  end.

Definition put_uvarint (z : Z) : list byte := put_varint 10 z.
Definition get_uvarint (s : list byte) : wres Z := get_varint 10 s.

(** ** Records *)

Inductive wval :=
| WVarint (v : Z)
| WFixed64 (b : list byte)
| WBytes (b : list byte)
| WGroup
| WEnd                                (** the end of a group *)
| WFixed32 (b : list byte).

(** [n] bytes. *)
Definition get_bytes (n : nat) (s : list byte) : wres (list byte) :=
  if (length s <? n)%nat then inr WTruncated else inl (take n s, drop n s).

Definition max_field_number : Z := 536870911.

(** The field number and the wire type. *)
Definition get_tag (s : list byte) : wres (Z * Z) :=
  wbind (get_uvarint s) (fun tag s1 =>
    let num := tag / 8 in
    if (num <? 1) || (max_field_number <? num) then inr WInvalid else inl ((num, tag mod 8), s1)).

Definition get_scalar (wt : Z) (s : list byte) : wres wval :=
  if wt =? 0 then wbind (get_uvarint s) (fun v r => inl (WVarint v, r))
  else if wt =? 1 then wbind (get_bytes 8 s) (fun b r => inl (WFixed64 b, r))
  else if wt =? 2 then
    wbind (get_uvarint s) (fun n r =>
      if Z.of_nat (length r) <? n then inr WTruncated
      else wbind (get_bytes (Z.to_nat n) r) (fun b r' => inl (WBytes b, r')))
  else if wt =? 4 then inl (WEnd, s)
  else if wt =? 5 then wbind (get_bytes 4 s) (fun b r => inl (WFixed32 b, r))
  else inr WInvalid.

(** One record.  The records of a group are skipped up to the end tag with the
    same number. *)
Fixpoint get_record (fuel : nat) (s : list byte) : wres (Z * wval) :=
  match fuel with
  | O => inr WFuel
  | S f =>
      wbind (get_tag s) (fun t s1 =>
        if t.2 =? 3
        then wbind (skip_group f t.1 s1) (fun _ r => inl ((t.1, WGroup), r))
        else wbind (get_scalar t.2 s1) (fun v r => inl ((t.1, v), r)))
  end
with skip_group (fuel : nat) (num : Z) (s : list byte) : wres unit :=
  match fuel with
  | O => inr WFuel
  | S f =>
      wbind (get_record f s) (fun nv r =>
        match nv.2 with
        | WEnd => if nv.1 =? num then inl (tt, r) else inr WInvalid
        | _ => skip_group f num r
        end)
  end.

(** All records of a message; an end tag outside a group is an error. *)
Fixpoint get_records (fuel : nat) (s : list byte) : list (Z * wval) + werr :=
  match s with
  | [] => inl []
  | _ =>
      match fuel with
      | O => inr WFuel
      | S f =>
          match get_record (S (2 * length s)) s with
          | inr e => inr e
          | inl ((n, WEnd), _) => inr WInvalid
          | inl ((n, v), r) => match get_records f r with inl l => inl ((n, v) :: l) | inr e => inr e end
          end
      end
  end.

Definition parse_records (s : list byte) : list (Z * wval) + werr := get_records (length s) s.

(** ** Writing *)

Definition put_tag (num wt : Z) : list byte := put_uvarint (num * 8 + wt).
Definition put_bytes (num : Z) (b : list byte) : list byte :=
  put_tag num 2 ++ put_uvarint (Z.of_nat (length b)) ++ b.
Definition put_int (num v : Z) : list byte := put_tag num 0 ++ put_uvarint v.

(** ** Every read consumes its input *)

(** A successful read leaves a proper suffix, or, if [strict] is false, a
    suffix. *)
Definition consumes {A} (strict : bool) (s : list byte) (r : wres A) : Prop :=
  match r with
  | inl (_, s') => exists p, s = p ++ s' /\ (strict = true -> p <> [])
  | inr _ => True
  end.

Lemma consumes_length {A} (a : A) s s' : consumes true s (inl (a, s')) -> (length s' < length s)%nat.
Proof. intros (p & -> & Hp). rewrite length_app. destruct p; [by destruct Hp|simpl; lia]. Qed.

Lemma consumes_bind {A B} (b1 b2 : bool) s (r : wres A) (f : A -> list byte -> wres B) :
  consumes b1 s r -> (forall a s', consumes b2 s' (f a s')) -> consumes (b1 || b2) s (wbind r f).
Proof.
  destruct r as [[a s']|e]; [|done]. intros (p & -> & Hp) Hf. specialize (Hf a s'). simpl.
  destruct (f a s') as [[b s'']|e]; [|done]. destruct Hf as (q & -> & Hq). exists (p ++ q).
  split; [by rewrite app_assoc|]. intros Hb. destruct b1; [|destruct b2; [|done]].
  - destruct p; [by destruct Hp|done].
  - intros E. apply app_eq_nil in E as [_ ->]. by apply Hq.
Qed.

Lemma consumes_ret {A} (a : A) s : consumes false s (inl (a, s)).
Proof. by exists []. Qed.

Lemma consumes_weaken {A} b s (r : wres A) : consumes b s r -> consumes false s r.
Proof. destruct r as [[a s']|e]; [|done]. intros (p & -> & _). by exists p. Qed.

#[export] Hint Resolve consumes_ret : chatgo.

Lemma get_varint_consumes k s : consumes true s (get_varint k s).
Proof.
  revert s. induction k as [|k IH]; intros [|b s]; try done. cbn [get_varint].
  destruct (b2z b <? 128).
  - destruct (_ && _); [done|]. by exists [b].
  - specialize (IH s). destruct (get_varint k s) as [[v r]|e]; [|done]. destruct IH as (p & -> & _). by exists (b :: p).
Qed.

Lemma get_bytes_consumes n s : consumes false s (get_bytes n s).
Proof. unfold get_bytes. destruct (_ <? _)%nat; [done|]. exists (take n s). by rewrite take_drop. Qed.

Lemma get_tag_consumes s : consumes true s (get_tag s).
Proof.
  apply (consumes_bind true false); [apply get_varint_consumes|]. intros tag s'. cbn zeta.
  case_match; [done|]. apply consumes_ret.
Qed.

Lemma get_scalar_consumes wt s : consumes false s (get_scalar wt s).
Proof.
  assert (Hv : consumes false s (get_uvarint s)) by (eapply consumes_weaken, get_varint_consumes).
  unfold get_scalar. repeat case_match; try done; auto with chatgo.
  - apply (consumes_bind false false); auto with chatgo.
  - apply (consumes_bind false false); [apply get_bytes_consumes|auto with chatgo].
  - apply (consumes_bind false false); [done|]. intros n s'. destruct (_ <? _); [done|].
    apply (consumes_bind false false); [apply get_bytes_consumes|auto with chatgo].
  - apply (consumes_bind false false); [apply get_bytes_consumes|auto with chatgo].
Qed.

Lemma record_consumes f :
  (forall s, consumes true s (get_record f s)) /\ (forall num s, consumes true s (skip_group f num s)).
Proof.
  induction f as [|f [IHr IHg]]; [done|]. split.
  - intros s. cbn [get_record]. apply (consumes_bind true false); [apply get_tag_consumes|]. intros t s1.
    destruct (t.2 =? 3).
    + apply (consumes_bind false false); [eapply consumes_weaken, IHg|auto with chatgo].
    + apply (consumes_bind false false); [apply get_scalar_consumes|auto with chatgo].
  - intros num s. cbn [skip_group]. apply (consumes_bind true false); [apply IHr|]. intros [n v] r. cbn [fst snd].
    destruct v; try (eapply consumes_weaken, IHg). destruct (n =? num); [auto with chatgo|done].
Qed.

(** ** The fuel is enough *)

Lemma wbind_no_fuel {A B} (r : wres A) (f : A -> list byte -> wres B) :
  r <> inr WFuel -> (forall a s, r = inl (a, s) -> f a s <> inr WFuel) -> wbind r f <> inr WFuel.
Proof. destruct r as [[a s]|e]; simpl; [auto|congruence]. Qed.

Lemma get_varint_no_fuel k s : get_varint k s <> inr WFuel.
Proof.
  revert s. induction k as [|k IH]; intros [|b s]; try done. cbn [get_varint].
  destruct (b2z b <? 128); [by case_match|]. apply wbind_no_fuel; [apply IH|done].
Qed.

Lemma get_bytes_no_fuel n s : get_bytes n s <> inr WFuel.
Proof. unfold get_bytes. by case_match. Qed.

Lemma get_tag_no_fuel s : get_tag s <> inr WFuel.
Proof. apply wbind_no_fuel; [apply get_varint_no_fuel|]. intros tag r _. cbn zeta. by case_match. Qed.

Lemma get_scalar_no_fuel wt s : get_scalar wt s <> inr WFuel.
Proof.
  unfold get_scalar, get_uvarint. repeat case_match; try done;
    (apply wbind_no_fuel; [apply get_varint_no_fuel || apply get_bytes_no_fuel|]; intros; try done).
  case_match; [done|]. apply wbind_no_fuel; [apply get_bytes_no_fuel|done].
Qed.

Lemma record_no_fuel f :
  (forall s, (2 * length s < f)%nat -> get_record f s <> inr WFuel) /\
  (forall num s, (2 * length s + 1 < f)%nat -> skip_group f num s <> inr WFuel).
Proof.
  induction f as [|f [IHr IHg]]; [split; intros; lia|]. split.
  - intros s Hf. cbn [get_record]. apply wbind_no_fuel; [apply get_tag_no_fuel|]. intros t s1 E.
    pose proof (get_tag_consumes s) as Hc. rewrite E in Hc. apply consumes_length in Hc.
    destruct (t.2 =? 3); (apply wbind_no_fuel; [|done]); [apply IHg; lia|apply get_scalar_no_fuel].
  - intros num s Hf. cbn [skip_group]. apply wbind_no_fuel; [apply IHr; lia|]. intros [n v] r E.
    pose proof (proj1 (record_consumes f) s) as Hc. rewrite E in Hc. apply consumes_length in Hc.
    destruct v; simpl; try (apply IHg; lia). by destruct (n =? num).
Qed.

Lemma get_records_fuel f s : (length s <= f)%nat -> get_records f s = parse_records s /\ parse_records s <> inr WFuel.
Proof.
  unfold parse_records.
  assert (Hg : forall n f s, (length s <= n)%nat -> (length s <= f)%nat ->
    get_records f s = get_records n s /\ get_records n s <> inr WFuel).
  { induction n as [|n IH]; intros g t Hn Hg; [destruct t; [by destruct g|simpl in Hn; lia]|].
    destruct t as [|b t]; [by destruct g|]. destruct g as [|g]; [simpl in Hg; lia|]. cbn [get_records].
    pose proof (proj1 (record_no_fuel (S (2 * length (b :: t)))) (b :: t) ltac:(lia)) as Hnf.
    pose proof (proj1 (record_consumes (S (2 * length (b :: t)))) (b :: t)) as Hc.
    destruct (get_record _ (b :: t)) as [[[k v] r]|e]; [|split; [done|congruence]].
    apply consumes_length in Hc. destruct (IH g r) as [E N]; [simpl in *; lia..|]. rewrite E.
    destruct v; (split; [done|]); try done; destruct (get_records n r) as [l|e]; congruence. }
  intros Hf. apply Hg; [done|done].
Qed.

(** Parsing always ends with the records or an error of the format. *)
Lemma parse_records_total s : parse_records s <> inr WFuel.
Proof. by apply (get_records_fuel (length s)). Qed.

(** ** What is written is read back *)

Lemma varint_roundtrip k z r : 0 <= z < 2 * 128 ^ Z.of_nat k ->
  get_varint (S k) (put_varint (S k) z ++ r) = inl (z, r).
Proof.
  revert z. induction k as [|k IH]; intros z Hz.
  { simpl in Hz. cbn [put_varint]. rewrite (proj2 (Z.ltb_lt z 128)) by lia. cbn [get_varint app].
    rewrite b2z_z2b by lia. rewrite (proj2 (Z.ltb_lt z 128)), bool_decide_true, (proj2 (Z.ltb_ge 1 z)) by (done || lia). done. }
  rewrite Nat2Z.inj_succ, Z.pow_succ_r in Hz by lia. set (k1 := S k) in *.
  change (put_varint (S k1) z) with (if z <? 128 then [z2b z] else z2b (z mod 128 + 128) :: put_varint k1 (z / 128)).
  pose proof (Z.mod_pos_bound z 128 ltac:(lia)) as Hm. pose proof (Z.div_mod z 128 ltac:(lia)) as Hd.
  destruct (Z.ltb_spec z 128) as [Hs|Hs]; cbn [app get_varint].
  - rewrite b2z_z2b by lia. rewrite (proj2 (Z.ltb_lt z 128)), bool_decide_false by (done || lia). done.
  - rewrite b2z_z2b by lia. rewrite (proj2 (Z.ltb_ge _ 128)) by lia. unfold k1.
    rewrite IH; [cbn [wbind]; do 2 f_equal; lia|]. split; [apply Z.div_pos; lia|]. apply Z.div_lt_upper_bound; lia.
Qed.

Lemma uvarint_roundtrip z r : 0 <= z < 18446744073709551616 -> get_uvarint (put_uvarint z ++ r) = inl (z, r).
Proof. intros Hz. apply varint_roundtrip. exact Hz. Qed.

Lemma put_varint_nonempty z : put_uvarint z <> [].
Proof. unfold put_uvarint. simpl. by destruct (z <? 128). Qed.

Lemma tag_roundtrip num wt r : 1 <= num <= max_field_number -> 0 <= wt < 8 ->
  get_tag (put_tag num wt ++ r) = inl ((num, wt), r).
Proof.
  unfold max_field_number. intros Hn Hw. unfold get_tag, put_tag. rewrite uvarint_roundtrip by lia. cbn [wbind].
  rewrite <- (Z.div_unique (num * 8 + wt) 8 num wt), <- (Z.mod_unique (num * 8 + wt) 8 num wt) by lia.
  unfold max_field_number. by rewrite (proj2 (Z.ltb_ge num 1)), (proj2 (Z.ltb_ge _ num)) by lia.
Qed.

(** The text [p] is the record [nv]. *)
Definition is_record (p : list byte) (nv : Z * wval) : Prop :=
  p <> [] /\ nv.2 <> WEnd /\ forall f r, get_record (S f) (p ++ r) = inl (nv, r).

Lemma put_bytes_record num b : 1 <= num <= max_field_number -> Z.of_nat (length b) < 18446744073709551616 ->
  is_record (put_bytes num b) (num, WBytes b).
Proof.
  intros Hn Hb. split_and!; [|done|].
  - unfold put_bytes, put_tag. intros E. apply app_eq_nil in E as [E _]. by apply put_varint_nonempty in E.
  - intros f r. cbn [get_record]. unfold put_bytes. rewrite <- !app_assoc, tag_roundtrip by lia. cbn [wbind snd fst].
    unfold get_scalar. rewrite uvarint_roundtrip by lia. cbn [wbind].
    rewrite (proj2 (Z.ltb_ge _ _)) by (rewrite length_app; lia). unfold get_bytes. rewrite Nat2Z.id.
    assert ((length (b ++ r) <? length b)%nat = false) as -> by (apply Nat.ltb_ge; rewrite length_app; lia). cbn [wbind].
    by rewrite take_app_length, drop_app_length.
Qed.

Lemma put_int_record num v : 1 <= num <= max_field_number -> 0 <= v < 18446744073709551616 ->
  is_record (put_int num v) (num, WVarint v).
Proof.
  intros Hn Hv. split_and!; [|done|].
  - unfold put_int, put_tag. intros E. apply app_eq_nil in E as [E _]. by apply put_varint_nonempty in E.
  - intros f r. cbn [get_record]. unfold put_int. rewrite <- !app_assoc, tag_roundtrip by lia. cbn [wbind snd fst].
    unfold get_scalar. by rewrite uvarint_roundtrip by lia.
Qed.

Lemma parse_records_cons p nv r : is_record p nv ->
  parse_records (p ++ r) = match parse_records r with inl l => inl (nv :: l) | inr e => inr e end.
Proof.
  intros (Hp & He & Hr). unfold parse_records at 1. destruct p as [|b p]; [done|].
  destruct (get_records_fuel (length (p ++ r)) r) as [E _]; [rewrite length_app; lia|].
  specialize (Hr (2 * length ((b :: p) ++ r))%nat r). rewrite <- app_comm_cons in *. cbn [length] in Hr.
  cbn [length get_records]. rewrite Hr. destruct nv as [n v]. destruct v; try (by rewrite E). by destruct He.
Qed.

(** The records of a message that is written field by field. *)
Lemma parse_records_concat ps nvs r : Forall2 is_record ps nvs ->
  parse_records (concat ps ++ r) = match parse_records r with inl l => inl (nvs ++ l) | inr e => inr e end.
Proof.
  intros Hf. induction Hf as [|p nv ps nvs Hp Hf IH]; simpl; [by destruct (parse_records r)|].
  rewrite <- app_assoc, (parse_records_cons p nv) by done. rewrite IH. by destruct (parse_records r).
Qed.

(** ** A record that is cut short is refused *)

(** A proper prefix of a concatenation ends in the first part or in the second. *)
Lemma cut_app {A} (q q' a b : list A) : q ++ q' = a ++ b -> q' <> [] ->
  (exists a', a = q ++ a' /\ a' <> []) \/ (exists q2, q = a ++ q2 /\ b = q2 ++ q').
Proof.
  intros H Hq. apply app_eq_inv in H as [(k & -> & ->)|(k & -> & ->)]; [by right; eexists|].
  destruct k as [|x k]; [|left; by eexists]. right. exists []. by rewrite !app_nil_r.
Qed.

Lemma varint_cut k z q q' : put_varint (S k) z = q ++ q' -> q' <> [] -> get_varint (S k) q = inr WTruncated.
Proof.
  revert z q. induction k as [|k IH]; intros z q E Hq.
  { destruct q as [|b q]; [done|]. exfalso. cbn [put_varint] in E. destruct (z <? 128); injection E as <- E;
      symmetry in E; apply app_eq_nil in E as [_ E]; done. }
  destruct q as [|b q]; [done|]. set (k1 := S k) in *.
  change (put_varint (S k1) z) with (if z <? 128 then [z2b z] else z2b (z mod 128 + 128) :: put_varint k1 (z / 128)) in E.
  pose proof (Z.mod_pos_bound z 128 ltac:(lia)) as Hm.
  destruct (z <? 128); injection E as <- E; [symmetry in E; by apply app_eq_nil in E as [_ E]|].
  cbn [get_varint]. rewrite b2z_z2b by lia. rewrite (proj2 (Z.ltb_ge _ 128)) by lia. by rewrite (IH (z / 128)).
Qed.

Lemma put_bytes_cut num b q q' f : 1 <= num <= max_field_number -> Z.of_nat (length b) < 18446744073709551616 ->
  put_bytes num b = q ++ q' -> q' <> [] -> get_record (S f) q = inr WTruncated.
Proof.
  intros Hn Hb E Hq. cbn [get_record]. symmetry in E. unfold put_bytes in E.
  apply cut_app in E as [(a & E & Ha)|(q2 & -> & E)]; [|symmetry in E|done].
  { unfold get_tag, get_uvarint. by rewrite (varint_cut 9 _ q a E). }
  rewrite tag_roundtrip by lia. cbn [wbind snd fst]. unfold get_scalar. change (2 =? 3) with false. cbn iota.
  apply cut_app in E as [(a & E & Ha)|(q3 & -> & ->)]; [| |done].
  { unfold get_uvarint. change (2 =? 0) with false. change (2 =? 1) with false. change (2 =? 2) with true. cbn iota.
    by rewrite (varint_cut 9 _ q2 a E). }
  change (2 =? 0) with false. change (2 =? 1) with false. change (2 =? 2) with true. cbn iota.
  rewrite uvarint_roundtrip by lia. cbn [wbind].
  rewrite (proj2 (Z.ltb_lt _ _)); [done|]. rewrite length_app. destruct q'; [done|]. simpl. lia.
Qed.

Lemma put_int_cut num v q q' f : 1 <= num <= max_field_number ->
  put_int num v = q ++ q' -> q' <> [] -> get_record (S f) q = inr WTruncated.
Proof.
  intros Hn E Hq. cbn [get_record]. symmetry in E. unfold put_int in E.
  apply cut_app in E as [(a & E & Ha)|(q2 & -> & E)]; [| |done].
  { unfold get_tag, get_uvarint. by rewrite (varint_cut 9 _ q a E). }
  rewrite tag_roundtrip by lia. cbn [wbind snd fst]. unfold get_scalar, get_uvarint.
  change (0 =? 3) with false. change (0 =? 0) with true. cbn iota. by rewrite (varint_cut 9 _ q2 q' E).
Qed.

(** A message that ends inside a record. *)
Lemma parse_records_cut q : q <> [] -> (forall f, get_record (S f) q = inr WTruncated) -> parse_records q = inr WTruncated.
Proof. intros Hq Hc. destruct q as [|x q]; [done|]. unfold parse_records. cbn [length get_records]. by rewrite Hc. Qed.
