(* ===== verification/Pb.v ===== *)
(** * The generated Protocol Buffers code: [internal/protocol/pb/envelope.pb.go]

    The enums with their name tables, the message struct with its getters (which
    accept a nil receiver) and its schema, and the descriptor the file embeds.
    [wire_Marshal] and [wire_Unmarshal] encode and decode the struct by its
    schema in the wire format of Wire.v: they are the reference for the library
    functions, which the codec takes as parameters.  The theorems: messages
    round-trip through the wire format, unknown fields are skipped, and the
    embedded descriptor describes exactly the schema and the enums. *)

From S2P Require Import Prelude Utf8 Wire.

Local Open Scope Z_scope.

(** ** Enums *)

Definition ENCODING_UNSPECIFIED : Z := 0.
Definition ENCODING_JSON : Z := 1.
Definition ENCODING_PROTOBUF : Z := 2.
Definition ENCODING_BINARY : Z := 3.

Definition Encoding_name : list (Z * string) :=
  [(0, "ENCODING_UNSPECIFIED"); (1, "ENCODING_JSON"); (2, "ENCODING_PROTOBUF"); (3, "ENCODING_BINARY")]%string.

Definition Encoding_value : gmap string Z :=
  {[ "ENCODING_UNSPECIFIED" := 0; "ENCODING_JSON" := 1; "ENCODING_PROTOBUF" := 2; "ENCODING_BINARY" := 3 ]}%string.

Definition MSG_TYPE_UNSPECIFIED : Z := 0.
Definition MSG_TYPE_TEXT : Z := 1.
Definition MSG_TYPE_COMMAND : Z := 2.
Definition MSG_TYPE_FILE_META : Z := 3.
Definition MSG_TYPE_FILE_CHUNK : Z := 4.
Definition MSG_TYPE_ACK : Z := 5.
Definition MSG_TYPE_PING : Z := 6.
Definition MSG_TYPE_PONG : Z := 7.

Definition MessageType_name : list (Z * string) :=
  [(0, "MSG_TYPE_UNSPECIFIED"); (1, "MSG_TYPE_TEXT"); (2, "MSG_TYPE_COMMAND"); (3, "MSG_TYPE_FILE_META");
   (4, "MSG_TYPE_FILE_CHUNK"); (5, "MSG_TYPE_ACK"); (6, "MSG_TYPE_PING"); (7, "MSG_TYPE_PONG")]%string.

Definition MessageType_value : gmap string Z :=
  {[ "MSG_TYPE_UNSPECIFIED" := 0; "MSG_TYPE_TEXT" := 1; "MSG_TYPE_COMMAND" := 2; "MSG_TYPE_FILE_META" := 3;
     "MSG_TYPE_FILE_CHUNK" := 4; "MSG_TYPE_ACK" := 5; "MSG_TYPE_PING" := 6; "MSG_TYPE_PONG" := 7 ]}%string.

(** ** The message *)

(** Its fields carry the names of their getters. *)
Record pbEnvelope := mkPB {
  GetVersion : string;
  GetType : Z;
  GetEncoding : Z;
  GetMessageId : string;
  GetCorrelationId : string;
  GetFrom : string;
  GetTo : string;
  GetTimestamp : Z;
  GetData : list byte;
}.

#[export] Instance pbEnvelope_eq_dec : EqDecision pbEnvelope.
Proof. solve_decision. Defined.

Definition pb_zero : pbEnvelope := mkPB "" 0 0 "" "" "" "" 0 [].

(** A getter called through a pointer: a nil receiver reads as the zero value. *)
Definition get_field {A} (f : pbEnvelope -> A) (x : option pbEnvelope) : A :=
  match x with Some m => f m | None => f pb_zero end.

(** [Reset]; on a nil receiver it panics. *)
Definition Reset (x : option pbEnvelope) : outcome (option pbEnvelope) :=
  match x with Some _ => Ret (Some pb_zero) | None => Panic "invalid memory address or nil pointer dereference" end.

(** ** The schema: field number, kind and value *)

Inductive pb_kind := KString | KEnum (type_name : string) | KInt64 | KBytes.

#[export] Instance pb_kind_eq_dec : EqDecision pb_kind.
Proof. solve_decision. Defined.

Definition schema : list (Z * string * pb_kind) :=
  [(1, "version", KString); (2, "type", KEnum ".pb.MessageType"); (3, "encoding", KEnum ".pb.Encoding");
   (4, "message_id", KString); (5, "correlation_id", KString); (6, "from", KString); (7, "to", KString);
   (8, "timestamp", KInt64); (9, "data", KBytes)]%string.

Inductive pb_val := VString (s : string) | VInt (z : Z) | VBytes (b : list byte).

Definition fields_of (m : pbEnvelope) : list (Z * pb_val) :=
  [(1, VString (GetVersion m)); (2, VInt (GetType m)); (3, VInt (GetEncoding m));
   (4, VString (GetMessageId m)); (5, VString (GetCorrelationId m)); (6, VString (GetFrom m)); (7, VString (GetTo m));
   (8, VInt (GetTimestamp m)); (9, VBytes (GetData m))].

(** ** Encoding *)

Definition wrap32 (z : Z) : Z := (z + 2147483648) mod 4294967296 - 2147483648.

(** A field of proto3 that is zero is not written. *)
Definition is_zero (v : pb_val) : bool :=
  match v with
  | VString s => bool_decide (s = ""%string)
  | VInt z => z =? 0
  | VBytes b => bool_decide (b = [])
  end.

Definition record_of (v : pb_val) : wval :=
  match v with
  | VString s => WBytes (bytes s)
  | VInt z => WVarint (wrapU64 z)
  | VBytes b => WBytes b
  end.

Definition put_field (nv : Z * pb_val) : list byte :=
  match nv.2 with
  | VString s => put_bytes nv.1 (bytes s)
  | VInt z => put_int nv.1 (wrapU64 z)
  | VBytes b => put_bytes nv.1 b
  end.

Definition set_fields (m : pbEnvelope) : list (Z * pb_val) := filter (fun nv => is_zero nv.2 = false) (fields_of m).

(** Strings must be valid UTF-8. *)
Definition pb_strings (m : pbEnvelope) : list string :=
  [GetVersion m; GetMessageId m; GetCorrelationId m; GetFrom m; GetTo m].

Definition wire_Marshal (m : pbEnvelope) : option (list byte) :=
  if forallb (fun s => utf8_valid (bytes s)) (pb_strings m)
  then Some (concat (put_field <$> set_fields m)) else None.

(** ** Decoding *)

(** Storing a record; a field of another wire type and an unknown field are
    skipped, a string that is not UTF-8 is an error. *)
Definition set_string (upd : string -> pbEnvelope) (m : pbEnvelope) (v : wval) : option pbEnvelope :=
  match v with
  | WBytes b => if utf8_valid b then Some (upd (str b)) else None
  | _ => Some m
  end.

Definition set_int (conv : Z -> Z) (upd : Z -> pbEnvelope) (m : pbEnvelope) (v : wval) : option pbEnvelope :=
  match v with WVarint z => Some (upd (conv z)) | _ => Some m end.

Definition set_field (m : pbEnvelope) (nv : Z * wval) : option pbEnvelope :=
  let '(mkPB ve ty en mi co fr to ts da) := m in
  let '(n, v) := nv in
  if n =? 1 then set_string (fun x => mkPB x ty en mi co fr to ts da) m v
  else if n =? 2 then set_int wrap32 (fun x => mkPB ve x en mi co fr to ts da) m v
  else if n =? 3 then set_int wrap32 (fun x => mkPB ve ty x mi co fr to ts da) m v
  else if n =? 4 then set_string (fun x => mkPB ve ty en x co fr to ts da) m v
  else if n =? 5 then set_string (fun x => mkPB ve ty en mi x fr to ts da) m v
  else if n =? 6 then set_string (fun x => mkPB ve ty en mi co x to ts da) m v
  else if n =? 7 then set_string (fun x => mkPB ve ty en mi co fr x ts da) m v
  else if n =? 8 then set_int wrap64 (fun x => mkPB ve ty en mi co fr to x da) m v
  else if n =? 9 then match v with WBytes b => Some (mkPB ve ty en mi co fr to ts b) | _ => Some m end
  else Some m.

Definition merge (om : option pbEnvelope) (nvs : list (Z * wval)) : option pbEnvelope :=
  foldl (fun om nv => om ≫= fun m => set_field m nv) om nvs.

Definition wire_Unmarshal (s : list byte) : option pbEnvelope :=
  match parse_records s with
  | inl nvs => merge (Some pb_zero) nvs
  | inr _ => None
  end.

(** ** The embedded descriptor

    [go_lit] reads the escapes of a Go string literal (double quotes are written
    as their hexadecimal escape here). *)
Definition hex_digit_val (b : byte) : Z :=
  let z := b2z b in if z <? 58 then z - 48 else if z <? 97 then z - 55 else z - 87.

Definition lit_escape (c : byte) : byte :=
  match b2z c with
  | 97 => z2b 7 | 98 => z2b 8 | 116 => z2b 9 | 110 => z2b 10 | 118 => z2b 11 | 102 => z2b 12 | 114 => z2b 13
  | _ => c
  end.

Fixpoint go_lit_bytes (s : list byte) : list byte :=
  match s with
  | [] => []
  | bs :: s1 =>
      if b2z bs =? 92 then
        match s1 with
        | x :: ((h :: l :: s3) as s2) =>
            if b2z x =? 120 then z2b (hex_digit_val h * 16 + hex_digit_val l) :: go_lit_bytes s3
            else lit_escape x :: go_lit_bytes s2
        | c :: s2 => lit_escape c :: go_lit_bytes s2
        | [] => []
        end
      else bs :: go_lit_bytes s1
  end.

Definition go_lit (s : string) : list byte := go_lit_bytes (bytes s).

Definition file_envelope_proto_rawDesc : list byte :=
  concat (go_lit <$> [
    "\n";
    "\x0eenvelope.proto\x12\x02pb\x22\x8f\x02\n";
    "\bEnvelope\x12\x18\n";
    "\aversion\x18\x01 \x01(\tR\aversion\x12#\n";
    "\x04type\x18\x02 \x01(\x0e2\x0f.pb.MessageTypeR\x04type\x12(\n";
    "\bencoding\x18\x03 \x01(\x0e2\f.pb.EncodingR\bencoding\x12\x1d\n";
    "\n";
    "message_id\x18\x04 \x01(\tR\tmessageId\x12%\n";
    "\x0ecorrelation_id\x18\x05 \x01(\tR\rcorrelationId\x12\x12\n";
    "\x04from\x18\x06 \x01(\tR\x04from\x12\x0e\n";
    "\x02to\x18\a \x01(\tR\x02to\x12\x1c\n";
    "\ttimestamp\x18\b \x01(\x03R\ttimestamp\x12\x12\n";
    "\x04data\x18\t \x01(\fR\x04data*c\n";
    "\bEncoding\x12\x18\n";
    "\x14ENCODING_UNSPECIFIED\x10\x00\x12\x11\n";
    "\rENCODING_JSON\x10\x01\x12\x15\n";
    "\x11ENCODING_PROTOBUF\x10\x02\x12\x13\n";
    "\x0fENCODING_BINARY\x10\x03*\xb9\x01\n";
    "\vMessageType\x12\x18\n";
    "\x14MSG_TYPE_UNSPECIFIED\x10\x00\x12\x11\n";
    "\rMSG_TYPE_TEXT\x10\x01\x12\x14\n";
    "\x10MSG_TYPE_COMMAND\x10\x02\x12\x16\n";
    "\x12MSG_TYPE_FILE_META\x10\x03\x12\x17\n";
    "\x13MSG_TYPE_FILE_CHUNK\x10\x04\x12\x10\n";
    "\fMSG_TYPE_ACK\x10\x05\x12\x11\n";
    "\rMSG_TYPE_PING\x10\x06\x12\x11\n";
    "\rMSG_TYPE_PONG\x10\aB\x19Z\x17internal/protocol/pb;pbb\x06proto3"]%string).

(** Records of a submessage by number, as in [descriptor.proto]. *)
Definition subrecords (n : Z) (nvs : list (Z * wval)) : list (list byte) :=
  omap (fun nv => match nv.2 with WBytes b => if nv.1 =? n then Some b else None | _ => None end) nvs.
Definition sub_int (n : Z) (nvs : list (Z * wval)) : option Z :=
  head (omap (fun nv => match nv.2 with WVarint z => if nv.1 =? n then Some z else None | _ => None end) nvs).

Definition parsed (s : list byte) : list (Z * wval) := match parse_records s with inl l => l | inr _ => [] end.

(** A field descriptor: number, name and kind. *)
Definition field_kind (d : list (Z * wval)) : option pb_kind :=
  match sub_int 5 d with
  | Some 9 => Some KString
  | Some 14 => (fun b => KEnum (str b)) <$> head (subrecords 6 d)
  | Some 3 => Some KInt64
  | Some 12 => Some KBytes
  | _ => None
  end.

Definition field_descriptor (b : list byte) : option (Z * string * pb_kind) :=
  let d := parsed b in
  match sub_int 3 d, head (subrecords 1 d), field_kind d with
  | Some n, Some name, Some k => Some (n, str name, k)
  | _, _, _ => None
  end.

(** The values of an enum; a value that is zero is written all the same here. *)
Definition enum_value (b : list byte) : option (Z * string) :=
  let d := parsed b in
  match sub_int 2 d, head (subrecords 1 d) with
  | Some n, Some name => Some (n, str name)
  | _, _ => None
  end.

(** Name and fields of a message, name and values of an enum. *)
Definition descriptor_message (b : list byte) : option (string * list (Z * string * pb_kind)) :=
  let d := parsed b in
  match head (subrecords 1 d), mapM field_descriptor (subrecords 2 d) with
  | Some name, Some fs => Some (str name, fs)
  | _, _ => None
  end.

Definition descriptor_enum (b : list byte) : option (string * list (Z * string)) :=
  let d := parsed b in
  match head (subrecords 1 d), mapM enum_value (subrecords 2 d) with
  | Some name, Some vs => Some (str name, vs)
  | _, _ => None
  end.

(** ** Messages of the machine *)

(** Enums are 32 bits and the timestamp 64 bits wide; no text exceeds the
    address space. *)
Definition in_int32 (z : Z) : Prop := -2147483648 <= z < 2147483648.
Definition pb_sizes (m : pbEnvelope) : list nat :=
  ((fun s => length (bytes s)) <$> pb_strings m) ++ [length (GetData m)].
Definition pb_fits (m : pbEnvelope) : Prop :=
  in_int32 (GetType m) /\ in_int32 (GetEncoding m) /\ in_int64 (GetTimestamp m) /\
  Forall (fun n => Z.of_nat n <= max_int64) (pb_sizes m).

#[export] Instance in_int32_dec z : Decision (in_int32 z).
Proof. unfold in_int32. apply _. Defined.
#[export] Instance pb_fits_dec m : Decision (pb_fits m).
Proof. unfold pb_fits. apply _. Defined.

Lemma wrapU64_range z : 0 <= wrapU64 z < 18446744073709551616.
Proof. unfold wrapU64. apply Z.mod_pos_bound. lia. Qed.

Lemma wrap64_wrapU64 z : in_int64 z -> wrap64 (wrapU64 z) = z.
Proof.
  intros Hz. rewrite <- (wrap64_id z) at 2 by done. unfold wrap64, wrapU64.
  f_equal. by rewrite Z.add_mod_idemp_l by lia.
Qed.

Lemma wrap32_wrapU64 z : in_int32 z -> wrap32 (wrapU64 z) = z.
Proof.
  unfold in_int32, wrap32, wrapU64. intros Hz.
  rewrite (Z.mod_eq z 18446744073709551616) by lia. set (q := z / _).
  replace (z - 18446744073709551616 * q + 2147483648) with (z + 2147483648 + (- 4294967296 * q) * 4294967296) by ring.
  rewrite Z.mod_add by lia. rewrite Z.mod_small; lia.
Qed.

(** ** What is marshalled is unmarshalled *)

Definition records (nvs : list (Z * pb_val)) : list (Z * wval) := (fun nv => (nv.1, record_of nv.2)) <$> nvs.

Lemma merge_app om a b : merge om (a ++ b) = merge (merge om a) b.
Proof. unfold merge. by rewrite foldl_app. Qed.

(** Storing the fields that are set is storing all of them, if storing a zero
    changes nothing. *)
Lemma merge_set n v l m0 m1 : set_field m0 (n, record_of v) = Some m1 -> (is_zero v = true -> m1 = m0) ->
  merge (Some m0) (records (filter (fun nv => is_zero nv.2 = false) ((n, v) :: l))) =
  merge (Some m1) (records (filter (fun nv => is_zero nv.2 = false) l)).
Proof.
  intros Hs Hz. rewrite filter_cons. simpl. destruct (is_zero v); simpl; [by rewrite Hz|].
  unfold merge. simpl. by rewrite Hs.
Qed.

Lemma is_zero_string s : is_zero (VString s) = true -> s = ""%string.
Proof. apply bool_decide_eq_true. Qed.
Lemma is_zero_int z : is_zero (VInt z) = true -> z = 0.
Proof. apply Z.eqb_eq. Qed.
Lemma is_zero_bytes b : is_zero (VBytes b) = true -> b = [].
Proof. apply bool_decide_eq_true. Qed.

Lemma utf8_strings m : forallb (fun s => utf8_valid (bytes s)) (pb_strings m) = true ->
  Forall (fun s => utf8_valid (bytes s) = true) (pb_strings m).
Proof. intros H. apply Forall_forall. intros s Hs. by apply (proj1 (forallb_forall _ _) H), list_elem_of_In. Qed.

Lemma str_bytes s : str (bytes s) = s.
Proof. apply string_of_list_ascii_of_string. Qed.

Lemma merge_fields m : Forall (fun s => utf8_valid (bytes s) = true) (pb_strings m) -> pb_fits m ->
  merge (Some pb_zero) (records (set_fields m)) = Some m.
Proof.
  destruct m as [ve ty en mi co fr to ts da]. unfold pb_strings. cbn [GetVersion GetMessageId GetCorrelationId GetFrom GetTo].
  rewrite !Forall_cons. intros (U1 & U2 & U3 & U4 & U5 & _) (F1 & F2 & F3 & _).
  cbn [GetType GetEncoding GetTimestamp] in F1, F2, F3. unfold set_fields, fields_of, pb_zero.
  cbn [GetVersion GetType GetEncoding GetMessageId GetCorrelationId GetFrom GetTo GetTimestamp GetData].
  assert (S : forall s, utf8_valid (bytes s) = true -> forall upd m, set_string upd m (record_of (VString s)) = Some (upd s)).
  { intros s Hs upd m. unfold set_string, record_of. by rewrite Hs, str_bytes. }
  rewrite (merge_set 1 (VString ve) _ _ (mkPB ve 0 0 "" "" "" "" 0 [])) by (apply S, U1 || by intros ->%is_zero_string).
  rewrite (merge_set 2 (VInt ty) _ _ (mkPB ve ty 0 "" "" "" "" 0 []))
    by (by cbn -[wrap32 wrapU64]; rewrite wrap32_wrapU64 || by intros ->%is_zero_int).
  rewrite (merge_set 3 (VInt en) _ _ (mkPB ve ty en "" "" "" "" 0 []))
    by (by cbn -[wrap32 wrapU64]; rewrite wrap32_wrapU64 || by intros ->%is_zero_int).
  rewrite (merge_set 4 (VString mi) _ _ (mkPB ve ty en mi "" "" "" 0 [])) by (apply S, U2 || by intros ->%is_zero_string).
  rewrite (merge_set 5 (VString co) _ _ (mkPB ve ty en mi co "" "" 0 [])) by (apply S, U3 || by intros ->%is_zero_string).
  rewrite (merge_set 6 (VString fr) _ _ (mkPB ve ty en mi co fr "" 0 [])) by (apply S, U4 || by intros ->%is_zero_string).
  rewrite (merge_set 7 (VString to) _ _ (mkPB ve ty en mi co fr to 0 [])) by (apply S, U5 || by intros ->%is_zero_string).
  rewrite (merge_set 8 (VInt ts) _ _ (mkPB ve ty en mi co fr to ts []))
    by (by cbn -[wrap64 wrapU64]; rewrite wrap64_wrapU64 || by intros ->%is_zero_int).
  rewrite (merge_set 9 (VBytes da) _ _ (mkPB ve ty en mi co fr to ts da)) by (done || by intros ->%is_zero_bytes).
  done.
Qed.

(** A number and a value the format can carry. *)
Definition field_fits (nv : Z * pb_val) : Prop :=
  1 <= nv.1 <= max_field_number /\
  match nv.2 with
  | VString s => Z.of_nat (length (bytes s)) <= max_int64
  | VBytes b => Z.of_nat (length b) <= max_int64
  | VInt _ => True
  end.

Lemma put_field_record nv : field_fits nv -> is_record (put_field nv) (nv.1, record_of nv.2).
Proof.
  destruct nv as [n [s|z|b]]; unfold field_fits, max_int64, put_field, record_of; cbn [fst snd]; intros [Hn Hv].
  - apply put_bytes_record; lia.
  - apply put_int_record; [lia|apply wrapU64_range].
  - apply put_bytes_record; lia.
Qed.

(** A field that is cut short is refused. *)
Lemma put_field_cut nv q q' : field_fits nv -> put_field nv = q ++ q' -> q <> [] -> q' <> [] ->
  parse_records q = inr WTruncated.
Proof.
  intros [Hn Hv] E Hq Hq'. apply parse_records_cut; [done|]. intros f.
  destruct nv as [n [s|z|b]]; unfold put_field, max_int64 in *; cbn [fst snd] in *.
  - by apply (put_bytes_cut n (bytes s) q q'); [|lia|..].
  - by apply (put_int_cut n (wrapU64 z) q q').
  - by apply (put_bytes_cut n b q q'); [|lia|..].
Qed.

Lemma fields_fit m : pb_fits m -> Forall field_fits (fields_of m).
Proof.
  intros (_ & _ & _ & Hs). unfold pb_sizes, pb_strings in Hs. cbn [fmap list_fmap app] in Hs.
  rewrite !Forall_cons in Hs. destruct Hs as (? & ? & ? & ? & ? & ? & _).
  unfold fields_of, field_fits, max_field_number. repeat (constructor; [cbn [fst snd]; split; (lia || done)|]). constructor.
Qed.

(** The text of some fields, and of anything after them, is parsed to their
    records. *)
Lemma parse_fields nvs r : Forall field_fits nvs ->
  parse_records (concat (put_field <$> nvs) ++ r) =
    match parse_records r with inl l => inl (records nvs ++ l) | inr e => inr e end.
Proof.
  intros Hf. apply parse_records_concat. induction Hf as [|nv nvs Hn Hf IH]; constructor; [by apply put_field_record|done].
Qed.

Lemma set_fields_fit m : pb_fits m -> Forall field_fits (set_fields m).
Proof.
  intros H%fields_fit. rewrite Forall_forall in H |- *. intros nv Hn.
  apply H. by apply list_elem_of_filter in Hn as [_ Hn].
Qed.

Lemma wire_Marshal_inv m b : wire_Marshal m = Some b ->
  b = concat (put_field <$> set_fields m) /\ Forall (fun s => utf8_valid (bytes s) = true) (pb_strings m).
Proof. unfold wire_Marshal. destruct (forallb _ _) eqn:E; [|done]. intros [= <-]. split; [done|]. by apply utf8_strings. Qed.

Lemma wire_Marshal_valid m : Forall (fun s => utf8_valid (bytes s) = true) (pb_strings m) ->
  wire_Marshal m = Some (concat (put_field <$> set_fields m)).
Proof.
  intros Hu. unfold wire_Marshal. rewrite (proj2 (forallb_forall _ _)); [done|].
  intros s Hs. by apply (proj1 (Forall_forall _ _) Hu), list_elem_of_In.
Qed.

(** A message, then records of which the parser makes [nvs]. *)
Lemma wire_unmarshal_app m b r nvs : pb_fits m -> wire_Marshal m = Some b -> parse_records r = inl nvs ->
  wire_Unmarshal (b ++ r) = merge (Some m) nvs.
Proof.
  intros Hf [-> Hu]%wire_Marshal_inv Hr. unfold wire_Unmarshal.
  by rewrite parse_fields, Hr, merge_app, merge_fields by auto using set_fields_fit.
Qed.

Lemma wire_unmarshal_marshal m b : pb_fits m -> wire_Marshal m = Some b -> wire_Unmarshal b = Some m.
Proof. intros Hf Hb. rewrite <- (app_nil_r b). by rewrite (wire_unmarshal_app m b [] []). Qed.

(** Followed by records with field numbers the schema does not have, a message
    still reads as itself: a newer schema's fields are skipped. *)
Lemma set_field_unknown m n v : ~ 1 <= n <= 9 -> set_field m (n, v) = Some m.
Proof.
  intros Hn. destruct m. unfold set_field.
  repeat (case_match; [lia|]). done.
Qed.

Lemma merge_unknown m nvs : Forall (fun nv => ~ 1 <= nv.1 <= 9) nvs -> merge (Some m) nvs = Some m.
Proof.
  intros H. induction H as [|[n v] nvs Hn _ IH]; [done|]. unfold merge in *. simpl.
  by rewrite set_field_unknown.
Qed.

(** The wire format.  A message whose strings are valid UTF-8
    and whose fields have their widths is marshalled, and unmarshalling the
    result gives exactly that message, also when fields the schema does not know
    follow. *)
Theorem wire_roundtrip m : pb_fits m -> Forall (fun s => utf8_valid (bytes s) = true) (pb_strings m) ->
  exists b, wire_Marshal m = Some b /\ wire_Unmarshal b = Some m /\
    forall r nvs, parse_records r = inl nvs -> Forall (fun nv => ~ 1 <= nv.1 <= 9) nvs -> wire_Unmarshal (b ++ r) = Some m.
Proof.
  intros Hf Hu%wire_Marshal_valid. eexists. split_and!; [exact Hu|by apply wire_unmarshal_marshal|].
  intros r nvs Hr Hn. rewrite (wire_unmarshal_app m _ r nvs) by done. by apply merge_unknown.
Qed.

(** ** The descriptor *)

Definition messages_of_desc (d : list byte) : option (list (string * list (Z * string * pb_kind))) :=
  mapM descriptor_message (subrecords 4 (parsed d)).
Definition enums_of_desc (d : list byte) : option (list (string * list (Z * string))) :=
  mapM descriptor_enum (subrecords 5 (parsed d)).

(** The embedded descriptor.  Parsed in the wire format, the
    bytes the generated file embeds describe one message, Envelope, with exactly
    the fields, numbers and kinds of the schema, and the two enums with exactly
    the generated name tables; the value tables are their inverses. *)
Theorem descriptor_is_schema :
  messages_of_desc file_envelope_proto_rawDesc = Some [("Envelope"%string, schema)] /\
  enums_of_desc file_envelope_proto_rawDesc = Some [("Encoding"%string, Encoding_name); ("MessageType"%string, MessageType_name)] /\
  str <$> subrecords 2 (parsed file_envelope_proto_rawDesc) = ["pb"%string] /\
  Encoding_value = list_to_map ((fun p => (p.2, p.1)) <$> Encoding_name) /\
  MessageType_value = list_to_map ((fun p => (p.2, p.1)) <$> MessageType_name).
Proof.
  split_and!; vm_compute; reflexivity.
Qed.
