(* ===== verification/PbInit.v ===== *)
(** * The initialisation of the generated code:
    [internal/protocol/pb/envelope.pb.go], lines 50-75, 115-140 and 161-337

    The package builds its types from the embedded descriptor and from tables the
    generator wrote beside it: the Go types, the indexes that say which type a
    field refers to, and the numbers of declarations.  The builder, the text of an
    enum value and gzip are functions of the Protocol Buffers runtime, hence
    parameters.  The theorems: the tables are those of the descriptor; when
    the builder accepts them the initialisation is done once; the texts of the
    enums are what their value tables invert. *)

From S2P Require Import Prelude GoStrings Wire Pb.

Local Open Scope Z_scope.

(** ** The tables *)

Inductive GoType := GoEnum (name : string) | GoMessage (name : string).

#[export] Instance GoType_eq_dec : EqDecision GoType.
Proof. solve_decision. Defined.

Definition file_envelope_proto_goTypes : list GoType :=
  [GoEnum "Encoding"; GoEnum "MessageType"; GoMessage "Envelope"].

Definition file_envelope_proto_depIdxs : list nat := [1; 0; 2; 2; 2; 2; 0]%nat.

(** What the initialisation hands to the builder; of the info tables, which the
    builder fills in, the lengths. *)
Record TypeBuilder := mkBuilder {
  RawDescriptor : list byte;
  NumEnums : nat;
  NumMessages : nat;
  NumExtensions : nat;
  NumServices : nat;
  GoTypes : list GoType;
  DependencyIndexes : list nat;
  EnumInfos : nat;
  MessageInfos : nat;
}.

(** ** How the runtime reads the tables

    The dependency indexes are five lists, one after the other: types of message
    fields, extended messages, types of extensions, method inputs and outputs;
    their starts follow in reverse order. *)
Definition dep_list (d : list nat) (j : nat) : list nat :=
  let n := (length d - 5)%nat in
  let starts := reverse (drop n d) in
  let from := default n (starts !! j) in
  let upto := default n (starts !! S j) in
  take (upto - from) (drop from d).

(** The full name of a type of the package. *)
Definition type_name (pkg : string) (t : GoType) : string :=
  match t with GoEnum n | GoMessage n => "." ++ pkg ++ "." ++ n end.

(** The types the fields of a file refer to, in order. *)
Definition referred (ms : list (string * list (Z * string * pb_kind))) : list string :=
  omap (fun f => match f.2 with KEnum t => Some t | _ => None end) (concat ms.*2).

(** The runtime: building a file, the text of an enum value, gzip. *)
Class ProtoImpl := {
  PFile : Type;
  Build : TypeBuilder -> outcome PFile;
  EnumStringOf : list (Z * string) -> Z -> string;
  CompressGZIP : list byte -> list byte;
}.

Class ProtoImplLaws (PI : ProtoImpl) : Prop := {
  enum_string_known tbl n name : (n, name) ∈ tbl -> NoDup tbl.*1 -> EnumStringOf tbl n = name;
  enum_string_unknown tbl n : n ∉ tbl.*1 -> EnumStringOf tbl n = Itoa n;
}.

Section init.
Context `{PI : ProtoImpl}.

(** The variables of the package; [nil] tables are [None]. *)
Record package := mkPackage {
  File_envelope_proto : option PFile;
  goTypes : option (list GoType);
  depIdxs : option (list nat);
  rawDescOnce : bool;
  rawDescData : list byte;
}.

Definition package_start : package :=
  mkPackage None (Some file_envelope_proto_goTypes) (Some file_envelope_proto_depIdxs) false [].

Definition builder_of (p : package) : TypeBuilder :=
  mkBuilder file_envelope_proto_rawDesc 2 1 0 0 (default [] (goTypes p)) (default [] (depIdxs p)) 2 1.

Definition file_envelope_proto_init : GoM package unit :=
  p ← get;
  match File_envelope_proto p with
  | Some _ => mret tt
  | None =>
      match Build (builder_of p) with
      | Panic m => panic m
      | Ret f => modify (fun p => mkPackage (Some f) None None (rawDescOnce p) (rawDescData p))
      end
  end.

(** The compressed descriptor is computed by the first call. *)
Definition file_envelope_proto_rawDescGZIP : GoM package (list byte) :=
  _ ← modify (fun p => if rawDescOnce p then p
        else mkPackage (File_envelope_proto p) (goTypes p) (depIdxs p) true (CompressGZIP file_envelope_proto_rawDesc));
  p ← get; mret (rawDescData p).

(** ** Enum values *)

(** The values of the enum with the given index in the descriptor. *)
Definition enum_descriptor (i : nat) : list (Z * string) :=
  default [] (snd <$> (default [] (enums_of_desc file_envelope_proto_rawDesc)) !! i).

Definition Encoding_String (x : Z) : string := EnumStringOf (enum_descriptor 0) x.
Definition MessageType_String (x : Z) : string := EnumStringOf (enum_descriptor 1) x.

Definition Encoding_EnumDescriptor : GoM package (list byte * list nat) :=
  d ← file_envelope_proto_rawDescGZIP; mret (d, [0%nat]).
Definition MessageType_EnumDescriptor : GoM package (list byte * list nat) :=
  d ← file_envelope_proto_rawDescGZIP; mret (d, [1%nat]).
Definition Envelope_Descriptor : GoM package (list byte * list nat) :=
  d ← file_envelope_proto_rawDescGZIP; mret (d, [0%nat]).

(** ** Messages as the runtime sees them *)

(** A message object: its fields, and the type information stored in its state,
    an index of the message table. *)
Record pb_object := mkObject { body : pbEnvelope; info : option nat }.

(** [Reset]: zero fields, and the type information stored. *)
Definition Envelope_Reset (x : option pb_object) : outcome (option pb_object) :=
  match Reset (body <$> x) with
  | Panic m => Panic m
  | Ret b => Ret ((fun b => mkObject b (Some 0%nat)) <$> b)
  end.

(** [ProtoReflect]: the type information of the reflected message, and the object
    afterwards; a nil message has a type too. *)
Definition ProtoReflect (x : option pb_object) : option nat * option pb_object :=
  match x with
  | Some o =>
      let o' := match info o with None => mkObject (body o) (Some 0%nat) | Some _ => o end in
      (info o', Some o')
  | None => (Some 0%nat, None)
  end.

(** ** Theorems *)


(** If the builder accepts the tables, the initialisation stores the file and
    clears them, and any further call changes nothing; the compressed descriptor
    is the same for every caller. *)
Theorem generated_init f :
  Build (builder_of package_start) = Ret f ->
  exists p, file_envelope_proto_init package_start = (Ret tt, p) /\
    File_envelope_proto p = Some f /\ goTypes p = None /\ depIdxs p = None /\
    file_envelope_proto_init p = (Ret tt, p) /\
    exists p', file_envelope_proto_rawDescGZIP p = (Ret (CompressGZIP file_envelope_proto_rawDesc), p') /\
      file_envelope_proto_rawDescGZIP p' = (Ret (CompressGZIP file_envelope_proto_rawDesc), p') /\
      file_envelope_proto_init p' = (Ret tt, p').
Proof.
  intros Hf.
  assert (E : file_envelope_proto_init package_start = (Ret tt, mkPackage (Some f) None None false [])).
  { unfold file_envelope_proto_init. unfold_go. cbn [File_envelope_proto package_start]. by rewrite Hf. }
  eexists. split; [exact E|]. split_and!; try done. eexists. split_and!; reflexivity.
Qed.

Context `{LW : !ProtoImplLaws PI}.

Lemma enum_tables : enum_descriptor 0 = Encoding_name /\ enum_descriptor 1 = MessageType_name.
Proof. unfold enum_descriptor. destruct descriptor_is_schema as (_ & -> & _). by split. Qed.

(** No name of a table is a number. *)
Definition not_a_number (s : string) : bool := match Atoi s with (_, Some _) => true | _ => false end.

Lemma itoa_not_name (tbl : gmap string Z) n : in_int64 n ->
  forallb not_a_number (map_to_list tbl).*1 = true -> tbl !! Itoa n = None.
Proof.
  intros Hn Hf. apply eq_None_not_Some. intros [v Hv]. apply elem_of_map_to_list, (list_elem_of_fmap_2 fst) in Hv.
  rewrite forallb_forall in Hf. apply list_elem_of_In, Hf in Hv. unfold not_a_number in Hv. simpl in Hv.
  by rewrite Atoi_Itoa in Hv.
Qed.

(** A table whose names are distinct and not numbers, and its inverse. *)
Lemma enum_string_inverts tbl inv n : in_int64 n -> NoDup tbl.*1 ->
  forallb not_a_number (map_to_list inv).*1 = true -> (forall m name, (m, name) ∈ tbl -> inv !! name = Some m) ->
  inv !! EnumStringOf tbl n = (if bool_decide (n ∈ tbl.*1) then Some n else None).
Proof.
  intros Hn Hnd Hf Hinv. case_bool_decide as Hin.
  - apply list_elem_of_fmap in Hin as ([m name] & -> & Hin). simpl. rewrite (enum_string_known _ m name) by done. eauto.
  - rewrite enum_string_unknown by done. by apply itoa_not_name.
Qed.

(** The text of an enum value read back in the value table: the value if the
    schema has it, nothing otherwise. *)
Theorem enum_strings_invert n : in_int32 n ->
  Encoding_value !! Encoding_String n = (if bool_decide (n ∈ Encoding_name.*1) then Some n else None) /\
  MessageType_value !! MessageType_String n = (if bool_decide (n ∈ MessageType_name.*1) then Some n else None).
Proof.
  intros Hn. assert (Hn64 : in_int64 n) by (unfold in_int32, in_int64, min_int64, max_int64 in *; lia).
  unfold Encoding_String, MessageType_String. destruct enum_tables as [-> ->].
  split; apply enum_string_inverts; try done.
  1,3: apply (bool_decide_unpack _); by vm_compute.
  all: intros m name Hin; unfold Encoding_name, MessageType_name in Hin;
    repeat (apply elem_of_cons in Hin as [[= -> ->]|Hin]; [reflexivity|]); by apply elem_of_nil in Hin.
Qed.

(** Reflection always finds the type Envelope, keeps the fields, and is stable;
    [Reset] leaves an object reflection need not touch. *)
Theorem reflect_finds_envelope x :
  let '(i, x') := ProtoReflect x in
  (forall o, x = Some o -> info o = None \/ info o = Some 0%nat) ->
  i = Some 0%nat /\ ProtoReflect x' = (i, x') /\ body <$> x' = body <$> x /\
  fst <$> (default [] (messages_of_desc file_envelope_proto_rawDesc)) !! default 1%nat i = Some "Envelope"%string /\
  (forall o, Envelope_Reset (Some o) = Ret (Some (mkObject pb_zero (Some 0%nat)))).
Proof.
  destruct descriptor_is_schema as (-> & _).
  destruct x as [[b [i|]]|]; simpl; intros Hi; try done.
  by destruct (Hi _ eq_refl) as [E|E]; simplify_eq/=.
Qed.
End init.

(** ** A runtime that satisfies the laws *)
Module PlainRuntime.
Definition enum_text (tbl : list (Z * string)) (n : Z) : string :=
  match list_find (fun p => p.1 = n) tbl with Some (_, p) => p.2 | None => Itoa n end.

#[export] Instance runtime : ProtoImpl := {|
  PFile := TypeBuilder;
  Build := Ret;
  EnumStringOf := enum_text;
  CompressGZIP := id;
|}.

#[export] Instance laws : ProtoImplLaws runtime.
Proof.
  split.
  - intros tbl n name Hin Hnd. simpl. unfold enum_text.
    destruct (list_find_elem_of (fun p => p.1 = n) tbl (n, name) Hin eq_refl) as [[i [m s]] E]. rewrite E.
    apply list_find_Some in E as (Hi & Hm & _). simpl in *. subst m. apply list_elem_of_lookup in Hin as [j Hj].
    assert (i = j) as -> by (apply (NoDup_lookup _ _ _ n Hnd); by rewrite list_lookup_fmap, ?Hi, ?Hj). congruence.
  - intros tbl n Hn. simpl. unfold enum_text.
    destruct (list_find _ tbl) as [[i [m s]]|] eqn:E; [|done]. apply list_find_Some in E as (Hi & Hm & _).
    simpl in Hm. subst m. destruct Hn. apply list_elem_of_fmap. exists (n, s). split; [done|]. by eapply list_elem_of_lookup_2.
Qed.
End PlainRuntime.
