(* ===== verification/Codec.v ===== *)
(** * Message codecs: [internal/protocol/{json_codec,protobuf_codec,codec,protocol}.go]

    The Go interface [MessageCodec] is a record of operations; [JSONCodec] and
    [ProtobufCodec] are its values.  A reader is the list of bytes of a
    [bytes.Reader], which is what every caller passes.  [proto.Marshal] and
    [proto.Unmarshal] are third-party code: the operations of a class, whose
    documented laws are a second class.  [CodecLaw] is what a codec promises to
    the transports: decoding what it encoded gives the envelope back, up to a
    normalisation that each codec states. *)

From S2P Require Import Prelude Utf8 GoStrings Base64 Json Envelope Factory Wire Pb.

Local Open Scope Z_scope.

Definition Json : string := "json".
Definition Protobuf : string := "protobuf".
Definition Msgpack : string := "msgpack".

Definition CodecJson : Z := 0.
Definition CodecProtobuf : Z := 1.
Definition CodecMsgpack : Z := 2.

Inductive codec_error :=
| ErrReadFirstByte               (** "read first byte": end of input *)
| ErrNotObject                   (** "payload not object" *)
| ErrJsonDecode (e : dec_error)
| ErrMissingType                 (** "missing field: type" *)
| ErrProto                       (** [proto.Marshal] or [proto.Unmarshal] failed *)
| ErrUnsupportedCodec (c : Z).

#[export] Instance codec_error_eq_dec : EqDecision codec_error.
Proof. solve_decision. Defined.

(** [io.LimitReader] when the limit is positive. *)
Definition limit (maxSize : Z) (r : list byte) : list byte :=
  if 0 <? maxSize then take (Z.to_nat maxSize) r else r.

(** The interface.  [Encode] gives the bytes written; [Decode] updates the
    envelope in place, also when it fails halfway. *)
Record MessageCodec := mkCodec {
  Name : string;
  Encode : Envelope -> list byte + codec_error;
  Decode : list byte -> Envelope -> Z -> outcome (option codec_error * Envelope);
}.

(** ** JSON *)

Definition JSONCodec_Encode (e : Envelope) : list byte + codec_error :=
  inl (Marshal (jEnvelope e) ++ [z2b 10]).

Definition JSONCodec_Decode (r : list byte) (e : Envelope) (maxSize : Z)
  : outcome (option codec_error * Envelope) :=
  match limit maxSize r with
  | [] => Ret (Some ErrReadFirstByte, e)
  | b :: r' =>
      if negb (c_is b "{") then Ret (Some ErrNotObject, e) else
      match parse_first (b :: r') with
      | inr err => Ret (Some (ErrJsonDecode (of_jerr err)), e)
      | inl (v, _) =>
          match decode_envelope v e with
          | (e', Some err) => Ret (Some (ErrJsonDecode err), e')
          | (e', None) =>
              if bool_decide (Type_ e' = ""%string) then Ret (Some ErrMissingType, e') else Ret (None, e')
          end
      end
  end.

Definition JSONCodec : MessageCodec := mkCodec Json JSONCodec_Encode JSONCodec_Decode.

(** ** Protocol Buffers *)

(** [google.golang.org/protobuf/proto] *)
Class ProtoLib := {
  proto_Marshal : pbEnvelope -> option (list byte);
  proto_Unmarshal : list byte -> option pbEnvelope;
}.

(** String fields of proto3 must be valid UTF-8. *)
Definition pb_utf8 (m : pbEnvelope) : Prop := Forall (fun s => utf8_valid (bytes s) = true) (pb_strings m).

#[export] Instance pb_utf8_dec m : Decision (pb_utf8 m).
Proof. unfold pb_utf8. apply _. Defined.

(** The documented behaviour the codec relies on. *)
Class ProtoLaws (L : ProtoLib) : Prop := {
  proto_marshal_valid m : pb_utf8 m -> is_Some (proto_Marshal m);
  proto_unmarshal_marshal m b : pb_fits m -> proto_Marshal m = Some b -> proto_Unmarshal b = Some m;
  proto_unmarshal_empty : proto_Unmarshal [] = Some pb_zero;
}.

Definition toPBEncoding (enc : Encoding) : Z :=
  if bool_decide (enc = EncodingJSON) then ENCODING_JSON
  else if bool_decide (enc = EncodingProtobuf) then ENCODING_PROTOBUF
  else ENCODING_UNSPECIFIED.

Definition fromPBEncoding (enc : Z) : Encoding :=
  if enc =? ENCODING_JSON then EncodingJSON
  else if enc =? ENCODING_PROTOBUF then EncodingProtobuf
  else ""%string.

Definition toPBMsgType (t : MessageType) : Z :=
  if bool_decide (t = MsgText) then MSG_TYPE_TEXT
  else if bool_decide (t = MsgCommand) then MSG_TYPE_COMMAND
  else if bool_decide (t = MsgFileMeta) then MSG_TYPE_FILE_META
  else if bool_decide (t = MsgFileChunk) then MSG_TYPE_FILE_CHUNK
  else if bool_decide (t = MsgAck) then MSG_TYPE_ACK
  else if bool_decide (t = MsgPing) then MSG_TYPE_PING
  else if bool_decide (t = MsgPong) then MSG_TYPE_PONG
  else MSG_TYPE_UNSPECIFIED.

Definition fromPBMsgType (t : Z) : MessageType :=
  if t =? MSG_TYPE_TEXT then MsgText
  else if t =? MSG_TYPE_COMMAND then MsgCommand
  else if t =? MSG_TYPE_FILE_META then MsgFileMeta
  else if t =? MSG_TYPE_FILE_CHUNK then MsgFileChunk
  else if t =? MSG_TYPE_ACK then MsgAck
  else if t =? MSG_TYPE_PING then MsgPing
  else if t =? MSG_TYPE_PONG then MsgPong
  else ""%string.

Definition makeslice_panic : string := "makeslice: len out of range".

(** The largest allocation the runtime serves on 64-bit platforms (48-bit
    addresses); [make] panics above it.  Memory itself is taken to suffice. *)
Definition maxAlloc : Z := 281474976710656.

Section codecs.
Context `{L : ProtoLib}.

Definition to_pb (e : Envelope) : pbEnvelope :=
  mkPB (Version e) (toPBMsgType (Type_ e)) (toPBEncoding (Encoding_ e)) (Mid e) (Correlation e)
    "" "" (Ts e) (Data e).

Definition ProtobufCodec_Encode (e : Envelope) : list byte + codec_error :=
  match proto_Marshal (to_pb e) with Some data => inl data | None => inr ErrProto end.

Definition from_pb (m : pbEnvelope) : Envelope :=
  mkEnvelope (GetVersion m) (fromPBMsgType (GetType m)) (fromPBEncoding (GetEncoding m)) ""
    (GetMessageId m) (GetCorrelationId m) (GetTimestamp m) (GetData m).

(** One [Read] into a buffer of [maxSize] bytes: at most that many bytes of the
    input; the end of the input is not an error. *)
Definition ProtobufCodec_Decode (r : list byte) (e : Envelope) (maxSize : Z)
  : outcome (option codec_error * Envelope) :=
  if (maxSize <? 0) || (maxAlloc <? maxSize) then Panic makeslice_panic else
  let data := take (Z.to_nat maxSize) (limit maxSize r) in
  match proto_Unmarshal data with
  | None => Ret (Some ErrProto, e)
  | Some m => Ret (None, from_pb m)
  end.

Definition ProtobufCodec : MessageCodec := mkCodec Protobuf ProtobufCodec_Encode ProtobufCodec_Decode.

(** ** Factories and the manager *)

Definition CodecFactories : gmap Z MessageCodec :=
  {[ CodecJson := JSONCodec; CodecProtobuf := ProtobufCodec ]}.

Definition NewCodec (c : Z) : MessageCodec + codec_error :=
  match CodecFactories !! c with
  | Some codec => inl codec
  | None => inr (ErrUnsupportedCodec c)
  end.

Record Manager := mkManager { codec : MessageCodec; factory : MessageFactory }.

(** A manager around a codec. *)
Definition manager_of (c : MessageCodec) : Manager := mkManager c NewMessageFactory.

Definition NewProtocolManager (codecType : Z) : Manager :=
  match NewCodec codecType with
  | inl c => manager_of c
  | inr _ => manager_of JSONCodec
  end.

Definition GetCodec (p : Manager) : MessageCodec := codec p.
Definition GetMessageFactory (p : Manager) : MessageFactory := factory p.

Definition EncodeMessage (p : Manager) (e : Envelope) : list byte + codec_error := Encode (codec p) e.
Definition DecodeMessage (p : Manager) (r : list byte) (e : Envelope) (maxSize : Z)
  : outcome (option codec_error * Envelope) := Decode (codec p) r e maxSize.
End codecs.

(** ** What JSON keeps *)

(** A string as it comes back: ill-formed bytes replaced by U+FFFD. *)
Definition san (s : string) : string := str (sanitize (bytes s)).

Definition json_norm (e : Envelope) : Envelope :=
  mkEnvelope (san (Version e)) (san (Type_ e)) (san (Encoding_ e)) (san (From e)) (san (Mid e))
    (san (Correlation e)) (Ts e) (Data e).

Definition env_utf8 (e : Envelope) : Prop :=
  Forall (fun s => utf8_valid (bytes s) = true)
    [Version e; Type_ e; Encoding_ e; From e; Mid e; Correlation e].

Lemma san_id s : utf8_valid (bytes s) = true -> san s = s.
Proof. intros Hs. unfold san. rewrite sanitize_id by done. apply string_of_list_ascii_of_string. Qed.

Lemma json_norm_id e : env_utf8 e -> json_norm e = e.
Proof.
  intros H. unfold env_utf8 in H. rewrite !Forall_cons in H. destruct H as (? & ? & ? & ? & ? & ? & _).
  unfold json_norm. rewrite !san_id by done. by destruct e.
Qed.

Lemma sanitize_nonempty s : s <> [] -> sanitize s <> [].
Proof.
  intros Hs E. pose proof (segs_sanitize s) as H. rewrite E in H. symmetry in H. apply fmap_nil_inv in H.
  destruct s as [|b s]; [done|]. by apply segs_nonempty in H.
Qed.

Lemma san_nonempty s : s <> ""%string -> san s <> ""%string.
Proof.
  intros Hs E. unfold san in E. apply (sanitize_nonempty (bytes s)).
  - by destruct s.
  - by destruct (sanitize (bytes s)).
Qed.

Lemma sanitize_b64 d : sanitize (b64_encode d) = b64_encode d.
Proof.
  apply sanitize_id. unfold utf8_valid. rewrite segs_all_ascii.
  - apply forallb_forall. intros g Hg. apply list_elem_of_In, list_elem_of_fmap in Hg as (? & -> & _). done.
  - eapply Forall_impl; [apply b64_encode_safe|]. intros b [? _]. lia.
Qed.

Lemma field_of_envelope n : n ∈ envelope_fields -> field_of envelope_fields (sanitize (bytes n)) = Some n.
Proof.
  intros H. unfold envelope_fields in H.
  repeat (apply elem_of_cons in H as [->|H]; [vm_compute; reflexivity|]). by apply elem_of_nil in H.
Qed.

Lemma decode_member_envelope n v ms es saved : n ∈ envelope_fields ->
  decode_members envelope_fields envelope_set ((sanitize (bytes n), v) :: ms) es saved =
    (let '(es', err) := envelope_set n v es in
     decode_members envelope_fields envelope_set ms es' (first_err saved err)).
Proof. intros Hn. cbn [decode_members]. by rewrite field_of_envelope. Qed.

Lemma jsan_jdata d : jsan (jdata (Some d)) = JStr (b64_encode d).
Proof. cbn [jdata jsan]. by rewrite sanitize_b64. Qed.

(** Decoding the parsed text of an envelope overwrites every field. *)
Lemma decode_encoded_envelope e e0 : in_int64 (Ts e) -> Data e0 = [] ->
  decode_envelope (jsan (jEnvelope e)) e0 = (json_norm e, None).
Proof.
  intros Hts Hd. unfold decode_envelope, decode_struct, jEnvelope. cbn [jsan]. unfold field, jstr.
  rewrite fmap_app, !fmap_cons. cbn [fst snd jsan app]. change (jsan (jint (Ts e))) with (jint (Ts e)).
  do 7 (rewrite decode_member_envelope by (unfold envelope_fields; set_solver);
    cbn -[dec_int64 decode_members sanitize jint jdata list_ascii_of_string envelope_fields]).
  rewrite dec_int64_jint by done.
  cbn -[decode_members sanitize jdata list_ascii_of_string envelope_fields]. destruct (Data e) as [|x d] eqn:Ed.
  - cbn. unfold json_norm. by rewrite Ed, Hd.
  - rewrite fmap_cons. cbn [fst snd]. rewrite jsan_jdata.
    rewrite decode_member_envelope by (unfold envelope_fields; set_solver).
    cbn -[b64_encode b64_decode]. rewrite b64_roundtrip. unfold json_norm. by rewrite Ed.
Qed.

Lemma jfits_envelope e : in_int64 (Ts e) -> jfits maxNestingDepth (jEnvelope e).
Proof.
  intros Hts. unfold jEnvelope. split; [done|]. rewrite foldr_app. simpl.
  split_and!; try done; [by exists (Ts e)|]. by destruct (Data e).
Qed.

Lemma limit_prefix m p t : m <= 0 \/ Z.of_nat (length p) <= m -> exists t', limit m (p ++ t) = p ++ t'.
Proof.
  intros Hm. unfold limit. destruct (Z.ltb_spec 0 m); [|by eexists].
  rewrite take_app_ge by lia. by eexists.
Qed.

Lemma json_decode_object l rest e0 maxSize :
  jfits maxNestingDepth (JObj l) ->
  maxSize <= 0 \/ Z.of_nat (length (enc (JObj l))) <= maxSize ->
  JSONCodec_Decode (enc (JObj l) ++ rest) e0 maxSize =
    match decode_envelope (jsan (JObj l)) e0 with
    | (e', Some err) => Ret (Some (ErrJsonDecode err), e')
    | (e', None) => if bool_decide (Type_ e' = ""%string) then Ret (Some ErrMissingType, e') else Ret (None, e')
    end.
Proof.
  intros Hl Hm. destruct (limit_prefix maxSize (enc (JObj l)) rest Hm) as [t Ht].
  unfold JSONCodec_Decode. rewrite Ht. pose proof (parse_object_enc l t Hl) as Hp.
  destruct (enc (JObj l) ++ t) as [|b r] eqn:Eb; [done|].
  assert (c_is b "{" = true) as -> by (by injection Eb as <- _). simpl negb. cbn iota. by rewrite Hp.
Qed.

(** C6 (roundtrip): the JSON codec.  Decoding an encoded envelope, followed by
    anything, into a fresh envelope succeeds whenever the size limit admits the
    object (or is off) and gives the envelope back with ill-formed UTF-8
    replaced; an envelope of valid strings comes back unchanged. *)
Theorem json_codec_roundtrip e e0 maxSize rest :
  in_int64 (Ts e) -> Type_ e <> ""%string -> Data e0 = [] ->
  maxSize <= 0 \/ Z.of_nat (length (Marshal (jEnvelope e))) <= maxSize ->
  exists b, JSONCodec_Encode e = inl b /\
    JSONCodec_Decode (b ++ rest) e0 maxSize = Ret (None, json_norm e) /\
    (env_utf8 e -> json_norm e = e).
Proof.
  intros Hts Hty Hd Hm. eexists. split; [reflexivity|]. split; [|apply json_norm_id].
  rewrite <- app_assoc. unfold Marshal, jEnvelope in *.
  rewrite json_decode_object by (done || by apply jfits_envelope). fold (jEnvelope e).
  rewrite decode_encoded_envelope by done. rewrite bool_decide_false; [done|]. by apply san_nonempty.
Qed.

Lemma json_codec_roundtrip_witness :
  let e := mkEnvelope "1.0" MsgText EncodingJSON "alice" "m1" "" 1700000000000 (bytes "<hi>") in
  exists b, JSONCodec_Encode e = inl b /\
    JSONCodec_Decode (b ++ bytes "trailing") zero_envelope 4096 = Ret (None, e).
Proof.
  intros e.
  destruct (json_codec_roundtrip e zero_envelope 4096 (bytes "trailing")) as (b & Hb & Hd & Hn).
  - vm_compute. split; discriminate.
  - discriminate.
  - reflexivity.
  - right. vm_compute. discriminate.
  - exists b. split; [exact Hb|]. rewrite Hn in Hd; [exact Hd|]. repeat constructor.
Defined.

(** Storing a parsed object never reports a syntax error. *)
Lemma set_error n v es : forall err, (envelope_set n v es).2 = Some err ->
  err <> DecSyntax /\ err <> DecUnexpectedEOF.
Proof.
  assert (Hs : forall old err, (dec_string v old).2 = Some err -> err <> DecSyntax /\ err <> DecUnexpectedEOF).
  { intros old err. destruct v; simpl; naive_solver. }
  assert (Hi : forall old err, (dec_int64 v old).2 = Some err -> err <> DecSyntax /\ err <> DecUnexpectedEOF).
  { intros old err. unfold dec_int64. destruct v; simpl; try naive_solver.
    destruct (ParseInt false lit) as [z [?|]]; simpl; naive_solver. }
  assert (H8 : forall l k err, (dec_uint8s l k).2 = Some err -> err <> DecSyntax /\ err <> DecUnexpectedEOF).
  { induction l as [|x l IH]; intros k err; [done|]. simpl.
    destruct (dec_uint8 x _) as [b e1] eqn:E1. specialize (IH (List.tl k)).
    destruct (dec_uint8s l (List.tl k)) as [bs e2]. simpl in *.
    destruct e1 as [e1|]; [|apply IH]. intros [= <-]. unfold dec_uint8 in E1.
    repeat case_match; naive_solver. }
  assert (Hb : forall old err, (dec_bytes v old).2 = Some err -> err <> DecSyntax /\ err <> DecUnexpectedEOF).
  { intros old err. unfold dec_bytes. destruct v as [|b|lit|s|l|l]; simpl; try (clear; naive_solver).
    - destruct (b64_decode s); simpl; naive_solver.
    - destruct l as [|x l]; [done|]. pose proof (H8 (x :: l) (old.1 ++ old.2)) as Hx.
      destruct (dec_uint8s (x :: l) (old.1 ++ old.2)) as [bs er]. intros Her. by apply Hx. }
  destruct es as [e spare]. unfold envelope_set. intros err.
  repeat match goal with
  | |- context [if String.eqb n ?m then _ else _] => destruct (String.eqb n m)
  end;
  match goal with
  | |- context [dec_string v ?o] => pose proof (Hs o err); destruct (dec_string v o)
  | |- context [dec_int64 v ?o] => pose proof (Hi o err); destruct (dec_int64 v o)
  | |- context [dec_bytes v ?o] => pose proof (Hb o err); destruct (dec_bytes v o) as [[? ?] ?]
  end; done.
Qed.

Lemma decode_envelope_error ms e e' err : decode_envelope (JObj ms) e = (e', Some err) ->
  err <> DecSyntax /\ err <> DecUnexpectedEOF.
Proof.
  unfold decode_envelope, decode_struct.
  assert (Hg : forall es saved err, (forall x, saved = Some x -> x <> DecSyntax /\ x <> DecUnexpectedEOF) ->
    (decode_members envelope_fields envelope_set ms es saved).2 = Some err ->
    err <> DecSyntax /\ err <> DecUnexpectedEOF).
  { induction ms as [|[k v] ms IH]; intros es saved err' Hsv; simpl; [apply Hsv|].
    destruct (field_of envelope_fields k) as [n|]; [|by apply IH].
    pose proof (set_error n v es) as He. destruct (envelope_set n v es) as [es' e1]. apply IH.
    intros x Hx. destruct saved as [s|]; simpl in Hx; [by apply Hsv|by apply He]. }
  specialize (Hg (e, []) None). destruct (decode_members _ _ ms (e, []) None) as [[e1 sp] er]. simpl in Hg.
  intros [= <- ->]. by apply Hg.
Qed.

(** C36 (error): what the JSON decoder lets through.  It always returns.  Input
    that is empty, does not start with '{' or is not well-formed JSON leaves the
    envelope untouched; it accepts only when the input starts with a JSON object
    and the resulting envelope has a type. *)
Theorem json_decode_outcomes r e maxSize :
  exists err e', JSONCodec_Decode r e maxSize = Ret (err, e') /\
  match err with
  | None => Type_ e' <> ""%string /\
      exists ms rest, parse_first (limit maxSize r) = inl (JObj ms, rest) /\
        decode_envelope (JObj ms) e = (e', None)
  | Some ErrReadFirstByte => limit maxSize r = [] /\ e' = e
  | Some ErrNotObject => (exists b t, limit maxSize r = b :: t /\ b <> "{"%char) /\ e' = e
  | Some (ErrJsonDecode (DecSyntax | DecUnexpectedEOF)) =>
      e' = e /\ exists je, parse_first (limit maxSize r) = inr je /\ je <> JFuel
  | Some (ErrJsonDecode _) =>
      exists ms rest, parse_first (limit maxSize r) = inl (JObj ms, rest)
  | Some ErrMissingType => Type_ e' = ""%string
  | Some _ => False
  end.
Proof.
  unfold JSONCodec_Decode. destruct (limit maxSize r) as [|b t] eqn:El; [by do 2 eexists|].
  unfold c_is. destruct (bool_decide_reflect (b = "{"%char)) as [->|Hb]; simpl negb; cbn iota.
  2:{ do 2 eexists. split; [reflexivity|]. simpl. split; [|done]. eauto. }
  pose proof (parse_no_fuel ("{"%char :: t)) as Hfuel.
  destruct (parse_first ("{"%char :: t)) as [[v rest]|je] eqn:Ep.
  2:{ do 2 eexists. split; [reflexivity|]. destruct je; simpl; eauto with congruence. }
  assert (exists ms, v = JObj ms) as [ms ->].
  { unfold parse_first in Ep. cbn [parse_value] in Ep. rewrite skip_ws_solid in Ep by done.
    change (c_is "{" "{") with true in Ep. cbn iota in Ep. change (maxNestingDepth <=? 0) with false in Ep. cbn iota in Ep.
    destruct (parse_members _ _ _ _) as [[ms r']|?]; [|done]. injection Ep as <- _. eauto. }
  destruct (decode_envelope (JObj ms) e) as [e' [err|]] eqn:Ed.
  - do 2 eexists. split; [reflexivity|].
    assert (Hd : err <> DecSyntax /\ err <> DecUnexpectedEOF) by (by apply (decode_envelope_error ms e e')).
    destruct err; [naive_solver|naive_solver|eauto|eauto].
  - destruct (bool_decide_reflect (Type_ e' = ""%string)); do 2 eexists; (split; [reflexivity|]); simpl; eauto.
Qed.

(** ** What Protocol Buffers keep *)

(** The envelopes the format can carry. *)
Definition pb_accepts (e : Envelope) : Prop := pb_utf8 (to_pb e) /\ pb_fits (to_pb e).

#[export] Instance pb_accepts_dec e : Decision (pb_accepts e).
Proof. unfold pb_accepts. apply _. Defined.

(** The types and encodings the schema knows. *)
Definition pb_type (t : MessageType) : MessageType :=
  if bool_decide (t ∈ [MsgText; MsgCommand; MsgFileMeta; MsgFileChunk; MsgAck; MsgPing; MsgPong])
  then t else ""%string.
Definition pb_encoding (enc : Encoding) : Encoding :=
  if bool_decide (enc ∈ [EncodingJSON; EncodingProtobuf]) then enc else ""%string.

Definition pb_norm (e : Envelope) : Envelope :=
  mkEnvelope (Version e) (pb_type (Type_ e)) (pb_encoding (Encoding_ e)) "" (Mid e) (Correlation e)
    (Ts e) (Data e).

Lemma msg_type_roundtrip t : fromPBMsgType (toPBMsgType t) = pb_type t.
Proof.
  unfold toPBMsgType, pb_type.
  repeat (case_bool_decide; [subst; vm_compute; reflexivity|]).
  rewrite bool_decide_false; [done|]. set_solver.
Qed.

Lemma encoding_roundtrip enc : fromPBEncoding (toPBEncoding enc) = pb_encoding enc.
Proof.
  unfold toPBEncoding, pb_encoding.
  repeat (case_bool_decide; [subst; vm_compute; reflexivity|]).
  rewrite bool_decide_false; [done|]. set_solver.
Qed.

Lemma from_to_pb e : from_pb (to_pb e) = pb_norm e.
Proof. unfold from_pb, to_pb, pb_norm. simpl. by rewrite msg_type_roundtrip, encoding_roundtrip. Qed.

Section protobuf.
Context `{LW : ProtoLaws}.

(** Within the limits of [make] the decoder reads. *)
Lemma ProtobufCodec_Decode_reads r e maxSize : 0 <= maxSize <= maxAlloc ->
  ProtobufCodec_Decode r e maxSize =
    match proto_Unmarshal (take (Z.to_nat maxSize) (limit maxSize r)) with
    | None => Ret (Some ErrProto, e)
    | Some m => Ret (None, from_pb m)
    end.
Proof. intros Hm. unfold ProtobufCodec_Decode. by rewrite (proj2 (Z.ltb_ge maxSize 0)), (proj2 (Z.ltb_ge maxAlloc maxSize)) by lia. Qed.

Lemma protobuf_decode_encoded e e0 maxSize b :
  pb_accepts e -> ProtobufCodec_Encode e = inl b -> Z.of_nat (length b) <= maxSize -> maxSize <= maxAlloc ->
  ProtobufCodec_Decode b e0 maxSize = Ret (None, pb_norm e).
Proof.
  intros [_ Hf]. unfold ProtobufCodec_Encode. intros He Hm Ha. rewrite ProtobufCodec_Decode_reads by lia.
  destruct (proto_Marshal (to_pb e)) as [d|] eqn:E; [|done]. injection He as <-. unfold limit.
  assert (take (Z.to_nat maxSize) (if 0 <? maxSize then take (Z.to_nat maxSize) d else d) = d) as ->.
  { destruct (0 <? maxSize); rewrite !take_ge; try done; rewrite ?take_ge; lia. }
  by rewrite (proto_unmarshal_marshal _ _ Hf E), from_to_pb.
Qed.

(** C13 (roundtrip): the Protocol Buffers codec.  An envelope whose version and
    ids are valid UTF-8 and whose fields have their widths is encoded, and decoding
    it with a limit of at least its size that the runtime can allocate gives
    version, ids, timestamp and data back.  The sender is always lost, although a
    test of the package asserts that it survives, and a type or encoding outside
    the schema (nick, heartbeat) comes back empty. *)
Theorem protobuf_codec_roundtrip e e0 maxSize :
  pb_accepts e ->
  exists b, ProtobufCodec_Encode e = inl b /\
    (Z.of_nat (length b) <= maxSize <= maxAlloc -> ProtobufCodec_Decode b e0 maxSize = Ret (None, pb_norm e)) /\
    From (pb_norm e) = ""%string /\
    (Type_ e = MsgNick \/ Type_ e = MsgHeartbeat -> Type_ (pb_norm e) = ""%string).
Proof.
  intros Hv. destruct (proto_marshal_valid _ (proj1 Hv)) as [b Hb].
  assert (He : ProtobufCodec_Encode e = inl b) by (unfold ProtobufCodec_Encode; by rewrite Hb).
  exists b. split_and!; [done| |done|].
  - intros []. by apply protobuf_decode_encoded.
  - intros [E|E]; simpl; rewrite E; reflexivity.
Qed.

(** The limit of the Protocol Buffers decoder.  A limit of zero
    reads nothing and yields the empty envelope without an error, whatever was
    sent; a negative limit panics, and so does one the runtime cannot allocate. *)
Theorem protobuf_decode_limits r e maxSize :
  (maxSize = 0 -> ProtobufCodec_Decode r e maxSize = Ret (None, zero_envelope)) /\
  (maxSize < 0 \/ maxAlloc < maxSize -> ProtobufCodec_Decode r e maxSize = Panic makeslice_panic).
Proof.
  unfold ProtobufCodec_Decode. split; intros Hm.
  - subst. simpl. by rewrite proto_unmarshal_empty.
  - assert ((maxSize <? 0) || (maxAlloc <? maxSize) = true) as -> by lia. done.
Qed.
End protobuf.

(** ** The interface law *)

(** What the transports rely on: the envelopes a codec accepts are encoded,
    and come back normalised under any limit that is large enough and that the
    codec can work with. *)
Class CodecLaw (c : MessageCodec) := {
  accepts : Envelope -> Prop;
  norm : Envelope -> Envelope;
  admits : Z -> Prop;
  encode_accepted e : accepts e -> exists b, Encode c e = inl b /\ b <> [];
  decode_encoded e b maxSize : accepts e -> Encode c e = inl b -> Z.of_nat (length b) <= maxSize -> admits maxSize ->
    Decode c b zero_envelope maxSize = Ret (None, norm e);
}.

#[export] Program Instance JSONCodec_law : CodecLaw JSONCodec := {|
  accepts := fun e => in_int64 (Ts e) /\ Type_ e <> ""%string;
  norm := json_norm;
  admits := fun _ => True;
|}.
Next Obligation. intros e _. eexists. split; [reflexivity|]. by destruct (Marshal (jEnvelope e)). Qed.
Next Obligation.
  intros e b m [Hts Hty] Hb Hm.
  assert (b = Marshal (jEnvelope e) ++ [z2b 10]) as -> by (by injection Hb). rewrite length_app in Hm. unfold Marshal, jEnvelope. cbn [Decode JSONCodec].
  rewrite json_decode_object; [|by apply jfits_envelope|right; unfold Marshal, jEnvelope in Hm; lia].
  fold (jEnvelope e). rewrite decode_encoded_envelope by done.
  rewrite bool_decide_false; [done|]. by apply san_nonempty.
Qed.

(** An envelope with only zero fields has an empty encoding, which no frame can
    carry. *)
#[export] Program Instance ProtobufCodec_law `{LW : ProtoLaws} : CodecLaw ProtobufCodec := {|
  accepts := fun e => pb_accepts e /\ to_pb e <> pb_zero;
  norm := pb_norm;
  admits := fun maxSize => maxSize <= maxAlloc;
|}.
Next Obligation.
  intros L LW e [Hv Hz]. destruct (proto_marshal_valid _ (proj1 Hv)) as [b Hb].
  exists b. simpl. unfold ProtobufCodec_Encode. rewrite Hb. split; [done|]. intros ->.
  apply (proto_unmarshal_marshal _ _ (proj2 Hv)) in Hb. rewrite proto_unmarshal_empty in Hb. congruence.
Qed.
Next Obligation. intros L LW e b m [Hv _]. by apply protobuf_decode_encoded. Qed.

(** The manager.  Codec number 1 selects Protocol Buffers and
    0 JSON; every other number, msgpack included, is refused by NewCodec and
    falls back to JSON in the manager, whose operations are those of the codec. *)
Theorem manager_selects_codec `{ProtoLib} n :
  NewCodec n = (if n =? 0 then inl JSONCodec else if n =? 1 then inl ProtobufCodec
                else inr (ErrUnsupportedCodec n)) /\
  codec (NewProtocolManager n) = (if n =? 1 then ProtobufCodec else JSONCodec) /\
  (forall e, EncodeMessage (NewProtocolManager n) e =
     if n =? 1 then ProtobufCodec_Encode e else JSONCodec_Encode e) /\
  Name (codec (NewProtocolManager CodecMsgpack)) = Json.
Proof.
  assert (HN : NewCodec n = (if n =? 0 then inl JSONCodec else if n =? 1 then inl ProtobufCodec
                else inr (ErrUnsupportedCodec n))).
  { unfold NewCodec, CodecFactories, CodecJson, CodecProtobuf.
    destruct (Z.eqb_spec n 0) as [->|H0]; [by rewrite lookup_insert_eq|].
    rewrite lookup_insert_ne by done.
    destruct (Z.eqb_spec n 1) as [->|H1]; [by rewrite lookup_singleton_eq|].
    by rewrite lookup_singleton_ne. }
  assert (HC : codec (NewProtocolManager n) = (if n =? 1 then ProtobufCodec else JSONCodec)).
  { unfold NewProtocolManager. rewrite HN. destruct (Z.eqb_spec n 0) as [E|H0]; [by rewrite E|]. by destruct (n =? 1). }
  split_and!; [done|done| |done].
  intros e. unfold EncodeMessage. rewrite HC. by destruct (n =? 1).
Qed.

(** ** The wire format satisfies the laws *)

Module WireProto.
#[export] Instance lib : ProtoLib := {| proto_Marshal := wire_Marshal; proto_Unmarshal := wire_Unmarshal |}.

#[export] Instance laws : ProtoLaws lib.
Proof.
  split; [|exact wire_unmarshal_marshal|done].
  intros m Hm. exists (concat (put_field <$> set_fields m)). by apply wire_Marshal_valid.
Qed.
End WireProto.

Lemma protobuf_codec_roundtrip_witness :
  let e := mkEnvelope "1.0" MsgHeartbeat EncodingJSON "alice" "m1" "" 7 (bytes "x") in
  exists b, ProtobufCodec_Encode (L := WireProto.lib) e = inl b /\
    ProtobufCodec_Decode (L := WireProto.lib) b zero_envelope 4096 =
      Ret (None, mkEnvelope "1.0" "" EncodingJSON "" "m1" "" 7 (bytes "x")).
Proof.
  intros e. destruct (protobuf_codec_roundtrip (LW := WireProto.laws) e zero_envelope 4096) as (b & Hb & Hd & _).
  - apply (bool_decide_unpack _). vm_compute. exact I.
  - exists b. split; [exact Hb|]. apply Hd. vm_compute in Hb. injection Hb as <-. vm_compute. split; discriminate.
Defined.

Lemma protobuf_decode_limits_witness :
  ProtobufCodec_Decode (L := WireProto.lib) (bytes "anything") zero_envelope 0 = Ret (None, zero_envelope) /\
  ProtobufCodec_Decode (L := WireProto.lib) (bytes "anything") zero_envelope (-1) = Panic makeslice_panic.
Proof.
  split.
  - apply (protobuf_decode_limits (LW := WireProto.laws)). reflexivity.
  - apply (protobuf_decode_limits (LW := WireProto.laws)). left. reflexivity.
Defined.
