(* ===== verification/Limits.v ===== *)
(** * The size limit of the codecs

    [Decode] takes a limit and reads no more than that many bytes.  What an
    oversize message becomes differs: the JSON codec refuses every one, and
    leaves the envelope as it was; the Protocol Buffers codec refuses one that is
    cut inside its data, but takes one that is cut right before it for a complete
    message without data.  The second statement is about the bytes on the wire,
    so it needs a library that reads and writes the wire format of Pb.v
    ([ProtoWire]). *)

From S2P Require Import Prelude Utf8 GoStrings Base64 Json JsonPrefix Envelope Factory Wire Pb Codec.

Local Open Scope Z_scope.

(** ** JSON *)

(** The limit admits a first part of the encoding only. *)
Definition json_oversize (e : Envelope) (maxSize : Z) : Prop := 0 < maxSize < Z.of_nat (length (Marshal (jEnvelope e))).

Lemma limit_cut m p q : 0 < m < Z.of_nat (length p) -> exists a b, p = a ++ b /\ b <> [] /\ a <> [] /\ limit m (p ++ q) = a.
Proof.
  intros Hm. exists (take (Z.to_nat m) p), (drop (Z.to_nat m) p). rewrite take_drop. split_and!; [done| | |].
  - intros E. apply (f_equal length) in E. rewrite length_drop in E. simpl in E. lia.
  - intros E. apply (f_equal length) in E. rewrite length_take in E. simpl in E. lia.
  - unfold limit. rewrite (proj2 (Z.ltb_lt 0 m)) by lia. rewrite take_app_le by lia. done.
Qed.

(** C15 (bounds): the JSON limit.  An envelope whose encoding is longer than the
    limit is refused with a decoding error, whatever follows it on the stream,
    and the envelope decoded into keeps all of its fields. *)
Theorem json_oversize_refused e e0 maxSize rest :
  in_int64 (Ts e) -> json_oversize e maxSize ->
  exists b err, JSONCodec_Encode e = inl b /\
    JSONCodec_Decode (b ++ rest) e0 maxSize = Ret (Some (ErrJsonDecode err), e0) /\
    err ∈ [DecSyntax; DecUnexpectedEOF].
Proof.
  intros Hts Hm. eexists. unfold JSONCodec_Decode, JSONCodec_Encode. rewrite <- app_assoc.
  destruct (limit_cut maxSize (Marshal (jEnvelope e)) ([z2b 10] ++ rest) Hm) as (a & b & E & Hb & Ha & Hl).
  rewrite Hl. pose proof (jfits_envelope e Hts) as Hj. unfold Marshal, jEnvelope in E, Hj.
  destruct (parse_object_cut _ a b Hj E Hb) as [je Hje]. pose proof (parse_no_fuel a) as Hf.
  destruct a as [|x a]; [done|]. assert (c_is x "{" = true) as -> by (by injection E as <- _). cbn [negb].
  rewrite Hje. eexists. split_and!; [done|done|]. destruct je; simpl; [set_solver..|congruence].
Qed.

Lemma json_oversize_refused_witness :
  let e := mkEnvelope "1.0" MsgText EncodingJSON "alice" "m1" "" 7 (bytes "hello") in
  exists b err, JSONCodec_Encode e = inl b /\
    JSONCodec_Decode (b ++ bytes "more") zero_envelope 60 = Ret (Some (ErrJsonDecode err), zero_envelope) /\
    err ∈ [DecSyntax; DecUnexpectedEOF].
Proof.
  intros e. apply (json_oversize_refused e zero_envelope 60 (bytes "more")).
  - apply (bool_decide_unpack _). vm_compute. exact I.
  - split; vm_compute; reflexivity.
Defined.

(** ** Protocol Buffers

    The wire format says how a field is written and that fields may come in any
    order; it does not fix the order a library writes them in. *)

(** The strings of some fields are valid UTF-8. *)
Definition fields_utf8 (fs : list (Z * pb_val)) : Prop :=
  Forall (fun f => match f.2 with VString s => utf8_valid (bytes s) = true | _ => True end) fs.

(** A library that writes each field that is set once, in an order of its own,
    reads fields in any order, and refuses a message that ends inside a field. *)
Class ProtoWire (L : ProtoLib) : Prop := {
  proto_marshal_fields m b : proto_Marshal m = Some b ->
    exists fs, fs ≡ₚ set_fields m /\ b = concat (put_field <$> fs);
  proto_unmarshal_fields fs : Forall field_fits fs -> fields_utf8 fs ->
    proto_Unmarshal (concat (put_field <$> fs)) = merge (Some pb_zero) (records fs);
  proto_unmarshal_cut fs f q q' : Forall field_fits fs -> field_fits f ->
    put_field f = q ++ q' -> q <> [] -> q' <> [] -> proto_Unmarshal (concat (put_field <$> fs) ++ q) = None;
}.

#[export] Instance wire_lib_wire : ProtoWire WireProto.lib.
Proof.
  split; simpl.
  - intros m b [-> _]%wire_Marshal_inv. by exists (set_fields m).
  - intros fs Hf _. unfold wire_Unmarshal. rewrite <- (app_nil_r (concat _)), parse_fields by done.
    change (parse_records []) with (inl [] : list (Z * wval) + werr). cbn iota. by rewrite app_nil_r.
  - intros fs f q q' Hfs Hf E Hq Hq'. unfold wire_Unmarshal. by rewrite parse_fields, (put_field_cut f q q').
Qed.

(** The message with the fields of the given numbers only. *)
Definition restrict (ns : list Z) (m : pbEnvelope) : pbEnvelope :=
  let keep {A} (n : Z) (zero v : A) := if bool_decide (n ∈ ns) then v else zero in
  mkPB (keep 1 ""%string (GetVersion m)) (keep 2 0 (GetType m)) (keep 3 0 (GetEncoding m)) (keep 4 ""%string (GetMessageId m))
    (keep 5 ""%string (GetCorrelationId m)) (keep 6 ""%string (GetFrom m)) (keep 7 ""%string (GetTo m))
    (keep 8 0 (GetTimestamp m)) (keep 9 [] (GetData m)).

Lemma keep_snoc {A} (ns : list Z) (n k : Z) (z v : A) :
  (if bool_decide (n ∈ ns ++ [k]) then v else z) = if bool_decide (n = k) then v else if bool_decide (n ∈ ns) then v else z.
Proof. repeat case_bool_decide; set_solver. Qed.

Lemma set_field_restrict ns m n v :
  pb_utf8 m -> pb_fits m -> (n, v) ∈ fields_of m ->
  set_field (restrict ns m) (n, record_of v) = Some (restrict (ns ++ [n]) m).
Proof.
  intros Hu (F1 & F2 & F3 & _) Hin. unfold pb_utf8, pb_strings in Hu. rewrite !Forall_cons in Hu.
  destruct Hu as (U1 & U2 & U3 & U4 & U5 & _). unfold restrict. rewrite !keep_snoc. unfold fields_of in Hin.
  repeat (apply elem_of_cons in Hin as [[= -> ->]|Hin];
    [cbn -[wrap32 wrap64 wrapU64 bool_decide]; unfold set_string, set_int;
     rewrite ?U1, ?U2, ?U3, ?U4, ?U5, ?str_bytes, ?wrap32_wrapU64, ?wrap64_wrapU64 by done; reflexivity|]).
  by apply elem_of_nil in Hin.
Qed.

Lemma merge_restrict ns fs m : pb_utf8 m -> pb_fits m -> Forall (fun f => f ∈ fields_of m) fs ->
  merge (Some (restrict ns m)) (records fs) = Some (restrict (ns ++ fs.*1) m).
Proof.
  intros Hu Hf Hfs. revert ns. induction Hfs as [|[n v] fs Hin Hfs IH]; intros ns; [by rewrite app_nil_r|].
  unfold merge, records in *. cbn [fmap list_fmap foldl mbind option_bind fst snd].
  rewrite set_field_restrict by done. rewrite IH. by rewrite <- app_assoc.
Qed.

Section wire.
Context `{LW : ProtoWire}.

Lemma decode_prefix r e0 maxSize : 0 <= maxSize <= maxAlloc ->
  ProtobufCodec_Decode r e0 maxSize =
    match proto_Unmarshal (take (Z.to_nat maxSize) r) with
    | Some m => Ret (None, from_pb m)
    | None => Ret (Some ErrProto, e0)
    end.
Proof.
  intros Hm. rewrite ProtobufCodec_Decode_reads by done. unfold limit.
  destruct (0 <? maxSize); [by rewrite take_take, Nat.min_id|]. by destruct (proto_Unmarshal _).
Qed.

(** Any of the fields of a message the format can carry. *)
Lemma fields_carried m fs : pb_utf8 m -> pb_fits m -> (forall f, f ∈ fs -> f ∈ fields_of m) ->
  Forall field_fits fs /\ fields_utf8 fs.
Proof.
  intros Hu Hf Hin. split; apply Forall_forall; intros f Hfs%Hin.
  - by apply (proj1 (Forall_forall _ _) (fields_fit m Hf)).
  - unfold pb_utf8, pb_strings in Hu. rewrite !Forall_cons in Hu. destruct Hu as (U1 & U2 & U3 & U4 & U5 & _).
    unfold fields_of in Hfs. repeat (apply elem_of_cons in Hfs as [->|Hfs]; [done|]). by apply elem_of_nil in Hfs.
Qed.

Lemma put_field_nonempty f : field_fits f -> put_field f <> [].
Proof. intros Hf. by apply (put_field_record f Hf). Qed.

(** What the first bytes of a sequence of fields are. *)
Lemma take_fields (fs : list (Z * pb_val)) k m :
  (length (concat (put_field <$> take k fs)) <= m)%nat ->
  take m (concat (put_field <$> fs)) =
    concat (put_field <$> take k fs) ++
    take (m - length (concat (put_field <$> take k fs))) (concat (put_field <$> drop k fs)).
Proof. intros Hm. rewrite <- (take_drop k fs) at 1. rewrite fmap_app, concat_app. by apply take_app_ge. Qed.

(** C14 (bounds): the Protocol Buffers limit.  An encoded envelope is the
    sequence of the fields that are set, in an order the library chooses.  With a
    limit that cuts it between two fields, decoding reports no error: it yields
    the envelope with the fields before the cut, the others zero, although the
    message is longer than the limit.  With a limit that cuts inside a field
    decoding fails and leaves the envelope it decodes into as it was. *)
Theorem protobuf_oversize e e0 b :
  pb_accepts e -> ProtobufCodec_Encode e = inl b -> Z.of_nat (length b) <= maxAlloc ->
  exists fs, fs ≡ₚ set_fields (to_pb e) /\ b = concat (put_field <$> fs) /\
    forall k f, fs !! k = Some f ->
      let cut := length (concat (put_field <$> take k fs)) in
      (cut < length b)%nat /\
      ProtobufCodec_Decode b e0 (Z.of_nat cut) = Ret (None, from_pb (restrict (take k fs).*1 (to_pb e))) /\
      (forall maxSize, Z.of_nat cut < maxSize < Z.of_nat (cut + length (put_field f)) ->
         ProtobufCodec_Decode b e0 maxSize = Ret (Some ErrProto, e0)).
Proof.
  intros [Hu Hf] He Hb. unfold ProtobufCodec_Encode in He.
  destruct (proto_Marshal (to_pb e)) as [d|] eqn:Em; [|done]. injection He as ->.
  destruct (proto_marshal_fields _ _ Em) as (fs & Hp & ->). exists fs. split_and!; [done|done|]. intros k f Hk cut.
  assert (Hin : forall g, g ∈ fs -> g ∈ fields_of (to_pb e)).
  { intros g Hg. rewrite Hp in Hg. by apply list_elem_of_filter in Hg as [_ Hg]. }
  destruct (fields_carried _ fs Hu Hf Hin) as [Hfit Hutf]. pose proof (proj1 (Forall_lookup _ _) Hfit _ _ Hk) as Hff.
  pose proof (put_field_nonempty f Hff) as Hne.
  assert (Hdrop : concat (put_field <$> drop k fs) = put_field f ++ concat (put_field <$> drop (S k) fs))
    by (by rewrite (drop_S fs f k Hk)).
  assert (Hlen : (cut + length (put_field f) <= length (concat (put_field <$> fs)))%nat).
  { rewrite <- (take_drop k fs), fmap_app, concat_app, Hdrop, !length_app. fold cut. lia. }
  assert (Hpos : length (put_field f) <> O) by (by destruct (put_field f)).
  split_and!; [lia| |].
  - rewrite decode_prefix by lia. rewrite Nat2Z.id, (take_fields fs k) by done. fold cut. rewrite Nat.sub_diag, app_nil_r.
    rewrite proto_unmarshal_fields by (by apply Forall_take).
    change pb_zero with (restrict [] (to_pb e)). rewrite merge_restrict; [done|done|done|].
    apply Forall_forall. intros g Hg. apply Hin. by eapply elem_of_sublist, sublist_take.
  - intros m Hm. rewrite decode_prefix by lia. rewrite (take_fields fs k) by (fold cut; lia). fold cut.
    rewrite Hdrop, take_app_le by lia.
    rewrite (proto_unmarshal_cut _ f _ (drop (Z.to_nat m - cut) (put_field f))); [done|by apply Forall_take|done| | |].
    + by rewrite take_drop.
    + intros E. apply (f_equal length) in E. rewrite length_take in E. cbn [length] in E. lia.
    + intros E. apply (f_equal length) in E. rewrite length_drop in E. cbn [length] in E. lia.
Qed.
End wire.

(** ** A library that writes the fields in another order *)
Module BackwardProto.
Definition backward_Marshal (m : pbEnvelope) : option (list byte) :=
  if bool_decide (pb_utf8 m) then Some (concat (put_field <$> reverse (set_fields m))) else None.

#[export] Instance lib : ProtoLib := {| proto_Marshal := backward_Marshal; proto_Unmarshal := wire_Unmarshal |}.

#[export] Instance wire : ProtoWire lib.
Proof.
  split; [|exact (proto_unmarshal_fields (ProtoWire := wire_lib_wire))|exact (proto_unmarshal_cut (ProtoWire := wire_lib_wire))].
  intros m b. simpl. unfold backward_Marshal. case_bool_decide; [|done]. intros [= <-].
  exists (reverse (set_fields m)). split; [apply reverse_Permutation|done].
Qed.
End BackwardProto.

(** A text message, its data the first field on the wire: the limit leaves the
    data and drops the rest. *)
Lemma protobuf_oversize_witness :
  let e := mkEnvelope "1.0" MsgText EncodingJSON "" "m1" "" 7 (bytes "hello") in
  exists b, ProtobufCodec_Encode (L := BackwardProto.lib) e = inl b /\ length b = 22%nat /\
    ProtobufCodec_Decode (L := BackwardProto.lib) b zero_envelope 7 = Ret (None, mkEnvelope "" "" "" "" "" "" 0 (bytes "hello")) /\
    ProtobufCodec_Decode (L := BackwardProto.lib) b zero_envelope 8 = Ret (Some ErrProto, zero_envelope).
Proof.
  intros e. eexists. split; [vm_compute; reflexivity|]. split; [vm_compute; reflexivity|].
  destruct (protobuf_oversize (LW := BackwardProto.wire) e zero_envelope
    (concat (put_field <$> reverse (set_fields (to_pb e))))) as (fs & Hp & Hb & Hcut).
  - apply (bool_decide_unpack _). vm_compute. exact I.
  - vm_compute. reflexivity.
  - vm_compute. discriminate.
  - split; vm_compute; reflexivity.
Defined.
