(* ===== verification/Conn.v ===== *)
(** * Byte streams: [net.Conn], [io.ReadFull], [encoding/binary]

    A connection delivers the bytes of the peer in chunks of arbitrary size
    (one chunk per [Read] at most) and then an error for ever; its write side
    accepts a number of bytes before it fails.  [read_full] is the loop of
    [io.ReadFull]; [be32] and [put_be32] are [binary.BigEndian]. *)

From S2P Require Import Prelude.

Local Open Scope Z_scope.

Inductive io_error :=
| EOF
| ErrUnexpectedEOF
| ErrNetClosed                (** "use of closed network connection" *)
| ErrTimeout
| ErrOther (msg : string).

#[export] Instance io_error_eq_dec : EqDecision io_error.
Proof. solve_decision. Defined.

Record conn := mkConn {
  inbuf : list (list byte);             (** chunks still to be delivered *)
  inerr : io_error;                     (** what [Read] returns after them *)
  out : list byte;                      (** bytes accepted by [Write] *)
  wfail : option (nat * io_error);      (** bytes until [Write] fails *)
}.

Definition set_in (c : conn) (l : list (list byte)) : conn :=
  mkConn l (inerr c) (out c) (wfail c).

(** The bytes the peer has sent and nobody has read. *)
Definition pending (c : conn) : list byte := concat (inbuf c).

(** Puts back what a read left of a chunk. *)
Definition push_chunk (ch : list byte) (l : list (list byte)) : list (list byte) :=
  match ch with [] => l | _ => ch :: l end.

(** [conn.Read] into a buffer of [n] bytes. *)
Definition conn_read (c : conn) (n : nat) : list byte * option io_error * conn :=
  match inbuf c with
  | [] => ([], Some (inerr c), c)
  | ch :: l => (take n ch, None, set_in c (push_chunk (drop n ch) l))
  end.

(** [conn.Write] *)
Definition conn_write (c : conn) (p : list byte) : option io_error * conn :=
  match wfail c with
  | None => (None, mkConn (inbuf c) (inerr c) (out c ++ p) None)
  | Some (k, e) =>
      if (length p <=? k)%nat
      then (None, mkConn (inbuf c) (inerr c) (out c ++ p) (Some ((k - length p)%nat, e)))
      else (Some e, mkConn (inbuf c) (inerr c) (out c ++ take k p) (Some (O, e)))
  end.

(** The loop of [io.ReadFull]: what was read, whether the stream ended, and
    the chunks left. *)
Fixpoint read_full_chunks (l : list (list byte)) (n : nat) : list byte * bool * list (list byte) :=
  match n with
  | O => ([], true, l)
  | S _ =>
      match l with
      | [] => ([], false, [])
      | ch :: l' =>
          if (n <=? length ch)%nat then (take n ch, true, push_chunk (drop n ch) l')
          else let '(d, ok, r) := read_full_chunks l' (n - length ch) in (ch ++ d, ok, r)
      end
  end.

(** The error of a read that ended early: an end of stream after at least one
    byte is [ErrUnexpectedEOF]. *)
Definition short_error (e : io_error) (d : list byte) : io_error :=
  match e, d with EOF, _ :: _ => ErrUnexpectedEOF | e, _ => e end.

(** [io.ReadFull(conn, buf)] with [len(buf) = n]. *)
Definition read_full (c : conn) (n : nat) : list byte * option io_error * conn :=
  let '(d, ok, r) := read_full_chunks (inbuf c) n in
  (d, if ok then None else Some (short_error (inerr c) d), set_in c r).

(** ** Big-endian 32-bit integers *)

Definition put_be32 (v : Z) : list byte :=
  [z2b (Z.shiftr v 24); z2b (Z.shiftr v 16); z2b (Z.shiftr v 8); z2b v].

Definition be32 (b : list byte) : Z :=
  match b with
  | [b0; b1; b2; b3] =>
      Z.lor (Z.lor (Z.lor (b2z b3) (Z.shiftl (b2z b2) 8)) (Z.shiftl (b2z b1) 16))
            (Z.shiftl (b2z b0) 24)
  | _ => 0
  end.

(** ** Lemmas *)

Lemma pending_set_in c r : pending (set_in c r) = concat r.
Proof. done. Qed.

Lemma push_chunk_concat ch l : concat (push_chunk ch l) = ch ++ concat l.
Proof. by destruct ch. Qed.

(** [io.ReadFull] sees only the byte stream, not how it was cut in chunks. *)
Lemma read_full_chunks_spec l n :
  let '(d, ok, r) := read_full_chunks l n in
  d = take n (concat l) /\ ok = (n <=? length (concat l))%nat /\ concat r = drop n (concat l).
Proof.
  revert n. induction l as [|ch l IH]; intros [|n]; try done.
  cbn [read_full_chunks concat]. rewrite length_app.
  destruct (Nat.leb_spec (S n) (length ch)).
  - rewrite push_chunk_concat, take_app_le, drop_app_le by lia.
    repeat split. symmetry. apply Nat.leb_le. lia.
  - specialize (IH (S n - length ch)%nat).
    destruct (read_full_chunks l (S n - length ch)) as [[d ok] r]. destruct IH as (-> & -> & ->).
    rewrite take_app_ge, drop_app_ge by lia. repeat split.
    destruct (Nat.leb_spec (S n - length ch) (length (concat l))), (Nat.leb_spec (S n) (length ch + length (concat l))); lia.
Qed.

Lemma read_full_spec c n :
  exists r, concat r = drop n (pending c) /\
  read_full c n =
    (take n (pending c),
     if (n <=? length (pending c))%nat then None else Some (short_error (inerr c) (take n (pending c))),
     set_in c r).
Proof.
  unfold read_full, pending. pose proof (read_full_chunks_spec (inbuf c) n) as H.
  destruct (read_full_chunks (inbuf c) n) as [[d ok] r]. destruct H as (-> & -> & Hr).
  exists r. split; [done|].
  destruct (n <=? length (concat (inbuf c)))%nat; reflexivity.
Qed.

Lemma lor_shiftl_add a h n : 0 <= n -> 0 <= a < 2 ^ n -> Z.lor a (Z.shiftl h n) = a + h * 2 ^ n.
Proof.
  intros Hn Ha. rewrite <- Z.shiftl_mul_pow2 by lia. symmetry.
  rewrite Z.add_nocarry_lxor.
  - symmetry. apply Z.bits_inj'. intros i Hi. rewrite Z.lor_spec, Z.lxor_spec.
    destruct (Z.ltb_spec i n).
    + rewrite Z.shiftl_spec_low by lia. by destruct (Z.testbit a i).
    + assert (Z.testbit a i = false) as ->; [|by destruct (Z.testbit (Z.shiftl h n) i)].
      rewrite <- (Z.mod_small a (2 ^ n)) by lia. by apply Z.mod_pow2_bits_high.
  - apply Z.bits_inj'. intros i Hi. rewrite Z.land_spec, Z.bits_0.
    destruct (Z.ltb_spec i n).
    + rewrite Z.shiftl_spec_low by lia. by rewrite andb_false_r.
    + rewrite <- (Z.mod_small a (2 ^ n)) by lia. by rewrite Z.mod_pow2_bits_high.
Qed.

Lemma be32_sum b0 b1 b2 b3 :
  be32 [b0; b1; b2; b3] =
  b2z b3 + b2z b2 * 256 + b2z b1 * 65536 + b2z b0 * 16777216.
Proof.
  pose proof (b2z_range b0). pose proof (b2z_range b1).
  pose proof (b2z_range b2). pose proof (b2z_range b3). unfold be32.
  rewrite (lor_shiftl_add (b2z b3) (b2z b2) 8), (lor_shiftl_add _ (b2z b1) 16),
    (lor_shiftl_add _ (b2z b0) 24); lia.
Qed.

Lemma be32_put v : 0 <= v < 4294967296 -> be32 (put_be32 v) = v.
Proof.
  intros Hv. unfold put_be32. rewrite be32_sum, !b2z_z2b_mod, !Z.shiftr_div_pow2 by lia.
  change (2 ^ 24) with 16777216. change (2 ^ 16) with 65536. change (2 ^ 8) with 256.
  pose proof (Z.div_mod v 256 ltac:(lia)). pose proof (Z.mod_pos_bound v 256 ltac:(lia)).
  pose proof (Z.div_mod (v / 256) 256 ltac:(lia)). pose proof (Z.mod_pos_bound (v / 256) 256 ltac:(lia)).
  pose proof (Z.div_mod (v / 65536) 256 ltac:(lia)). pose proof (Z.mod_pos_bound (v / 65536) 256 ltac:(lia)).
  assert (v / 256 / 256 = v / 65536) by (rewrite Z.div_div by lia; reflexivity).
  assert (v / 65536 / 256 = v / 16777216) by (rewrite Z.div_div by lia; reflexivity).
  rewrite (Z.mod_small (v / 16777216)) by (split; [apply Z.div_pos; lia | apply Z.div_lt_upper_bound; lia]).
  lia.
Qed.

Lemma length_put_be32 v : length (put_be32 v) = 4%nat.
Proof. done. Qed.

(** The wire image grows by exactly the bytes written when nothing fails. *)
Lemma conn_write_ok c p : wfail c = None ->
  conn_write c p = (None, mkConn (inbuf c) (inerr c) (out c ++ p) None).
Proof. intros H. unfold conn_write. by rewrite H. Qed.
