(* ===== verification/Frame.v ===== *)
(** * Length-prefixed frames: [internal/transport/frame.go]

    [FrameCodec] writes a 4-byte big-endian length and the payload, and reads
    frames back through a pool of reusable buffers.  The pool is modelled with
    the stale bytes its buffers carry; what [sync.Pool.Get] hands out is an
    argument ([pick]).  [frame_spec] is the abstract contract (frames of a flat
    byte stream); the theorems show that the buffered, chunked implementation
    refines it, that frames round-trip, and that concurrent [WriteFrame] calls
    never interleave inside a frame. *)

From S2P Require Import Prelude Conn.

Local Open Scope Z_scope.

Definition MaxFrameSize : Z := 16 * 1024 * 1024.
Definition pool_buf_size : nat := N.to_nat 65536.

Inductive frame_error :=
| ErrCodecNil
| ErrFrameTooBig (n : Z)        (** "frame too large: %d" *)
| ErrFrameSize (n : Z)          (** "invalid frame size: %d" *)
| ErrIO (e : io_error).

#[export] Instance frame_error_eq_dec : EqDecision frame_error.
Proof. solve_decision. Defined.

(** The codec: the backing arrays of the pooled buffers (their capacity is
    their length).  The two mutexes make each operation atomic. *)
Record FrameCodec := mkFrameCodec { bufPool : list (list byte) }.

Definition NewFrameCodec : FrameCodec := mkFrameCodec [].

(** [bufPool.Get]: any pooled buffer, or a new one of 64 KiB. *)
Definition pool_get (pick : option nat) (p : list (list byte)) : list byte * list (list byte) :=
  match pick with
  | Some i => match p !! i with
              | Some b => (b, delete i p)
              | None => (replicate pool_buf_size zero, p)
              end
  | None => (replicate pool_buf_size zero, p)
  end.

(** Writes [d] at the front of an array. *)
Definition fill (d buf : list byte) : list byte := d ++ drop (length d) buf.

Definition zlen {A} (l : list A) : Z := Z.of_nat (length l).

(** ** WriteFrame *)

Definition WriteFrame (c : option FrameCodec) (cn : conn) (payload : list byte)
  : option frame_error * conn :=
  match c with
  | None => (Some ErrCodecNil, cn)
  | Some _ =>
      if 16 * 1024 * 1024 <? zlen payload then (Some (ErrFrameTooBig (zlen payload)), cn) else
      let header := put_be32 (wrapU32 (zlen payload)) in
      match conn_write cn header with
      | (Some e, cn1) => (Some (ErrIO e), cn1)
      | (None, cn1) =>
          match conn_write cn1 payload with
          | (Some e, cn2) => (Some (ErrIO e), cn2)
          | (None, cn2) => (None, cn2)
          end
      end
  end.

(** ** ReadFrame *)

(** Returns the buffer and the frame length, or an error; both the codec and
    the connection are updated. *)
Definition readFrameInternal (pick : option nat) (c : option FrameCodec) (cn : option conn)
  : ((list byte * Z) + frame_error) * option FrameCodec * option conn :=
  match c, cn with
  | Some c0, Some cn0 =>
      let '(header, e1, cn1) := read_full cn0 4 in
      match e1 with
      | Some e => (inr (ErrIO e), Some c0, Some cn1)
      | None =>
          let length := be32 header in
          if (length <=? 0) || (MaxFrameSize <? length)
          then (inr (ErrFrameSize length), Some c0, Some cn1)
          else
            let '(buf0, pool1) := pool_get pick (bufPool c0) in
            let n := Z.to_nat length in
            let fresh := zlen buf0 <? length in
            let buf := if fresh then replicate n zero else buf0 in
            let '(d, e2, cn2) := read_full cn1 n in
            match e2 with
            | Some e =>
                (* the pooled array goes back, with whatever was read into it *)
                let back := if fresh then buf0 else fill d buf0 in
                (inr (ErrIO e), Some (mkFrameCodec (back :: pool1)), Some cn2)
            | None => (inl (fill d buf, length), Some (mkFrameCodec pool1), Some cn2)
            end
      end
  | _, _ => (inr ErrCodecNil, c, cn)
  end.

Definition ReadFrame (pick : option nat) (c : option FrameCodec) (cn : option conn)
  : (list byte + frame_error) * option FrameCodec * option conn :=
  match readFrameInternal pick c cn with
  | (inr e, c', cn') => (inr e, c', cn')
  | (inl (buf, n), c', cn') =>
      (inl (take (Z.to_nat n) buf),
       match c' with Some c1 => Some (mkFrameCodec (buf :: bufPool c1)) | None => None end,
       cn')
  end.

(** ** The abstract contract: the first frame of a byte stream *)

Definition frame (p : list byte) : list byte := put_be32 (zlen p) ++ p.

(** The result of reading one frame from the stream [s] that ends with [e],
    and the stream left. *)
Definition frame_spec (s : list byte) (e : io_error) : (list byte + frame_error) * list byte :=
  if (length s <? 4)%nat then (inr (ErrIO (short_error e s)), []) else
  let n := be32 (take 4 s) in
  let s' := drop 4 s in
  if (n <=? 0) || (MaxFrameSize <? n) then (inr (ErrFrameSize n), s')
  else if zlen s' <? n then (inr (ErrIO (short_error e s')), [])
  else (inl (take (Z.to_nat n) s'), drop (Z.to_nat n) s').

(** ** Helper lemmas *)

Lemma take_fill d buf : take (length d) (fill d buf) = d.
Proof. apply take_app_length. Qed.

Lemma frame_header (p : list byte) : zlen p <= MaxFrameSize -> be32 (put_be32 (zlen p)) = zlen p.
Proof. intros H. apply be32_put. unfold zlen, MaxFrameSize in *. lia. Qed.

Lemma wrapU32_len (p : list byte) : zlen p <= MaxFrameSize -> wrapU32 (zlen p) = zlen p.
Proof. intros H. apply Z.mod_small. unfold zlen, MaxFrameSize in *. lia. Qed.

(** ReadFrame depends on the byte stream only: not on the chunking, not on the
    pool, not on the buffer picked. *)
Lemma ReadFrame_refines pick c cn :
  exists c' cn',
    ReadFrame pick (Some c) (Some cn) =
      ((frame_spec (pending cn) (inerr cn)).1, Some c', Some cn') /\
    pending cn' = (frame_spec (pending cn) (inerr cn)).2 /\
    inerr cn' = inerr cn /\ out cn' = out cn /\ wfail cn' = wfail cn.
Proof.
  unfold ReadFrame, readFrameInternal, frame_spec.
  destruct (read_full_spec cn 4) as (r & Hr & ->).
  destruct (Nat.ltb_spec (length (pending cn)) 4) as [Hl|Hl].
  { rewrite (proj2 (Nat.leb_gt _ _)) by lia. rewrite take_ge by lia.
    do 2 eexists. split; [done|]. rewrite pending_set_in, Hr, drop_ge by lia. done. }
  rewrite (proj2 (Nat.leb_le _ _)) by lia.
  set (n := be32 (take 4 (pending cn))).
  destruct ((n <=? 0) || (MaxFrameSize <? n)) eqn:Hn.
  { do 2 eexists. split; [done|]. rewrite pending_set_in, Hr. done. }
  apply orb_false_iff in Hn as [Hn0 Hn1]. apply Z.leb_gt in Hn0. apply Z.ltb_ge in Hn1.
  destruct (pool_get pick (bufPool c)) as [buf0 pool1].
  destruct (read_full_spec (set_in cn r) (Z.to_nat n)) as (r2 & Hr2 & ->).
  assert (Hp : pending (set_in cn r) = drop 4 (pending cn)) by (by rewrite pending_set_in).
  rewrite Hp in *. simpl inerr.
  destruct (Z.ltb_spec (zlen (drop 4 (pending cn))) n) as [Hs|Hs]; unfold zlen in Hs.
  - rewrite (proj2 (Nat.leb_gt _ _)) by lia. rewrite take_ge by lia.
    do 2 eexists. split; [done|]. rewrite pending_set_in, Hr2, drop_ge by lia. done.
  - rewrite (proj2 (Nat.leb_le _ _)) by lia.
    do 2 eexists. split; [|rewrite pending_set_in, Hr2; done].
    simpl. do 2 f_equal.
    replace (Z.to_nat n) with (length (take (Z.to_nat n) (drop 4 (pending cn)))) at 1
      by (rewrite length_take; lia).
    by rewrite take_fill.
Qed.

(** A stream that starts with a legal frame yields its payload. *)
Lemma frame_spec_frame p s e :
  0 < zlen p <= MaxFrameSize -> frame_spec (frame p ++ s) e = (inl p, s).
Proof.
  intros Hp. unfold frame_spec, frame. rewrite <- app_assoc.
  rewrite (proj2 (Nat.ltb_ge _ _)) by (rewrite length_app, length_put_be32; lia).
  rewrite (take_app_exact (put_be32 (zlen p))), (drop_app_exact (put_be32 (zlen p))) by done.
  rewrite frame_header by lia.
  rewrite (proj2 (Z.leb_gt _ _)), (proj2 (Z.ltb_ge MaxFrameSize _)) by lia.
  rewrite (proj2 (Z.ltb_ge _ _)) by (unfold zlen; rewrite length_app; lia). simpl.
  rewrite take_app_exact, drop_app_exact; unfold zlen; [done|lia|lia].
Qed.

(** ** Reading a sequence of frames *)

(** Calls ReadFrame once per element of [picks], stopping at the first error:
    the frames read, the error that ended the loop, the final codec and
    connection. *)
Fixpoint read_frames (picks : list (option nat)) (c : option FrameCodec) (cn : option conn)
  : list (list byte) * option frame_error * option FrameCodec * option conn :=
  match picks with
  | [] => ([], None, c, cn)
  | pk :: picks' =>
      match ReadFrame pk c cn with
      | (inr e, c', cn') => ([], Some e, c', cn')
      | (inl p, c', cn') =>
          let '(ps, e, c2, cn2) := read_frames picks' c' cn' in (p :: ps, e, c2, cn2)
      end
  end.

(** The same loop on the flat stream. *)
Fixpoint spec_frames (k : nat) (s : list byte) (e : io_error) : list (list byte) * option frame_error * list byte :=
  match k with
  | O => ([], None, s)
  | S k' =>
      match frame_spec s e with
      | (inr err, s') => ([], Some err, s')
      | (inl p, s') => let '(ps, err, s2) := spec_frames k' s' e in (p :: ps, err, s2)
      end
  end.

Lemma read_frames_spec picks c cn :
  exists c' cn',
    read_frames picks (Some c) (Some cn) =
      ((spec_frames (length picks) (pending cn) (inerr cn)).1, Some c', Some cn') /\
    pending cn' = (spec_frames (length picks) (pending cn) (inerr cn)).2.
Proof.
  revert c cn. induction picks as [|pk picks IH]; intros c cn; [by do 2 eexists|].
  cbn [read_frames spec_frames length].
  destruct (ReadFrame_refines pk c cn) as (c1 & cn1 & -> & Hp & He & _).
  destruct (frame_spec (pending cn) (inerr cn)) as [[p|err] s'] eqn:Es; simpl in Hp.
  - destruct (IH c1 cn1) as (c2 & cn2 & -> & Hp2). rewrite Hp, He in *.
    destruct (spec_frames (length picks) s' (inerr cn)) as [[ps err] s2] eqn:E2.
    simpl in *. do 2 eexists. split; [done|]. done.
  - do 2 eexists. split; [done|]. done.
Qed.

Definition legal_payload (p : list byte) : Prop := 0 < zlen p <= MaxFrameSize.

#[export] Instance legal_payload_dec p : Decision (legal_payload p).
Proof. unfold legal_payload. apply _. Defined.

Lemma spec_frames_concat ps s e :
  Forall legal_payload ps -> spec_frames (length ps) (concat (frame <$> ps) ++ s) e = (ps, None, s).
Proof.
  induction 1 as [|p ps Hp Hps IH]; [done|].
  cbn [length spec_frames]. rewrite fmap_cons. cbn [concat]. rewrite <- app_assoc.
  rewrite frame_spec_frame by done. by rewrite IH.
Qed.

(** Reading any number of frames through the pooled, chunked
    codec gives exactly the frames of the flat byte stream, with the same error
    and the same bytes left over, whatever the chunking of the connection, the
    stale contents of the pool and the buffers the pool hands out. *)
Theorem read_frames_refine_stream picks c cn :
  exists c' cn',
    read_frames picks (Some c) (Some cn) =
      ((spec_frames (length picks) (pending cn) (inerr cn)).1, Some c', Some cn') /\
    pending cn' = (spec_frames (length picks) (pending cn) (inerr cn)).2.
Proof. apply read_frames_spec. Qed.

(** ** Writing *)

(** Writes the payloads one after the other, stopping at the first error. *)
Fixpoint write_frames (c : option FrameCodec) (cn : conn) (ps : list (list byte)) : option frame_error * conn :=
  match ps with
  | [] => (None, cn)
  | p :: ps' =>
      match WriteFrame c cn p with
      | (Some e, cn') => (Some e, cn')
      | (None, cn') => write_frames c cn' ps'
      end
  end.

Lemma WriteFrame_ok c cn p :
  wfail cn = None -> zlen p <= MaxFrameSize ->
  WriteFrame (Some c) cn p = (None, mkConn (inbuf cn) (inerr cn) (out cn ++ frame p) None).
Proof.
  intros Hw Hp. unfold WriteFrame. rewrite (proj2 (Z.ltb_ge _ _)) by done.
  rewrite wrapU32_len by done. rewrite conn_write_ok by done.
  rewrite conn_write_ok by done. simpl. by rewrite <- app_assoc.
Qed.

Lemma write_frames_ok c cn ps :
  wfail cn = None -> Forall legal_payload ps ->
  write_frames (Some c) cn ps =
    (None, mkConn (inbuf cn) (inerr cn) (out cn ++ concat (frame <$> ps)) None).
Proof.
  intros Hw Hps. revert cn Hw. induction Hps as [|p ps [_ Hp] Hps IH]; intros cn Hw.
  - simpl. rewrite app_nil_r. destruct cn; simpl in *. by subst.
  - cbn [write_frames]. rewrite WriteFrame_ok by done. rewrite IH by done.
    rewrite fmap_cons. simpl. by rewrite <- app_assoc.
Qed.

(** Payloads of 1 byte to 16 MiB written one after the other
    to a healthy connection are read back unchanged and in order by a peer that
    receives the same bytes in any chunks, with any buffer pool. *)
Theorem frames_roundtrip cw cr snd rcv ps picks :
  wfail snd = None -> out snd = [] -> Forall legal_payload ps -> length picks = length ps ->
  pending rcv = out (write_frames (Some cw) snd ps).2 ->
  (write_frames (Some cw) snd ps).1 = None /\
  (read_frames picks (Some cr) (Some rcv)).1.1 = (ps, None).
Proof.
  intros Hw Ho Hps Hk. rewrite write_frames_ok by done. rewrite Ho. simpl. intros Hp.
  split; [done|]. destruct (read_frames_spec picks cr rcv) as (c' & cn' & -> & _).
  rewrite Hp, Hk, <- (app_nil_r (concat _)), spec_frames_concat by done. done.
Qed.

(** Every branch of WriteFrame.  A nil codec and a payload above
    16 MiB are refused before any byte is written; otherwise the connection has
    received a prefix of the frame, the whole frame exactly when no error is
    returned. *)
Theorem WriteFrame_branches c cn p :
  let '(e, cn') := WriteFrame c cn p in
  match c with
  | None => e = Some ErrCodecNil /\ cn' = cn
  | Some _ =>
      if bool_decide (MaxFrameSize < zlen p)
      then e = Some (ErrFrameTooBig (zlen p)) /\ cn' = cn
      else exists k, out cn' = out cn ++ take k (frame p) /\
           match e with
           | None => take k (frame p) = frame p
           | Some err => (k < length (frame p))%nat /\ exists i, err = ErrIO i
           end
  end.
Proof.
  destruct c as [c|]; [|done]. unfold WriteFrame.
  destruct (Z.ltb_spec (16 * 1024 * 1024) (zlen p)) as [Hp|Hp].
  { rewrite bool_decide_true by done. done. }
  rewrite bool_decide_false by (unfold MaxFrameSize; lia).
  rewrite wrapU32_len by done. unfold frame.
  pose proof (length_put_be32 (zlen p)) as H4. revert H4.
  generalize (put_be32 (zlen p)) as h. intros h H4.
  unfold conn_write at 1. rewrite H4. destruct (wfail cn) as [[k e]|] eqn:Ef.
  - destruct (Nat.leb_spec 4 k).
    + unfold conn_write. cbn [wfail]. destruct (Nat.leb_spec (length p) (k - 4)).
      * exists (length (h ++ p)). cbn [out]. rewrite firstn_all. split; [|done].
        by rewrite <- app_assoc.
      * exists k. cbn [out]. rewrite length_app. split; [|split; [lia|eauto]].
        rewrite <- app_assoc. f_equal. rewrite take_app. f_equal; [|by rewrite H4].
        symmetry. apply take_ge. lia.
    + exists k. cbn [out]. rewrite length_app. split; [|split; [lia|eauto]].
      by rewrite take_app_le by lia.
  - rewrite conn_write_ok by done. exists (length (h ++ p)). cbn [out].
    rewrite firstn_all. split; [|done]. by rewrite <- app_assoc.
Qed.

(** The empty payload is a hole in the protocol: WriteFrame sends
    it without an error, and the peer's ReadFrame rejects the frame as invalid. *)
Theorem empty_frame_written_but_refused c cn rcv pick c2 rest :
  wfail cn = None ->
  pending rcv = frame [] ++ rest ->
  WriteFrame (Some c) cn [] = (None, mkConn (inbuf cn) (inerr cn) (out cn ++ frame []) None) /\
  (ReadFrame pick (Some c2) (Some rcv)).1.1 = inr (ErrFrameSize 0).
Proof.
  intros Hw Hr. rewrite WriteFrame_ok by done.
  split; [done|].
  destruct (ReadFrame_refines pick c2 rcv) as (c' & cn' & -> & _).
  rewrite Hr. done.
Qed.

(** ** Concurrent WriteFrame calls

    Several goroutines may call WriteFrame on one codec and connection.  Each
    call takes [writeMu], writes the header, writes the payload and releases
    the mutex; a step of the relation is one of these actions of one call. *)
Module Writers.

(** Where a call is. *)
Inductive wpc :=
| WStart (p : list byte)            (** before [writeMu.Lock] *)
| WLocked (p : list byte)           (** holds the mutex, nothing written *)
| WHeader (p : list byte)           (** the header is written *)
| WPayload (p : list byte)          (** the payload is written, mutex still held *)
| WDone (p : list byte)             (** returned nil *)
| WFailed (p : list byte) (e : frame_error).

Record wstate := mkW { calls : list wpc; writeMu : option nat; wire : conn }.

Inductive wstep : relation wstate :=
| wstep_too_big s i p :
    calls s !! i = Some (WStart p) -> MaxFrameSize < zlen p ->
    wstep s (mkW (<[i := WFailed p (ErrFrameTooBig (zlen p))]> (calls s)) (writeMu s) (wire s))
| wstep_lock s i p :
    calls s !! i = Some (WStart p) -> zlen p <= MaxFrameSize -> writeMu s = None ->
    wstep s (mkW (<[i := WLocked p]> (calls s)) (Some i) (wire s))
| wstep_header s i p cn :
    calls s !! i = Some (WLocked p) ->
    conn_write (wire s) (put_be32 (wrapU32 (zlen p))) = (None, cn) ->
    wstep s (mkW (<[i := WHeader p]> (calls s)) (writeMu s) cn)
| wstep_header_err s i p e cn :
    calls s !! i = Some (WLocked p) ->
    conn_write (wire s) (put_be32 (wrapU32 (zlen p))) = (Some e, cn) ->
    wstep s (mkW (<[i := WFailed p (ErrIO e)]> (calls s)) None cn)
| wstep_payload s i p cn :
    calls s !! i = Some (WHeader p) -> conn_write (wire s) p = (None, cn) ->
    wstep s (mkW (<[i := WPayload p]> (calls s)) (writeMu s) cn)
| wstep_payload_err s i p e cn :
    calls s !! i = Some (WHeader p) -> conn_write (wire s) p = (Some e, cn) ->
    wstep s (mkW (<[i := WFailed p (ErrIO e)]> (calls s)) None cn)
| wstep_unlock s i p :
    calls s !! i = Some (WPayload p) ->
    wstep s (mkW (<[i := WDone p]> (calls s)) None (wire s)).

Definition holding (pc : wpc) : bool :=
  match pc with WLocked _ | WHeader _ | WPayload _ => true | _ => false end.

(** The bytes of an unfinished frame that are already on the wire. *)
Definition partial (pc : wpc) : list byte :=
  match pc with WHeader p => put_be32 (zlen p) | WPayload p => frame p | _ => [] end.

Definition done_payload (pc : wpc) : option (list byte) :=
  match pc with WDone p => Some p | _ => None end.

Definition payload_of (pc : wpc) : list byte :=
  match pc with
  | WStart p | WLocked p | WHeader p | WPayload p | WDone p | WFailed p _ => p
  end.

Definition accepted (pc : wpc) : bool := bool_decide (zlen (payload_of pc) <= MaxFrameSize).

Definition finished (pc : wpc) : bool :=
  match pc with WDone _ | WFailed _ _ => true | _ => false end.

(** The invariant: exactly the mutex owner is inside the critical section, and
    the wire is whole frames followed by the owner's unfinished one. *)
Record winv (s : wstate) : Prop := {
  wi_healthy : wfail (wire s) = None;
  wi_lock : forall i pc, calls s !! i = Some pc -> holding pc = true <-> writeMu s = Some i;
  wi_owner : forall i, writeMu s = Some i -> is_Some (calls s !! i);
  wi_legal : forall i pc, calls s !! i = Some pc -> holding pc = true \/ is_Some (done_payload pc) ->
               zlen (payload_of pc) <= MaxFrameSize;
  wi_failed : forall i p e, calls s !! i = Some (WFailed p e) -> MaxFrameSize < zlen p;
  wi_wire : exists ps,
    out (wire s) = concat (frame <$> ps) ++
      match writeMu s with
      | Some i => match calls s !! i with Some pc => partial pc | None => [] end
      | None => []
      end /\
    ps ≡ₚ omap done_payload (calls s);
}.

Definition init (ps : list (list byte)) (cn : conn) : wstate := mkW (WStart <$> ps) None cn.

(** Changing one call changes the finished payloads by that call's. *)
Lemma omap_insert l i pc pc' :
  l !! i = Some pc -> done_payload pc = None ->
  omap done_payload (<[i := pc']> l) ≡ₚ
  match done_payload pc' with Some p => [p] | None => [] end ++ omap done_payload l.
Proof.
  intros Hi Hpc. pose proof (lookup_lt_Some _ _ _ Hi).
  rewrite insert_take_drop by done. rewrite <- (take_drop_middle l i pc Hi) at 3.
  rewrite !omap_app. cbn [omap list_omap]. rewrite Hpc.
  destruct (done_payload pc'); simpl; [|done].
  by rewrite Permutation_middle.
Qed.

Lemma insert_lookup_cases {A} (l : list A) i j x y :
  <[i := x]> l !! j = Some y -> (j = i /\ y = x) \/ (j <> i /\ l !! j = Some y).
Proof.
  intros H. destruct (decide (i = j)) as [<-|Hne].
  - left. apply list_lookup_insert_Some in H as [(_ & -> & _)|[? _]]; done.
  - right. rewrite list_lookup_insert_ne in H by done. auto.
Qed.

Lemma insert_lookup_same {A} (l : list A) i x y : l !! i = Some y -> <[i := x]> l !! i = Some x.
Proof. intros H. apply list_lookup_insert_eq. by eapply lookup_lt_Some. Qed.

Lemma winv_init ps cn : wfail cn = None -> out cn = [] -> winv (init ps cn).
Proof.
  intros Hw Ho.
  assert (Hst : forall i pc, (WStart <$> ps) !! i = Some pc -> exists p, pc = WStart p).
  { intros i pc H. apply list_lookup_fmap_Some in H as (p & -> & _). eauto. }
  split; simpl; try done.
  - intros i pc H. by apply Hst in H as [p ->].
  - intros i pc H Hh. apply Hst in H as [p ->]. destruct Hh as [?|[? ?]]; done.
  - intros i p e H. by apply Hst in H as [? ?].
  - exists []. split; [by rewrite Ho|].
    clear. induction ps; [done|]. by simpl.
Qed.

(** One call moves from [pc] to [pc']: the conditions under which the invariant
    is kept. *)
Lemma winv_update s i pc pc' L' w' :
  winv s -> calls s !! i = Some pc -> wfail w' = None ->
  (holding pc' = true <-> L' = Some i) ->
  (forall j, j <> i -> L' = Some j <-> writeMu s = Some j) ->
  (holding pc' = true \/ is_Some (done_payload pc') -> zlen (payload_of pc') <= MaxFrameSize) ->
  (forall p e, pc' = WFailed p e -> MaxFrameSize < zlen p) ->
  (exists ps,
    out w' = concat (frame <$> ps) ++
      match L' with
      | Some j => match <[i := pc']> (calls s) !! j with Some pc => partial pc | None => [] end
      | None => []
      end /\
    ps ≡ₚ omap done_payload (<[i := pc']> (calls s))) ->
  winv (mkW (<[i := pc']> (calls s)) L' w').
Proof.
  intros I Hi Hw Hl Ho Hleg Hf Hwire. split; simpl; try done.
  - intros j q Hj. apply insert_lookup_cases in Hj as [[-> ->]|[Hne Hj]]; [done|].
    rewrite Ho by done. by apply (wi_lock s I).
  - intros j Hj. destruct (decide (j = i)) as [->|Hne].
    + rewrite (insert_lookup_same _ _ _ _ Hi). eauto.
    + rewrite list_lookup_insert_ne by done. apply (wi_owner s I). by apply Ho.
  - intros j q Hj Hq. apply insert_lookup_cases in Hj as [[-> ->]|[Hne Hj]]; [auto|].
    by eapply (wi_legal s I).
  - intros j p e Hj. apply insert_lookup_cases in Hj as [[-> E]|[Hne Hj]]; [eauto|].
    by eapply (wi_failed s I).
Qed.

Lemma wire_owned s i pc : winv s -> calls s !! i = Some pc -> holding pc = true ->
  writeMu s = Some i /\
  exists ps, out (wire s) = concat (frame <$> ps) ++ partial pc /\ ps ≡ₚ omap done_payload (calls s).
Proof.
  intros I Hi Hh. apply (wi_lock s I i pc Hi) in Hh. split; [done|].
  destruct (wi_wire s I) as (ps & E & Hp). rewrite Hh, Hi in E. eauto.
Qed.

Lemma insert_not_done l i pc pc' :
  l !! i = Some pc -> done_payload pc = None -> done_payload pc' = None ->
  omap done_payload (<[i := pc']> l) ≡ₚ omap done_payload l.
Proof. intros Hi Hd Hd'. rewrite (omap_insert _ _ pc) by done. by rewrite Hd'. Qed.

(** The owner writes more of its frame. *)
Lemma winv_write s i pc pc' b cn :
  winv s -> calls s !! i = Some pc -> holding pc = true -> holding pc' = true ->
  payload_of pc' = payload_of pc -> done_payload pc = None -> done_payload pc' = None ->
  partial pc ++ b = partial pc' -> conn_write (wire s) b = (None, cn) ->
  winv (mkW (<[i := pc']> (calls s)) (writeMu s) cn).
Proof.
  intros I Hi Hh Hh' Hpay Hd Hd' Hb Hcn.
  destruct (wire_owned s i pc I Hi Hh) as (Hmu & ps & Ho & Hps).
  rewrite conn_write_ok in Hcn by apply (wi_healthy s I). injection Hcn as <-.
  apply (winv_update s i pc); try done.
  - intros _. rewrite Hpay. apply (wi_legal s I i pc); auto.
  - intros p e ->. done.
  - exists ps. simpl. rewrite Hmu, (insert_lookup_same _ _ _ _ Hi), Ho, <- app_assoc, Hb.
    split; [done|]. by rewrite (insert_not_done _ _ pc).
Qed.

Lemma winv_step s s' : winv s -> wstep s s' -> winv s'.
Proof.
  intros I Hs. pose proof (wi_healthy s I) as Hw.
  destruct Hs as [s i p Hi Hbig|s i p Hi Hleg Hmu|s i p cn Hi Hcn|s i p e cn Hi Hcn
                 |s i p cn Hi Hcn|s i p e cn Hi Hcn|s i p Hi].
  - (* refused before the lock *)
    assert (Hno : writeMu s <> Some i) by (intros E; by apply (wi_lock s I i _ Hi) in E).
    apply (winv_update s i (WStart p)); try done.
    + intros [?|[? ?]]; done.
    + intros ? ? [= <- _]. done.
    + destruct (wi_wire s I) as (ps & E & Hps). exists ps. split; [|by rewrite insert_not_done].
      rewrite E. destruct (writeMu s) as [j|]; [|done].
      by rewrite list_lookup_insert_ne by congruence.
  - (* lock *)
    apply (winv_update s i (WStart p)); try done.
    + intros j Hj. rewrite Hmu. split; congruence.
    + destruct (wi_wire s I) as (ps & E & Hps). rewrite Hmu in E. exists ps.
      rewrite (insert_lookup_same _ _ _ _ Hi). split; [done|]. by rewrite insert_not_done.
  - (* header *)
    eapply winv_write; [done|exact Hi|done..| |exact Hcn]. simpl.
    rewrite wrapU32_len; [done|]. apply (wi_legal s I i _ Hi). auto.
  - rewrite conn_write_ok in Hcn by done. done.
  - (* payload *)
    eapply winv_write; [done|exact Hi|done..|exact Hcn].
  - rewrite conn_write_ok in Hcn by done. done.
  - (* unlock *)
    destruct (wire_owned s i _ I Hi eq_refl) as (Hmu & ps & Ho & Hps).
    apply (winv_update s i (WPayload p)); try done.
    + intros j Hj. rewrite Hmu. split; congruence.
    + intros _. apply (wi_legal s I i _ Hi). auto.
    + exists (ps ++ [p]). rewrite Ho. simpl. rewrite fmap_app, concat_app. simpl.
      rewrite !app_nil_r. split; [done|].
      rewrite (omap_insert _ _ (WPayload p)) by done. simpl. rewrite Hps.
      by rewrite Permutation_app_comm.
Qed.

Lemma winv_reachable ps cn s :
  wfail cn = None -> out cn = [] -> rtc wstep (init ps cn) s -> winv s.
Proof.
  intros Hw Ho Hr. eapply rtc_invariant; [exact winv_step|by apply winv_init|done].
Qed.

(** The calls keep their payloads. *)
Lemma payloads_reachable ps cn s : rtc wstep (init ps cn) s -> payload_of <$> calls s = ps.
Proof.
  intros Hr. eapply (rtc_invariant _ (fun s => payload_of <$> calls s = ps)); [| |exact Hr].
  - intros a b <- Hab.
    assert (Hins : forall i pc pc', calls a !! i = Some pc -> payload_of pc' = payload_of pc ->
      payload_of <$> <[i := pc']> (calls a) = payload_of <$> calls a).
    { intros i pc pc' Hi E. rewrite list_fmap_insert, E. apply list_insert_id.
      by rewrite list_lookup_fmap, Hi. }
    destruct Hab; simpl; eapply Hins; eauto.
  - cbn [init calls]. rewrite <- list_fmap_compose. apply list_fmap_id.
Qed.

(** Once every call has returned, the finished payloads are the legal ones. *)
Lemma finished_payloads s : winv s -> Forall (fun pc => finished pc = true) (calls s) ->
  omap done_payload (calls s) = filter (fun p => zlen p <= MaxFrameSize) (payload_of <$> calls s).
Proof.
  intros I Hf.
  assert (Hall : Forall (fun pc => match pc with
    | WDone p => zlen p <= MaxFrameSize | WFailed p _ => MaxFrameSize < zlen p | _ => False end) (calls s)).
  { apply Forall_lookup. intros i pc Hi. pose proof (Forall_lookup_1 _ _ _ _ Hf Hi) as Hpc.
    destruct pc; try done.
    - apply (wi_legal s I i _ Hi). right. eauto.
    - by eapply (wi_failed s I). }
  clear Hf I. induction Hall as [|pc l Hpc Hl IH]; [done|].
  destruct pc; try done; cbn [omap list_omap]; rewrite fmap_cons, filter_cons; simpl.
  - rewrite decide_True by done. f_equal. apply IH.
  - rewrite decide_False by lia. apply IH.
Qed.

End Writers.

(** C3 (safety): concurrent WriteFrame calls on a healthy connection never
    interleave inside a frame.  In every schedule in which all calls return,
    the wire holds whole frames of exactly the accepted payloads in some order,
    and a reader gets precisely those payloads back. *)
Theorem concurrent_writes_whole_frames payloads cn s rcv c picks :
  wfail cn = None -> out cn = [] ->
  rtc Writers.wstep (Writers.init payloads cn) s ->
  Forall (fun pc => Writers.finished pc = true) (Writers.calls s) ->
  Forall (fun p => 0 < zlen p) payloads ->
  pending rcv = out (Writers.wire s) ->
  exists ps,
    ps ≡ₚ filter (fun p => zlen p <= MaxFrameSize) payloads /\
    out (Writers.wire s) = concat (frame <$> ps) /\
    (length picks = length ps -> (read_frames picks (Some c) (Some rcv)).1.1 = (ps, None)).
Proof.
  intros Hw Ho Hr Hf Hne Hrcv. pose proof (Writers.winv_reachable _ _ _ Hw Ho Hr) as I.
  destruct (Writers.wi_wire s I) as (ps & E & Hps).
  rewrite (Writers.finished_payloads s I Hf), (Writers.payloads_reachable _ _ _ Hr) in Hps.
  assert (Hnolock : Writers.writeMu s = None).
  { destruct (Writers.writeMu s) as [i|] eqn:Hmu; [|done].
    destruct (Writers.wi_owner s I i Hmu) as [pc Hi].
    apply (Writers.wi_lock s I i pc Hi) in Hmu.
    pose proof (Forall_lookup_1 _ _ _ _ Hf Hi). by destruct pc. }
  rewrite Hnolock, app_nil_r in E. exists ps. split; [done|]. split; [done|]. intros Hk.
  destruct (read_frames_spec picks c rcv) as (c' & cn' & -> & _).
  rewrite Hrcv, E, Hk, <- (app_nil_r (concat _)), spec_frames_concat; [done|].
  rewrite Hps. apply Forall_forall. intros p [Hp Hin]%list_elem_of_filter.
  split; [by eapply Forall_forall in Hne|done].
Qed.

(** ** The theorems at concrete inputs *)

Lemma frames_roundtrip_witness :
  let snd := mkConn [] EOF [] None in
  let rcv := mkConn [[z2b 0]; [z2b 0; z2b 0]; z2b 2 :: bytes "hi"; put_be32 1 ++ bytes "!"] EOF [] None in
  (write_frames (Some NewFrameCodec) snd [bytes "hi"; bytes "!"]).1 = None /\
  (read_frames [None; None] (Some NewFrameCodec) (Some rcv)).1.1 = ([bytes "hi"; bytes "!"], None).
Proof.
  intros snd rcv. apply frames_roundtrip; try reflexivity.
  repeat (apply Forall_cons_2; [split; vm_compute; (reflexivity || discriminate)|]). apply Forall_nil_2.
Defined.

Lemma concurrent_writes_whole_frames_witness :
  let cn := mkConn [] EOF [] None in
  let rcv := mkConn [frame (bytes "a")] EOF [] None in
  exists ps, ps ≡ₚ filter (fun p => zlen p <= MaxFrameSize) [bytes "a"] /\
    concat (frame <$> ps) = frame (bytes "a").
Proof.
  intros cn rcv.
  set (s := Writers.mkW [Writers.WDone (bytes "a")] None (mkConn [] EOF (frame (bytes "a")) None)).
  destruct (concurrent_writes_whole_frames [bytes "a"] cn s rcv NewFrameCodec [None]) as (ps & Hp & Ho & _);
    try reflexivity.
  - eapply rtc_l; [apply (Writers.wstep_lock _ 0 (bytes "a")); [reflexivity|vm_compute; discriminate|reflexivity]|].
    eapply rtc_l; [eapply (Writers.wstep_header _ 0 (bytes "a")); reflexivity|].
    eapply rtc_l; [eapply (Writers.wstep_payload _ 0 (bytes "a")); reflexivity|].
    eapply rtc_l; [eapply (Writers.wstep_unlock _ 0 (bytes "a")); reflexivity|]. apply rtc_refl.
  - repeat constructor.
  - repeat constructor.
  - exists ps. split; [exact Hp|]. rewrite <- Ho. reflexivity.
Defined.
