(* ===== verification/FrameIO.v ===== *)
(** * Frames on one connection: reads and writes of [internal/transport/frame.go]
    in any order

    A connection is used in both directions by the same codec.  [flat] is what of
    a connection the program can observe: the bytes still to come, how they end,
    the bytes written, and when writing will fail.  How the incoming bytes are
    cut in chunks, what the pooled buffers contain and which one the pool hands
    out make no difference: connections with the same [flat] are equivalent, and
    the operations respect the equivalence. *)

From S2P Require Import Prelude Conn Frame.

Local Open Scope Z_scope.

(** ** The abstract connection *)

Record flat := mkFlat {
  f_in : list byte;
  f_end : io_error;
  f_out : list byte;
  f_fail : option (nat * io_error);
}.

Definition flat_of (cn : conn) : flat := mkFlat (pending cn) (inerr cn) (out cn) (wfail cn).

#[export] Instance conn_equiv : Equiv conn := fun cn1 cn2 => flat_of cn1 = flat_of cn2.

#[export] Instance conn_equivalence : Equivalence (≡@{conn}).
Proof.
  split.
  - by intros cn.
  - intros cn1 cn2 E. by symmetry.
  - intros cn1 cn2 cn3 E1 E2. unfold equiv, conn_equiv in *. congruence.
Qed.

#[export] Instance flat_of_proper : Proper ((≡) ==> (=)) flat_of.
Proof. by intros cn1 cn2. Qed.

(** Nothing of a codec can be observed but whether there is one. *)
#[export] Instance codec_equiv : Equiv FrameCodec := fun _ _ => True.

#[export] Instance codec_equivalence : Equivalence (≡@{FrameCodec}).
Proof. by split. Qed.

(** Bytes on the wire: what a write of [p] does. *)
Definition flat_write (f : flat) (p : list byte) : option io_error * flat :=
  match f_fail f with
  | None => (None, mkFlat (f_in f) (f_end f) (f_out f ++ p) None)
  | Some (k, e) =>
      if (length p <=? k)%nat
      then (None, mkFlat (f_in f) (f_end f) (f_out f ++ p) (Some ((k - length p)%nat, e)))
      else (Some e, mkFlat (f_in f) (f_end f) (f_out f ++ take k p) (Some (O, e)))
  end.

(** A frame goes out as one piece of bytes, or is refused; a frame comes in as
    [frame_spec] says. *)
Definition spec_WriteFrame (f : flat) (p : list byte) : option frame_error * flat :=
  if MaxFrameSize <? zlen p then (Some (ErrFrameTooBig (zlen p)), f)
  else let '(e, f') := flat_write f (frame p) in (ErrIO <$> e, f').

Definition spec_ReadFrame (f : flat) : (list byte + frame_error) * flat :=
  let '(r, s) := frame_spec (f_in f) (f_end f) in (r, mkFlat s (f_end f) (f_out f) (f_fail f)).

(** ** The operations refine it *)

Lemma conn_write_flat cn p : let '(e, cn') := conn_write cn p in flat_write (flat_of cn) p = (e, flat_of cn').
Proof. unfold conn_write, flat_write, flat_of. cbn [f_fail f_in f_end f_out]. by destruct (wfail cn) as [[k e]|]; [destruct (_ <=? _)%nat|]. Qed.

(** Two writes in a row are one write of both. *)
Lemma flat_write_app f p q :
  flat_write f (p ++ q) = match flat_write f p with
                          | (None, f') => flat_write f' q
                          | r => r
                          end.
Proof.
  unfold flat_write. destruct (f_fail f) as [[k e]|]; [|by rewrite app_assoc].
  rewrite length_app. destruct (Nat.leb_spec (length p) k) as [Hp|Hp]; cbn [f_fail f_in f_end f_out].
  - destruct (Nat.leb_spec (length q) (k - length p)), (Nat.leb_spec (length p + length q) k); try lia.
    + rewrite app_assoc. do 4 f_equal. lia.
    + by rewrite take_app_ge, app_assoc by lia.
  - rewrite (proj2 (Nat.leb_gt _ _)) by lia. by rewrite take_app_le by lia.
Qed.

Lemma WriteFrame_flat c cn p :
  let '(e, cn') := WriteFrame (Some c) cn p in spec_WriteFrame (flat_of cn) p = (e, flat_of cn').
Proof.
  unfold WriteFrame, spec_WriteFrame. change (16 * 1024 * 1024) with MaxFrameSize.
  destruct (Z.ltb_spec MaxFrameSize (zlen p)) as [Hp|Hp]; [done|]. rewrite wrapU32_len by done.
  unfold frame. rewrite flat_write_app.
  pose proof (conn_write_flat cn (put_be32 (zlen p))) as H1. destruct (conn_write cn _) as [[e1|] cn1]; rewrite H1; [done|].
  pose proof (conn_write_flat cn1 p) as H2. by destruct (conn_write cn1 p) as [[e2|] cn2]; rewrite H2.
Qed.

Lemma ReadFrame_flat pick c cn : exists c' cn',
  ReadFrame pick (Some c) (Some cn) = ((spec_ReadFrame (flat_of cn)).1, Some c', Some cn') /\
  flat_of cn' = (spec_ReadFrame (flat_of cn)).2.
Proof.
  destruct (ReadFrame_refines pick c cn) as (c' & cn' & E & Hp & He & Ho & Hw). exists c', cn'.
  unfold spec_ReadFrame, flat_of. cbn [f_in f_end f_out f_fail].
  destruct (frame_spec (pending cn) (inerr cn)) as [r s]. split; [exact E|]. simpl in *. by rewrite Hp, He, Ho, Hw.
Qed.

(** ** They respect the equivalence *)

#[export] Instance WriteFrame_proper :
  Proper ((≡) ==> (≡) ==> (=) ==> prod_relation (=) (≡)) WriteFrame.
Proof.
  intros c1 c2 Hc cn1 cn2 Hn p ? <-. destruct Hc as [c1 c2 _|]; [|split; [reflexivity|exact Hn]].
  pose proof (WriteFrame_flat c1 cn1 p) as H1. pose proof (WriteFrame_flat c2 cn2 p) as H2.
  rewrite (flat_of_proper _ _ Hn) in H1. destruct (WriteFrame (Some c1) cn1 p), (WriteFrame (Some c2) cn2 p).
  rewrite H1 in H2. split; unfold equiv, conn_equiv; simpl; congruence.
Qed.

#[export] Instance ReadFrame_proper :
  Proper ((fun _ _ => True) ==> (≡) ==> (≡) ==> prod_relation (prod_relation (=) (≡)) (≡)) ReadFrame.
Proof.
  intros k1 k2 _ c1 c2 Hc cn1 cn2 Hn.
  destruct Hc as [c1 c2 Hc|], Hn as [cn1 cn2 Hn|]; try (by repeat constructor).
  destruct (ReadFrame_flat k1 c1 cn1) as (c1' & cn1' & -> & H1). destruct (ReadFrame_flat k2 c2 cn2) as (c2' & cn2' & -> & H2).
  rewrite (flat_of_proper _ _ Hn) in *. split; [split; [done|by constructor]|]. constructor. unfold equiv, conn_equiv. congruence.
Qed.

(** ** Any sequence of operations *)

Inductive io_op := OpRead (pick : option nat) | OpWrite (p : list byte).
Inductive io_obs := GotFrame (r : list byte + frame_error) | Wrote (e : option frame_error).

Fixpoint run_io (ops : list io_op) (c : FrameCodec) (cn : conn) : list io_obs * conn :=
  match ops with
  | [] => ([], cn)
  | OpWrite p :: ops' =>
      let '(e, cn1) := WriteFrame (Some c) cn p in
      let '(l, cn') := run_io ops' c cn1 in (Wrote e :: l, cn')
  | OpRead pick :: ops' =>
      match ReadFrame pick (Some c) (Some cn) with
      | (r, Some c1, Some cn1) => let '(l, cn') := run_io ops' c1 cn1 in (GotFrame r :: l, cn')
      | (r, _, _) => ([GotFrame r], cn)
      end
  end.

Fixpoint spec_io (ops : list io_op) (f : flat) : list io_obs * flat :=
  match ops with
  | [] => ([], f)
  | OpWrite p :: ops' =>
      let '(e, f1) := spec_WriteFrame f p in let '(l, f') := spec_io ops' f1 in (Wrote e :: l, f')
  | OpRead _ :: ops' =>
      let '(r, f1) := spec_ReadFrame f in let '(l, f') := spec_io ops' f1 in (GotFrame r :: l, f')
  end.

Lemma run_io_flat ops c cn :
  (run_io ops c cn).1 = (spec_io ops (flat_of cn)).1 /\
  flat_of (run_io ops c cn).2 = (spec_io ops (flat_of cn)).2.
Proof.
  revert c cn. induction ops as [|[pick|p] ops IH]; intros c cn; [done|..]; cbn [run_io spec_io].
  - destruct (ReadFrame_flat pick c cn) as (c1 & cn1 & -> & Hf). destruct (spec_ReadFrame (flat_of cn)) as [r f1].
    simpl in *. subst f1. destruct (IH c1 cn1) as [E1 E2].
    destruct (run_io ops c1 cn1), (spec_io ops (flat_of cn1)). simpl in *. by subst.
  - pose proof (WriteFrame_flat c cn p) as H1. destruct (WriteFrame (Some c) cn p) as [e cn1]. rewrite H1.
    destruct (IH c cn1) as [E1 E2]. destruct (run_io ops c cn1), (spec_io ops (flat_of cn1)). simpl in *. by subst.
Qed.

(** C5 (refinement): frames on a connection.  Any sequence of frame reads and
    writes on one connection, errors included, does what the flat connection
    does: every result is the same, and the connection left has the flat
    connection's bytes.  So the chunks of the connection, the stale contents of
    the pool and the buffers it hands out have no influence: equivalent
    connections give the same results and stay equivalent, through any codec. *)
Theorem frame_io_refines_flat ops c cn :
  (run_io ops c cn).1 = (spec_io ops (flat_of cn)).1 /\
  flat_of (run_io ops c cn).2 = (spec_io ops (flat_of cn)).2 /\
  (forall c2 cn2, cn2 ≡ cn ->
     (run_io ops c2 cn2).1 = (run_io ops c cn).1 /\ (run_io ops c2 cn2).2 ≡ (run_io ops c cn).2).
Proof.
  destruct (run_io_flat ops c cn) as [E1 E2]. split_and!; [done|done|]. intros c2 cn2 Hn.
  destruct (run_io_flat ops c2 cn2) as [E3 E4]. rewrite Hn in E3, E4. unfold equiv, conn_equiv. by rewrite E1, E2, E3, E4.
Qed.
