(* ===== verification/Session.v ===== *)
(** * Sessions: [internal/transport/session.go], [session_manager.go], the
    session objects of [tcp.go] and [ws.go]

    [tcpSession] and [wsSession] are the two implementations of the Go
    interface [Session], here a type class over the session type.  A
    [SessionContext] wraps a session for the gateway; contexts and sessions are
    shared objects, so the gateway's world stores both by address.  The
    identifiers and clock readings the code asks for come from an environment
    ([uuid.New], [time.Now]): the n-th call gets the n-th value. *)

From S2P Require Import Prelude Utf8 GoStrings Json Envelope Codec Factory Conn Frame.

Local Open Scope Z_scope.

Inductive SessionState := SessionStateActive | SessionStateClosed.

#[export] Instance SessionState_eq_dec : EqDecision SessionState.
Proof. solve_decision. Defined.

Record Base := mkBase {
  id : string;
  remoteAddr : string;
  state : SessionState;
  closeOnce : bool;
}.

Definition NewBase (id remoteAddr : string) : Base := mkBase id remoteAddr SessionStateActive false.

Definition Base_ID (b : Base) : string := id b.
Definition Base_RemoteAddr (b : Base) : string := remoteAddr b.
Definition State (b : Base) : SessionState := state b.

Definition once_done (b : Base) : Base := mkBase (id b) (remoteAddr b) (state b) true.

(** Errors with a code. *)
Record tpError := mkTpError { tp_code : Z; tp_msg : string; tp_context : string }.

Definition newTpError (code : Z) (message context : string) : tpError := mkTpError code message context.

Definition tpError_Error (e : tpError) : string :=
  if bool_decide (tp_context e <> ""%string)
  then ("Error " ++ Itoa (tp_code e) ++ ": " ++ tp_msg e ++ " (context: " ++ tp_context e ++ ")")%string
  else ("Error " ++ Itoa (tp_code e) ++ ": " ++ tp_msg e)%string.

(** Errors of the transport layer; [ErrSessionContextClosed] is error 1001. *)
Inductive tp_error :=
| ErrSessionClosed
| ErrSessionContextClosed
| ErrEncode (e : codec_error)
| ErrFrame (e : frame_error)
| ErrWriteMessage (e : io_error).

#[export] Instance tp_error_eq_dec : EqDecision tp_error.
Proof. solve_decision. Defined.

(** The interface. *)
Class Session (T : Type) := {
  ID : T -> string;
  RemoteAddr : T -> string;
  SendEnvelope : Envelope -> T -> option tp_error * T;
  Close : T -> option tp_error * T;
}.

(** ** TCP sessions *)

Record tcpSession := mkTcp {
  t_base : Base;
  t_conn : conn;
  frameCodec : FrameCodec;
  t_manager : Manager;
  t_closeChan : bool;              (** the channel is closed *)
  lastActive : Z;                  (** nanoseconds *)
  readDeadline : option Z;
}.

Definition newTcpSession (id addr : string) (c : conn) (m : Manager) (now : Z) : tcpSession :=
  mkTcp (NewBase id addr) c NewFrameCodec m false now None.

Definition set_conn (s : tcpSession) (c : conn) : tcpSession :=
  mkTcp (t_base s) c (frameCodec s) (t_manager s) (t_closeChan s) (lastActive s) (readDeadline s).

Definition tcp_SendEnvelope (e : Envelope) (s : tcpSession) : option tp_error * tcpSession :=
  match State (t_base s) with
  | SessionStateClosed => (Some ErrSessionClosed, s)
  | SessionStateActive =>
      match EncodeMessage (t_manager s) e with
      | inr err => (Some (ErrEncode err), s)
      | inl buff =>
          match WriteFrame (Some (frameCodec s)) (t_conn s) buff with
          | (Some err, c) => (Some (ErrFrame err), set_conn s c)
          | (None, c) => (None, set_conn s c)
          end
      end
  end.

(** A closed connection delivers nothing and accepts nothing. *)
Definition conn_close (c : conn) : conn := mkConn [] ErrNetClosed (out c) (Some (O, ErrNetClosed)).

(** The first call closes the connection and the channel; [conn.Close] of an
    open connection succeeds. *)
Definition tcp_Close (s : tcpSession) : option tp_error * tcpSession :=
  if closeOnce (t_base s) then (None, s)
  else (None, mkTcp (once_done (t_base s)) (conn_close (t_conn s)) (frameCodec s) (t_manager s) true
                (lastActive s) (readDeadline s)).

(** ** WebSocket sessions

    A WebSocket connection delivers whole messages, text or other, and then an
    error; a write appends a message or fails. *)
Inductive ws_kind := TextMessage | OtherMessage.

Record wsConn := mkWsConn {
  ws_in : list (ws_kind * list byte);
  ws_out : list (list byte);
  ws_fail : option io_error;       (** what [WriteMessage] returns, if it fails *)
}.

Record wsSession := mkWs {
  w_base : Base;
  w_conn : wsConn;
  w_manager : Manager;
  w_closeChan : bool;
}.

Definition newWsSession (id addr : string) (c : wsConn) (m : Manager) : wsSession :=
  mkWs (NewBase id addr) c m false.

Definition ws_SendEnvelope (e : Envelope) (s : wsSession) : option tp_error * wsSession :=
  match State (w_base s) with
  | SessionStateClosed => (Some ErrSessionClosed, s)
  | SessionStateActive =>
      match EncodeMessage (w_manager s) e with
      | inr err => (Some (ErrEncode err), s)
      | inl buffer =>
          match ws_fail (w_conn s) with
          | Some err => (Some (ErrWriteMessage err), s)
          | None => (None, mkWs (w_base s) (mkWsConn (ws_in (w_conn s)) (ws_out (w_conn s) ++ [buffer]) None)
                             (w_manager s) (w_closeChan s))
          end
      end
  end.

Definition ws_Close (s : wsSession) : option tp_error * wsSession :=
  if closeOnce (w_base s) then (None, s)
  else (None, mkWs (once_done (w_base s)) (mkWsConn [] (ws_out (w_conn s)) (Some ErrNetClosed))
                (w_manager s) true).

(** ** The interface values *)

Inductive session := STcp (s : tcpSession) | SWs (s : wsSession).

#[export] Instance session_Session : Session session := {|
  ID s := match s with STcp t => Base_ID (t_base t) | SWs w => Base_ID (w_base w) end;
  RemoteAddr s := match s with STcp t => Base_RemoteAddr (t_base t) | SWs w => Base_RemoteAddr (w_base w) end;
  SendEnvelope e s := match s with
                      | STcp t => let '(r, t') := tcp_SendEnvelope e t in (r, STcp t')
                      | SWs w => let '(r, w') := ws_SendEnvelope e w in (r, SWs w')
                      end;
  Close s := match s with
             | STcp t => let '(r, t') := tcp_Close t in (r, STcp t')
             | SWs w => let '(r, w') := ws_Close w in (r, SWs w')
             end;
|}.

(** Promises of the interface that its clients rely on: closing is idempotent
    and keeps the identity, and so does sending. *)
Class SessionLaws (T : Type) `{Session T} : Prop := {
  close_idemp s : Close (Close s).2 = (None, (Close s).2);
  close_id s : ID (Close s).2 = ID s;
  send_id e s : ID (SendEnvelope e s).2 = ID s;
}.

#[export] Instance session_laws : SessionLaws session.
Proof.
  split.
  - intros [s|s]; simpl; unfold tcp_Close, ws_Close; destruct (closeOnce _) eqn:E; simpl; by rewrite ?E.
  - intros [s|s]; simpl; unfold tcp_Close, ws_Close; by destruct (closeOnce _).
  - intros e [s|s]; simpl; unfold tcp_SendEnvelope, ws_SendEnvelope.
    + destruct (State _); [|done]. destruct (EncodeMessage _ _) as [b|err]; [|done].
      by destruct (WriteFrame _ _ b) as [[err|] c].
    + destruct (State _); [|done]. destruct (EncodeMessage _ _) as [b|err]; [|done]. by destruct (ws_fail _).
Qed.

(** ** Session contexts and the session manager *)

Definition addr := nat.

Record SessionContext := mkSC {
  Id : string;
  ScRemoteAddr : string;
  sess : addr;
  sc_closed : bool;
  sc_closeOnce : bool;
}.

(** [sync.Map] of contexts by id, and an independent counter. *)
Record SessionManager := mkSM { smap : gmap string addr; count : Z }.

Definition NewSessionManager : SessionManager := mkSM ∅ 0.

(** [sc] is [None] for a nil context. *)
Definition AddContext (sc : option (addr * SessionContext)) (sm : SessionManager) : SessionManager :=
  match sc with
  | None => sm
  | Some (a, c) => mkSM (<[Id c := a]> (smap sm)) (wrap64 (count sm + 1))
  end.

Definition Remove (id : string) (sm : SessionManager) : SessionManager :=
  mkSM (delete id (smap sm)) (wrap64 (count sm - 1)).

Definition Count (sm : SessionManager) : Z := count sm.
Definition Get (id : string) (sm : SessionManager) : option addr := smap sm !! id.

(** [GetAll] walks the map in some order of its keys. *)
Definition GetAll (order : list string) (sm : SessionManager) : list addr := omap (fun k => smap sm !! k) order.

(** The counter is the number of sessions as long as every id added is new and
    every id removed is present. *)
Inductive sm_step : relation SessionManager :=
| sm_add sm a c : smap sm !! Id c = None -> sm_step sm (AddContext (Some (a, c)) sm)
| sm_remove sm i : is_Some (smap sm !! i) -> sm_step sm (Remove i sm).

Definition sm_ok (sm : SessionManager) : Prop := count sm = wrap64 (Z.of_nat (size (smap sm))).

Lemma wrap64_add a b : wrap64 (wrap64 a + b) = wrap64 (a + b).
Proof.
  unfold wrap64.
  replace ((a + 9223372036854775808) `mod` 18446744073709551616 - 9223372036854775808 + b + 9223372036854775808)
    with ((a + 9223372036854775808) `mod` 18446744073709551616 + b) by lia.
  rewrite Zplus_mod_idemp_l. do 2 f_equal. lia.
Qed.

Lemma wrap64_sub a b : wrap64 (wrap64 a - b) = wrap64 (a - b).
Proof. rewrite <- !Z.add_opp_r. apply wrap64_add. Qed.

Lemma sm_step_ok sm sm' : sm_ok sm -> sm_step sm sm' -> sm_ok sm'.
Proof.
  unfold sm_ok. intros Hs Hstep. destruct Hstep as [sm a c Hn|sm i [a Hi]]; simpl; rewrite Hs.
  - rewrite map_size_insert_None by done. rewrite wrap64_add. f_equal. lia.
  - rewrite map_size_delete_Some by eauto.
    assert (size (smap sm) <> O) by (apply (map_size_ne_0_lookup_2 _ i); eauto).
    rewrite wrap64_sub. f_equal. lia.
Qed.

(** The session counter equals the number of registered
    sessions after any sequence of registrations of new ids and removals of
    present ids; a removal of an absent id keeps the map and still lowers the
    counter. *)
Theorem session_count_is_size sm :
  rtc sm_step NewSessionManager sm ->
  Count sm = wrap64 (Z.of_nat (size (smap sm))) /\
  (forall i, Get i sm = None -> smap (Remove i sm) = smap sm /\ Count (Remove i sm) = wrap64 (Count sm - 1)).
Proof.
  intros Hr. split.
  - apply (rtc_invariant sm_step sm_ok NewSessionManager); [exact sm_step_ok|done|done].
  - intros i Hi. simpl. by rewrite delete_id.
Qed.

Lemma session_count_is_size_witness :
  let c := mkSC "s1" "addr" 0%nat false false in
  Count (Remove "s1" (AddContext (Some (7%nat, c)) NewSessionManager)) = 0.
Proof.
  intros c. destruct (session_count_is_size (Remove "s1" (AddContext (Some (7%nat, c)) NewSessionManager))) as [H _].
  - eapply rtc_l; [apply (sm_add NewSessionManager 7%nat c); reflexivity|].
    eapply rtc_l; [apply (sm_remove _ "s1"); eexists; reflexivity|]. apply rtc_refl.
  - rewrite H. reflexivity.
Defined.
