(* ===== verification/WsSend.v ===== *)
(** * Concurrent senders of a WebSocket session: [wsSession.SendEnvelope] in [internal/transport/ws.go]

    Any number of goroutines call [SendEnvelope] on one session while others
    close it.  A call checks the state, takes [writeMu], encodes, calls
    [WriteMessage] and releases the mutex; every one of these is a step of its
    own here.  The websocket library allows one writer at a time (it panics on a
    second one) and lets [Close] run beside it.  The theorem: there is never a
    second writer, and the calls behave as if each ran at one instant, in an
    order in which the sequential [ws_SendEnvelope] and [ws_Close] give the same
    results and the same session.  This is what lets the other files take a send
    for one step. *)

From S2P Require Import Prelude Json Envelope Codec Factory Conn Frame Session.

Local Open Scope Z_scope.

(** ** Steps *)

(** Where a call is. *)
Inductive spc :=
| SStart (e : Envelope)
| SChecked (e : Envelope)                               (** the state was active *)
| SLocked (e : Envelope)
| SWriting (e : Envelope) (b : list byte)               (** inside [WriteMessage] *)
| SUnlocking (e : Envelope) (r : option tp_error)
| SReturned (e : Envelope) (r : option tp_error).

(** What has taken effect. *)
Inductive sop := OSend (i : nat) (e : Envelope) (r : option tp_error) | OClose.

Record sstate := mkSend {
  ssess : wsSession;
  scalls : list spc;
  swriteMu : option nat;
  writing : list nat;              (** the calls inside [WriteMessage] *)
  slog : list sop;
}.

(** [WriteMessage] of a whole message. *)
Definition write_message (s : wsSession) (b : list byte) : option tp_error * wsSession :=
  match ws_fail (w_conn s) with
  | Some err => (Some (ErrWriteMessage err), s)
  | None => (None, mkWs (w_base s) (mkWsConn (ws_in (w_conn s)) (ws_out (w_conn s) ++ [b]) None) (w_manager s) (w_closeChan s))
  end.

Inductive sstep : relation sstate :=
| ss_closed s i e cs mu w l :
    cs !! i = Some (SStart e) -> State (w_base s) = SessionStateClosed ->
    sstep (mkSend s cs mu w l)
      (mkSend s (<[i := SReturned e (Some ErrSessionClosed)]> cs) mu w (l ++ [OSend i e (Some ErrSessionClosed)]))
| ss_check s i e cs mu w l :
    cs !! i = Some (SStart e) -> State (w_base s) = SessionStateActive ->
    sstep (mkSend s cs mu w l) (mkSend s (<[i := SChecked e]> cs) mu w l)
| ss_lock s i e cs w l :
    cs !! i = Some (SChecked e) ->
    sstep (mkSend s cs None w l) (mkSend s (<[i := SLocked e]> cs) (Some i) w l)
| ss_encode_err s i e err cs mu w l :
    cs !! i = Some (SLocked e) -> EncodeMessage (w_manager s) e = inr err ->
    sstep (mkSend s cs mu w l)
      (mkSend s (<[i := SUnlocking e (Some (ErrEncode err))]> cs) mu w (l ++ [OSend i e (Some (ErrEncode err))]))
| ss_begin s i e b cs mu w l :
    cs !! i = Some (SLocked e) -> EncodeMessage (w_manager s) e = inl b ->
    sstep (mkSend s cs mu w l) (mkSend s (<[i := SWriting e b]> cs) mu (i :: w) l)
| ss_write s i e b r s' cs mu w l :
    cs !! i = Some (SWriting e b) -> write_message s b = (r, s') ->
    sstep (mkSend s cs mu w l)
      (mkSend s' (<[i := SUnlocking e r]> cs) mu (filter (fun k => k <> i) w) (l ++ [OSend i e r]))
| ss_unlock s i e r cs mu w l :
    cs !! i = Some (SUnlocking e r) ->
    sstep (mkSend s cs mu w l) (mkSend s (<[i := SReturned e r]> cs) None w l)
| ss_close s cs mu w l :
    sstep (mkSend s cs mu w l) (mkSend (ws_Close s).2 cs mu w (l ++ [OClose])).

Definition start_sends (s : wsSession) (es : list Envelope) : sstate := mkSend s (SStart <$> es) None [] [].

(** ** The sequential contract *)

(** One operation at a time, each with the result it had. *)
Definition replay1 (os : option wsSession) (o : sop) : option wsSession :=
  s ← os;
  match o with
  | OSend _ e r => let '(r', s') := ws_SendEnvelope e s in if bool_decide (r' = r) then Some s' else None
  | OClose => Some (ws_Close s).2
  end.

Definition replay (s : wsSession) (l : list sop) : option wsSession := foldl replay1 (Some s) l.
Arguments replay : simpl never.

Lemma replay_snoc s l o : replay s (l ++ [o]) = replay1 (replay s l) o.
Proof. unfold replay. by rewrite foldl_app. Qed.

(** ** The invariant *)

Definition sholding (pc : spc) : bool :=
  match pc with SLocked _ | SWriting _ _ | SUnlocking _ _ => true | _ => false end.
Definition is_writing (pc : spc) : bool := match pc with SWriting _ _ => true | _ => false end.

(** The effect a call has had. *)
Definition effect (pc : spc) : option (Envelope * option tp_error) :=
  match pc with SUnlocking e r | SReturned e r => Some (e, r) | _ => None end.

Definition op_index (o : sop) : option nat := match o with OSend i _ _ => Some i | OClose => None end.

(** What a call has learnt about the session [s0] it started on. *)
Definition pc_ok (s0 : wsSession) (pc : spc) : Prop :=
  match pc with
  | SChecked _ | SLocked _ => State (w_base s0) = SessionStateActive
  | SWriting e b => State (w_base s0) = SessionStateActive /\ EncodeMessage (w_manager s0) e = inl b
  | _ => True
  end.

Record sinv (s0 : wsSession) (st : sstate) : Prop := {
  sv_same : w_manager (ssess st) = w_manager s0 /\ State (w_base (ssess st)) = State (w_base s0);
  sv_replay : replay s0 (slog st) = Some (ssess st);
  sv_lock : forall i pc, scalls st !! i = Some pc -> sholding pc = true <-> swriteMu st = Some i;
  sv_pc : Forall (pc_ok s0) (scalls st);
  sv_writing : forall i, i ∈ writing st <-> exists pc, scalls st !! i = Some pc /\ is_writing pc = true;
  sv_once : NoDup (writing st);
  sv_log : forall i e r, OSend i e r ∈ slog st <-> (pc ← scalls st !! i; effect pc) = Some (e, r);
  sv_log_once : NoDup (omap op_index (slog st));
}.

Lemma ws_Close_same s : w_manager (ws_Close s).2 = w_manager s /\ State (w_base (ws_Close s).2) = State (w_base s).
Proof. unfold ws_Close. by destruct (closeOnce (w_base s)). Qed.

(** A send whose guards were passed is its write. *)
Lemma send_is_write e b s : State (w_base s) = SessionStateActive -> EncodeMessage (w_manager s) e = inl b ->
  ws_SendEnvelope e s = write_message s b.
Proof. intros Ha He. unfold ws_SendEnvelope, write_message. by rewrite Ha, He. Qed.

(** One call moves from [pc] to [pc'] without effect. *)
Lemma sinv_move s0 s cs mu w l i pc pc' mu' w' :
  sinv s0 (mkSend s cs mu w l) -> cs !! i = Some pc -> effect pc' = effect pc -> pc_ok s0 pc' ->
  (sholding pc' = true <-> mu' = Some i) -> (forall j, j <> i -> mu' = Some j <-> mu = Some j) ->
  (i ∈ w' <-> is_writing pc' = true) -> (forall j, j <> i -> j ∈ w' <-> j ∈ w) -> NoDup w' ->
  sinv s0 (mkSend s (<[i := pc']> cs) mu' w' l).
Proof.
  intros [I1 I2 I3 I4 I5 I6 I7 I8] Hi He Hok Hh Hmu Hw Hwo Hn. cbn in *.
  assert (Hi' : <[i := pc']> cs !! i = Some pc') by (apply list_lookup_insert_eq; by eapply lookup_lt_Some).
  split; cbn; try done.
  - intros j q Hj. destruct (decide (j = i)) as [->|Hne]; [by rewrite Hi' in Hj; injection Hj as <-|].
    rewrite list_lookup_insert_ne in Hj by done. rewrite Hmu by done. by apply I3.
  - by apply Forall_insert.
  - intros j. destruct (decide (j = i)) as [->|Hne].
    + rewrite Hi', Hw. naive_solver.
    + rewrite list_lookup_insert_ne by done. rewrite Hwo by done. apply I5.
  - intros j e r. rewrite I7. destruct (decide (j = i)) as [->|Hne]; [|by rewrite list_lookup_insert_ne].
    rewrite Hi', Hi. cbn. by rewrite He.
Qed.

(** A call takes effect. *)
Lemma sinv_effect s0 s cs mu w l i pc e r s' :
  sinv s0 (mkSend s cs mu w l) -> cs !! i = Some pc -> effect pc = None -> ws_SendEnvelope e s = (r, s') ->
  sinv s0 (mkSend s cs mu w l) /\
  w_manager s' = w_manager s0 /\ State (w_base s') = State (w_base s0) /\ replay s0 (l ++ [OSend i e r]) = Some s' /\
  (forall j e' r', OSend j e' r' ∈ l ++ [OSend i e r] <->
     (if decide (j = i) then Some (e, r) else (q ← cs !! j; effect q)) = Some (e', r')) /\
  NoDup (omap op_index (l ++ [OSend i e r])).
Proof.
  intros I Hi He Hs. split; [done|]. destruct I as [[I1 I1'] I2 I3 I4 I5 I6 I7 I8]. cbn in *.
  assert (Hno : forall e' r', OSend i e' r' ∉ l) by (intros e' r'; rewrite I7, Hi; cbn; by rewrite He).
  assert (Hk : w_manager s' = w_manager s /\ w_base s' = w_base s).
  { unfold ws_SendEnvelope in Hs. destruct (State _); [|by injection Hs as _ <-].
    destruct (EncodeMessage _ _); [|by injection Hs as _ <-]. destruct (ws_fail _); by injection Hs as _ <-. }
  destruct Hk as [K1 K2]. rewrite K1, K2. split_and!; [done|done| | |].
  - rewrite replay_snoc, I2. cbn. rewrite Hs. by rewrite bool_decide_true.
  - intros j e' r'. rewrite elem_of_app, list_elem_of_singleton. destruct (decide (j = i)) as [->|Hne].
    + split; [intros [Hin|[= <- <-]]; [by apply Hno in Hin|done]|intros [= <- <-]; by right].
    + rewrite I7. naive_solver.
  - rewrite omap_app. apply NoDup_app. split_and!; [done| |cbn; apply NoDup_singleton].
    intros j Hj Hj'. cbn in Hj'. apply list_elem_of_singleton in Hj' as ->.
    apply list_elem_of_omap in Hj as ([k e' r'|] & Ho & Hin); [|done]. injection Hin as ->. by apply Hno in Ho.
Qed.

(** ... and moves on. *)
Lemma sinv_commit s0 s cs mu w l i pc pc' e r s' w' :
  sinv s0 (mkSend s cs mu w l) -> cs !! i = Some pc -> effect pc = None -> ws_SendEnvelope e s = (r, s') ->
  effect pc' = Some (e, r) -> sholding pc' = sholding pc -> is_writing pc' = false ->
  (forall j, j ∈ w' <-> j <> i /\ j ∈ w) -> NoDup w' ->
  sinv s0 (mkSend s' (<[i := pc']> cs) mu w' (l ++ [OSend i e r])).
Proof.
  intros I Hi He Hs He' Hh Hwr Hw Hn. destruct (sinv_effect s0 s cs mu w l i pc e r s' I Hi He Hs) as ([_ _ I3 I4 I5 _ _ _] & K1 & K2 & K3 & K4 & K5).
  cbn in *. assert (Hi' : <[i := pc']> cs !! i = Some pc') by (apply list_lookup_insert_eq; by eapply lookup_lt_Some).
  split; cbn; try done.
  - intros j q Hj. destruct (decide (j = i)) as [->|Hne]; [|rewrite list_lookup_insert_ne in Hj by done; by apply I3].
    rewrite Hi' in Hj. injection Hj as <-. rewrite Hh. by apply I3.
  - apply Forall_insert; [done|]. by destruct pc'.
  - intros j. rewrite Hw. destruct (decide (j = i)) as [->|Hne].
    + rewrite Hi'. split; [by intros [[] _]|]. intros (q & [= <-] & Hq). congruence.
    + rewrite list_lookup_insert_ne by done. rewrite I5. tauto.
  - intros j e' r'. rewrite K4. destruct (decide (j = i)) as [->|Hne]; [|by rewrite list_lookup_insert_ne].
    rewrite Hi'. cbn. by rewrite He'.
Qed.

Lemma sinv_step s0 st st' : sinv s0 st -> sstep st st' -> sinv s0 st'.
Proof.
  intros I Hst. destruct Hst as [s i e cs mu w l Hi Hc|s i e cs mu w l Hi Ha|s i e cs w l Hi|s i e err cs mu w l Hi He|
    s i e b cs mu w l Hi He|s i e b r s' cs mu w l Hi Hw|s i e r cs mu w l Hi|s cs mu w l].
  all: pose proof I as [[Im Is] Ir Il Ip Iw Io Ig In]; cbn in *.
  all: try (pose proof (Forall_lookup_1 _ _ _ _ Ip Hi) as Hok; pose proof (Il i _ Hi) as Hli; cbn in Hok, Hli;
    assert (Hwi : forall pc, cs !! i = Some pc -> is_writing pc = false -> i ∉ w)
      by (intros pc Hpc Hf; rewrite Iw; intros (q & Hq & Ht); congruence)).
  - eapply (sinv_commit s0 s); try done; [unfold ws_SendEnvelope; by rewrite Hc|].
    intros j. specialize (Hwi _ Hi eq_refl). split; [|tauto]. intros Hj. split; [by intros ->|done].
  - eapply sinv_move; try done; [unfold pc_ok; congruence|]. by specialize (Hwi _ Hi eq_refl).
  - eapply sinv_move; try done; [|by specialize (Hwi _ Hi eq_refl)]. intros j Hne. split; congruence.
  - eapply (sinv_commit s0 s); try done; [unfold ws_SendEnvelope; by rewrite Is, Hok, He|].
    intros j. specialize (Hwi _ Hi eq_refl). split; [|tauto]. intros Hj. split; [by intros ->|done].
  - specialize (Hwi _ Hi eq_refl). eapply sinv_move; try done.
    + split; [done|]. by rewrite <- Im.
    + split; [done|]. intros _. by left.
    + intros j Hne. rewrite elem_of_cons. tauto.
    + by constructor.
  - destruct Hok as [Ha He]. rewrite <- Is, <- Im in *.
    eapply (sinv_commit s0 s); try done; [by rewrite (send_is_write e b)|..].
    + intros j. by rewrite list_elem_of_filter.
    + by apply NoDup_filter.
  - specialize (Hwi _ Hi eq_refl). assert (mu = Some i) as -> by (by apply Hli).
    eapply sinv_move; try done. intros j Hne. split; congruence.
  - destruct (ws_Close_same s) as [K1 K2]. split; cbn; try done.
    + by rewrite K1, K2.
    + rewrite replay_snoc, Ir. done.
    + intros i e r. rewrite elem_of_app, list_elem_of_singleton, <- Ig. split; [by intros [?|]|by left].
    + rewrite omap_app. cbn. by rewrite app_nil_r.
Qed.

Lemma sinv_init s0 es : sinv s0 (start_sends s0 es).
Proof.
  assert (Hs : forall i pc, (SStart <$> es) !! i = Some pc -> exists e, pc = SStart e)
    by (intros i pc H; apply list_lookup_fmap_Some in H as (e & -> & _); eauto).
  split; cbn; try done; try constructor.
  - intros Hh. by apply Hs in H as [e ->].
  - intros Hh. by apply Hs in H as [e ->].
  - apply Forall_lookup. intros i pc [e ->]%Hs. done.
  - intros Hin. by apply elem_of_nil in Hin.
  - intros (pc & [e ->]%Hs & Hw). done.
  - intros Hin. by apply elem_of_nil in Hin.
  - destruct ((SStart <$> es) !! i) as [pc|] eqn:E; [|done]. apply Hs in E as [e' ->]. done.
Qed.

Lemma sreachable_inv s0 es st : rtc sstep (start_sends s0 es) st -> sinv s0 st.
Proof. intros Hr. eapply rtc_invariant; [exact (sinv_step s0)|apply sinv_init|exact Hr]. Qed.

(** C4 (refinement): concurrent sends are atomic.  However the steps of any
    number of SendEnvelope calls on one WebSocket session interleave with each
    other and with Close, at most one call is ever inside WriteMessage; and the
    calls that have taken effect, one entry each with the result it returns, and
    the closes form a sequence that, executed one whole operation at a time,
    gives those results and the session as it is. *)
Theorem ws_sends_are_atomic s0 es st :
  rtc sstep (start_sends s0 es) st ->
  (length (writing st) <= 1)%nat /\
  replay s0 (slog st) = Some (ssess st) /\
  NoDup (omap op_index (slog st)) /\
  forall i e r, scalls st !! i = Some (SReturned e r) -> OSend i e r ∈ slog st.
Proof.
  intros Hr. pose proof (sreachable_inv s0 es st Hr) as [_ Ir Il _ Iw Io Ig In]. split_and!; [|done|done|].
  - assert (Hone : forall i, i ∈ writing st -> swriteMu st = Some i).
    { intros i (pc & Hpc & Hw)%Iw. apply (Il i pc Hpc). by destruct pc. }
    destruct (writing st) as [|i [|j w]]; [simpl; lia..|]. exfalso. apply NoDup_cons in Io as [Hn _]. apply Hn.
    assert (Some i = Some j) as [= ->] by (rewrite <- (Hone i), <- (Hone j) by set_solver; done). by left.
  - intros i e r Hi. apply Ig. by rewrite Hi.
Qed.

(** ** The theorem at a concrete input: of two calls the second goes first, and
    the session is closed before the first one writes. *)
Module SendDemo.
Definition e (s : string) : Envelope := mkEnvelope "1.0" MsgText EncodingJSON "" s "" 7 [].
Definition s0 : wsSession := newWsSession "id" "peer" (mkWsConn [] [] None) (manager_of JSONCodec).
Definition wire (s : string) : list byte := match JSONCodec_Encode (e s) with inl b => b | inr _ => [] end.
Definition s1 : wsSession := (ws_SendEnvelope (e "b") s0).2.
Definition failed : option tp_error := Some (ErrWriteMessage ErrNetClosed).

Lemma send_run : rtc sstep (start_sends s0 [e "a"; e "b"])
  (mkSend (ws_Close s1).2 [SReturned (e "a") failed; SReturned (e "b") None] None []
     [OSend 1 (e "b") None; OClose; OSend 0 (e "a") failed]).
Proof.
  eapply rtc_l; [apply (ss_check _ 0 (e "a")); reflexivity|]. eapply rtc_l; [apply (ss_check _ 1 (e "b")); reflexivity|].
  eapply rtc_l; [apply (ss_lock _ 1 (e "b")); reflexivity|]. eapply rtc_l; [apply (ss_begin _ 1 (e "b") (wire "b")); reflexivity|].
  eapply rtc_l; [apply (ss_write _ 1 (e "b") (wire "b") None s1); reflexivity|].
  eapply rtc_l; [apply (ss_unlock _ 1 (e "b") None); reflexivity|]. eapply rtc_l; [apply ss_close|].
  eapply rtc_l; [apply (ss_lock _ 0 (e "a")); reflexivity|]. eapply rtc_l; [apply (ss_begin _ 0 (e "a") (wire "a")); reflexivity|].
  eapply rtc_l; [apply (ss_write _ 0 (e "a") (wire "a") failed (ws_Close s1).2); reflexivity|].
  apply rtc_once, (ss_unlock _ 0 (e "a") failed). reflexivity.
Qed.
End SendDemo.

Lemma ws_sends_are_atomic_witness :
  replay SendDemo.s0 [OSend 1 (SendDemo.e "b") None; OClose; OSend 0 (SendDemo.e "a") SendDemo.failed] =
    Some (ws_Close SendDemo.s1).2 /\
  ws_out (w_conn (ws_Close SendDemo.s1).2) = [SendDemo.wire "b"].
Proof.
  destruct (ws_sends_are_atomic _ _ _ SendDemo.send_run) as (_ & Hr & _). split; [exact Hr|]. vm_compute. reflexivity.
Defined.
