(* ===== verification/Gateway.v ===== *)
(** * The gateway: [internal/transport/gateway.go], [gateway_dispatcher.go]

    [SimpleGateway] registers sessions, answers pings and closes sessions.  It
    sees sessions only through the [Session] interface, so everything here is
    for any session type [T] with that interface. *)

From S2P Require Import Prelude Json Envelope Codec Factory Conn Frame Session.

Local Open Scope Z_scope.

(** The values of the n-th [uuid.New] and the n-th [time.Now] (nanoseconds
    since the Unix epoch). *)
Class RtEnv := { uuid_of : nat -> string; now_ns : nat -> Z }.

(** The handlers the program registers. *)
Inductive HandlerFunc := PingHandler.

#[export] Instance HandlerFunc_eq_dec : EqDecision HandlerFunc.
Proof. solve_decision. Defined.

Section gateway.
Context {T : Type} `{Session T} `{RtEnv}.

(** The gateway with the objects it shares with the transports. *)
Record GW := mkGW {
  sessions : gmap addr T;
  ctxs : gmap addr SessionContext;
  sessionManager : SessionManager;
  disp : gmap string HandlerFunc;
  initOnce : bool;
  n_uuid : nat;
  n_now : nat;
}.

Definition set_sessions (f : gmap addr T -> gmap addr T) (w : GW) : GW :=
  mkGW (f (sessions w)) (ctxs w) (sessionManager w) (disp w) (initOnce w) (n_uuid w) (n_now w).
Definition set_ctxs (f : gmap addr SessionContext -> gmap addr SessionContext) (w : GW) : GW :=
  mkGW (sessions w) (f (ctxs w)) (sessionManager w) (disp w) (initOnce w) (n_uuid w) (n_now w).
Definition set_manager (f : SessionManager -> SessionManager) (w : GW) : GW :=
  mkGW (sessions w) (ctxs w) (f (sessionManager w)) (disp w) (initOnce w) (n_uuid w) (n_now w).
Definition set_disp (f : gmap string HandlerFunc -> gmap string HandlerFunc) (w : GW) : GW :=
  mkGW (sessions w) (ctxs w) (sessionManager w) (f (disp w)) (initOnce w) (n_uuid w) (n_now w).
Definition set_once (w : GW) : GW :=
  mkGW (sessions w) (ctxs w) (sessionManager w) (disp w) true (n_uuid w) (n_now w).
(** [u] identifiers and [t] clock readings have been taken. *)
Definition tick (u t : nat) (w : GW) : GW :=
  mkGW (sessions w) (ctxs w) (sessionManager w) (disp w) (initOnce w) (n_uuid w + u) (n_now w + t).

Definition newDispatcher : gmap string HandlerFunc := ∅.

Definition NewSimpleGateway : GW := mkGW ∅ ∅ NewSessionManager newDispatcher false 0 0.

Abbreviation M := (GoM GW).

Definition nil_deref : string := "invalid memory address or nil pointer dereference".

Definition new_uuid : M string := fun w => (Ret (uuid_of (n_uuid w)), tick 1 0 w).
Definition time_now : M Z := fun w => (Ret (now_ns (n_now w)), tick 0 1 w).

(** [time.Now().UnixMilli()] *)
Definition millis (ns : Z) : Z := ns / 1000000.
Definition now_milli : M Z := t ← time_now; mret (millis t).

Definition deref_ctx (a : addr) : M SessionContext :=
  w ← get; match ctxs w !! a with Some c => mret c | None => panic nil_deref end.
Definition deref_sess (a : addr) : M T :=
  w ← get; match sessions w !! a with Some s => mret s | None => panic nil_deref end.
Definition store_sess (a : addr) (s : T) : M unit := modify (set_sessions <[a := s]>).
Definition store_ctx (a : addr) (c : SessionContext) : M unit := modify (set_ctxs <[a := c]>).

(** ** [SessionContext] *)

Definition NewSessionContext (a : addr) (s : T) : SessionContext := mkSC (ID s) (RemoteAddr s) a false false.

Definition sc_Send (a : addr) (e : Envelope) : M (option tp_error) :=
  c ← deref_ctx a;
  if sc_closed c then mret (Some ErrSessionContextClosed) else
  s ← deref_sess (sess c);
  let '(r, s') := SendEnvelope e s in
  _ ← store_sess (sess c) s'; mret r.

Definition closed_ctx (c : SessionContext) : SessionContext :=
  mkSC (Id c) (ScRemoteAddr c) (sess c) true true.

Definition sc_Close (a : addr) : M (option tp_error) :=
  c ← deref_ctx a;
  if sc_closeOnce c then mret None else
  _ ← store_ctx a (closed_ctx c);
  s ← deref_sess (sess c);
  let '(r, s') := Close s in
  _ ← store_sess (sess c) s'; mret r.

(** ** The dispatcher *)

Definition Register (msgType : string) (h : HandlerFunc) : M unit := modify (set_disp <[msgType := h]>).

(** The ping handler: a payload that cannot be read counts as sequence 0, as
    far as it was not set before the error. *)
Definition ping_handler (ctx : addr) (msg : Envelope) : M unit :=
  let p := (unmarshal_ping (Data msg)).1 in
  t1 ← now_milli; mid ← new_uuid; ts ← now_milli;
  let pong := CreatePongMessage NewMessageFactory (Seq p) (Mid msg) t1 mid ts in
  _ ← sc_Send ctx pong; mret tt.

Definition run_handler (h : HandlerFunc) (ctx : addr) (msg : Envelope) : M unit :=
  match h with PingHandler => ping_handler ctx msg end.

Definition Dispatch (ctx : addr) (msg : Envelope) : M unit :=
  w ← get;
  match disp w !! Type_ msg with
  | Some h => run_handler h ctx msg
  | None => mret tt                    (* logs "no handler for message type" *)
  end.

(** ** The gateway's events *)

Definition welcome_text : string := "Welcome to Chat-Go!".

Definition OnSessionOpen (sc : addr) : M unit :=
  c ← deref_ctx sc;
  _ ← modify (set_manager (AddContext (Some (sc, c))));
  w ← get;
  _ ← (if initOnce w then mret tt
       else _ ← modify set_once; Register MsgPing PingHandler);
  mid ← new_uuid; ts ← now_milli;
  let welcome := CreateTextMessage NewMessageFactory welcome_text mid ts in
  _ ← sc_Send sc welcome; mret tt.

Definition OnEnvelope (sc : addr) (msg : Envelope) : M unit := Dispatch sc msg.

Definition OnSessionClose (sc : addr) : M unit :=
  c ← deref_ctx sc;
  _ ← sc_Close sc;
  modify (set_manager (Remove (Id c))).

Definition GetSessionManager (w : GW) : SessionManager := sessionManager w.

Definition GetSession (sessionID : string) (w : GW) : option addr := Get sessionID (sessionManager w).

(** ** Evaluation *)

Lemma sc_Send_eval a c s e w :
  ctxs w !! a = Some c -> sc_closed c = false -> sessions w !! sess c = Some s ->
  sc_Send a e w = (Ret (SendEnvelope e s).1, set_sessions <[sess c := (SendEnvelope e s).2]> w).
Proof.
  intros Hc Hcl Hs. unfold sc_Send, deref_ctx, deref_sess, store_sess. unfold_go. rewrite Hc, Hcl.
  unfold_go. rewrite Hs. by destruct (SendEnvelope e s).
Qed.

Lemma sc_Send_closed a c e w :
  ctxs w !! a = Some c -> sc_closed c = true -> sc_Send a e w = (Ret (Some ErrSessionContextClosed), w).
Proof. intros Hc Hcl. unfold sc_Send, deref_ctx. unfold_go. by rewrite Hc, Hcl. Qed.

Lemma sc_Close_eval a c s w :
  ctxs w !! a = Some c -> sc_closeOnce c = false -> sessions w !! sess c = Some s ->
  sc_Close a w = (Ret (Close s).1, set_sessions <[sess c := (Close s).2]> (set_ctxs <[a := closed_ctx c]> w)).
Proof.
  intros Hc Hcl Hs. unfold sc_Close, deref_ctx, deref_sess, store_ctx, store_sess. unfold_go. rewrite Hc, Hcl.
  cbn [sessions set_ctxs]. unfold_go. rewrite Hs. by destruct (Close s).
Qed.

(** The pong a ping gets, and the welcome of a new session. *)
Definition pong_for (msg : Envelope) (w : GW) : Envelope :=
  CreatePongMessage NewMessageFactory (Seq (unmarshal_ping (Data msg)).1) (Mid msg)
    (millis (now_ns (n_now w))) (uuid_of (n_uuid w)) (millis (now_ns (n_now w + 1))).

Definition welcome_for (w : GW) : Envelope :=
  CreateTextMessage NewMessageFactory welcome_text (uuid_of (n_uuid w)) (millis (now_ns (n_now w))).

Lemma ping_handler_eval a c s msg w :
  ctxs w !! a = Some c -> sc_closed c = false -> sessions w !! sess c = Some s ->
  ping_handler a msg w =
    (Ret tt, set_sessions <[sess c := (SendEnvelope (pong_for msg w) s).2]> (tick 1 2 w)).
Proof.
  intros Hc Hcl Hs. unfold ping_handler, now_milli, time_now, new_uuid. unfold_go.
  rewrite (sc_Send_eval a c s) by done. unfold pong_for, tick, set_sessions. cbn.
  rewrite !Nat.add_0_r. f_equal. f_equal. lia.
Qed.

(** C33 (functional): pings.  On an open session of a gateway whose ping
    handler is installed, a ping sends exactly one pong through the session's
    own interface, with the ping's id as correlation and its sequence number (a
    ping made by the factory is echoed exactly); a message of any other type
    without a handler changes nothing. *)
Theorem ping_gets_one_pong a c s msg w :
  ctxs w !! a = Some c -> sc_closed c = false -> sessions w !! sess c = Some s ->
  disp w = {[ MsgPing := PingHandler ]} ->
  OnEnvelope a msg w =
    (Ret tt, if bool_decide (Type_ msg = MsgPing)
             then set_sessions <[sess c := (SendEnvelope (pong_for msg w) s).2]> (tick 1 2 w) else w) /\
  Correlation (pong_for msg w) = Mid msg /\ Type_ (pong_for msg w) = MsgPong /\
  (forall seq t1 mid ts, in_int64 seq -> in_int64 t1 ->
     Data (pong_for (CreatePingMessage NewMessageFactory seq t1 mid ts) w) =
       Marshal (jPongPayload (mkPongPayload seq (millis (now_ns (n_now w)))))).
Proof.
  intros Hc Hcl Hs Hd. split_and!; [|done|done|].
  - unfold OnEnvelope, Dispatch. unfold_go. rewrite Hd.
    destruct (bool_decide_reflect (Type_ msg = MsgPing)) as [->|Hn].
    + rewrite lookup_singleton_eq. by apply ping_handler_eval.
    + by rewrite lookup_singleton_ne.
  - intros seq t1 mid ts Hseq Ht. unfold pong_for. cbn [Data CreatePingMessage CreatePongMessage].
    by rewrite unmarshal_ping_made.
Qed.

Lemma OnSessionOpen_eval a c s w :
  ctxs w !! a = Some c -> sc_closed c = false -> sessions w !! sess c = Some s ->
  OnSessionOpen a w =
    (Ret tt, mkGW (<[sess c := (SendEnvelope (welcome_for w) s).2]> (sessions w)) (ctxs w)
               (AddContext (Some (a, c)) (sessionManager w))
               (if initOnce w then disp w else <[MsgPing := PingHandler]> (disp w)) true
               (n_uuid w + 1) (n_now w + 1)).
Proof.
  intros Hc Hcl Hs. unfold OnSessionOpen, deref_ctx, Register, now_milli, time_now, new_uuid. unfold_go. rewrite Hc.
  cbn [initOnce set_manager]. destruct (initOnce w) eqn:Ei; unfold_go.
  - rewrite (sc_Send_eval a c s) by done. unfold set_sessions, welcome_for. cbn.
    rewrite Ei, !Nat.add_0_r. done.
  - rewrite (sc_Send_eval a c s) by done. unfold set_sessions, welcome_for. cbn.
    rewrite !Nat.add_0_r. done.
Qed.

Lemma OnSessionClose_eval a c s w :
  ctxs w !! a = Some c -> sc_closeOnce c = false -> sessions w !! sess c = Some s ->
  OnSessionClose a w =
    (Ret tt, set_manager (Remove (Id c))
               (set_sessions <[sess c := (Close s).2]> (set_ctxs <[a := closed_ctx c]> w))).
Proof.
  intros Hc Hcl Hs. unfold OnSessionClose. unfold deref_ctx at 1. unfold_go. rewrite Hc.
  by rewrite (sc_Close_eval a c s).
Qed.

Lemma OnSessionClose_again a c w :
  ctxs w !! a = Some c -> sc_closeOnce c = true ->
  OnSessionClose a w = (Ret tt, set_manager (Remove (Id c)) w).
Proof.
  intros Hc Hcl. unfold OnSessionClose, sc_Close, deref_ctx. unfold_go. rewrite Hc. cbn beta iota. by rewrite Hc, Hcl.
Qed.

(** A closed session is silent.  Closing through the gateway
    closes the underlying session once, takes it out of the manager and marks
    the context; afterwards every Send on the context is refused with error 1001
    without touching the session, and closing again only lowers the session
    counter a second time. *)
Theorem closed_session_is_silent a c s w :
  ctxs w !! a = Some c -> sc_closeOnce c = false -> sessions w !! sess c = Some s ->
  exists w', OnSessionClose a w = (Ret tt, w') /\
    sessions w' = <[sess c := (Close s).2]> (sessions w) /\
    GetSession (Id c) w' = None /\
    (forall e, sc_Send a e w' = (Ret (Some ErrSessionContextClosed), w')) /\
    sc_Close a w' = (Ret None, w') /\
    OnSessionClose a w' = (Ret tt, set_manager (Remove (Id c)) w') /\
    Count (sessionManager (OnSessionClose a w').2) = wrap64 (Count (sessionManager w) - 2).
Proof.
  intros Hc Hcl Hs. eexists. split; [by apply OnSessionClose_eval|].
  set (w' := set_manager _ _).
  assert (Hc' : ctxs w' !! a = Some (closed_ctx c)) by (simpl; apply lookup_insert_eq).
  assert (Ha : OnSessionClose a w' = (Ret tt, set_manager (Remove (Id c)) w'))
    by (by rewrite (OnSessionClose_again a (closed_ctx c))).
  split_and!; [done| | | |done|].
  - simpl. apply lookup_delete_eq.
  - intros e. by apply (sc_Send_closed a (closed_ctx c)).
  - unfold sc_Close, deref_ctx. unfold_go. by rewrite Hc'.
  - rewrite Ha. unfold Count. simpl. rewrite wrap64_sub. f_equal. lia.
Qed.
End gateway.

Arguments GW : clear implicits.

(** ** The theorems at concrete inputs

    One open TCP session; the n-th clock reading is n milliseconds. *)
Module GwDemo.
#[export] Instance env : RtEnv := {| uuid_of _ := "id"%string; now_ns n := Z.of_nat n * 1000000 |}.

Definition tcp (c : conn) : tcpSession := newTcpSession "s1" "peer" c (manager_of JSONCodec) 0.
Definition ctx : SessionContext := mkSC "s1" "peer" 0%nat false false.
Definition world (s : session) : GW session :=
  mkGW {[ 0%nat := s ]} {[ 0%nat := ctx ]} (AddContext (Some (0%nat, ctx)) NewSessionManager)
    {[ MsgPing := PingHandler ]} true 0 0.
End GwDemo.
#[local] Existing Instance GwDemo.env.

Lemma ping_gets_one_pong_witness :
  let s := STcp (GwDemo.tcp (mkConn [] EOF [] None)) in
  let ping := CreatePingMessage NewMessageFactory 7 3 "p1" 3 in
  let w := GwDemo.world s in
  OnEnvelope 0%nat ping w =
    (Ret tt, set_sessions <[0%nat := (SendEnvelope (pong_for ping w) s).2]> (tick 1 2 w)) /\
  Data (pong_for ping w) = Marshal (jPongPayload (mkPongPayload 7 0)).
Proof.
  intros s ping w.
  destruct (ping_gets_one_pong 0%nat GwDemo.ctx s ping w eq_refl eq_refl eq_refl eq_refl) as (H1 & _ & _ & H4).
  split; [exact H1|]. apply H4; vm_compute; split; discriminate.
Defined.

Lemma closed_session_is_silent_witness :
  let s := STcp (GwDemo.tcp (mkConn [] EOF [] None)) in
  exists w', OnSessionClose 0%nat (GwDemo.world s) = (Ret tt, w') /\
    sc_Send 0%nat zero_envelope w' = (Ret (Some ErrSessionContextClosed), w') /\
    Count (sessionManager (OnSessionClose 0%nat w').2) = -1.
Proof.
  intros s.
  destruct (closed_session_is_silent 0%nat GwDemo.ctx s (GwDemo.world s) eq_refl eq_refl eq_refl)
    as (w' & H1 & _ & _ & H4 & _ & _ & H7).
  exists w'. split; [exact H1|]. split; [apply H4|]. rewrite H7. reflexivity.
Defined.
