(* ===== verification/Servers.v ===== *)
(** * The TCP and WebSocket servers: [internal/transport/{tcp,ws,options}.go]

    The read loops, the lifecycle and heartbeat watchers and the connection
    handlers, over the gateway's world with real sessions.  A loop takes one
    buffer choice (TCP) or one unit (WebSocket) per iteration and returns
    whether it has ended together with the envelopes it handed to the gateway,
    in order.  Goroutines are run one operation at a time; the theorems about
    the lifecycle say which operations run and in which order. *)

From S2P Require Import Prelude Json Envelope Codec Factory Conn Frame Session Gateway.

Local Open Scope Z_scope.

(** Durations are nanoseconds. *)
Definition Second : Z := 1000000000.

Record Options := mkOptions {
  OutBuffer : Z;
  ReadTimeout : Z;
  WriteTimeout : Z;
  HeartbeatInterval : Z;
  HeartbeatTimeout : Z;
  OptMaxFrameSize : Z;
  TCPProtocolManager : option Manager;
  WSProtocolManager : option Manager;
}.

Definition GetTCPProtocolManager (opt : Options) : option Manager := TCPProtocolManager opt.
Definition GetWSProtocolManager (opt : Options) : option Manager := WSProtocolManager opt.

(** What [TCPServer.Start] does to its copy of the options. *)
Definition tcp_options (opt : Options) : Options :=
  if OptMaxFrameSize opt <=? 0
  then mkOptions (OutBuffer opt) (ReadTimeout opt) (WriteTimeout opt) (HeartbeatInterval opt)
         (HeartbeatTimeout opt) (Z.shiftl 1 20) (TCPProtocolManager opt) (WSProtocolManager opt)
  else opt.

(** The address the TCP server listens on. *)
Definition tcp_listen_addr (own addr : string) : string := if bool_decide (addr = ""%string) then own else addr.

(** ** The two transports

    [Listen] is what [Start] makes of its arguments before it listens: the
    address and the options its connections get. *)
Definition Tcp : string := "tcp".
Definition WebSocket : string := "websocket".

Class Transport (T : Type) := {
  transport_Name : T -> string;
  Listen : T -> string -> Options -> string * Options;
}.

Record TCPServer := mkTCPServer { server_addr : string }.

Definition NewTCPServer (addr : string) : TCPServer := mkTCPServer addr.
Definition TCPServer_Name (s : TCPServer) : string := Tcp.

#[export] Instance tcp_transport : Transport TCPServer := {|
  transport_Name := TCPServer_Name;
  Listen s addr opt := (tcp_listen_addr (server_addr s) addr, tcp_options opt);
|}.

Record WebSocketServer := mkWebSocketServer { Path : string }.

Definition NewWebSocketServer (path : string) : WebSocketServer :=
  mkWebSocketServer (if bool_decide (path = ""%string) then "/ws" else path).
Definition WebSocketServer_Name (s : WebSocketServer) : string := WebSocket.

#[export] Instance ws_transport : Transport WebSocketServer := {|
  transport_Name := WebSocketServer_Name;
  Listen s addr opt := (addr, opt);
|}.

Section servers.
Context `{RtEnv}.
Abbreviation M := (GoM (GW session)).

Definition not_tcp : string := "session is not a TCP session".

Definition deref_tcp (a : addr) : M tcpSession :=
  s ← deref_sess a; match s with STcp t => mret t | SWs _ => panic not_tcp end.
Definition store_tcp (a : addr) (t : tcpSession) : M unit := store_sess a (STcp t).
Definition deref_ws (a : addr) : M wsSession :=
  s ← deref_sess a; match s with SWs t => mret t | STcp _ => panic not_tcp end.
Definition store_ws (a : addr) (t : wsSession) : M unit := store_sess a (SWs t).

(** Runs [d] after [body], also when [body] panics. *)
Definition with_defer {A} (body : M A) (d : M unit) : M A := fun w =>
  match body w with
  | (Panic p, w') => (Panic p, (d w').2)
  | (Ret x, w') => match d w' with (Ret _, w2) => (Ret x, w2) | (Panic p, w2) => (Panic p, w2) end
  end.

(** ** TCP *)

Definition set_deadline (s : tcpSession) (d : Z) : tcpSession :=
  mkTcp (t_base s) (t_conn s) (frameCodec s) (t_manager s) (t_closeChan s) (lastActive s) (Some d).
Definition set_active (s : tcpSession) (t : Z) : tcpSession :=
  mkTcp (t_base s) (t_conn s) (frameCodec s) (t_manager s) (t_closeChan s) t (readDeadline s).

(** [frameCodec.ReadFrame(conn)] *)
Definition tcp_read (pick : option nat) (s : tcpSession) : (list byte + frame_error) * tcpSession :=
  match ReadFrame pick (Some (frameCodec s)) (Some (t_conn s)) with
  | (r, Some c, Some cn) =>
      (r, mkTcp (t_base s) cn c (t_manager s) (t_closeChan s) (lastActive s) (readDeadline s))
  | (r, _, _) => (r, s)
  end.

(** The deadline of the next read, relative to the clock reading [t].  The
    timeout is a duration already; the code multiplies it by a second. *)
Definition read_deadline (opt : Options) (t : Z) : Z := t + wrap64 (ReadTimeout opt * Second).

(** [conn.SetReadDeadline]: a deadline that is not in the future fails every
    read at once; the result says so. *)
Definition arm_deadline (opt : Options) (a : addr) : M bool :=
  if 0 <? ReadTimeout opt then
    t ← time_now;
    s ← deref_tcp a;
    _ ← store_tcp a (set_deadline s (read_deadline opt t));
    mret (read_deadline opt t <=? t)
  else mret false.

(** One iteration: whether the loop goes on, and the envelope handed over. *)
Definition tcp_iter (opt : Options) (pick : option nat) (a sc : addr) : M (bool * list Envelope) :=
  arm_deadline opt a ≫= fun (expired : bool) =>
  s ← deref_tcp a;
  match (if expired then (inr (ErrIO ErrTimeout), s) else tcp_read pick s) with
  | (inr _, s') => _ ← store_tcp a s'; mret (false, [])
  | (inl frameData, s') =>
      _ ← store_tcp a s';
      match DecodeMessage (t_manager s') frameData zero_envelope (OptMaxFrameSize opt) with
      | Panic p => panic p
      | Ret (Some _, _) => mret (true, [])
      | Ret (None, env) =>
          t ← time_now;
          _ ← store_tcp a (set_active s' t);
          if bool_decide (Type_ env = MsgHeartbeat) then mret (true, [])
          else _ ← OnEnvelope sc env; mret (true, [env])
      end
  end.

Fixpoint tcp_loop (opt : Options) (picks : list (option nat)) (a sc : addr) : M (bool * list Envelope) :=
  match picks with
  | [] => mret (false, [])
  | pick :: picks' =>
      tcp_iter opt pick a sc ≫= fun (r : bool * list Envelope) =>
      if r.1 then rest ← tcp_loop opt picks' a sc; mret (rest.1, r.2 ++ rest.2)
      else mret (true, r.2)
  end.

(** [s.Close()] *)
Definition tcp_close (a : addr) : M unit :=
  s ← deref_tcp a; store_tcp a (tcp_Close s).2.

(** The deferred calls run when the loop ends. *)
Definition tcp_readLoop (opt : Options) (picks : list (option nat)) (a sc : addr) : M (bool * list Envelope) := fun w =>
  match tcp_loop opt picks a sc w with
  | (Ret (false, l), w') => (Ret (false, l), w')            (* still running *)
  | (r, w') => with_defer (fun w => (r, w)) (_ ← OnSessionClose sc; tcp_close a) w'
  end.

(** The case of the [select] that fires; a case that is not ready blocks. *)
Inductive watch := CtxDone | CloseChan.

Definition lifecycleWatcher (r : watch) (a sc : addr) : M bool :=
  match r with
  | CtxDone => _ ← tcp_close a; mret true
  | CloseChan =>
      s ← deref_tcp a;
      if t_closeChan s then _ ← OnSessionClose sc; mret true else mret false
  end.

(** One tick of the heartbeat watcher: whether it goes on. *)
Definition heartbeat_tick (opt : Options) (a : addr) : M bool :=
  if (HeartbeatInterval opt <=? 0) || (HeartbeatTimeout opt <=? 0) then mret false else
  s ← deref_tcp a;
  t ← time_now;
  if HeartbeatTimeout opt <? t - lastActive s then _ ← tcp_close a; mret false else mret true.

(** [handleConnection] up to the read loop: the new session at [a], its context
    at [sc]. *)
Definition tcp_accept (a sc : addr) (c : conn) (raddr : string) (m : Manager) : M unit :=
  id ← new_uuid;
  t ← time_now;
  let s := STcp (newTcpSession id raddr c m t) in
  _ ← store_sess a s;
  _ ← store_ctx sc (NewSessionContext a s);
  OnSessionOpen sc.

(** ** WebSocket *)

(** [m] is the session's protocol manager. *)
Definition handleLegacyTextMessage (m : Manager) (sc : addr) (text : string) : M (list Envelope) :=
  let factory := GetMessageFactory m in
  match text with
  | EmptyString => mret []
  | String c _ =>
      mid ← new_uuid; ts ← now_milli;
      let e := if bool_decide (c = "/"%char)
               then CreateCommandMessage factory text mid ts
               else CreateTextMessage factory text mid ts in
      _ ← OnEnvelope sc e; mret [e]
  end.

Definition ws_iter (opt : Options) (a sc : addr) : M (bool * list Envelope) :=
  s ← deref_ws a;
  match ws_in (w_conn s) with
  | [] => mret (false, [])
  | (mt, data) :: rest =>
      _ ← store_ws a (mkWs (w_base s) (mkWsConn rest (ws_out (w_conn s)) (ws_fail (w_conn s)))
                        (w_manager s) (w_closeChan s));
      match mt with
      | OtherMessage => mret (true, [])
      | TextMessage =>
          match DecodeMessage (w_manager s) data zero_envelope (OptMaxFrameSize opt) with
          | Panic p => panic p
          | Ret (None, env) =>
              if bool_decide (Type_ env = ""%string)
              then l ← handleLegacyTextMessage (w_manager s) sc (str data); mret (true, l)
              else _ ← OnEnvelope sc env; mret (true, [env])
          | Ret (Some _, _) => l ← handleLegacyTextMessage (w_manager s) sc (str data); mret (true, l)
          end
      end
  end.

Fixpoint ws_loop (opt : Options) (fuel : nat) (a sc : addr) : M (bool * list Envelope) :=
  match fuel with
  | O => mret (false, [])
  | S f =>
      ws_iter opt a sc ≫= fun (r : bool * list Envelope) =>
      if r.1 then rest ← ws_loop opt f a sc; mret (rest.1, r.2 ++ rest.2)
      else mret (true, r.2)
  end.

Definition ws_close (a : addr) : M unit := s ← deref_ws a; store_ws a (ws_Close s).2.

Definition ws_readLoop (opt : Options) (fuel : nat) (a sc : addr) : M (bool * list Envelope) := fun w =>
  match ws_loop opt fuel a sc w with
  | (Ret (false, l), w') => (Ret (false, l), w')
  | (r, w') => with_defer (fun w => (r, w)) (_ ← OnSessionClose sc; ws_close a) w'
  end.

(** The read timeout of a WebSocket connection. *)
Definition ws_timeout (opt : Options) : Z := if 0 <? ReadTimeout opt then ReadTimeout opt else 60 * Second.

Definition ws_accept (a sc : addr) (c : wsConn) (raddr : string) (m : Manager) : M unit :=
  id ← new_uuid;
  let s := SWs (newWsSession id raddr c m) in
  _ ← store_sess a s;
  _ ← store_ctx sc (NewSessionContext a s);
  OnSessionOpen sc.

(** ** Sending leaves the receiving side alone *)

Lemma conn_write_input c p : inbuf (conn_write c p).2 = inbuf c /\ inerr (conn_write c p).2 = inerr c.
Proof. unfold conn_write. destruct (wfail c) as [[k e]|]; [|done]. by destruct (_ <=? _)%nat. Qed.

Lemma WriteFrame_input c cn p : inbuf (WriteFrame c cn p).2 = inbuf cn /\ inerr (WriteFrame c cn p).2 = inerr cn.
Proof.
  unfold WriteFrame. destruct c as [c|]; [|done]. destruct (_ <? _); [done|].
  pose proof (conn_write_input cn (put_be32 (wrapU32 (zlen p)))) as [H1 H2].
  destruct (conn_write cn (put_be32 (wrapU32 (zlen p)))) as [[e|] cn1]; [done|]. simpl in *.
  pose proof (conn_write_input cn1 p) as [H3 H4]. destruct (conn_write cn1 p) as [[e|] cn2]; simpl in *; split; congruence.
Qed.

(** A session before and after a step that neither reads nor closes. *)
Record undisturbed (s s' : tcpSession) : Prop := {
  un_base : t_base s' = t_base s;
  un_manager : t_manager s' = t_manager s;
  un_inbuf : inbuf (t_conn s') = inbuf (t_conn s);
  un_inerr : inerr (t_conn s') = inerr (t_conn s);
  un_chan : t_closeChan s' = t_closeChan s;
}.

Lemma tcp_Send_undisturbed e s : undisturbed s (tcp_SendEnvelope e s).2.
Proof.
  unfold tcp_SendEnvelope. destruct (State _); [|done]. destruct (EncodeMessage _ _) as [b|err]; [|done].
  pose proof (WriteFrame_input (Some (frameCodec s)) (t_conn s) b) as [H1 H2].
  by destruct (WriteFrame _ _ b) as [[err|] c].
Qed.

Lemma OnEnvelope_undisturbed a sc c s msg w :
  ctxs w !! sc = Some c -> sess c = a -> sc_closed c = false -> sessions w !! a = Some (STcp s) ->
  exists s' w', OnEnvelope sc msg w = (Ret tt, w') /\ sessions w' !! a = Some (STcp s') /\ undisturbed s s' /\
    ctxs w' = ctxs w /\ sessionManager w' = sessionManager w.
Proof.
  intros Hc <- Hcl Hs. unfold OnEnvelope, Dispatch. unfold_go.
  destruct (disp w !! Type_ msg) as [[]|]; [|by exists s, w].
  cbn [run_handler]. rewrite (ping_handler_eval sc c (STcp s)) by done.
  set (p := pong_for msg w). pose proof (tcp_Send_undisturbed p s) as Hu.
  exists (tcp_SendEnvelope p s).2. eexists. split; [reflexivity|]. split; [|done].
  cbn [sessions set_sessions]. rewrite lookup_insert_eq. simpl. by destruct (tcp_SendEnvelope p s).
Qed.

(** ** The loop as a function of the byte stream *)

(** An open TCP session at [a] with context [c] at [sc], input [p] ending with
    the error [e]. *)
Record tcp_at (w : GW session) (a sc : addr) (c : SessionContext) (b : Base) (m : Manager)
  (p : list byte) (e : io_error) (sm : SessionManager) : Prop := {
  ta_ctx : ctxs w !! sc = Some c;
  ta_addr : sess c = a;
  ta_open : sc_closed c = false /\ sc_closeOnce c = false;
  ta_sess : exists s, sessions w !! a = Some (STcp s) /\ t_base s = b /\ t_manager s = m /\
    pending (t_conn s) = p /\ inerr (t_conn s) = e /\ t_closeChan s = false;
  ta_manager : sessionManager w = sm;
}.

Lemma tcp_at_store w a sc c b m p e sm s :
  tcp_at w a sc c b m p e sm -> t_base s = b -> t_manager s = m -> inerr (t_conn s) = e ->
  t_closeChan s = false ->
  tcp_at (set_sessions <[a := STcp s]> w) a sc c b m (pending (t_conn s)) e sm.
Proof.
  intros [H1 H2 H3 H4 H5] Hb Hm He Hch. split; try done. exists s. simpl. by rewrite lookup_insert_eq.
Qed.

Lemma tcp_at_tick w a sc c b m p e sm u t : tcp_at w a sc c b m p e sm -> tcp_at (tick u t w) a sc c b m p e sm.
Proof. intros [H1 H2 H3 H4 H5]. by split. Qed.

Lemma deref_tcp_eval w a s : sessions w !! a = Some (STcp s) -> deref_tcp a w = (Ret s, w).
Proof. intros Hs. unfold deref_tcp, deref_sess. unfold_go. by rewrite Hs. Qed.

Lemma tcp_read_spec pick s :
  exists s', tcp_read pick s = ((frame_spec (pending (t_conn s)) (inerr (t_conn s))).1, s') /\
    t_base s' = t_base s /\ t_manager s' = t_manager s /\ t_closeChan s' = t_closeChan s /\
    inerr (t_conn s') = inerr (t_conn s) /\
    pending (t_conn s') = (frame_spec (pending (t_conn s)) (inerr (t_conn s))).2.
Proof.
  unfold tcp_read. destruct (ReadFrame_refines pick (frameCodec s) (t_conn s)) as (c' & cn' & -> & Hp & He & _).
  eexists. split; [reflexivity|]. done.
Qed.

(** The read deadline, if any, lies in the future. *)
Definition live (opt : Options) : Prop := ReadTimeout opt <= 0 \/ 0 < wrap64 (ReadTimeout opt * Second).

Lemma arm_deadline_live opt w a sc c b m p e sm : live opt -> tcp_at w a sc c b m p e sm ->
  exists w', arm_deadline opt a w = (Ret false, w') /\ tcp_at w' a sc c b m p e sm.
Proof.
  intros Hl Hat. unfold arm_deadline. destruct (Z.ltb_spec 0 (ReadTimeout opt)); [|by exists w].
  destruct Hl as [Hl|Hl]; [lia|]. destruct (ta_sess _ _ _ _ _ _ _ _ _ Hat) as (s & Hs & Hb & Hm & Hp & He & Hch).
  unfold time_now, store_tcp, store_sess. unfold_go. rewrite (deref_tcp_eval _ a s) by done.
  unfold_go. eexists. split.
  - unfold read_deadline. rewrite (proj2 (Z.leb_gt _ _)) by lia. reflexivity.
  - rewrite <- Hp. apply (tcp_at_store _ a sc c b m p e sm (set_deadline s _)); try done. by apply tcp_at_tick.
Qed.

(** What one decoded frame contributes. *)
Definition frame_result (opt : Options) (m : Manager) (f : list byte) : outcome (list Envelope) :=
  match DecodeMessage m f zero_envelope (OptMaxFrameSize opt) with
  | Panic q => Panic q
  | Ret (Some _, _) => Ret []
  | Ret (None, env) => Ret (if bool_decide (Type_ env = MsgHeartbeat) then [] else [env])
  end.

Lemma tcp_iter_spec opt pick w a sc c b m p e sm : live opt -> tcp_at w a sc c b m p e sm ->
  exists w', tcp_at w' a sc c b m (frame_spec p e).2 e sm /\
    tcp_iter opt pick a sc w =
      match (frame_spec p e).1 with
      | inr _ => (Ret (false, []), w')
      | inl f => match frame_result opt m f with
                 | Panic q => (Panic q, w')
                 | Ret l => (Ret (true, l), w')
                 end
      end.
Proof.
  intros Hl Hat. destruct (arm_deadline_live _ _ _ _ _ _ _ _ _ _ Hl Hat) as (w1 & E1 & Hat1).
  destruct (ta_sess _ _ _ _ _ _ _ _ _ Hat1) as (s & Hs & Hb & Hm & Hp & He & Hch).
  destruct (tcp_read_spec pick s) as (s' & Er & Hb' & Hm' & Hch' & He' & Hp'). rewrite Hp, He in Er, Hp'.
  rewrite He in He'.
  pose proof (tcp_at_store _ _ _ _ _ _ _ _ _ s' Hat1 ltac:(congruence) ltac:(congruence) He' ltac:(congruence)) as Hat2.
  rewrite Hp' in Hat2. unfold tcp_iter, store_tcp, store_sess. unfold_go. rewrite E1.
  rewrite (deref_tcp_eval _ a s) by done. rewrite Er. unfold_go.
  destruct (frame_spec p e) as [[f|err] rest] eqn:Ef; simpl in Hat2, Hp' |- *; [|by eexists].
  unfold frame_result. rewrite Hm', Hm.
  destruct (DecodeMessage m f zero_envelope (OptMaxFrameSize opt)) as [[[err|] env]|q]; [by eexists| |by eexists].
  unfold time_now. unfold_go.
  set (w2 := set_sessions <[a := STcp s']> w1) in *.
  set (w3 := set_sessions <[a := STcp (set_active s' (now_ns (n_now w2)))]> (tick 0 1 w2)).
  assert (Hat3 : tcp_at w3 a sc c b m rest e sm).
  { rewrite <- Hp'. apply (tcp_at_store _ a sc c b m rest e sm (set_active s' _)); try done; try congruence.
    - by apply tcp_at_tick.
    - simpl. congruence.
    - simpl. congruence.
    - simpl. congruence. }
  destruct (bool_decide (Type_ env = MsgHeartbeat)); [by eexists|].
  destruct (ta_sess _ _ _ _ _ _ _ _ _ Hat3) as (s3 & Hs3 & Hb3 & Hm3 & Hp3 & He3 & Hch3).
  destruct Hat3 as [Hc Ha [Ho Hon] _ Hsm].
  destruct (OnEnvelope_undisturbed a sc c s3 env w3) as (s4 & w4 & E4 & Hs4 & [U1 U2 U3 U4 U5] & Hc4 & Hsm4); try done.
  exists w4. split; [|by rewrite E4]. split; try done; [congruence| |congruence].
  exists s4. split_and!; try done; try congruence. unfold pending in *. by rewrite U3.
Qed.

(** The loop on the flat stream. *)
Fixpoint handed (opt : Options) (m : Manager) (k : nat) (p : list byte) (e : io_error) : outcome (bool * list Envelope) :=
  match k with
  | O => Ret (false, [])
  | S k' =>
      match frame_spec p e with
      | (inr _, _) => Ret (true, [])
      | (inl f, p') =>
          match frame_result opt m f with
          | Panic q => Panic q
          | Ret l => match handed opt m k' p' e with
                     | Ret (fin, l') => Ret (fin, l ++ l')
                     | Panic q => Panic q
                     end
          end
      end
  end.

Lemma tcp_loop_spec opt picks w a sc c b m p e sm : live opt -> tcp_at w a sc c b m p e sm ->
  exists w' p', tcp_loop opt picks a sc w = (handed opt m (length picks) p e, w') /\
    tcp_at w' a sc c b m p' e sm.
Proof.
  intros Hl. revert w p. induction picks as [|pick picks IH]; intros w p Hat; [by exists w, p|].
  cbn [tcp_loop handed length]. destruct (tcp_iter_spec opt pick w a sc c b m p e sm Hl Hat) as (w1 & Hat1 & E1).
  unfold mbind at 1, GoM_bind at 1. rewrite E1.
  destruct (frame_spec p e) as [[f|err] rest]; simpl in Hat1 |- *; [|by eauto].
  destruct (frame_result opt m f) as [l|q]; [|by eauto]. simpl.
  destruct (IH w1 rest Hat1) as (w2 & p2 & E2 & Hat2). unfold_go. rewrite E2.
  destruct (handed opt m (length picks) rest e) as [[fin l']|q]; eauto.
Qed.

(** ** How the loop ends *)

(** The session is closed and out of the manager, its context marked. *)
Record tcp_gone (w : GW session) (a sc : addr) (c : SessionContext) (sm : SessionManager) : Prop := {
  tg_ctx : ctxs w !! sc = Some (closed_ctx c);
  tg_sess : exists s, sessions w !! a = Some (STcp s) /\ t_closeChan s = true /\ closeOnce (t_base s) = true;
  tg_manager : sessionManager w = Remove (Id c) sm;
}.

Lemma tcp_end w a sc c b m p e sm : tcp_at w a sc c b m p e sm -> closeOnce b = false ->
  exists w', (_ ← OnSessionClose sc; tcp_close a) w = (Ret tt, w') /\ tcp_gone w' a sc c sm.
Proof.
  intros Hat Hb. destruct Hat as [Hc Ha [Ho Hon] (s & Hs & Hsb & _ & _ & _ & _) Hsm]. subst a.
  unfold mbind at 1, GoM_bind at 1. rewrite (OnSessionClose_eval sc c (STcp s)) by done.
  unfold tcp_close, store_tcp, store_sess. cbn [Close session_Session].
  assert (Hcl : tcp_Close s = (None, mkTcp (once_done (t_base s)) (conn_close (t_conn s)) (frameCodec s)
      (t_manager s) true (lastActive s) (readDeadline s))) by (unfold tcp_Close; by rewrite Hsb, Hb).
  rewrite Hcl. cbn [snd]. set (s1 := mkTcp (once_done _) _ _ _ _ _ _).
  unfold_go. rewrite (deref_tcp_eval _ (sess c) s1) by (cbn; apply lookup_insert_eq). unfold_go.
  assert (Hcl1 : tcp_Close s1 = (None, s1)) by done. rewrite Hcl1.
  eexists. split; [reflexivity|]. split.
  - cbn. apply lookup_insert_eq.
  - exists s1. cbn. by rewrite lookup_insert_eq.
  - cbn. by rewrite Hsm.
Qed.

Lemma tcp_readLoop_eval opt picks w a sc c b m p e sm :
  live opt -> tcp_at w a sc c b m p e sm -> closeOnce b = false ->
  exists w', tcp_readLoop opt picks a sc w = (handed opt m (length picks) p e, w') /\
    (forall l, handed opt m (length picks) p e = Ret (true, l) -> tcp_gone w' a sc c sm).
Proof.
  intros Hl Hat Hb. destruct (tcp_loop_spec opt picks w a sc c b m p e sm Hl Hat) as (w1 & p1 & E1 & Hat1).
  unfold tcp_readLoop. rewrite E1. destruct (tcp_end _ _ _ _ _ _ _ _ _ Hat1 Hb) as (w2 & E2 & Hg).
  destruct (handed opt m (length picks) p e) as [[[|] l]|q]; unfold with_defer; rewrite ?E2.
  - exists w2. split; [done|]. by intros.
  - exists w1. split; [done|]. by intros ? [=].
  - exists w2. by split.
Qed.

(** Each frame takes at least five bytes of the stream. *)
Lemma frame_spec_shrinks p e f rest : frame_spec p e = (inl f, rest) -> (length rest < length p)%nat.
Proof.
  unfold frame_spec. destruct (Nat.ltb_spec (length p) 4); [done|].
  destruct (_ || _) eqn:E; [done|]. destruct (zlen (drop 4 p) <? be32 (take 4 p)); [done|]. intros [= _ <-].
  rewrite !length_drop. apply orb_false_iff in E as [E _]. apply Z.leb_gt in E. lia.
Qed.

Lemma handed_terminates opt m k p e : (length p < k)%nat ->
  (forall f, exists l, frame_result opt m f = Ret l) -> exists l, handed opt m k p e = Ret (true, l).
Proof.
  intros Hk Hf. revert p Hk. induction k as [|k IH]; intros p Hk; [lia|]. cbn [handed].
  destruct (frame_spec p e) as [[f|err] rest] eqn:Es; [|eauto]. apply frame_spec_shrinks in Es.
  destruct (Hf f) as [l ->]. destruct (IH rest ltac:(lia)) as [l' ->]. eauto.
Qed.

(** The limit is one the codec can allocate a buffer for; JSON needs none. *)
Definition limit_fits (n : Z) (opt : Options) : Prop := n = CodecProtobuf -> OptMaxFrameSize opt <= maxAlloc.

Lemma tcp_options_fits n opt : limit_fits n opt -> limit_fits n (tcp_options opt).
Proof. unfold limit_fits, tcp_options. destruct (OptMaxFrameSize opt <=? 0); [intros _ _; vm_compute; discriminate|done]. Qed.

Lemma frame_result_total `{ProtoLib} n opt f : 0 < OptMaxFrameSize opt -> limit_fits n opt ->
  exists l, frame_result opt (NewProtocolManager n) f = Ret l.
Proof.
  intros Hm Hfit. unfold frame_result, DecodeMessage. destruct (manager_selects_codec n) as (_ & -> & _).
  destruct (Z.eqb_spec n 1) as [->|_]; simpl.
  - specialize (Hfit eq_refl). rewrite ProtobufCodec_Decode_reads by lia. destruct (proto_Unmarshal _); eauto.
  - unfold JSONCodec_Decode. destruct (limit _ f) as [|b r]; [eauto|]. destruct (negb _); [eauto|].
    destruct (parse_first (b :: r)) as [[v rest]|je]; [|eauto].
    destruct (decode_envelope v zero_envelope) as [e' [err|]]; [eauto|]. destruct (bool_decide _); eauto.
Qed.

Lemma tcp_options_positive opt : 0 < OptMaxFrameSize (tcp_options opt).
Proof. unfold tcp_options. destruct (Z.leb_spec (OptMaxFrameSize opt) 0); [vm_compute; reflexivity|lia]. Qed.

(** C2 (refinement): the TCP read loop is a function of the byte stream.  On an
    open session whose read deadline lies in the future it hands to the gateway
    exactly the envelopes that decode from the frames of the stream, in order
    and without heartbeats, whatever the chunking, the buffer pool and the pongs
    written meanwhile; bad payloads are skipped.  When it ends, the session is
    closed, its context marked and its id removed from the manager. *)
Theorem tcp_readLoop_refines_stream opt picks w a sc c b m p e sm :
  live opt -> tcp_at w a sc c b m p e sm -> closeOnce b = false ->
  exists w', tcp_readLoop opt picks a sc w = (handed opt m (length picks) p e, w') /\
    (forall l, handed opt m (length picks) p e = Ret (true, l) -> tcp_gone w' a sc c sm).
Proof. apply tcp_readLoop_eval. Qed.

(** C17 (termination): with the options the TCP server normalises, and a read
    deadline that lies in the future, the read loop over any finite input ends
    without a panic, for every codec number, within one iteration per byte, and
    leaves the session closed; for the Protocol Buffers codec as long as the
    configured frame limit is one the runtime can allocate. *)
Theorem tcp_readLoop_terminates `{ProtoLib} n opt picks w a sc c b p e sm :
  live opt -> limit_fits n opt -> tcp_at w a sc c b (NewProtocolManager n) p e sm -> closeOnce b = false ->
  (length p < length picks)%nat ->
  exists l w', tcp_readLoop (tcp_options opt) picks a sc w = (Ret (true, l), w') /\ tcp_gone w' a sc c sm.
Proof.
  intros Hl Hfit Hat Hb Hk.
  assert (Hl' : live (tcp_options opt)) by (unfold live, tcp_options in *; by destruct (OptMaxFrameSize opt <=? 0)).
  destruct (handed_terminates (tcp_options opt) (NewProtocolManager n) (length picks) p e Hk) as [l El].
  { intros f. apply frame_result_total; [apply tcp_options_positive|by apply tcp_options_fits]. }
  destruct (tcp_readLoop_eval (tcp_options opt) picks w a sc c b _ p e sm Hl' Hat Hb) as (w' & E & Hg).
  exists l, w'. rewrite E, El. eauto.
Qed.

(** ** End to end *)

Fixpoint send_all (es : list Envelope) (s : tcpSession) : option tp_error * tcpSession :=
  match es with
  | [] => (None, s)
  | e :: es' => match tcp_SendEnvelope e s with
                | (Some err, s') => (Some err, s')
                | (None, s') => send_all es' s'
                end
  end.

(** The envelope is accepted by the codec and its encoding fits the limits. *)
Definition sendable (m : Manager) `{CodecLaw (codec m)} (max : Z) (e : Envelope) : Prop :=
  accepts e /\ admits max /\
  forall b, Encode (codec m) e = inl b -> Z.of_nat (length b) <= max /\ zlen b <= MaxFrameSize.

Lemma send_all_ok (m : Manager) `{CodecLaw (codec m)} max es s :
  state (t_base s) = SessionStateActive -> t_manager s = m -> wfail (t_conn s) = None ->
  Forall (sendable m max) es ->
  exists s' bs, send_all es s = (None, s') /\ out (t_conn s') = out (t_conn s) ++ concat (frame <$> bs) /\
    Forall2 (fun e b => Encode (codec m) e = inl b /\ legal_payload b /\ Z.of_nat (length b) <= max /\ admits max /\ accepts e) es bs.
Proof.
  intros Hst Hm Hw Hes. revert s Hst Hm Hw. induction Hes as [|e es (Ha & Hadm & He) Hes IH]; intros s Hst Hm Hw.
  - exists s, []. rewrite app_nil_r. auto.
  - destruct (encode_accepted e Ha) as (b & Eb & Hne). destruct (He b Eb) as [Hmax Hlen].
    cbn [send_all]. unfold tcp_SendEnvelope, State, EncodeMessage. rewrite Hst, Hm, Eb, WriteFrame_ok by done.
    destruct (IH (set_conn s (mkConn (inbuf (t_conn s)) (inerr (t_conn s)) (out (t_conn s) ++ frame b) None)))
      as (s' & bs & E & Ho & Hf); [done..|].
    exists s', (b :: bs). split; [done|]. split.
    + rewrite Ho. rewrite fmap_cons. simpl. by rewrite <- app_assoc.
    + constructor; [|done]. split_and!; try done. unfold legal_payload, zlen in *. destruct b; [done|]. simpl in *. lia.
Qed.

Definition not_heartbeat (e : Envelope) : Prop := Type_ e <> MsgHeartbeat.
#[global] Instance not_heartbeat_dec e : Decision (not_heartbeat e).
Proof. unfold not_heartbeat. apply _. Defined.

Lemma handed_frames opt (m : Manager) `{CodecLaw (codec m)} es bs k :
  Forall2 (fun e b => Encode (codec m) e = inl b /\ legal_payload b /\
    Z.of_nat (length b) <= OptMaxFrameSize opt /\ admits (OptMaxFrameSize opt) /\ accepts e) es bs ->
  (length es < k)%nat ->
  handed opt m k (concat (frame <$> bs)) EOF = Ret (true, filter not_heartbeat (norm <$> es)).
Proof.
  intros Hf. revert k. induction Hf as [|e b es bs (Eb & Hb & Hmax & Hadm & Ha) Hf IH]; intros k Hk;
    (destruct k as [|k]; [simpl in Hk; lia|]); [done|].
  cbn [handed]. rewrite fmap_cons. cbn [concat]. rewrite frame_spec_frame by done.
  unfold frame_result, DecodeMessage. rewrite (decode_encoded e b) by done.
  rewrite IH by (simpl in Hk; lia). rewrite fmap_cons, filter_cons.
  unfold not_heartbeat at 2. by destruct (bool_decide_reflect (Type_ (norm e) = MsgHeartbeat)); destruct (decide _).
Qed.

(** C1 (roundtrip): end to end over TCP.  Envelopes sent one after the other on
    a healthy session all succeed, and the peer's server, reading the same bytes
    in any chunks until the stream ends, hands exactly these envelopes to its
    gateway, in order and as the codec normalises them, heartbeats left out, and
    then closes the session.  For any codec that keeps its interface law. *)
Theorem tcp_end_to_end (m : Manager) `{CodecLaw (codec m)} opt es snd w a sc c b sm picks :
  state (t_base snd) = SessionStateActive -> t_manager snd = m ->
  wfail (t_conn snd) = None -> out (t_conn snd) = [] ->
  Forall (sendable m (OptMaxFrameSize opt)) es ->
  live opt -> tcp_at w a sc c b m (out (t_conn (send_all es snd).2)) EOF sm -> closeOnce b = false ->
  (length es < length picks)%nat ->
  (send_all es snd).1 = None /\
  exists w', tcp_readLoop opt picks a sc w = (Ret (true, filter not_heartbeat (norm <$> es)), w') /\
    tcp_gone w' a sc c sm.
Proof.
  intros Hst Hm Hw Ho Hes Hl Hat Hb Hk.
  destruct (send_all_ok m _ es snd Hst Hm Hw Hes) as (s' & bs & E & Eo & Hf).
  rewrite E in *. simpl in *. split; [done|]. rewrite Eo, Ho in Hat. simpl in Hat.
  destruct (tcp_readLoop_eval opt picks w a sc c b m _ EOF sm Hl Hat Hb) as (w' & Er & Hg).
  exists w'. rewrite Er. rewrite (handed_frames opt m es bs) in * by done. eauto.
Qed.

(** ** The life of a connection *)

Lemma tcp_accept_at a sc cn raddr m w :
  exists w1, tcp_accept a sc cn raddr m w = (Ret tt, w1) /\
    let c := mkSC (uuid_of (n_uuid w)) raddr a false false in
    tcp_at w1 a sc c (NewBase (uuid_of (n_uuid w)) raddr) m (pending cn) (inerr cn)
      (AddContext (Some (sc, c)) (sessionManager w)).
Proof.
  unfold tcp_accept, new_uuid, time_now, store_sess, store_ctx. unfold_go.
  cbn [n_uuid tick n_now]. set (id := uuid_of (n_uuid w)). set (s := newTcpSession id raddr cn m _).
  set (c := NewSessionContext a (STcp s)). set (w0 := set_ctxs <[sc := c]> _).
  rewrite (OnSessionOpen_eval sc c (STcp s) w0) by (cbn; rewrite ?lookup_insert_eq; done).
  set (e := welcome_for w0). pose proof (tcp_Send_undisturbed e s) as [U1 U2 U3 U4 U5].
  eexists. split; [reflexivity|]. split; try done.
  - cbn. apply lookup_insert_eq.
  - exists (tcp_SendEnvelope e s).2. cbn [sessions sess c NewSessionContext].
    rewrite lookup_insert_eq. split; [simpl; by destruct (tcp_SendEnvelope e s)|].
    rewrite U1, U2, U4, U5. unfold pending. by rewrite U3.
Qed.

(** The session counter drifts.  For a TCP connection that is
    accepted, read to the end of its input and then seen by its lifecycle
    watcher through the closed channel, OnSessionClose runs twice: one
    connection raises the counter by one and lowers it by two. *)
Theorem tcp_session_count_drifts `{ProtoLib} n opt a sc cn raddr picks w :
  live opt -> limit_fits n opt -> (length (pending cn) < length picks)%nat ->
  exists w1 l w2 w3,
    tcp_accept a sc cn raddr (NewProtocolManager n) w = (Ret tt, w1) /\
    tcp_readLoop (tcp_options opt) picks a sc w1 = (Ret (true, l), w2) /\
    lifecycleWatcher CloseChan a sc w2 = (Ret true, w3) /\
    Count (sessionManager w1) = wrap64 (Count (sessionManager w) + 1) /\
    Count (sessionManager w3) = wrap64 (Count (sessionManager w) - 1).
Proof.
  intros Hl Hfit Hk. destruct (tcp_accept_at a sc cn raddr (NewProtocolManager n) w) as (w1 & E1 & Hat).
  cbn zeta in Hat. set (c := mkSC _ _ _ _ _) in Hat.
  assert (Hl' : live (tcp_options opt)) by (unfold live, tcp_options in *; by destruct (OptMaxFrameSize opt <=? 0)).
  destruct (handed_terminates (tcp_options opt) (NewProtocolManager n) (length picks) (pending cn) (inerr cn) Hk) as [l El].
  { intros f. apply frame_result_total; [apply tcp_options_positive|by apply tcp_options_fits]. }
  destruct (tcp_readLoop_eval _ picks w1 _ _ _ _ _ _ _ _ Hl' Hat eq_refl) as (w2 & E2 & Hg).
  rewrite El in E2. specialize (Hg l El). pose proof (ta_manager _ _ _ _ _ _ _ _ _ Hat) as Hm1.
  destruct Hg as [Hc (s & Hs & Hch & _) Hm2].
  exists w1, l, w2, (set_manager (Remove (Id c)) w2). split_and!; try done.
  - unfold lifecycleWatcher. unfold mbind at 1, GoM_bind at 1. rewrite (deref_tcp_eval _ a s) by done. rewrite Hch.
    unfold_go. by rewrite (OnSessionClose_again sc (closed_ctx c)).
  - rewrite Hm1. done.
  - unfold Count. cbn. rewrite Hm2. cbn. rewrite !wrap64_sub. rewrite <- Z.sub_add_distr.
    rewrite wrap64_sub. f_equal. lia.
Qed.

(** C34 (bounds): the read deadline multiplies two durations.  A configured ten
    or thirty seconds wraps to a deadline in the past, sixty seconds to one 147
    years ahead; and when the product is not positive, the loop ends at once:
    the connection is closed without reading a byte of what the peer sent. *)
Theorem read_deadline_overflow opt picks w a sc c b m p e sm :
  0 < ReadTimeout opt -> wrap64 (ReadTimeout opt * Second) <= 0 -> picks <> [] ->
  tcp_at w a sc c b m p e sm -> closeOnce b = false ->
  wrap64 (10 * Second * Second) = -8446744073709551616 /\
  wrap64 (30 * Second * Second) = -6893488147419103232 /\
  wrap64 (60 * Second * Second) = 4659767778871345152 /\
  exists w', tcp_readLoop opt picks a sc w = (Ret (true, []), w') /\ tcp_gone w' a sc c sm.
Proof.
  intros Hr Hw Hk Hat Hb. split_and!; [done|done|done|].
  destruct (ta_sess _ _ _ _ _ _ _ _ _ Hat) as (s & Hs & Hsb & Hm & Hp & He & Hch).
  destruct picks as [|pick picks]; [done|].
  set (t := now_ns (n_now w)). set (s1 := set_deadline s (read_deadline opt t)).
  set (w1 := set_sessions <[a := STcp s1]> (set_sessions <[a := STcp s1]> (tick 0 1 w))).
  assert (E : tcp_loop opt (pick :: picks) a sc w = (Ret (true, []), w1)).
  { cbn [tcp_loop]. unfold tcp_iter, arm_deadline, time_now, store_tcp, store_sess. rewrite (proj2 (Z.ltb_lt _ _) Hr).
    unfold_go. rewrite (deref_tcp_eval _ a s) by done. unfold_go. cbn beta iota.
    fold t. assert (read_deadline opt t <=? t = true) as -> by (unfold read_deadline; lia).
    rewrite (deref_tcp_eval _ a s1) by (cbn; apply lookup_insert_eq). done. }
  assert (Hat1 : tcp_at w1 a sc c b m (pending (t_conn s1)) e sm).
  { eapply (tcp_at_store _ a sc c b m _ e sm s1); try done.
    eapply (tcp_at_store _ a sc c b m p e sm s1); try done. by apply tcp_at_tick. }
  destruct (tcp_end _ _ _ _ _ _ _ _ _ Hat1 Hb) as (w2 & E2 & Hg).
  exists w2. split; [|done]. unfold tcp_readLoop. rewrite E. unfold with_defer. by rewrite E2.
Qed.

(** One tick of the heartbeat watcher.  With both options
    positive it closes the session and stops exactly when more than the timeout
    has passed since the last decoded message, and otherwise changes nothing;
    with an option off it stops without closing anything. *)
Theorem heartbeat_tick_spec opt a s w :
  sessions w !! a = Some (STcp s) ->
  heartbeat_tick opt a w =
    if (HeartbeatInterval opt <=? 0) || (HeartbeatTimeout opt <=? 0) then (Ret false, w)
    else if HeartbeatTimeout opt <? now_ns (n_now w) - lastActive s
    then (Ret false, set_sessions <[a := STcp (tcp_Close s).2]> (tick 0 1 w))
    else (Ret true, tick 0 1 w).
Proof.
  intros Hs. unfold heartbeat_tick. destruct (_ || _); [done|]. unfold time_now, tcp_close, store_tcp, store_sess. unfold_go.
  rewrite (deref_tcp_eval _ a s) by done. cbn beta iota.
  destruct (_ <? _); [|done]. by rewrite (deref_tcp_eval _ a s).
Qed.

(** ** WebSocket messages *)

Lemma OnEnvelope_total sc c s msg w :
  ctxs w !! sc = Some c -> sessions w !! sess c = Some s -> exists w', OnEnvelope sc msg w = (Ret tt, w').
Proof.
  intros Hc Hs. unfold OnEnvelope, Dispatch. unfold_go.
  destruct (disp w !! Type_ msg) as [[]|]; [|by eexists]. cbn [run_handler].
  destruct (sc_closed c) eqn:Hcl.
  - unfold ping_handler, now_milli, time_now, new_uuid. unfold_go. rewrite (sc_Send_closed sc c) by done. by eexists.
  - rewrite (ping_handler_eval sc c s) by done. by eexists.
Qed.

(** The message a legacy text becomes. *)
Definition legacy (m : Manager) (text : string) (mid : string) (ts : Z) : Envelope :=
  match text with
  | String "/" _ => CreateCommandMessage (factory m) text mid ts
  | _ => CreateTextMessage (factory m) text mid ts
  end.

Lemma legacy_eval m sc c s text w :
  ctxs w !! sc = Some c -> sessions w !! sess c = Some s -> text <> ""%string ->
  exists w', handleLegacyTextMessage m sc text w =
    (Ret [legacy m text (uuid_of (n_uuid w)) (millis (now_ns (n_now w)))], w').
Proof.
  intros Hc Hs Hne. destruct text as [|ch text]; [done|]. unfold handleLegacyTextMessage, new_uuid, now_milli, time_now.
  unfold_go. cbn [n_now n_uuid tick]. rewrite Nat.add_0_r.
  set (e := if bool_decide (ch = "/"%char) then _ else _).
  destruct (OnEnvelope_total sc c s e (tick 0 1 (tick 1 0 w))) as [w' ->]; [done..|]. exists w'. do 3 f_equal.
  unfold e, legacy. destruct (bool_decide_reflect (ch = "/"%char)) as [->|Hn]; [done|].
  destruct ch as [[] [] [] [] [] [] [] []]; try done; by destruct Hn.
Qed.

(** An open WebSocket session with a first message. *)
Definition ws_at (w : GW session) (a sc : addr) (m : Manager) (mt : ws_kind) (data : list byte) : Prop :=
  exists c s rest, ctxs w !! sc = Some c /\ sess c = a /\ sessions w !! a = Some (SWs s) /\
    w_manager s = m /\ ws_in (w_conn s) = (mt, data) :: rest.

Lemma ws_iter_text opt w a sc m data : ws_at w a sc m TextMessage data -> data <> [] ->
  exists w', match DecodeMessage m data zero_envelope (OptMaxFrameSize opt) with
  | Panic q => ws_iter opt a sc w = (Panic q, w')
  | Ret (err, env) =>
      ws_iter opt a sc w =
        (Ret (true, [if bool_decide (err = None /\ Type_ env <> ""%string) then env
                     else legacy m (str data) (uuid_of (n_uuid w)) (millis (now_ns (n_now w)))]), w')
  end.
Proof.
  intros (c & s & rest & Hc & <- & Hs & Hm & Hin) Hne.
  assert (Hstr : str data <> ""%string) by (by destruct data).
  unfold ws_iter, deref_ws, deref_sess, store_ws, store_sess. unfold_go. rewrite Hs. cbn beta iota. rewrite Hin, Hm. cbn beta iota.
  set (w1 := set_sessions _ w).
  assert (Hs1 : exists s1, sessions w1 !! sess c = Some s1) by (eexists; cbn; apply lookup_insert_eq).
  destruct Hs1 as [s1 Hs1].
  destruct (legacy_eval m sc c s1 (str data) w1) as [wl El]; [done..|]. cbn [n_uuid n_now w1 set_sessions] in El.
  destruct (DecodeMessage m data zero_envelope (OptMaxFrameSize opt)) as [[[err|] env]|q].
  - exists wl. rewrite El. by rewrite bool_decide_false by naive_solver.
  - destruct (bool_decide_reflect (Type_ env = ""%string)) as [Ht|Ht].
    + exists wl. rewrite El. by rewrite bool_decide_false by naive_solver.
    + destruct (OnEnvelope_total sc c s1 env w1) as [w' ->]; [done..|]. exists w'. by rewrite bool_decide_true.
  - by eexists.
Qed.

(** A text message on a WebSocket with the JSON codec and no
    size limit: an encoded envelope is handed over as the codec normalises it;
    text that does not start with '{' becomes a command when it starts with '/'
    and a chat text otherwise, with the message as its content. *)
Theorem ws_json_messages opt w a sc data :
  OptMaxFrameSize opt = 0 -> ws_at w a sc (manager_of JSONCodec) TextMessage data -> data <> [] ->
  (forall e, accepts e -> JSONCodec_Encode e = inl data ->
     exists w', ws_iter opt a sc w = (Ret (true, [json_norm e]), w')) /\
  (head data <> Some "{"%char ->
     exists w', ws_iter opt a sc w =
       (Ret (true, [legacy (manager_of JSONCodec) (str data) (uuid_of (n_uuid w)) (millis (now_ns (n_now w)))]), w')).
Proof.
  intros H0 Hat Hne. destruct (ws_iter_text opt w a sc _ data Hat Hne) as [w' E]. rewrite H0 in E.
  unfold DecodeMessage in E. cbn [codec manager_of] in E. split.
  - intros e [Hts Hty] He.
    assert (data = Marshal (jEnvelope e) ++ [z2b 10]) as -> by (by injection He).
    cbn [Decode JSONCodec] in E. unfold Marshal, jEnvelope in E.
    rewrite json_decode_object in E by (first [by apply jfits_envelope|by left]). fold (jEnvelope e) in E.
    rewrite decode_encoded_envelope in E by done. pose proof (san_nonempty _ Hty) as Hn.
    rewrite bool_decide_false in E by done. rewrite bool_decide_true in E by (by split). eauto.
  - intros Hh. cbn [Decode JSONCodec] in E. unfold JSONCodec_Decode, limit in E. simpl in E.
    destruct data as [|ch data]; [done|]. unfold c_is in E.
    rewrite bool_decide_false in E by naive_solver. simpl in E. eauto.
Qed.

(** With the Protocol Buffers codec and the limit 0 that the
    server passes to WebSocket, no message is ever decoded: every non-empty text
    message, a well-formed envelope included, is handed over as legacy text. *)
Theorem ws_protobuf_never_decoded `{LW : ProtoLaws} opt w a sc data :
  OptMaxFrameSize opt = 0 -> ws_at w a sc (manager_of ProtobufCodec) TextMessage data -> data <> [] ->
  exists w', ws_iter opt a sc w =
    (Ret (true, [legacy (manager_of ProtobufCodec) (str data) (uuid_of (n_uuid w)) (millis (now_ns (n_now w)))]), w').
Proof.
  intros H0 Hat Hne. destruct (ws_iter_text opt w a sc _ data Hat Hne) as [w' E]. rewrite H0 in E.
  unfold DecodeMessage in E. cbn [codec manager_of Decode ProtobufCodec] in E. unfold ProtobufCodec_Decode in E. simpl in E.
  rewrite proto_unmarshal_empty in E. rewrite bool_decide_false in E by (intros [_ Hn]; by apply Hn). eauto.
Qed.
End servers.

(** ** The theorems at concrete inputs *)
Module SrvDemo.
Definition opt : Options := mkOptions 256 0 0 0 0 4096 None None.
Definition opt10 : Options := mkOptions 256 (10 * Second) 0 0 0 4096 None None.
Definition manager : Manager := manager_of JSONCodec.

#[export] Instance manager_law : CodecLaw (codec manager) := JSONCodec_law.

Definition hello : Envelope := mkEnvelope "1.0" MsgText EncodingJSON "alice" "m1" "" 1 (bytes "hi").
Definition beat : Envelope := mkEnvelope "1.0" MsgHeartbeat EncodingJSON "" "m2" "" 2 [].
Definition sender : tcpSession := GwDemo.tcp (mkConn [] EOF [] None).

(** A server whose peer sends [p] and hangs up. *)
Definition world (p : list byte) : GW session := GwDemo.world (STcp (GwDemo.tcp (mkConn [p] EOF [] None))).
Definition base : Base := NewBase "s1" "peer".
Definition sm : SessionManager := AddContext (Some (0%nat, GwDemo.ctx)) NewSessionManager.

Lemma world_at p m : m = manager ->
  tcp_at (world p) 0%nat 0%nat GwDemo.ctx base m p EOF sm.
Proof.
  intros ->. split; try reflexivity; [by split|]. eexists. split; [reflexivity|].
  split_and!; try reflexivity. unfold pending. simpl. by rewrite app_nil_r.
Qed.

(** A WebSocket session with one text message. *)
Definition ws_world (m : Manager) (data : list byte) : GW session :=
  GwDemo.world (SWs (newWsSession "s1" "peer" (mkWsConn [(TextMessage, data)] [] None) m)).

Lemma ws_world_at m data : ws_at (ws_world m data) 0%nat 0%nat m TextMessage data.
Proof. exists GwDemo.ctx. do 2 eexists. split_and!; reflexivity. Qed.
End SrvDemo.
Import GwDemo SrvDemo.

Lemma tcp_readLoop_refines_stream_witness :
  exists w', tcp_readLoop opt [None; None] 0%nat 0%nat (world (frame (bytes "junk"))) = (Ret (true, []), w') /\
    tcp_gone w' 0%nat 0%nat ctx sm.
Proof.
  destruct (tcp_readLoop_refines_stream opt [None; None] (world (frame (bytes "junk"))) 0%nat 0%nat ctx base
    manager (frame (bytes "junk")) EOF sm) as (w' & E & Hg).
  - left. vm_compute. discriminate.
  - apply world_at. reflexivity.
  - reflexivity.
  - exists w'. split; [rewrite E; vm_compute; reflexivity|]. apply (Hg []). vm_compute. reflexivity.
Defined.

Lemma tcp_readLoop_terminates_witness :
  exists l w', tcp_readLoop (tcp_options opt) (replicate 9 None) 0%nat 0%nat (world (frame (bytes "junk"))) =
    (Ret (true, l), w') /\ tcp_gone w' 0%nat 0%nat ctx sm.
Proof.
  apply (tcp_readLoop_terminates (H0 := WireProto.lib) 0 opt (replicate 9 None) (world (frame (bytes "junk")))
    0%nat 0%nat ctx base (frame (bytes "junk")) EOF sm).
  - left. vm_compute. discriminate.
  - discriminate.
  - apply world_at. reflexivity.
  - reflexivity.
  - vm_compute. lia.
Defined.

Lemma tcp_end_to_end_witness :
  let p := Conn.out (t_conn (send_all [hello; beat] sender).2) in
  (send_all [hello; beat] sender).1 = None /\
  exists w', tcp_readLoop opt [None; None; None] 0%nat 0%nat (world p) = (Ret (true, [hello]), w') /\
    tcp_gone w' 0%nat 0%nat ctx sm.
Proof.
  intros p.
  destruct (tcp_end_to_end manager opt [hello; beat] sender (world p) 0%nat 0%nat ctx base sm [None; None; None])
    as (H1 & w' & H2 & H3); try reflexivity.
  - apply Forall_cons_2; [|apply Forall_cons_2; [|apply Forall_nil_2]];
      (split; [split; [vm_compute; split; discriminate|discriminate]|split; [exact I|]]);
      intros b Hb; vm_compute in Hb; injection Hb as <-; vm_compute; split; discriminate.
  - left. vm_compute. discriminate.
  - apply world_at. reflexivity.
  - vm_compute. lia.
  - split; [exact H1|]. exists w'. split; [|exact H3]. rewrite H2. vm_compute. reflexivity.
Defined.

Lemma tcp_session_count_drifts_witness :
  exists w1 l w2 w3,
    tcp_accept 5%nat 6%nat (mkConn [] EOF [] None) "peer" (NewProtocolManager (L := WireProto.lib) 0) NewSimpleGateway = (Ret tt, w1) /\
    tcp_readLoop (tcp_options opt) [None] 5%nat 6%nat w1 = (Ret (true, l), w2) /\
    lifecycleWatcher CloseChan 5%nat 6%nat w2 = (Ret true, w3) /\
    Count (sessionManager w1) = 1 /\ Count (sessionManager w3) = -1.
Proof.
  apply (tcp_session_count_drifts (H0 := WireProto.lib) 0 opt 5%nat 6%nat (mkConn [] EOF [] None) "peer" [None] NewSimpleGateway).
  - left. vm_compute. discriminate.
  - discriminate.
  - vm_compute. lia.
Defined.

Lemma read_deadline_overflow_witness :
  exists w', tcp_readLoop opt10 [None] 0%nat 0%nat (world (frame (bytes "{}"))) = (Ret (true, []), w') /\
    tcp_gone w' 0%nat 0%nat ctx sm.
Proof.
  apply (read_deadline_overflow opt10 [None] (world (frame (bytes "{}"))) 0%nat 0%nat ctx base manager
    (frame (bytes "{}")) EOF sm).
  - vm_compute. reflexivity.
  - vm_compute. discriminate.
  - discriminate.
  - apply world_at. reflexivity.
  - reflexivity.
Defined.

Lemma ws_json_messages_witness :
  exists w', ws_iter (mkOptions 256 0 0 0 0 0 None None) 0%nat 0%nat (ws_world manager (bytes "/help")) =
    (Ret (true, [CreateCommandMessage NewMessageFactory "/help" "id" 0]), w').
Proof.
  destruct (ws_json_messages (mkOptions 256 0 0 0 0 0 None None) (ws_world manager (bytes "/help")) 0%nat 0%nat (bytes "/help"))
    as [_ H].
  - reflexivity.
  - apply ws_world_at.
  - discriminate.
  - destruct H as [w' Hw]; [discriminate|]. exists w'. exact Hw.
Defined.

Lemma ws_protobuf_never_decoded_witness :
  exists w', ws_iter (mkOptions 256 0 0 0 0 0 None None) 0%nat 0%nat
      (ws_world (manager_of (ProtobufCodec (L := WireProto.lib))) (bytes "hello")) =
    (Ret (true, [CreateTextMessage NewMessageFactory "hello" "id" 0]), w').
Proof.
  destruct (ws_protobuf_never_decoded (LW := WireProto.laws) (mkOptions 256 0 0 0 0 0 None None)
    (ws_world (manager_of (ProtobufCodec (L := WireProto.lib))) (bytes "hello")) 0%nat 0%nat (bytes "hello")) as [w' Hw].
  - reflexivity.
  - apply ws_world_at.
  - discriminate.
  - exists w'. exact Hw.
Defined.
