(* ===== verification/Heartbeat.v ===== *)
(** * TCP heartbeats over time: [internal/transport/tcp.go], [heartbeatWatcher]

    The watcher looks at the session at every tick of its ticker and closes it
    when the last decoded message is older than the timeout.  Events carry the
    time at which they happen: ticks of the watcher and messages the read loop
    has decoded.  The theorem bounds when a peer that has gone silent is
    disconnected, from both sides; [heartbeat_tick_is_beat] relates one event to
    the operation of Servers.v. *)

From S2P Require Import Prelude Json Envelope Codec Factory Conn Frame Session Gateway Servers.
From Stdlib Require Import Sorting.Sorted.

Local Open Scope Z_scope.

Inductive beat := BTick | BMessage.

(** The time at which the watcher closes the session, if it does, and the
    session; a message stores its time ([s.lastActive.Store]). *)
Fixpoint beats (opt : Options) (s : tcpSession) (evs : list (Z * beat)) : option Z * tcpSession :=
  match evs with
  | [] => (None, s)
  | (t, BMessage) :: evs' => beats opt (set_active s t) evs'
  | (t, BTick) :: evs' =>
      if HeartbeatTimeout opt <? t - lastActive s then (Some t, (tcp_Close s).2) else beats opt s evs'
  end.

(** With an option off the watcher returns at once. *)
Definition heartbeatWatcher (opt : Options) (s : tcpSession) (evs : list (Z * beat)) : option Z * tcpSession :=
  if (HeartbeatInterval opt <=? 0) || (HeartbeatTimeout opt <=? 0) then (None, s) else beats opt s evs.

(** A tick at the time the clock shows is one [heartbeat_tick]. *)
Lemma heartbeat_tick_is_beat `{RtEnv} opt a s w :
  sessions w !! a = Some (STcp s) -> 0 < HeartbeatInterval opt -> 0 < HeartbeatTimeout opt ->
  exists w', heartbeat_tick opt a w =
      (Ret (bool_decide ((heartbeatWatcher opt s [(now_ns (n_now w), BTick)]).1 = None)), w') /\
    sessions w' !! a = Some (STcp (heartbeatWatcher opt s [(now_ns (n_now w), BTick)]).2).
Proof.
  intros Hs Hi Ht. rewrite (heartbeat_tick_spec opt a s) by done. unfold heartbeatWatcher.
  rewrite (proj2 (Z.leb_gt (HeartbeatInterval opt) 0)), (proj2 (Z.leb_gt (HeartbeatTimeout opt) 0)) by lia. cbn.
  destruct (_ <? _); eexists; (split; [reflexivity|]); cbn; [apply lookup_insert_eq|done].
Qed.

(** ** Theorems *)

Definition in_time (evs : list (Z * beat)) : Prop := StronglySorted (fun e f => e.1 <= f.1) evs.

(** Every tick due before [until] comes within [lag]. *)
Definition ticking (opt : Options) (started lag until : Z) (evs : list (Z * beat)) : Prop :=
  forall k, 0 < k -> started + k * HeartbeatInterval opt + lag <= until ->
    exists t, (t, BTick) ∈ evs /\ started + k * HeartbeatInterval opt <= t <= started + k * HeartbeatInterval opt + lag.

(** The watcher closes only a session that is idle for longer than the timeout. *)
Lemma beats_sound opt s evs t s' :
  in_time evs -> Forall (fun e => lastActive s <= e.1) evs -> beats opt s evs = (Some t, s') ->
  lastActive s + HeartbeatTimeout opt < t /\
  (forall m, (m, BMessage) ∈ evs -> m < t -> m + HeartbeatTimeout opt < t).
Proof.
  revert s. induction evs as [|[u b] evs IH]; intros s Hs Hl; [done|].
  apply StronglySorted_inv in Hs as [Hs Hge]. apply Forall_cons in Hl as [Hu Hl]. cbn [fst] in *.
  destruct b; cbn [beats].
  - destruct (Z.ltb_spec (HeartbeatTimeout opt) (u - lastActive s)) as [Hi|Hi].
    + intros [= <- <-]. split; [lia|]. intros m Hm Hlt. apply elem_of_cons in Hm as [Hm|Hm]; [done|].
      rewrite Forall_forall in Hge. specialize (Hge _ Hm). simpl in Hge. lia.
    + intros E. destruct (IH s Hs Hl E) as [H1 H2]. split; [done|]. intros m Hm. apply elem_of_cons in Hm as [?|Hm]; [done|]. by apply H2.
  - intros E. destruct (IH (set_active s u) Hs Hge E) as [H1 H2]. cbn in H1. split; [lia|].
    intros m Hm Hlt. apply elem_of_cons in Hm as [Hm|Hm]; [injection Hm as ->; lia|by apply H2].
Qed.

(** A tick late enough finds a silent session idle. *)
Lemma beats_complete opt s evs last t0 :
  in_time evs -> lastActive s <= last -> Forall (fun e => e.2 = BMessage -> e.1 <= last) evs ->
  (t0, BTick) ∈ evs -> last + HeartbeatTimeout opt < t0 ->
  exists t s1, beats opt s evs = (Some t, (tcp_Close s1).2) /\ t <= t0.
Proof.
  revert s. induction evs as [|[u b] evs IH]; intros s Hs Hl Hm Hin Ht; [by apply elem_of_nil in Hin|].
  apply StronglySorted_inv in Hs as [Hs Hge]. apply Forall_cons in Hm as [Hb Hm]. cbn [fst snd] in *.
  apply elem_of_cons in Hin as [Hin|Hin].
  - injection Hin as <- <-. cbn [beats]. rewrite (proj2 (Z.ltb_lt _ _)) by lia. by eexists _, _.
  - assert (Hut : u <= t0) by (rewrite Forall_forall in Hge; by specialize (Hge _ Hin)).
    destruct b; cbn [beats]; [|apply IH; cbn; auto].
    destruct (_ <? _); [|by apply IH]. by eexists _, _.
Qed.

Lemma tcp_Close_shut s : t_closeChan s = closeOnce (t_base s) -> t_closeChan (tcp_Close s).2 = true.
Proof. unfold tcp_Close. intros H. destruct (closeOnce (t_base s)) eqn:E; cbn; congruence. Qed.

Lemma beats_once opt s evs t s1 : beats opt s evs = (Some t, s1) -> t_closeChan s = closeOnce (t_base s) -> t_closeChan s1 = true.
Proof.
  revert s. induction evs as [|[u b] evs IH]; intros s; [done|]. destruct b; cbn [beats]; [|intros E H; by eapply IH].
  destruct (_ <? _); [|apply IH]. intros [= <- <-]. apply tcp_Close_shut.
Qed.

(** C21 (bounds): a silent peer is disconnected in time, an active one never.
    If the peer's last message is at [last] and the ticker runs with at most
    [lag] delay, the watcher closes the session, at the latest one interval and
    the lag after the timeout has passed; and whenever it closes a session, no
    message was decoded during the whole timeout before. *)
Theorem heartbeat_window opt s evs started lag until last :
  0 < HeartbeatInterval opt -> 0 < HeartbeatTimeout opt -> in_time evs ->
  Forall (fun e => lastActive s <= e.1) evs -> t_closeChan s = closeOnce (t_base s) ->
  ((lastActive s <= last /\ started <= last + HeartbeatTimeout opt /\
    last + HeartbeatTimeout opt + HeartbeatInterval opt + lag <= until /\
    ticking opt started lag until evs /\ Forall (fun e => e.2 = BMessage -> e.1 <= last) evs) ->
   exists t s', heartbeatWatcher opt s evs = (Some t, s') /\ t_closeChan s' = true /\
     t <= last + HeartbeatTimeout opt + HeartbeatInterval opt + lag) /\
  (forall t s', heartbeatWatcher opt s evs = (Some t, s') ->
     lastActive s + HeartbeatTimeout opt < t /\
     forall m, (m, BMessage) ∈ evs -> m < t -> m + HeartbeatTimeout opt < t).
Proof.
  intros Hi Ht Hs Hl Hch. unfold heartbeatWatcher.
  rewrite (proj2 (Z.leb_gt (HeartbeatInterval opt) 0)), (proj2 (Z.leb_gt (HeartbeatTimeout opt) 0)) by lia. cbn [orb].
  split; [|intros t s'; by apply beats_sound].
  intros (Hlast & Hst & Hu & Htick & Hm). set (I := HeartbeatInterval opt) in *. set (T := HeartbeatTimeout opt) in *.
  set (k := (last + T - started) / I + 1).
  pose proof (Z.div_mod (last + T - started) I ltac:(lia)) as Hdm.
  pose proof (Z.mod_pos_bound (last + T - started) I Hi) as Hmb.
  pose proof (Z.div_pos (last + T - started) I ltac:(lia) Hi) as Hd0.
  assert (Hk : last + T < started + k * I <= last + T + I) by (unfold k; nia).
  destruct (Htick k ltac:(unfold k; lia) ltac:(fold I; lia)) as (t0 & Hin & Hlo & Hhi). fold I in Hlo, Hhi.
  destruct (beats_complete opt s evs last t0 Hs Hlast Hm Hin ltac:(fold T; lia)) as (t & s1 & E & Hle).
  exists t, (tcp_Close s1).2. split_and!; [done|by eapply beats_once|lia].
Qed.

(** ** The theorem at a concrete input: ticks every ten seconds, a timeout of
    fifteen, messages at four and at twelve seconds. *)
Module BeatDemo.
Definition opt : Options := mkOptions 256 0 0 (10 * Second) (15 * Second) 0 None None.
Definition s : tcpSession := newTcpSession "id" "peer" (mkConn [] EOF [] None) (manager_of JSONCodec) 0.
Definition evs : list (Z * beat) :=
  [(4 * Second, BMessage); (10 * Second, BTick); (12 * Second, BMessage); (20 * Second, BTick); (30 * Second, BTick);
   (40 * Second, BTick)].

Lemma evs_in_time : in_time evs.
Proof.
  unfold in_time, evs. repeat first [apply SSorted_cons|apply SSorted_nil|apply Forall_cons_2|apply Forall_nil_2];
    vm_compute; discriminate.
Qed.

Lemma evs_ticking : ticking opt 0 0 (40 * Second) evs.
Proof.
  intros k Hk Hu. exists (k * 10 * Second). unfold opt in Hu |- *. cbn [HeartbeatInterval] in *. unfold Second in *.
  assert (k = 1 \/ k = 2 \/ k = 3 \/ k = 4) as [-> | [-> | [-> | ->]]] by lia; (split; [unfold evs; set_solver|lia]).
Qed.
End BeatDemo.

Lemma heartbeat_window_witness :
  exists t s', heartbeatWatcher BeatDemo.opt BeatDemo.s BeatDemo.evs = (Some t, s') /\ t_closeChan s' = true /\
    27 * Second < t <= 37 * Second.
Proof.
  destruct (heartbeat_window BeatDemo.opt BeatDemo.s BeatDemo.evs 0 0 (40 * Second) (12 * Second)) as [H1 H2].
  - reflexivity.
  - reflexivity.
  - exact BeatDemo.evs_in_time.
  - repeat first [apply Forall_cons_2|apply Forall_nil_2]; vm_compute; discriminate.
  - reflexivity.
  - destruct H1 as (t & s' & E & Hc & Hle).
    + split; [vm_compute; discriminate|]. split; [vm_compute; discriminate|]. split; [vm_compute; discriminate|].
      split; [exact BeatDemo.evs_ticking|].
      unfold BeatDemo.evs. do 6 (apply Forall_cons_2; [intros Hb; try discriminate Hb; vm_compute; discriminate|]). apply Forall_nil_2.
    + exists t, s'. split; [exact E|]. split; [exact Hc|]. split; [|exact Hle].
      assert (Ht : (heartbeatWatcher BeatDemo.opt BeatDemo.s BeatDemo.evs).1 = Some (30 * Second)) by (vm_compute; reflexivity).
      rewrite E in Ht. assert (Hm : 12 * Second < t) by (cbn [fst] in Ht; unfold Second in *; injection Ht; lia).
      destruct (H2 t s' E) as [_ Hs]. assert (H12 : (12 * Second, BMessage) ∈ BeatDemo.evs) by (do 2 right; left).
      specialize (Hs _ H12 Hm). unfold BeatDemo.opt, Second in *. cbn [HeartbeatTimeout] in Hs. lia.
Defined.
