(* ===== verification/WsLoop.v ===== *)
(** * The WebSocket read loop: [internal/transport/ws.go], [readLoop]

    The loop hands every text message to the gateway, as an envelope or as
    legacy text.  [ws_handed] is its abstract contract, a function of the
    messages; the theorem shows that the loop computes it, ends, and closes the
    session, also when the decoder panics. *)

From S2P Require Import Prelude Json Envelope Codec Factory Conn Frame Session Gateway Servers.

Local Open Scope Z_scope.

Section ws_loop.
Context `{RtEnv}.

(** ** The contract *)

(** Identifiers and clock readings used up before the next message, when [e]
    goes to a gateway with the handlers [D]. *)
Definition advance (D : gmap string HandlerFunc) (e : Envelope) (ut : nat * nat) : nat * nat :=
  match D !! Type_ e with
  | Some PingHandler => ((ut.1 + 1)%nat, (ut.2 + 2)%nat)
  | None => ut
  end.

(** The envelope a text message becomes, with the counters after making it. *)
Definition ws_message (opt : Options) (m : Manager) (data : list byte) (ut : nat * nat)
  : outcome (option Envelope * (nat * nat)) :=
  match DecodeMessage m data zero_envelope (OptMaxFrameSize opt) with
  | Panic q => Panic q
  | Ret (err, env) =>
      if bool_decide (err = None /\ Type_ env <> ""%string) then Ret (Some env, ut)
      else if bool_decide (data = []) then Ret (None, ut)
      else Ret (Some (legacy m (str data) (uuid_of ut.1) (millis (now_ns ut.2))), ((ut.1 + 1)%nat, (ut.2 + 1)%nat))
  end.

Fixpoint ws_handed (D : gmap string HandlerFunc) (opt : Options) (m : Manager)
  (msgs : list (ws_kind * list byte)) (ut : nat * nat) : outcome (list Envelope) :=
  match msgs with
  | [] => Ret []
  | (OtherMessage, _) :: msgs' => ws_handed D opt m msgs' ut
  | (TextMessage, data) :: msgs' =>
      match ws_message opt m data ut with
      | Panic q => Panic q
      | Ret (None, ut') => ws_handed D opt m msgs' ut'
      | Ret (Some e, ut') =>
          match ws_handed D opt m msgs' (advance D e ut') with
          | Ret l => Ret (e :: l)
          | Panic q => Panic q
          end
      end
  end.

(** ** The state of a connection *)

(** An open WebSocket session at [a] with context [c] at [sc], the messages
    [msgs] still to come, handlers [D] and counters [ut]. *)
Record ws_open (w : GW session) (a sc : addr) (c : SessionContext) (b : Base) (m : Manager)
  (msgs : list (ws_kind * list byte)) (D : gmap string HandlerFunc) (ut : nat * nat)
  (sm : SessionManager) : Prop := {
  wo_ctx : ctxs w !! sc = Some c;
  wo_addr : sess c = a;
  wo_open : sc_closed c = false /\ sc_closeOnce c = false;
  wo_sess : exists s, sessions w !! a = Some (SWs s) /\ w_base s = b /\ w_manager s = m /\
    ws_in (w_conn s) = msgs /\ w_closeChan s = false;
  wo_disp : disp w = D;
  wo_ticks : (n_uuid w, n_now w) = ut;
  wo_manager : sessionManager w = sm;
}.

(** The session is closed and out of the manager, its context marked. *)
Record ws_gone (w : GW session) (a sc : addr) (c : SessionContext) (sm : SessionManager) : Prop := {
  wg_ctx : ctxs w !! sc = Some (closed_ctx c);
  wg_sess : exists s, sessions w !! a = Some (SWs s) /\ w_closeChan s = true /\ closeOnce (w_base s) = true;
  wg_manager : sessionManager w = Remove (Id c) sm;
}.

Lemma ws_open_store w a sc c b m msgs D ut sm s :
  ws_open w a sc c b m msgs D ut sm -> w_base s = b -> w_manager s = m -> w_closeChan s = false ->
  ws_open (set_sessions <[a := SWs s]> w) a sc c b m (ws_in (w_conn s)) D ut sm.
Proof. intros [H1 H2 H3 H4 H5 H6 H7] Hb Hm Hch. split; try done. exists s. simpl. by rewrite lookup_insert_eq. Qed.

Lemma ws_open_tick w a sc c b m msgs D ut sm u t : ws_open w a sc c b m msgs D ut sm ->
  ws_open (tick u t w) a sc c b m msgs D ((ut.1 + u)%nat, (ut.2 + t)%nat) sm.
Proof. intros [H1 H2 H3 H4 H5 H6 H7]. subst ut. by split. Qed.

Lemma deref_ws_eval w a s : sessions w !! a = Some (SWs s) -> deref_ws a w = (Ret s, w).
Proof. intros Hs. unfold deref_ws, deref_sess. unfold_go. by rewrite Hs. Qed.

Lemma ws_Send_keeps e s :
  let s' := (ws_SendEnvelope e s).2 in
  w_base s' = w_base s /\ w_manager s' = w_manager s /\ ws_in (w_conn s') = ws_in (w_conn s) /\
  w_closeChan s' = w_closeChan s.
Proof.
  unfold ws_SendEnvelope. destruct (State _); [|done]. destruct (EncodeMessage _ _) as [b|err]; [|done].
  by destruct (ws_fail _).
Qed.

(** Dispatching a message keeps the connection as it is, but for what a pong
    uses up. *)
Lemma ws_OnEnvelope w a sc c b m msgs D ut sm e : ws_open w a sc c b m msgs D ut sm ->
  exists w', OnEnvelope sc e w = (Ret tt, w') /\ ws_open w' a sc c b m msgs D (advance D e ut) sm.
Proof.
  intros Hat. pose proof Hat as [Hc Ha [Ho _] (s & Hs & Hb & Hm & Hin & Hch) Hd _ _].
  unfold OnEnvelope, Dispatch, advance. unfold_go. rewrite Hd. destruct (D !! Type_ e) as [[]|]; [|by eauto].
  cbn [run_handler]. rewrite (ping_handler_eval sc c (SWs s)) by (rewrite ?Ha; done).
  eexists. split; [reflexivity|]. rewrite Ha. cbn [SendEnvelope session_Session].
  destruct (ws_Send_keeps (pong_for e w) s) as (K1 & K2 & K3 & K4).
  destruct (ws_SendEnvelope (pong_for e w) s) as [r s'] eqn:Es; cbn [snd] in *.
  rewrite <- Hin, <- K3. apply (ws_open_store _ _ _ _ _ _ msgs); try congruence. by apply ws_open_tick.
Qed.

(** ** One iteration, the loop, its end *)

Lemma legacy_cons m ch text mid ts :
  (if bool_decide (ch = "/"%char) then CreateCommandMessage (GetMessageFactory m) (String ch text) mid ts
   else CreateTextMessage (GetMessageFactory m) (String ch text) mid ts) = legacy m (String ch text) mid ts.
Proof.
  unfold legacy. destruct (bool_decide_reflect (ch = "/"%char)) as [->|Hn]; [done|].
  destruct ch as [[] [] [] [] [] [] [] []]; try done; by destruct Hn.
Qed.

Lemma ws_legacy w a sc c b m msgs D ut sm data : ws_open w a sc c b m msgs D ut sm -> data <> [] ->
  let e := legacy m (str data) (uuid_of ut.1) (millis (now_ns ut.2)) in
  exists w', handleLegacyTextMessage m sc (str data) w = (Ret [e], w') /\
    ws_open w' a sc c b m msgs D (advance D e ((ut.1 + 1)%nat, (ut.2 + 1)%nat)) sm.
Proof.
  intros Hat Hne e. destruct data as [|ch data]; [done|]. cbn [string_of_list_ascii] in *.
  unfold handleLegacyTextMessage, new_uuid, now_milli, time_now. unfold_go. cbn [n_now n_uuid tick].
  rewrite Nat.add_0_r, legacy_cons. pose proof (wo_ticks _ _ _ _ _ _ _ _ _ _ Hat) as Hut.
  replace (n_uuid w) with ut.1 by (by rewrite <- Hut). replace (n_now w) with ut.2 by (by rewrite <- Hut).
  fold e. pose proof (ws_open_tick _ _ _ _ _ _ _ _ _ _ 0 1 (ws_open_tick _ _ _ _ _ _ _ _ _ _ 1 0 Hat)) as Hat2.
  cbn [fst snd] in Hat2. rewrite !Nat.add_0_r in Hat2.
  destruct (ws_OnEnvelope _ _ _ _ _ _ _ _ _ _ e Hat2) as (w' & -> & Hat'). by exists w'.
Qed.

Lemma ws_iter_message opt w a sc c b m data msgs D ut sm :
  ws_open w a sc c b m ((TextMessage, data) :: msgs) D ut sm ->
  exists w', match ws_message opt m data ut with
  | Panic q => ws_iter opt a sc w = (Panic q, w') /\ ws_open w' a sc c b m msgs D ut sm
  | Ret (None, ut') => ws_iter opt a sc w = (Ret (true, []), w') /\ ws_open w' a sc c b m msgs D ut' sm
  | Ret (Some e, ut') =>
      ws_iter opt a sc w = (Ret (true, [e]), w') /\ ws_open w' a sc c b m msgs D (advance D e ut') sm
  end.
Proof.
  intros Hat. destruct (wo_sess _ _ _ _ _ _ _ _ _ _ Hat) as (s & Hs & Hb & Hm & Hin & Hch).
  unfold ws_iter, store_ws, store_sess, ws_message. unfold_go. rewrite (deref_ws_eval _ _ s) by done.
  rewrite Hin, Hm. unfold_go. set (s1 := mkWs _ _ _ _). set (w1 := set_sessions _ w).
  assert (Hat1 : ws_open w1 a sc c b m msgs D ut sm) by (by apply (ws_open_store _ _ _ _ _ _ _ _ _ _ s1 Hat)).
  assert (Hleg : exists w', if bool_decide (data = [])
    then handleLegacyTextMessage m sc (str data) w1 = (Ret [], w') /\ ws_open w' a sc c b m msgs D ut sm
    else let e := legacy m (str data) (uuid_of ut.1) (millis (now_ns ut.2)) in
      handleLegacyTextMessage m sc (str data) w1 = (Ret [e], w') /\
      ws_open w' a sc c b m msgs D (advance D e ((ut.1 + 1)%nat, (ut.2 + 1)%nat)) sm).
  { destruct (bool_decide_reflect (data = [])) as [->|Hne]; [by exists w1|].
    by apply ws_legacy. }
  destruct Hleg as [wl Hleg].
  destruct (DecodeMessage m data zero_envelope (OptMaxFrameSize opt)) as [[[err|] env]|q]; [| |by eauto].
  - exists wl. rewrite (bool_decide_false (_ /\ _)) by naive_solver.
    destruct (bool_decide (data = [])); destruct Hleg as [-> ?]; done.
  - destruct (bool_decide_reflect (Type_ env = ""%string)) as [Ht|Ht].
    + exists wl. rewrite (bool_decide_false (_ /\ _)) by naive_solver.
      destruct (bool_decide (data = [])); destruct Hleg as [-> ?]; done.
    + rewrite bool_decide_true by done.
      destruct (ws_OnEnvelope _ _ _ _ _ _ _ _ _ _ env Hat1) as (w2 & -> & Hat2). by exists w2.
Qed.

Lemma ws_loop_spec opt fuel w a sc c b m msgs D ut sm :
  ws_open w a sc c b m msgs D ut sm -> (length msgs < fuel)%nat ->
  exists w' msgs' ut', ws_open w' a sc c b m msgs' D ut' sm /\
    ws_loop opt fuel a sc w =
      (match ws_handed D opt m msgs ut with Ret l => Ret (true, l) | Panic q => Panic q end, w').
Proof.
  revert w msgs ut. induction fuel as [|f IH]; intros w msgs ut Hat Hf; [lia|]. cbn [ws_loop ws_handed].
  unfold mbind at 1, GoM_bind at 1. destruct msgs as [|[mt data] msgs]; cbn [ws_handed length] in *.
  { exists w, [], ut. split; [done|]. destruct (wo_sess _ _ _ _ _ _ _ _ _ _ Hat) as (s & Hs & _ & _ & Hin & _).
    unfold ws_iter. unfold mbind at 1, GoM_bind at 1. rewrite (deref_ws_eval _ _ s) by done. by rewrite Hin. }
  destruct mt.
  - destruct (ws_iter_message opt w a sc c b m data msgs D ut sm Hat) as [w1 Hit].
    destruct (ws_message opt m data ut) as [[[e|] ut']|q]; destruct Hit as [-> Hat1]; [| |by eauto 6]; cbn [fst snd].
    + destruct (IH _ _ _ Hat1 ltac:(lia)) as (w2 & ms & ut2 & Hat2 & E2). exists w2, ms, ut2. split; [done|].
      unfold_go. rewrite E2. by destruct (ws_handed D opt m msgs _).
    + destruct (IH _ _ _ Hat1 ltac:(lia)) as (w2 & ms & ut2 & Hat2 & E2). exists w2, ms, ut2. split; [done|].
      unfold_go. rewrite E2. by destruct (ws_handed D opt m msgs _).
  - destruct (wo_sess _ _ _ _ _ _ _ _ _ _ Hat) as (s & Hs & Hb & Hm & Hin & Hch).
    unfold ws_iter, store_ws, store_sess. unfold_go. rewrite (deref_ws_eval _ _ s) by done. rewrite Hin. unfold_go.
    set (s1 := mkWs _ _ _ _). cbn [fst snd].
    pose proof (ws_open_store _ _ _ _ _ _ _ _ _ _ s1 Hat Hb Hm Hch) as Hat1. cbn [s1 w_conn ws_in] in Hat1.
    destruct (IH _ _ _ Hat1 ltac:(simpl; lia)) as (w2 & ms & ut2 & Hat2 & E2). exists w2, ms, ut2. split; [done|].
    unfold_go. rewrite E2. by destruct (ws_handed D opt m msgs _).
Qed.

Lemma ws_end w a sc c b m msgs D ut sm : ws_open w a sc c b m msgs D ut sm -> closeOnce b = false ->
  exists w', (_ ← OnSessionClose sc; ws_close a) w = (Ret tt, w') /\ ws_gone w' a sc c sm.
Proof.
  intros [Hc Ha [Ho Hon] (s & Hs & Hsb & _ & _ & _) _ _ Hsm] Hb. subst a.
  unfold mbind at 1, GoM_bind at 1. rewrite (OnSessionClose_eval sc c (SWs s)) by done.
  unfold ws_close, store_ws, store_sess. cbn [Close session_Session].
  assert (Hcl : exists s1, ws_Close s = (None, s1) /\ w_closeChan s1 = true /\ closeOnce (w_base s1) = true)
    by (unfold ws_Close; rewrite Hsb, Hb; by eexists).
  destruct Hcl as (s1 & -> & Hch & Honce). cbn [snd]. unfold_go.
  rewrite (deref_ws_eval _ (sess c) s1) by (cbn; apply lookup_insert_eq). unfold_go.
  assert (ws_Close s1 = (None, s1)) as -> by (unfold ws_Close; by rewrite Honce).
  eexists. split; [reflexivity|]. split.
  - cbn. apply lookup_insert_eq.
  - exists s1. cbn. by rewrite lookup_insert_eq.
  - cbn. by rewrite Hsm.
Qed.

(** The WebSocket read loop is a function of the messages.
    Over any finite sequence of messages it ends, one iteration per message, and
    hands to the gateway, in order, what each text message stands for (its
    envelope if it decodes to one with a type, legacy text otherwise, nothing if
    it is empty), whatever pongs are sent meanwhile; other messages are skipped.
    In the end, also after a panic of the decoder, the session is closed, its
    context marked and its id removed from the manager. *)
Theorem ws_readLoop_refines_messages opt fuel w a sc c b m msgs D ut sm :
  ws_open w a sc c b m msgs D ut sm -> closeOnce b = false -> (length msgs < fuel)%nat ->
  exists w', ws_gone w' a sc c sm /\
    ws_readLoop opt fuel a sc w =
      (match ws_handed D opt m msgs ut with Ret l => Ret (true, l) | Panic q => Panic q end, w').
Proof.
  intros Hat Hb Hf. destruct (ws_loop_spec opt fuel w a sc c b m msgs D ut sm Hat Hf) as (w1 & ms & ut1 & Hat1 & E1).
  destruct (ws_end _ _ _ _ _ _ _ _ _ _ Hat1 Hb) as (w2 & E2 & Hg). exists w2. split; [done|].
  unfold ws_readLoop. rewrite E1. destruct (ws_handed D opt m msgs ut) as [l|q]; unfold with_defer; by rewrite E2.
Qed.
End ws_loop.

(** ** The theorem at a concrete input: a ping, a binary message, a command as
    text and an empty message. *)
Import GwDemo.

Module WsDemo.
Definition ping : Envelope := CreatePingMessage NewMessageFactory 7 3 "p1" 3.
Definition wire (e : Envelope) : list byte := match JSONCodec_Encode e with inl b => b | inr _ => [] end.
Definition msgs : list (ws_kind * list byte) :=
  [(TextMessage, wire ping); (OtherMessage, bytes "x"); (TextMessage, bytes "/help"); (TextMessage, [])].
Definition ws : wsSession := newWsSession "s1" "peer" (mkWsConn msgs [] None) (manager_of JSONCodec).
Definition opt : Options := mkOptions 256 0 0 0 0 0 None None.
Definition sm : SessionManager := AddContext (Some (0%nat, ctx)) NewSessionManager.
End WsDemo.

Lemma ws_readLoop_refines_messages_witness :
  exists w', ws_gone w' 0%nat 0%nat ctx WsDemo.sm /\
    ws_readLoop WsDemo.opt 5 0%nat 0%nat (world (SWs WsDemo.ws)) =
      (Ret (true, [WsDemo.ping; CreateCommandMessage NewMessageFactory "/help" "id" 2]), w').
Proof.
  destruct (ws_readLoop_refines_messages WsDemo.opt 5 (world (SWs WsDemo.ws)) 0%nat 0%nat ctx
    (NewBase "s1" "peer") (manager_of JSONCodec) WsDemo.msgs {[ MsgPing := PingHandler ]} (0%nat, 0%nat) WsDemo.sm)
    as (w' & Hg & E).
  - split; try reflexivity; [split; reflexivity|]. exists WsDemo.ws. split_and!; reflexivity.
  - reflexivity.
  - vm_compute. lia.
  - exists w'. split; [exact Hg|]. rewrite E. vm_compute. reflexivity.
Defined.
