(* ===== verification/WsKeepalive.v ===== *)
(** * WebSocket keep-alive: [internal/transport/ws.go], [setupHeartbeat]

    A connection is opened with a read deadline; only a pong moves it, and the
    server pings every thirty seconds.  [ReadMessage] of the websocket library
    handles pongs on the way to the next data message and fails for good when
    the deadline has passed.  Frames carry the time at which they are read; the
    result is the sequence of messages the read loop of WsLoop.v gets. *)

From S2P Require Import Prelude Json Envelope Codec Factory Conn Frame Session Gateway Servers WsLoop.
From Stdlib Require Import Sorting.Sorted.

Local Open Scope Z_scope.

Inductive ws_frame := FPong | FData (mt : ws_kind) (data : list byte).

(** When it is read, what it is. *)
Definition timed := (Z * ws_frame)%type.

(** [SetReadDeadline(time.Now().Add(timeout))], at the start and in the pong
    handler. *)
Definition extend (opt : Options) (now : Z) : Z := now + ws_timeout opt.

(** The messages [ReadMessage] returns under a deadline. *)
Fixpoint ws_reads (opt : Options) (deadline : Z) (fs : list timed) : list (ws_kind * list byte) :=
  match fs with
  | [] => []
  | (t, f) :: fs' =>
      if deadline <=? t then []                       (* i/o timeout *)
      else match f with
           | FPong => ws_reads opt (extend opt t) fs'
           | FData mt data => (mt, data) :: ws_reads opt deadline fs'
           end
  end.

Definition setupHeartbeat (opt : Options) (opened : Z) (fs : list timed) : list (ws_kind * list byte) :=
  ws_reads opt (extend opt opened) fs.

(** The ping goroutine: the case of its [select] that fires, whether it goes on
    and the control frame it writes; a case that is not ready blocks. *)
Inductive ping_case := PTick | PClosed.

Definition ping_text : list byte := bytes "ping".

Definition ping_step (r : ping_case) (s : wsSession) : option (bool * option (list byte)) :=
  match r with
  | PTick => Some (true, Some ping_text)
  | PClosed => if w_closeChan s then Some (false, None) else None
  end.

Definition ping_period : Z := 30 * Second.

(** [handleConnection]: a failed upgrade ends the request; otherwise the session
    is opened, its keep-alive set up and its read loop run. *)
Definition ws_handleConnection `{RtEnv} (opt : Options) (m : Manager) (a sc : addr) (raddr : string)
  (upgrade : option (list timed)) (opened : Z) (fuel : nat) : GoM (GW session) (bool * list Envelope) :=
  match upgrade with
  | None => mret (true, [])
  | Some fs =>
      _ ← ws_accept a sc (mkWsConn (setupHeartbeat opt opened fs) [] None) raddr m;
      ws_readLoop opt fuel a sc
  end.

(** ** Theorems *)

Definition data_of (f : timed) : option (ws_kind * list byte) :=
  match f.2 with FData mt d => Some (mt, d) | FPong => None end.

(** In order of time. *)
Definition in_order (fs : list timed) : Prop := StronglySorted (fun f g => f.1 <= g.1) fs.

(** The pong that answers the [k]-th ping of a connection opened at [opened]
    comes within [lag], as long as the connection is watched (until [until]). *)
Definition answered (opened lag until : Z) (fs : list timed) : Prop :=
  forall k, 0 < k -> opened + k * ping_period + lag < until ->
    exists p, (p, FPong) ∈ fs /\ opened + k * ping_period <= p <= opened + k * ping_period + lag.

(** The next answered ping after a pong comes before the deadline. *)
Lemma pong_before_deadline opt opened lag until last seen t rest :
  ping_period + lag < ws_timeout opt -> opened <= last -> t <= until ->
  answered opened lag until (seen ++ rest) ->
  Forall (fun f => f.2 = FPong -> f.1 <= last) seen -> Forall (fun f => t <= f.1) rest ->
  t < extend opt last.
Proof.
  intros Ht Ho Hu Ha Hseen Hrest. apply Z.nle_gt. intros Hge. unfold extend in Hge.
  set (k := (last - opened) / ping_period + 1).
  assert (Hp : 0 < ping_period) by done.
  pose proof (Z.div_mod (last - opened) ping_period ltac:(lia)) as Hdm.
  pose proof (Z.mod_pos_bound (last - opened) ping_period Hp) as Hmb.
  pose proof (Z.div_pos (last - opened) ping_period ltac:(lia) Hp) as Hd0.
  assert (Hk : last < opened + k * ping_period <= last + ping_period) by (unfold k; nia).
  destruct (Ha k ltac:(unfold k; lia) ltac:(lia)) as (p & Hin & Hp1 & Hp2).
  apply elem_of_app in Hin as [Hin|Hin].
  - rewrite Forall_forall in Hseen. specialize (Hseen _ Hin eq_refl). simpl in Hseen. lia.
  - rewrite Forall_forall in Hrest. specialize (Hrest _ Hin). simpl in Hrest. lia.
Qed.

Lemma ws_reads_all opt opened lag until seen last fs :
  ping_period + lag < ws_timeout opt -> opened <= last ->
  in_order fs -> answered opened lag until (seen ++ fs) ->
  Forall (fun f => f.2 = FPong -> f.1 <= last) seen -> Forall (fun f => last <= f.1 <= until) fs ->
  ws_reads opt (extend opt last) fs = omap data_of fs.
Proof.
  intros Ht. revert seen last. induction fs as [|[t f] fs IH]; intros seen last Ho Hs Ha Hseen Hfs; [done|].
  apply StronglySorted_inv in Hs as [Hs Hge]. apply Forall_cons in Hfs as [[Hlt Htu] Hfs]. simpl in Hlt, Htu.
  assert (Hdl : t < extend opt last).
  { eapply (pong_before_deadline opt opened lag until last seen t ((t, f) :: fs)); try done.
    constructor; [simpl; lia|]. eapply Forall_impl; [exact Hge|done]. }
  cbn [ws_reads]. rewrite (proj2 (Z.leb_gt _ _)) by done.
  assert (Ha' : answered opened lag until ((seen ++ [(t, f)]) ++ fs)) by (by rewrite <- app_assoc).
  destruct f as [|mt d]; cbn [omap list_omap data_of snd].
  - apply (IH (seen ++ [(t, FPong)])); try done; [lia| |].
    + apply Forall_app. split; [|by repeat constructor]. eapply Forall_impl; [exact Hseen|]. simpl. intros g Hg Hgp.
      specialize (Hg Hgp). lia.
    + rewrite Forall_forall in Hge, Hfs |- *. intros g Hg. specialize (Hge g Hg). specialize (Hfs g Hg). simpl in *. lia.
  - f_equal. apply (IH (seen ++ [(t, FData mt d)])); try done. apply Forall_app. split; [done|]. by repeat constructor.
Qed.

(** C22 (liveness): a peer that answers pings is never timed out.  If every ping
    is answered within [lag] and the timeout leaves room for one period and the
    lag, the read loop gets every data message of the connection, in order, for
    as long as the connection lasts. *)
Theorem keepalive_sustains opt opened lag until fs :
  ping_period + lag < ws_timeout opt -> in_order fs -> answered opened lag until fs ->
  Forall (fun f => opened <= f.1 <= until) fs ->
  setupHeartbeat opt opened fs = omap data_of fs.
Proof. intros Ht Hs Ha Hfs. apply (ws_reads_all opt opened lag until [] opened); try done. Qed.

Lemma ws_reads_no_pong opt deadline fs : in_order fs ->
  Forall (fun f => f.2 = FPong -> deadline <= f.1) fs ->
  ws_reads opt deadline fs = omap data_of (filter (fun f => f.1 < deadline) fs).
Proof.
  intros Hs Hp. induction fs as [|[t f] fs IH]; [done|].
  apply StronglySorted_inv in Hs as [Hs Hge]. apply Forall_cons in Hp as [Hp Hps]. cbn [ws_reads]. rewrite filter_cons. simpl in Hp.
  destruct (Z.leb_spec deadline t) as [Hd|Hd]; destruct (decide _) as [Hd'|Hd']; simpl in Hd'; try lia.
  - rewrite filter_none; [done|]. rewrite Forall_forall in Hge |- *. intros g Hg. specialize (Hge g Hg). simpl in *. lia.
  - destruct f as [|mt d]; [specialize (Hp eq_refl); lia|]. cbn [omap list_omap data_of snd]. f_equal. by apply IH.
Qed.

(** C35 (bounds): a short read timeout drops every connection.  When the
    configured read timeout is below the ping period, a peer that sends pongs
    only in answer to pings is cut off when the first timeout is over, however
    busy it is: data messages do not extend the deadline, so the read loop gets
    those of the first seconds and none of the later ones. *)
Theorem short_timeout_drops opt opened fs :
  0 < ReadTimeout opt < ping_period -> in_order fs ->
  Forall (fun f => f.2 = FPong -> opened + ping_period <= f.1) fs ->
  setupHeartbeat opt opened fs = omap data_of (filter (fun f => f.1 < opened + ReadTimeout opt) fs).
Proof.
  intros Ht Hs Hp. unfold setupHeartbeat, extend, ws_timeout. rewrite (proj2 (Z.ltb_lt _ _)) by lia.
  apply ws_reads_no_pong; [done|]. eapply Forall_impl; [exact Hp|]. intros f Hf Hfp. specialize (Hf Hfp). lia.
Qed.

(** C20 (refinement): a WebSocket connection from upgrade to close.  On fresh
    addresses the handler opens the session, hands to the gateway exactly what
    the messages read under the keep-alive deadline stand for, and ends, also
    after a panic of the decoder, with the session closed (its channel too), its
    context marked closed and its id out of the manager; a failed upgrade changes
    nothing. *)
Theorem ws_connection_refines `{RtEnv} opt m a sc raddr fs opened fuel w :
  (length fs < fuel)%nat ->
  let i := uuid_of (n_uuid w) in
  let msgs := setupHeartbeat opt opened fs in
  let D := if initOnce w then disp w else <[MsgPing := PingHandler]> (disp w) in
  ws_handleConnection opt m a sc raddr None opened fuel w = (Ret (true, []), w) /\
  exists w', GetSession i w' = None /\
    (exists s, sessions w' !! a = Some (SWs s) /\ w_closeChan s = true /\ closeOnce (w_base s) = true) /\
    (exists c, ctxs w' !! sc = Some c /\ sess c = a /\ sc_closed c = true) /\
    ws_handleConnection opt m a sc raddr (Some fs) opened fuel w =
      (match ws_handed D opt m msgs ((n_uuid w + 2)%nat, (n_now w + 1)%nat) with
       | Ret l => Ret (true, l) | Panic q => Panic q end, w').
Proof.
  intros Hf i msgs D. split; [done|]. unfold ws_handleConnection. fold msgs.
  assert (Hlen : (length msgs <= length fs)%nat).
  { unfold msgs, setupHeartbeat. generalize (extend opt opened). clear. induction fs as [|[t f] fs IH]; intros d; [done|].
    cbn [ws_reads]. destruct (d <=? t); [simpl; lia|]. destruct f; simpl; specialize (IH d) as H1; [|lia].
    etrans; [apply IH|lia]. }
  unfold mbind at 1, GoM_bind at 1.
  assert (Ha : exists w1, ws_accept a sc (mkWsConn msgs [] None) raddr m w = (Ret tt, w1) /\
    ws_open w1 a sc (mkSC i raddr a false false) (NewBase i raddr) m msgs D ((n_uuid w + 2)%nat, (n_now w + 1)%nat)
      (AddContext (Some (sc, mkSC i raddr a false false)) (sessionManager w))).
  { unfold ws_accept, new_uuid, store_sess, store_ctx. unfold_go.
    set (s := newWsSession i raddr (mkWsConn msgs [] None) m). set (c := mkSC i raddr a false false).
    set (w0 := set_ctxs <[sc := c]> (set_sessions <[a := SWs s]> (tick 1 0 w))).
    rewrite (OnSessionOpen_eval sc c (SWs s) w0) by (cbn; rewrite ?lookup_insert_eq; done).
    eexists. split; [reflexivity|]. set (e := welcome_for w0).
    destruct (ws_Send_keeps e s) as (K1 & K2 & K3 & K4). split; try done.
    - cbn. apply lookup_insert_eq.
    - exists (ws_SendEnvelope e s).2. cbn [sessions sess c SendEnvelope session_Session]. rewrite lookup_insert_eq.
      rewrite K1, K2, K3, K4. split_and!; try done. by destruct (ws_SendEnvelope e s).
    - cbn. f_equal; lia. }
  destruct Ha as (w1 & -> & Hat).
  destruct (ws_loop_spec opt fuel w1 _ _ _ _ _ _ _ _ _ Hat ltac:(lia)) as (w2 & ms & ut & Hat2 & E2).
  destruct (ws_end _ _ _ _ _ _ _ _ _ _ Hat2 eq_refl) as (w3 & E3 & [Hc Hs Hm]). exists w3. split_and!.
  - unfold GetSession, Get. rewrite Hm. cbn. apply lookup_delete_eq.
  - exact Hs.
  - eexists. split; [exact Hc|]. split; reflexivity.
  - unfold ws_readLoop. rewrite E2. destruct (ws_handed D opt m msgs _) as [l|q]; unfold with_defer; by rewrite E3.
Qed.

(** ** The theorems at concrete inputs: a chat text at ten seconds and one at
    forty, with the first ping answered after one second. *)
Import GwDemo.

Module KeepDemo.
Definition opt (seconds : Z) : Options := mkOptions 256 (seconds * Second) 0 0 0 0 None None.
Definition text (s : string) : ws_frame := FData TextMessage (bytes s).
Definition fs : list timed := [(10 * Second, text "a"); (31 * Second, FPong); (40 * Second, text "b")].

Lemma fs_in_order : in_order fs.
Proof.
  unfold in_order, fs. repeat first [apply SSorted_cons|apply SSorted_nil|apply Forall_cons_2|apply Forall_nil_2];
    vm_compute; discriminate.
Qed.
End KeepDemo.

Lemma keepalive_sustains_witness :
  setupHeartbeat (KeepDemo.opt 40) 0 KeepDemo.fs = [(TextMessage, bytes "a"); (TextMessage, bytes "b")].
Proof.
  rewrite (keepalive_sustains (KeepDemo.opt 40) 0 (2 * Second) (40 * Second) KeepDemo.fs).
  - reflexivity.
  - vm_compute. reflexivity.
  - exact KeepDemo.fs_in_order.
  - intros k Hk Hl. exists (31 * Second). assert (k = 1) as -> by (unfold ping_period, Second in *; lia).
    split; [right; left|vm_compute; split; discriminate].
  - repeat first [apply Forall_cons_2|apply Forall_nil_2]; vm_compute; split; discriminate.
Defined.

Lemma short_timeout_drops_witness :
  setupHeartbeat (KeepDemo.opt 15) 0 KeepDemo.fs = [(TextMessage, bytes "a")].
Proof.
  rewrite (short_timeout_drops (KeepDemo.opt 15) 0 KeepDemo.fs).
  - vm_compute. reflexivity.
  - vm_compute. split; reflexivity.
  - exact KeepDemo.fs_in_order.
  - apply Forall_cons_2; [discriminate|]. apply Forall_cons_2; [intros _; vm_compute; discriminate|].
    apply Forall_cons_2; [discriminate|]. apply Forall_nil_2.
Defined.

Lemma ws_connection_refines_witness :
  exists w', GetSession "id" w' = None /\ (exists s, sessions w' !! 0%nat = Some (SWs s) /\ w_closeChan s = true) /\
    ws_handleConnection (KeepDemo.opt 15) (manager_of JSONCodec) 0%nat 1%nat "peer" (Some KeepDemo.fs) 0 4 NewSimpleGateway =
      (Ret (true, [CreateTextMessage NewMessageFactory "a" "id" 1]), w').
Proof.
  destruct (ws_connection_refines (KeepDemo.opt 15) (manager_of JSONCodec) 0%nat 1%nat "peer" KeepDemo.fs 0 4 NewSimpleGateway)
    as (_ & w' & Hg & (s & Hs & Hch & _) & _ & E).
  - vm_compute. lia.
  - exists w'. split; [exact Hg|]. split; [exists s; split; [exact Hs|exact Hch]|]. rewrite E. vm_compute. reflexivity.
Defined.
