(* ===== verification/Lifecycle.v ===== *)
(** * The TCP server as a whole: [internal/transport/tcp.go] under concurrency

    [Start] accepts connections; each gets a session, a context and three
    goroutines: the read loop, the lifecycle watcher and the heartbeat watcher.
    [server_step] runs one operation of one goroutine at a time, in any order,
    for any number of connections, with the operations of Servers.v and
    Gateway.v.  The invariant relates the session manager and every session to
    the program points of the goroutines. *)

From S2P Require Import Prelude Json Envelope Codec Factory Conn Frame Session Gateway Servers.

Local Open Scope Z_scope.

(** ** Goroutines *)

(** The read loop: reading, then the two deferred calls. *)
Inductive reader := RReading | ROnClose | RClose | RDone.

(** The lifecycle watcher, and the case of its [select] that ended it. *)
Inductive watcher := WWaiting | WEnded (by_case : watch).

(** The heartbeat watcher. *)
Inductive beater := BTicking | BDone.

#[export] Instance reader_eq_dec : EqDecision reader.
Proof. solve_decision. Defined.
#[export] Instance watch_eq_dec : EqDecision watch.
Proof. solve_decision. Defined.
#[export] Instance watcher_eq_dec : EqDecision watcher.
Proof. solve_decision. Defined.

(** One connection: its session, its context, its id, its goroutines. *)
Record task := mkTask {
  tk_sess : addr;
  tk_ctx : addr;
  tk_id : string;
  tk_reader : reader;
  tk_watcher : watcher;
  tk_beater : beater;
}.

Definition set_reader (r : reader) (t : task) : task :=
  mkTask (tk_sess t) (tk_ctx t) (tk_id t) r (tk_watcher t) (tk_beater t).
Definition set_watcher (x : watcher) (t : task) : task :=
  mkTask (tk_sess t) (tk_ctx t) (tk_id t) (tk_reader t) x (tk_beater t).
Definition set_beater (x : beater) (t : task) : task :=
  mkTask (tk_sess t) (tk_ctx t) (tk_id t) (tk_reader t) (tk_watcher t) x.

(** How often [OnSessionClose] has run for the connection. *)
Definition closes (t : task) : nat :=
  (if bool_decide (tk_reader t = RClose \/ tk_reader t = RDone) then 1 else 0) +
  (if bool_decide (tk_watcher t = WEnded CloseChan) then 1 else 0).

(** The program has closed the session. *)
Definition shut (t : task) : bool := bool_decide (closes t <> O \/ tk_watcher t = WEnded CtxDone).

Section lifecycle.
Context `{RtEnv}.
Context (opt : Options) (m : Manager).

Record server := mkServer {
  gw : GW session;
  conns : list task;
  ctx_done : bool;                 (** the context is cancelled *)
  listening : bool;                (** [Start] has not returned *)
}.

(** What [ln.Accept] returns. *)
Inductive accept_result := AConn (cn : conn) (raddr : string) | AErr.

(** One iteration of the accept loop of [Start]: whether it goes on, and the
    connection it starts, its objects at fresh addresses.  [handleConnection]
    runs in a goroutine of its own up to its read loop. *)
Definition start_iter (a sc : addr) (ctx_err : bool) (r : accept_result) (g : GW session)
  : bool * option task * GW session :=
  match r with
  | AErr => (negb ctx_err, None, g)
  | AConn cn raddr =>
      let g' := (tcp_accept a sc cn raddr m g).2 in
      (true, Some (mkTask a sc (uuid_of (n_uuid g)) RReading WWaiting BTicking), g')
  end.

Inductive server_step : relation server :=
| sv_cancel g ts d l :
    server_step (mkServer g ts d l) (mkServer g ts true l)
| sv_accept g ts d a sc r go ot g' :
    sessions g !! a = None -> ctxs g !! sc = None -> start_iter a sc d r g = (go, ot, g') ->
    server_step (mkServer g ts d true) (mkServer g' (ts ++ option_list ot) d go)
| sv_read g ts d l j t pick go es g' :
    ts !! j = Some t -> tk_reader t = RReading ->
    tcp_iter opt pick (tk_sess t) (tk_ctx t) g = (Ret (go, es), g') ->
    server_step (mkServer g ts d l)
      (mkServer g' (<[j := set_reader (if go then RReading else ROnClose) t]> ts) d l)
| sv_on_close g ts d l j t g' :
    ts !! j = Some t -> tk_reader t = ROnClose -> OnSessionClose (tk_ctx t) g = (Ret tt, g') ->
    server_step (mkServer g ts d l) (mkServer g' (<[j := set_reader RClose t]> ts) d l)
| sv_close g ts d l j t g' :
    ts !! j = Some t -> tk_reader t = RClose -> tcp_close (tk_sess t) g = (Ret tt, g') ->
    server_step (mkServer g ts d l) (mkServer g' (<[j := set_reader RDone t]> ts) d l)
| sv_watch g ts d l j t r g' :
    ts !! j = Some t -> tk_watcher t = WWaiting -> (r = CtxDone -> d = true) ->
    lifecycleWatcher r (tk_sess t) (tk_ctx t) g = (Ret true, g') ->
    server_step (mkServer g ts d l) (mkServer g' (<[j := set_watcher (WEnded r) t]> ts) d l)
| sv_tick g ts d l j t go g' :
    ts !! j = Some t -> tk_beater t = BTicking -> heartbeat_tick opt (tk_sess t) g = (Ret go, g') ->
    server_step (mkServer g ts d l)
      (mkServer g' (<[j := set_beater (if go then BTicking else BDone) t]> ts) d l)
| sv_send g ts d l j t e r g' :
    ts !! j = Some t -> sc_Send (tk_ctx t) e g = (Ret r, g') ->
    server_step (mkServer g ts d l) (mkServer g' ts d l).

(** A server that has just started. *)
Definition new_server : server := mkServer NewSimpleGateway [] false true.

(** ** What the operations of a connection leave alone *)

(** [g'] differs from [g] at most in the session at [a], the context at [sc] and
    the manager's entry for [i]. *)
Record framed (a sc : addr) (i : string) (g g' : GW session) : Prop := {
  fr_sess x : x <> a -> sessions g' !! x = sessions g !! x;
  fr_ctx x : x <> sc -> ctxs g' !! x = ctxs g !! x;
  fr_map k : k <> i -> smap (sessionManager g') !! k = smap (sessionManager g) !! k;
  fr_uuid : (n_uuid g <= n_uuid g')%nat;
}.

(** The TCP session at [a] after an operation that does not close it: nothing is
    read from a closed connection. *)
Definition kept (s s' : tcpSession) : Prop :=
  t_base s' = t_base s /\ t_closeChan s' = t_closeChan s /\
  (pending (t_conn s) = [] -> pending (t_conn s') = []).

Lemma kept_refl s : kept s s.
Proof. done. Qed.

Lemma kept_trans s1 s2 s3 : kept s1 s2 -> kept s2 s3 -> kept s1 s3.
Proof. intros (A1 & A2 & A3) (B1 & B2 & B3). split_and!; [congruence|congruence|auto]. Qed.

(** An operation on an open or closed connection that closes nothing. *)
Record mild (a : addr) (s : tcpSession) (g g' : GW session) : Prop := {
  mi_sess : exists s', sessions g' = <[a := STcp s']> (sessions g) /\ kept s s';
  mi_ctx : ctxs g' = ctxs g;
  mi_manager : sessionManager g' = sessionManager g;
  mi_uuid : (n_uuid g <= n_uuid g')%nat;
}.

Lemma mild_refl a s g : sessions g !! a = Some (STcp s) -> mild a s g g.
Proof. intros Hs. split; try done. exists s. split; [by rewrite insert_id|apply kept_refl]. Qed.

Lemma mild_store a s s' u k g : kept s s' -> mild a s g (set_sessions <[a := STcp s']> (tick u k g)).
Proof. intros Hk. split; try done; [by exists s'|simpl; lia]. Qed.

Lemma mild_set a s s' g : kept s s' -> mild a s g (set_sessions <[a := STcp s']> g).
Proof. intros Hk. split; try done. by exists s'. Qed.

Lemma mild_tick a s u k g : sessions g !! a = Some (STcp s) -> mild a s g (tick u k g).
Proof. intros Hs. split; try done; [|simpl; lia]. exists s. split; [by rewrite insert_id|apply kept_refl]. Qed.

Lemma tcp_close_eval a s g : sessions g !! a = Some (STcp s) ->
  tcp_close a g = (Ret tt, set_sessions <[a := STcp (tcp_Close s).2]> (tick 0 0 g)).
Proof.
  intros Hs. unfold tcp_close, store_tcp, store_sess. unfold_go. rewrite (deref_tcp_eval _ a s) by done.
  f_equal. destruct g. unfold set_sessions, tick. simpl. by rewrite !Nat.add_0_r.
Qed.

Lemma mild_trans a s g1 s2 g2 g3 :
  mild a s g1 g2 -> sessions g2 !! a = Some (STcp s2) -> mild a s2 g2 g3 -> mild a s g1 g3.
Proof.
  intros [(s1 & E1 & K1) C1 M1 U1] H2 [(s3 & E3 & K3) C3 M3 U3]. rewrite E1, lookup_insert_eq in H2. simplify_eq.
  split; [|congruence|congruence|lia]. exists s3. rewrite E3, E1, insert_insert_eq. split; [done|by eapply kept_trans].
Qed.

Lemma mild_frame a sc i s g g' : mild a s g g' -> framed a sc i g g'.
Proof.
  intros [(s' & E & _) C M U]. split; [|by rewrite C|by rewrite M|done].
  intros x Hx. by rewrite E, lookup_insert_ne.
Qed.

Lemma kept_send e s : kept s (tcp_SendEnvelope e s).2.
Proof. destruct (tcp_Send_undisturbed e s) as [U1 U2 U3 U4 U5]. split_and!; [done|done|]. unfold pending. by rewrite U3. Qed.

Lemma mild_sc_Send a sc c s e g r g' :
  ctxs g !! sc = Some c -> sess c = a -> sessions g !! a = Some (STcp s) -> sc_Send sc e g = (Ret r, g') -> mild a s g g'.
Proof.
  intros Hc Ha Hs E. destruct (sc_closed c) eqn:Hcl.
  - rewrite (sc_Send_closed sc c) in E by done. simplify_eq. by apply mild_refl.
  - rewrite (sc_Send_eval sc c (STcp s)) in E by (rewrite ?Ha; done). rewrite Ha in E. injection E as <- <-.
    split; try done. exists (tcp_SendEnvelope e s).2. split; [|apply kept_send]. cbn [sessions set_sessions SendEnvelope session_Session].
    by destruct (tcp_SendEnvelope e s).
Qed.

Lemma mild_OnEnvelope a sc c s e g r g' :
  ctxs g !! sc = Some c -> sess c = a -> sessions g !! a = Some (STcp s) -> OnEnvelope sc e g = (r, g') -> mild a s g g'.
Proof.
  intros Hc Ha Hs. unfold OnEnvelope, Dispatch. unfold_go. destruct (disp g !! Type_ e) as [[]|]; [|intros [= <- <-]; by apply mild_refl].
  cbn [run_handler]. unfold ping_handler, now_milli, time_now, new_uuid. unfold_go.
  set (p := CreatePongMessage _ _ _ _ _ _). set (g1 := tick 0 1 _).
  destruct (sc_Send sc p g1) as [[x|q] g2] eqn:E; intros [= <- <-].
  - assert (Hm : mild a s g1 g2) by (by eapply mild_sc_Send). destruct Hm as [(s' & E1 & K) C M U].
    split; [by exists s'|done|done|]. simpl in U. lia.
  - exfalso. destruct (sc_closed c) eqn:Hcl.
    + by rewrite (sc_Send_closed sc c) in E.
    + by rewrite (sc_Send_eval sc c (STcp s)) in E by (rewrite ?Ha; done).
Qed.

Lemma tcp_read_kept pick s : exists s' r, tcp_read pick s = (r, s') /\ kept s s' /\
  (pending (t_conn s) = [] -> exists e, r = inr e).
Proof.
  destruct (tcp_read_spec pick s) as (s' & E & Hb & _ & Hch & _ & Hp). exists s'. eexists. split; [exact E|].
  split; [|intros ->; by eexists]. split_and!; [done|done|]. intros Hn. by rewrite Hp, Hn.
Qed.

Lemma arm_deadline_mild a s g ex g' :
  sessions g !! a = Some (STcp s) -> arm_deadline opt a g = (Ret ex, g') ->
  exists s', sessions g' !! a = Some (STcp s') /\ kept s s' /\ mild a s g g'.
Proof.
  intros Hs. unfold arm_deadline. destruct (0 <? ReadTimeout opt); [|intros [= <- <-]; exists s; split_and!; [done|apply kept_refl|by apply mild_refl]].
  unfold time_now, store_tcp, store_sess. unfold_go. rewrite (deref_tcp_eval _ a s) by done. unfold_go. intros [= <- <-].
  eexists. split_and!; [cbn; apply lookup_insert_eq|done|]. by apply (mild_store a s _ 0 1).
Qed.

(** One iteration of the read loop; on a closed connection it is the last one
    and hands nothing over. *)
Lemma tcp_iter_mild pick a sc c s g go es g' :
  ctxs g !! sc = Some c -> sess c = a -> sessions g !! a = Some (STcp s) ->
  tcp_iter opt pick a sc g = (Ret (go, es), g') ->
  mild a s g g' /\ (pending (t_conn s) = [] -> go = false /\ es = []).
Proof.
  intros Hc Ha Hs. unfold tcp_iter. unfold mbind at 1, GoM_bind at 1.
  destruct (arm_deadline opt a g) as [[ex|q] g1] eqn:E1; [|done].
  destruct (arm_deadline_mild a s g ex g1 Hs E1) as (s1 & Hs1 & K1 & M1).
  assert (Hc1 : ctxs g1 !! sc = Some c) by (by rewrite (mi_ctx _ _ _ _ M1)).
  unfold store_tcp, store_sess. unfold_go. rewrite (deref_tcp_eval _ a s1) by done.
  assert (Hr : exists s2 r, (if ex then (inr (ErrIO ErrTimeout), s1) else tcp_read pick s1) = (r, s2) /\ kept s1 s2 /\
    (pending (t_conn s1) = [] -> exists e, r = inr e)).
  { destruct ex; [|apply tcp_read_kept]. eexists _, _. split; [done|]. split; [apply kept_refl|eauto]. }
  destruct Hr as (s2 & r & -> & K2 & Hr2). unfold_go. set (g2 := set_sessions <[a := STcp s2]> g1).
  assert (M2 : mild a s g g2) by (eapply mild_trans; [exact M1|exact Hs1|]; by apply mild_set).
  assert (Hs2 : sessions g2 !! a = Some (STcp s2)) by (cbn; apply lookup_insert_eq).
  assert (Hnil : pending (t_conn s) = [] -> exists e, r = inr e) by (intros Hn; apply Hr2, K1, Hn).
  destruct r as [f|err]; [|intros [= <- <- <-]; done].
  destruct (DecodeMessage _ f zero_envelope _) as [[[err|] env]|q]; [intros [= <- <- <-]| |done].
  { split; [done|]. intros Hn. by destruct (Hnil Hn). }
  unfold time_now. unfold_go. set (s3 := set_active s2 (now_ns (n_now g2))). set (g3 := set_sessions <[a := STcp s3]> (tick 0 1 g2)).
  assert (M3 : mild a s g g3) by (eapply mild_trans; [exact M2|exact Hs2|]; by apply (mild_store a s2 s3 0 1)).
  destruct (bool_decide (Type_ env = MsgHeartbeat)); [intros [= <- <- <-]; split; [done|intros Hn; by destruct (Hnil Hn)]|].
  fold g2. fold s3. fold g3. destruct (OnEnvelope sc env g3) as [[[]|q] g4] eqn:E4; [|done]. intros [= <- <- <-]. split; [|intros Hn; by destruct (Hnil Hn)].
  assert (Hs3 : sessions g3 !! a = Some (STcp s3)) by (cbn; apply lookup_insert_eq).
  eapply mild_trans; [exact M3|exact Hs3|]. eapply mild_OnEnvelope; [|exact Ha|exact Hs3|exact E4].
  by rewrite (mi_ctx _ _ _ _ M3).
Qed.

(** ** The invariant *)

(** A session closes its channel and its connection together. *)
Definition sess_ok (s : tcpSession) : Prop :=
  t_closeChan s = closeOnce (t_base s) /\ (t_closeChan s = true -> pending (t_conn s) = []).

Lemma kept_ok s s' : kept s s' -> sess_ok s -> sess_ok s' /\ t_closeChan s' = t_closeChan s.
Proof.
  intros (K1 & K2 & K3) [S1 S2]. split; [|done]. split; [congruence|]. intros Hc. apply K3, S2. congruence.
Qed.

Lemma tcp_Close_ok s : sess_ok s -> sess_ok (tcp_Close s).2 /\ t_closeChan (tcp_Close s).2 = true.
Proof.
  intros [S1 S2]. unfold tcp_Close. destruct (closeOnce (t_base s)) eqn:E; [|done].
  cbn [snd]. split; [split; [congruence|done]|congruence].
Qed.

(** A connection: its objects are there and agree with its goroutines. *)
Record conn_inv (g : GW session) (t : task) : Prop := {
  ci_ctx : ctxs g !! tk_ctx t =
    Some (mkSC (tk_id t) (default ""%string (ScRemoteAddr <$> ctxs g !! tk_ctx t)) (tk_sess t)
            (negb (bool_decide (closes t = O))) (negb (bool_decide (closes t = O))));
  ci_sess : exists s, sessions g !! tk_sess t = Some (STcp s) /\ sess_ok s /\ (shut t = true -> t_closeChan s = true);
  ci_map : smap (sessionManager g) !! tk_id t = if bool_decide (closes t = O) then Some (tk_ctx t) else None;
  ci_id : exists k, (k < n_uuid g)%nat /\ tk_id t = uuid_of k;
}.

Lemma conn_inv_framed a sc i g g' t : framed a sc i g g' -> conn_inv g t ->
  tk_sess t <> a -> tk_ctx t <> sc -> tk_id t <> i -> conn_inv g' t.
Proof.
  intros [F1 F2 F3 F4] [C S M (k & Hk & Hi)] N1 N2 N3.
  split; [by rewrite !F2|by rewrite F1|by rewrite F3|]. exists k. split; [lia|done].
Qed.

(** The total number of [OnSessionClose] calls. *)
Definition total_closes (ts : list task) : nat := sum_list_with closes ts.

Record server_inv (sv : server) : Prop := {
  si_conns : Forall (conn_inv (gw sv)) (conns sv);
  si_sess : NoDup (tk_sess <$> conns sv);
  si_ctx : NoDup (tk_ctx <$> conns sv);
  si_id : NoDup (tk_id <$> conns sv);
  si_count : Count (sessionManager (gw sv)) =
    wrap64 (Z.of_nat (length (conns sv)) - Z.of_nat (total_closes (conns sv)));
  si_map i a : smap (sessionManager (gw sv)) !! i = Some a -> i ∈ tk_id <$> conns sv;
}.

(** An operation of one connection. *)
Record conn_step (g : GW session) (t : task) (g' : GW session) (t' : task) : Prop := {
  cs_sess : tk_sess t' = tk_sess t;
  cs_ctx : tk_ctx t' = tk_ctx t;
  cs_id : tk_id t' = tk_id t;
  cs_framed : framed (tk_sess t) (tk_ctx t) (tk_id t) g g';
  cs_inv : conn_inv g' t';
  cs_closes : exists d, closes t' = (closes t + d)%nat /\
    Count (sessionManager g') = wrap64 (Count (sessionManager g) - Z.of_nat d);
}.

Lemma total_closes_insert ts j t t' d : ts !! j = Some t -> closes t' = (closes t + d)%nat ->
  total_closes (<[j := t']> ts) = (total_closes ts + d)%nat.
Proof.
  intros Hj Hd. unfold total_closes. revert j Hj. induction ts as [|x ts IH]; intros [|j] Hj; simplify_eq/=; [lia|].
  rewrite (IH j Hj). lia.
Qed.

Lemma NoDup_fmap_ne {A B} (f : A -> B) l i j x y :
  NoDup (f <$> l) -> l !! i = Some x -> l !! j = Some y -> i <> j -> f x <> f y.
Proof.
  intros Hn Hx Hy Hij Hf. apply Hij. eapply (NoDup_lookup _ _ _ (f x) Hn); rewrite list_lookup_fmap, ?Hx, ?Hy; simpl; congruence.
Qed.

Lemma fmap_insert_same {A B} (f : A -> B) (l : list A) j x y : l !! j = Some x -> f y = f x -> f <$> <[j := y]> l = f <$> l.
Proof. intros Hj Hf. rewrite list_fmap_insert, Hf. apply list_insert_id. by rewrite list_lookup_fmap, Hj. Qed.

Lemma conn_step_inv g ts d l j t g' t' d' l' :
  server_inv (mkServer g ts d l) -> ts !! j = Some t -> conn_step g t g' t' ->
  server_inv (mkServer g' (<[j := t']> ts) d' l').
Proof.
  intros [I1 I2 I3 I4 I5 I6] Hj [C1 C2 C3 F CI (k & Hk & Hcnt)]. cbn [gw conns] in *.
  split; cbn [gw conns].
  - apply Forall_lookup. intros i u Hu. apply list_lookup_insert_Some in Hu as [(-> & <- & _)|[Hne Hu]]; [done|].
    eapply conn_inv_framed; [exact F|by eapply Forall_lookup in I1|..]; symmetry; by eapply NoDup_fmap_ne.
  - by rewrite (fmap_insert_same _ _ _ t).
  - by rewrite (fmap_insert_same _ _ _ t).
  - by rewrite (fmap_insert_same _ _ _ t).
  - rewrite length_insert, (total_closes_insert _ _ _ _ _ Hj Hk), Hcnt, I5, wrap64_sub. f_equal. lia.
  - intros i a Hi. rewrite (fmap_insert_same _ _ _ t) by done. destruct (decide (i = tk_id t)) as [->|Hne].
    + apply list_elem_of_fmap. exists t. split; [done|]. by eapply list_elem_of_lookup_2.
    + apply (I6 i a). by rewrite <- (fr_map _ _ _ _ _ F).
Qed.

(** ** Every operation preserves it *)

(** The context of a connection. *)
Lemma conn_ctx g t : conn_inv g t -> exists c, ctxs g !! tk_ctx t = Some c /\ sess c = tk_sess t /\ Id c = tk_id t /\
  sc_closed c = negb (bool_decide (closes t = O)) /\ sc_closeOnce c = negb (bool_decide (closes t = O)).
Proof. intros [C _ _ _]. eexists. split; [exact C|]. done. Qed.

(** Nothing is closed. *)
Lemma conn_step_mild g t s g' t' :
  conn_inv g t -> sessions g !! tk_sess t = Some (STcp s) -> mild (tk_sess t) s g g' ->
  (exists n, Count (sessionManager g) = wrap64 n) ->
  tk_sess t' = tk_sess t -> tk_ctx t' = tk_ctx t -> tk_id t' = tk_id t ->
  closes t' = closes t -> shut t' = shut t -> conn_step g t g' t'.
Proof.
  intros [C (s0 & S0 & Sok & Ssh) M (k & Hk & Hi)] Hs Hm [n Hn] E1 E2 E3 E4 E5. assert (s0 = s) as -> by congruence.
  split; try done; [by eapply mild_frame| |exists O].
  - destruct Hm as [(s' & Hs' & K) Hc Hmg Hu]. destruct (kept_ok s s' K Sok) as [Sok' Hch].
    split; rewrite ?E1, ?E2, ?E3, ?E4, ?E5.
    + by rewrite Hc.
    + exists s'. rewrite Hs', lookup_insert_eq. split_and!; [done|done|]. intros Hsh. rewrite Hch. auto.
    + by rewrite Hmg.
    + exists k. split; [lia|done].
  - split; [lia|]. rewrite (mi_manager _ _ _ _ Hm), Z.sub_0_r, Hn. by rewrite wrap64_idemp.
Qed.

(** The session is closed, the gateway is not told. *)
Lemma conn_step_close g t s u k t' :
  conn_inv g t -> sessions g !! tk_sess t = Some (STcp s) ->
  (exists n, Count (sessionManager g) = wrap64 n) ->
  tk_sess t' = tk_sess t -> tk_ctx t' = tk_ctx t -> tk_id t' = tk_id t -> closes t' = closes t ->
  conn_step g t (set_sessions <[tk_sess t := STcp (tcp_Close s).2]> (tick u k g)) t'.
Proof.
  intros [C (s0 & S0 & Sok & Ssh) M (q & Hq & Hi)] Hs [n Hn] E1 E2 E3 E4. assert (s0 = s) as -> by congruence.
  destruct (tcp_Close_ok s Sok) as [Sok' Hch].
  split; try done; [| |exists O].
  - split; try done; [|simpl; lia]. intros x Hx. cbn. by rewrite lookup_insert_ne.
  - split; rewrite ?E1, ?E2, ?E3, ?E4; cbn; [done| |done|].
    + eexists. rewrite lookup_insert_eq. by split_and!.
    + exists q. split; [lia|done].
  - split; [lia|]. cbn. rewrite Z.sub_0_r. change (count (sessionManager g)) with (Count (sessionManager g)).
    rewrite Hn. by rewrite wrap64_idemp.
Qed.

(** [OnSessionClose] runs. *)
Lemma conn_step_on_close g t g' t' :
  conn_inv g t -> OnSessionClose (tk_ctx t) g = (Ret tt, g') ->
  tk_sess t' = tk_sess t -> tk_ctx t' = tk_ctx t -> tk_id t' = tk_id t -> closes t' = S (closes t) ->
  conn_step g t g' t'.
Proof.
  intros I E E1 E2 E3 E4. destruct (conn_ctx g t I) as (c & Hc & Hsc & Hid & Hcl & Honce).
  destruct I as [C (s & Hs & Sok & Ssh) M (q & Hq & Hi)].
  destruct (bool_decide_reflect (closes t = O)) as [Hz|Hz]; cbn [negb] in *.
  - rewrite (OnSessionClose_eval (tk_ctx t) c (STcp s)) in E by (rewrite ?Hsc; done). injection E as <-. rewrite Hsc, Hid.
    cbn [Close session_Session]. destruct (tcp_Close_ok s Sok) as [Sok' Hch]. destruct (tcp_Close s) as [r s'] eqn:Ecl. cbn [snd] in *.
    split; try done; [| |exists 1%nat].
    + split; cbn; [intros x Hx; by rewrite lookup_insert_ne|intros x Hx; by rewrite lookup_insert_ne|
        intros k Hk; by rewrite lookup_delete_ne|lia].
    + split; rewrite ?E1, ?E2, ?E3, ?E4; cbn -[bool_decide].
      * rewrite lookup_insert_eq. unfold closed_ctx. cbn. by rewrite Hsc, Hid.
      * exists s'. rewrite lookup_insert_eq. by split_and!.
      * apply lookup_delete_eq.
      * exists q. by split.
    + split; [lia|done].
  - rewrite (OnSessionClose_again (tk_ctx t) c) in E by done. injection E as <-. rewrite Hid.
    split; try done; [| |exists 1%nat].
    + split; cbn; [done|done|intros k Hk; by rewrite lookup_delete_ne|lia].
    + split; rewrite ?E1, ?E2, ?E3, ?E4; cbn -[bool_decide].
      * exact C.
      * exists s. split_and!; [done|done|]. intros _. apply Ssh. unfold shut. apply bool_decide_eq_true. by left.
      * apply lookup_delete_eq.
      * exists q. by split.
    + split; [lia|done].
Qed.

Lemma tcp_accept_eval a sc cn raddr g :
  let g' := (tcp_accept a sc cn raddr m g).2 in
  let i := uuid_of (n_uuid g) in
  (exists s, sessions g' = <[a := STcp s]> (sessions g) /\ sess_ok s) /\
  ctxs g' = <[sc := mkSC i raddr a false false]> (ctxs g) /\
  sessionManager g' = mkSM (<[i := sc]> (smap (sessionManager g))) (wrap64 (Count (sessionManager g) + 1)) /\
  (n_uuid g < n_uuid g')%nat.
Proof.
  intros g' i. unfold g', tcp_accept, new_uuid, time_now, store_sess, store_ctx. unfold_go.
  rewrite (OnSessionOpen_eval _ (mkSC i raddr a false false)
    (STcp (newTcpSession i raddr cn m (now_ns (n_now (tick 1 0 g))))))
    by (cbn; by rewrite ?lookup_insert_eq).
  cbn [snd sessions ctxs sessionManager n_uuid set_ctxs set_sessions tick sess]. split_and!; [|done|done|lia].
  set (s := newTcpSession _ _ _ _ _). set (e := welcome_for _).
  exists (tcp_SendEnvelope e s).2. rewrite insert_insert_eq. cbn [SendEnvelope session_Session]. split.
  - by destruct (tcp_SendEnvelope e s).
  - apply (kept_ok s); [apply kept_send|]. by split.
Qed.

Section unique_ids.
(** [uuid.New] never returns the same identifier twice. *)
Context (uuid_unique : forall i j, uuid_of i = uuid_of j -> i = j).

Lemma accept_inv g ts d l a sc cn raddr go t g' :
  server_inv (mkServer g ts d l) -> sessions g !! a = None -> ctxs g !! sc = None ->
  start_iter a sc d (AConn cn raddr) g = (go, Some t, g') -> server_inv (mkServer g' (ts ++ [t]) d go).
Proof.
  intros [I1 I2 I3 I4 I5 I6] Ha Hsc [= <- <- <-]. cbn [gw conns] in *.
  destruct (tcp_accept_eval a sc cn raddr g) as ((s & Es & Sok) & Ec & Em & Hu). set (g' := (tcp_accept _ _ _ _ _ _).2) in *.
  set (i := uuid_of (n_uuid g)) in *. set (t := mkTask _ _ _ _ _ _).
  assert (Hold : Forall (fun u => tk_sess u <> a /\ tk_ctx u <> sc /\ tk_id u <> i) ts).
  { eapply Forall_impl; [exact I1|]. intros u [C (s' & Hs' & _) _ (k & Hk & Hi)]. split_and!; [congruence|congruence|].
    rewrite Hi. intros ?%uuid_unique. lia. }
  assert (F : framed a sc i g g').
  { split; [intros x Hx; by rewrite Es, lookup_insert_ne|intros x Hx; by rewrite Ec, lookup_insert_ne|
      intros x Hx; rewrite Em; cbn; by rewrite lookup_insert_ne|lia]. }
  split; cbn [gw conns].
  - apply Forall_app. split; [|apply Forall_singleton].
    + rewrite Forall_forall in I1, Hold |- *. intros u Hin. destruct (Hold u Hin) as (N1 & N2 & N3).
      eapply conn_inv_framed; [exact F|by apply I1|done..].
    + split; cbn [tk_sess tk_ctx tk_id t].
      * by rewrite Ec, lookup_insert_eq.
      * exists s. rewrite Es, lookup_insert_eq. by split_and!.
      * rewrite Em. cbn -[bool_decide]. by rewrite lookup_insert_eq.
      * exists (n_uuid g). by split.
  - rewrite fmap_app. apply NoDup_app. split_and!; [done| |apply NoDup_singleton].
    intros x (u & -> & Hu')%list_elem_of_fmap. rewrite Forall_forall in Hold. destruct (Hold u Hu') as (N & _). set_solver.
  - rewrite fmap_app. apply NoDup_app. split_and!; [done| |apply NoDup_singleton].
    intros x (u & -> & Hu')%list_elem_of_fmap. rewrite Forall_forall in Hold. destruct (Hold u Hu') as (_ & N & _). set_solver.
  - rewrite fmap_app. apply NoDup_app. split_and!; [done| |apply NoDup_singleton].
    intros x (u & -> & Hu')%list_elem_of_fmap. rewrite Forall_forall in Hold. destruct (Hold u Hu') as (_ & _ & N). set_solver.
  - rewrite Em. unfold Count at 1. cbn [count]. rewrite I5, wrap64_add. f_equal.
    unfold total_closes. rewrite length_app, sum_list_with_app. cbn -[Z.of_nat bool_decide]. rewrite !Nat2Z.inj_add.
    change (closes t) with O. lia.
  - intros k b. rewrite Em. cbn. rewrite fmap_app, elem_of_app. intros [[<- _]|[_ Hk]]%lookup_insert_Some.
    + right. apply list_elem_of_singleton. done.
    + left. by eapply I6.
Qed.

(** The step of a goroutine of connection [j]. *)
Lemma server_step_inv sv sv' : server_inv sv -> server_step sv sv' -> server_inv sv'.
Proof.
  intros I Hstep. destruct Hstep as [g ts d l|g ts d a sc r go ot g' Ha Hsc E|g ts d l j t pick go es g' Hj Hr E|
    g ts d l j t g' Hj Hr E|g ts d l j t g' Hj Hr E|g ts d l j t r g' Hj Hw Hd E|g ts d l j t go g' Hj Hb E|
    g ts d l j t e r g' Hj E].
  all: try (pose proof (Forall_lookup_1 _ _ _ _ (si_conns _ I) Hj) as CI; cbn [gw] in CI;
    pose proof (ex_intro _ _ (si_count _ I) : exists n, Count (sessionManager g) = wrap64 n) as Hn;
    destruct (ci_sess _ _ CI) as (s & Hs & Sok & Ssh);
    destruct (conn_ctx g t CI) as (c & Hc & Hsc & Hid & _)).
  - destruct I; by split.
  - destruct r as [cn raddr|]; [|injection E as <- <- <-; rewrite app_nil_r; destruct I; by split].
    destruct ot as [t|]; [by eapply accept_inv|done].
  - destruct (tcp_iter_mild pick _ _ c s g go es g' Hc Hsc Hs E) as [Hm _].
    eapply conn_step_inv; [exact I|exact Hj|]. eapply conn_step_mild; try done; destruct go; unfold shut, closes; simpl; by rewrite Hr.
  - eapply conn_step_inv; [exact I|exact Hj|]. eapply conn_step_on_close; try done. unfold closes. simpl. by rewrite Hr.
  - rewrite (tcp_close_eval _ s) in E by done. injection E as <-.
    eapply conn_step_inv; [exact I|exact Hj|]. apply conn_step_close; try done. unfold closes. simpl. by rewrite Hr.
  - eapply conn_step_inv; [exact I|exact Hj|]. destruct r; cbn [lifecycleWatcher] in E.
    + revert E. unfold_go. rewrite (tcp_close_eval _ s) by done. intros [= <-].
      apply conn_step_close; try done. unfold closes. simpl. by rewrite Hw.
    + revert E. unfold_go. rewrite (deref_tcp_eval _ _ s) by done. destruct (t_closeChan s) eqn:Ech; [|done].
      destruct (OnSessionClose (tk_ctx t) g) as [[[]|q] g1] eqn:Eo; [|done]. intros [= <-].
      eapply conn_step_on_close; try done. unfold closes. simpl. rewrite Hw. simpl. lia.
  - eapply conn_step_inv; [exact I|exact Hj|]. rewrite (heartbeat_tick_spec opt _ s) in E by done.
    destruct (_ || _); [injection E as <- <-; eapply conn_step_mild; try done; by apply mild_refl|].
    destruct (_ <? _); injection E as <- <-; [by apply conn_step_close|].
    eapply conn_step_mild; try done. by apply mild_tick.
  - rewrite <- (list_insert_id ts j t) by done. eapply conn_step_inv; [exact I|exact Hj|].
    eapply conn_step_mild; try done. by eapply mild_sc_Send.
Qed.

Lemma new_server_inv : server_inv new_server.
Proof. split; cbn; try done; constructor. Qed.

Lemma reachable_inv sv : rtc server_step new_server sv -> server_inv sv.
Proof. apply rtc_invariant; [exact server_step_inv|exact new_server_inv]. Qed.

Lemma total_closes_done ts :
  Forall (fun t => tk_reader t = RDone) ts ->
  total_closes ts = (length ts + length (filter (fun t => tk_watcher t = WEnded CloseChan) ts))%nat.
Proof.
  induction 1 as [|t ts Ht _ IH]; [done|]. unfold total_closes in *. cbn [sum_list_with length]. rewrite IH. unfold closes. rewrite Ht.
  rewrite bool_decide_true by (by right). rewrite filter_cons.
  destruct (decide (tk_watcher t = WEnded CloseChan)); [rewrite bool_decide_true by done|rewrite bool_decide_false by done]; simpl; lia.
Qed.

(** C10 (invariant): sessions are accounted for, whatever the interleaving.  In
    every reachable state of a TCP server with any number of connections, the
    manager holds exactly the connections for which OnSessionClose has not run;
    the counter is the number of connections minus the number of those calls;
    every session the program has closed has its channel and its connection
    closed.  When all goroutines have ended, the manager is empty and the
    counter has gone below zero by one for every watcher that saw its session
    close. *)
Theorem server_sessions_accounted sv :
  rtc server_step new_server sv ->
  (forall i a, GetSession i (gw sv) = Some a <->
     exists t, t ∈ conns sv /\ tk_id t = i /\ tk_ctx t = a /\ closes t = O) /\
  Count (sessionManager (gw sv)) =
    wrap64 (Z.of_nat (length (conns sv)) - Z.of_nat (total_closes (conns sv))) /\
  (forall t, t ∈ conns sv -> shut t = true ->
     exists s, sessions (gw sv) !! tk_sess t = Some (STcp s) /\ t_closeChan s = true /\ pending (t_conn s) = []) /\
  (Forall (fun t => tk_reader t = RDone) (conns sv) ->
     smap (sessionManager (gw sv)) = ∅ /\
     Count (sessionManager (gw sv)) =
       wrap64 (- Z.of_nat (length (filter (fun t => tk_watcher t = WEnded CloseChan) (conns sv))))).
Proof.
  intros Hr. pose proof (reachable_inv sv Hr) as [I1 I2 I3 I4 I5 I6]. rewrite Forall_forall in I1.
  assert (Hget : forall i a, GetSession i (gw sv) = Some a <->
     exists t, t ∈ conns sv /\ tk_id t = i /\ tk_ctx t = a /\ closes t = O).
  { intros i a. unfold GetSession, Get. split.
    - intros Hi. destruct (proj1 (list_elem_of_fmap _ _ _) (I6 i a Hi)) as (t & -> & Hin). exists t.
      rewrite (ci_map _ _ (I1 t Hin)) in Hi. case_bool_decide; simplify_eq. done.
    - intros (t & Hin & <- & <- & Hz). rewrite (ci_map _ _ (I1 t Hin)). by rewrite bool_decide_true. }
  split_and!; [done|done| |].
  - intros t Hin Hsh. destruct (ci_sess _ _ (I1 t Hin)) as (s & Hs & [_ Sok] & Ssh). exists s. auto.
  - intros Hd. split.
    + apply map_empty. intros i. destruct (smap _ !! i) as [a|] eqn:E; [|done]. exfalso.
      destruct (proj1 (Hget i a) E) as (t & Hin & _ & _ & Hz). rewrite Forall_forall in Hd. unfold closes in Hz.
      rewrite (Hd t Hin), bool_decide_true in Hz by (by right). lia.
    + rewrite I5, (total_closes_done _ Hd). f_equal. lia.
Qed.

(** The read loop of a closed connection. *)
Lemma tcp_iter_closed pick a sc s g :
  sessions g !! a = Some (STcp s) -> pending (t_conn s) = [] ->
  exists g', tcp_iter opt pick a sc g = (Ret (false, []), g').
Proof.
  intros Hs Hp. assert (Ha : exists ex g1, arm_deadline opt a g = (Ret ex, g1)).
  { unfold arm_deadline. destruct (0 <? ReadTimeout opt); [|by eexists _, _].
    unfold time_now, store_tcp, store_sess. unfold_go. rewrite (deref_tcp_eval _ a s) by done. by eexists _, _. }
  destruct Ha as (ex & g1 & E1). destruct (arm_deadline_mild a s g ex g1 Hs E1) as (s1 & Hs1 & K1 & M1).
  unfold tcp_iter, store_tcp, store_sess. unfold_go. rewrite E1, (deref_tcp_eval _ a s1) by done.
  destruct ex; [by eexists|]. destruct (tcp_read_kept pick s1) as (s2 & r & -> & _ & Hr).
  destruct Hr as [e ->]; [by apply K1|]. by eexists.
Qed.

Lemma closes_done t : closes (set_reader RDone t) <> O.
Proof. unfold closes. cbn [tk_reader set_reader]. rewrite bool_decide_true by (by right). lia. Qed.

(** The deferred calls of a read loop can always run. *)
Lemma reader_can_close sv j t :
  server_inv sv -> conns sv !! j = Some t -> tk_reader t = RClose ->
  exists sv', rtc server_step sv sv' /\ conns sv' = <[j := set_reader RDone t]> (conns sv).
Proof.
  intros I Hj Hr. destruct sv as [g ts d l]; cbn [conns] in *.
  destruct (ci_sess _ _ (Forall_lookup_1 _ _ _ _ (si_conns _ I) Hj)) as (s & Hs & _).
  eexists. split; [apply rtc_once; eapply sv_close; [exact Hj|exact Hr|by apply (tcp_close_eval _ s)]|done].
Qed.

Lemma reader_can_on_close sv j t :
  server_inv sv -> conns sv !! j = Some t -> tk_reader t = ROnClose ->
  exists sv', rtc server_step sv sv' /\ conns sv' = <[j := set_reader RDone t]> (conns sv).
Proof.
  intros I Hj Hr. destruct sv as [g ts d l]; cbn [conns] in *.
  pose proof (Forall_lookup_1 _ _ _ _ (si_conns _ I) Hj) as CI. destruct (ci_sess _ _ CI) as (s & Hs & _).
  destruct (conn_ctx _ _ CI) as (c & Hc & Hsc & _ & _ & Honce).
  assert (Ho : exists g', OnSessionClose (tk_ctx t) g = (Ret tt, g')).
  { destruct (sc_closeOnce c) eqn:E; [|eexists; apply (OnSessionClose_eval _ c (STcp s)); rewrite ?Hsc; done].
    eexists. by apply (OnSessionClose_again _ c). }
  destruct Ho as [g' Ho]. pose proof (sv_on_close g ts d l j t g' Hj Hr Ho) as Hstep.
  destruct (reader_can_close _ j (set_reader RClose t) (server_step_inv _ _ I Hstep)) as (sv' & Hrt & E).
  - cbn. apply list_lookup_insert_eq. by eapply lookup_lt_Some.
  - done.
  - exists sv'. split; [by eapply rtc_l|]. rewrite E. cbn. by rewrite list_insert_insert_eq.
Qed.

Lemma reader_can_finish sv j t s :
  server_inv sv -> conns sv !! j = Some t ->
  sessions (gw sv) !! tk_sess t = Some (STcp s) -> pending (t_conn s) = [] ->
  exists sv', rtc server_step sv sv' /\ conns sv' = <[j := set_reader RDone t]> (conns sv).
Proof.
  intros I Hj Hs Hp. destruct (tk_reader t) eqn:Hr.
  - destruct sv as [g ts d l]; cbn [conns gw] in *.
    destruct (tcp_iter_closed None (tk_sess t) (tk_ctx t) s g Hs Hp) as [g' E].
    pose proof (sv_read g ts d l j t None false [] g' Hj Hr E) as Hstep.
    destruct (reader_can_on_close _ j (set_reader ROnClose t) (server_step_inv _ _ I Hstep)) as (sv' & Hrt & E').
    + cbn. apply list_lookup_insert_eq. by eapply lookup_lt_Some.
    + done.
    + exists sv'. split; [by eapply rtc_l|]. rewrite E'. cbn. by rewrite list_insert_insert_eq.
  - by apply reader_can_on_close.
  - by apply reader_can_close.
  - exists sv. split; [done|]. rewrite <- Hr. replace (set_reader (tk_reader t) t) with t by (by destruct t).
    by rewrite list_insert_id.
Qed.

(** C18 (liveness): a closed connection unwinds.  Once a session has been closed,
    by the heartbeat watcher, by the context or by anybody else, its read loop
    can always finish, on its own and whatever the other goroutines have done:
    the next iteration is the last, it hands nothing to the gateway, and after
    the deferred calls the connection is out of the manager. *)
Theorem closed_connection_unwinds sv j t s :
  rtc server_step new_server sv -> conns sv !! j = Some t ->
  sessions (gw sv) !! tk_sess t = Some (STcp s) -> t_closeChan s = true ->
  (forall pick, exists g', tcp_iter opt pick (tk_sess t) (tk_ctx t) (gw sv) = (Ret (false, []), g')) /\
  exists sv', rtc server_step sv sv' /\ conns sv' = <[j := set_reader RDone t]> (conns sv) /\
    GetSession (tk_id t) (gw sv') = None.
Proof.
  intros Hr Hj Hs Hch. pose proof (reachable_inv sv Hr) as I.
  destruct (ci_sess _ _ (Forall_lookup_1 _ _ _ _ (si_conns _ I) Hj)) as (s0 & Hs0 & [_ Sp] & _).
  assert (s0 = s) as -> by congruence. split; [intros pick; apply (tcp_iter_closed _ _ _ s); auto|].
  destruct (reader_can_finish sv j t s I Hj Hs (Sp Hch)) as (sv' & Hrt & E). exists sv'. split_and!; [done|done|].
  assert (I' : server_inv sv') by (apply reachable_inv; by etrans).
  assert (Hj' : conns sv' !! j = Some (set_reader RDone t)) by (rewrite E; apply list_lookup_insert_eq; by eapply lookup_lt_Some).
  pose proof (ci_map _ _ (Forall_lookup_1 _ _ _ _ (si_conns _ I') Hj')) as Hm. unfold GetSession, Get.
  cbn [tk_id set_reader] in Hm. rewrite Hm. by rewrite bool_decide_false by apply closes_done.
Qed.
End unique_ids.
End lifecycle.

(** ** The theorems at a concrete input

    One connection whose peer hangs up at once: accepted, read to its end,
    closed, and seen by its watcher. *)
Module LifeDemo.
Definition as_n (n : nat) : string := str (replicate n "a"%char).

#[export] Instance env : RtEnv := {| uuid_of := as_n; now_ns n := Z.of_nat n |}.

Lemma uuid_unique i j : uuid_of i = uuid_of j -> i = j.
Proof.
  simpl. unfold as_n. intros E%(f_equal list_ascii_of_string). rewrite !list_ascii_of_string_of_list_ascii in E.
  apply (f_equal length) in E. by rewrite !length_replicate in E.
Qed.

Definition opt : Options := mkOptions 256 0 0 0 0 4096 None None.
Definition m : Manager := manager_of JSONCodec.
Definition g1 : GW session := (tcp_accept 0%nat 1%nat (mkConn [] EOF [] None) "peer" m NewSimpleGateway).2.
Definition g2 : GW session := (tcp_iter opt None 0%nat 1%nat g1).2.
Definition g3 : GW session := (OnSessionClose 1%nat g2).2.
Definition g4 : GW session := (tcp_close 0%nat g3).2.
Definition g5 : GW session := (lifecycleWatcher CloseChan 0%nat 1%nat g4).2.

Definition t (r : reader) (x : watcher) : task := mkTask 0%nat 1%nat (as_n 0) r x BTicking.

Lemma run_fst {A B} (p : A * B) x : p.1 = x -> p = (x, p.2).
Proof. destruct p. by intros <-. Qed.

Lemma accepted : server_step opt m new_server (mkServer g1 [t RReading WWaiting] false true).
Proof.
  apply (sv_accept opt m NewSimpleGateway [] false 0%nat 1%nat (AConn (mkConn [] EOF [] None) "peer") true
    (Some (t RReading WWaiting)) g1 eq_refl eq_refl).
  unfold start_iter, g1, t. reflexivity.
Qed.

Lemma read_to_end : rtc (server_step opt m) new_server (mkServer g2 [t ROnClose WWaiting] false true).
Proof.
  eapply rtc_l; [exact accepted|]. apply rtc_once.
  apply (sv_read opt m g1 [t RReading WWaiting] false true 0 (t RReading WWaiting) None false [] g2 eq_refl eq_refl).
  apply run_fst. vm_compute. reflexivity.
Qed.

Lemma closed : rtc (server_step opt m) new_server (mkServer g3 [t RClose WWaiting] false true).
Proof.
  eapply rtc_r; [exact read_to_end|].
  apply (sv_on_close opt m g2 [t ROnClose WWaiting] false true 0 (t ROnClose WWaiting) g3 eq_refl eq_refl).
  apply run_fst. vm_compute. reflexivity.
Qed.

Lemma unwound : rtc (server_step opt m) new_server (mkServer g5 [t RDone (WEnded CloseChan)] false true).
Proof.
  eapply rtc_r; [eapply rtc_r; [exact closed|]|].
  - apply (sv_close opt m g3 [t RClose WWaiting] false true 0 (t RClose WWaiting) g4 eq_refl eq_refl). apply run_fst. vm_compute. reflexivity.
  - apply (sv_watch opt m g4 [t RDone WWaiting] false true 0 (t RDone WWaiting) CloseChan g5 eq_refl eq_refl);
      [discriminate|apply run_fst; vm_compute; reflexivity].
Qed.
End LifeDemo.
Import LifeDemo.

Lemma server_sessions_accounted_witness :
  smap (sessionManager g5) = ∅ /\ Count (sessionManager g5) = -1.
Proof.
  destruct (server_sessions_accounted LifeDemo.opt LifeDemo.m uuid_unique _ unwound) as (_ & _ & _ & Hd).
  destruct Hd as [H1 H2]; [repeat constructor|]. split; [exact H1|exact H2].
Defined.

Lemma closed_connection_unwinds_witness :
  exists sv', rtc (server_step LifeDemo.opt LifeDemo.m) (mkServer g3 [t RClose WWaiting] false true) sv' /\
    GetSession (as_n 0) (gw sv') = None.
Proof.
  destruct (sessions g3 !! 0%nat) as [[s|s]|] eqn:E.
  2, 3: assert (H : (match sessions g3 !! 0%nat with Some (STcp _) => true | _ => false end) = true) by (vm_compute; reflexivity);
    rewrite E in H; discriminate H.
  destruct (closed_connection_unwinds LifeDemo.opt LifeDemo.m uuid_unique _ 0 (t RClose WWaiting) s closed eq_refl E)
    as (_ & sv' & Hr & _ & Hg).
  - assert (H : (match sessions g3 !! 0%nat with Some (STcp s) => t_closeChan s | _ => false end) = true) by (vm_compute; reflexivity).
    rewrite E in H. exact H.
  - exists sv'. split; [exact Hr|exact Hg].
Defined.
