(* ===== verification/WsLifecycle.v ===== *)
(** * The WebSocket server as a whole: [internal/transport/ws.go] under concurrency

    [handleConnection] runs for every upgraded request: it opens a session and
    starts two goroutines, the ping loop and the read loop.  [wserver_step] runs
    one operation of one goroutine at a time, in any order, for any number of
    connections.  Only the deferred calls of the read loop close a session, once,
    so the session manager counts exactly, whereas the TCP server (Lifecycle.v)
    loses count; and cancelling the context, which makes [Start] shut the HTTP
    server down, closes no connection: [http.Server.Shutdown] leaves upgraded
    connections alone. *)

From S2P Require Import Prelude Json Envelope Codec Factory Conn Frame Session Gateway Servers WsLoop WsKeepalive Lifecycle.

Local Open Scope Z_scope.

(** ** Goroutines *)

Inductive pinger := PRunning | PEnded.

(** One connection: its session, its context, its id, its goroutines. *)
Record wtask := mkWTask {
  wk_sess : addr;
  wk_ctx : addr;
  wk_id : string;
  wk_reader : reader;
  wk_pinger : pinger;
}.

Definition wset_reader (r : reader) (t : wtask) : wtask := mkWTask (wk_sess t) (wk_ctx t) (wk_id t) r (wk_pinger t).
Definition wset_pinger (p : pinger) (t : wtask) : wtask := mkWTask (wk_sess t) (wk_ctx t) (wk_id t) (wk_reader t) p.

(** [OnSessionClose] has run for the connection. *)
Definition gone (t : wtask) : bool := match wk_reader t with RClose | RDone => true | _ => false end.

Section ws_lifecycle.
Context `{RtEnv}.
Context (opt : Options) (m : Manager).

Record wserver := mkWServer {
  wgw : GW session;
  wconns : list wtask;
  wctx_done : bool;                 (** the context is cancelled *)
  serving : bool;                   (** [Shutdown] has not run *)
}.

(** [handleConnection] up to the start of the read loop, the objects at fresh
    addresses; a failed upgrade starts nothing. *)
Definition ws_handle (a sc : addr) (upgrade : option (wsConn * string)) (g : GW session) : option wtask * GW session :=
  match upgrade with
  | None => (None, g)
  | Some (c, raddr) =>
      (Some (mkWTask a sc (uuid_of (n_uuid g)) RReading PRunning), (ws_accept a sc c raddr m g).2)
  end.

Inductive wserver_step : relation wserver :=
| wv_cancel g ts d l :
    wserver_step (mkWServer g ts d l) (mkWServer g ts true l)
| wv_shutdown g ts l :
    wserver_step (mkWServer g ts true l) (mkWServer g ts true false)
| wv_accept g ts d a sc u ot g' :
    sessions g !! a = None -> ctxs g !! sc = None -> ws_handle a sc u g = (ot, g') ->
    wserver_step (mkWServer g ts d true) (mkWServer g' (ts ++ option_list ot) d true)
| wv_read g ts d l j t go es g' :
    ts !! j = Some t -> wk_reader t = RReading -> ws_iter opt (wk_sess t) (wk_ctx t) g = (Ret (go, es), g') ->
    wserver_step (mkWServer g ts d l)
      (mkWServer g' (<[j := wset_reader (if go then RReading else ROnClose) t]> ts) d l)
| wv_on_close g ts d l j t g' :
    ts !! j = Some t -> wk_reader t = ROnClose -> OnSessionClose (wk_ctx t) g = (Ret tt, g') ->
    wserver_step (mkWServer g ts d l) (mkWServer g' (<[j := wset_reader RClose t]> ts) d l)
| wv_close g ts d l j t g' :
    ts !! j = Some t -> wk_reader t = RClose -> ws_close (wk_sess t) g = (Ret tt, g') ->
    wserver_step (mkWServer g ts d l) (mkWServer g' (<[j := wset_reader RDone t]> ts) d l)
| wv_ping g ts d l j t s r go f :
    ts !! j = Some t -> wk_pinger t = PRunning -> sessions g !! wk_sess t = Some (SWs s) ->
    ping_step r s = Some (go, f) ->
    wserver_step (mkWServer g ts d l)
      (mkWServer g (<[j := wset_pinger (if go then PRunning else PEnded) t]> ts) d l)
| wv_send g ts d l j t e r g' :
    ts !! j = Some t -> sc_Send (wk_ctx t) e g = (Ret r, g') ->
    wserver_step (mkWServer g ts d l) (mkWServer g' ts d l).

(** A server that has just started. *)
Definition new_wserver : wserver := mkWServer NewSimpleGateway [] false true.

(** ** Operations that close nothing *)

(** The WebSocket session at [a] after them: messages are only taken. *)
Definition wkept (s s' : wsSession) : Prop :=
  w_base s' = w_base s /\ w_closeChan s' = w_closeChan s /\ w_manager s' = w_manager s /\
  (length (ws_in (w_conn s')) <= length (ws_in (w_conn s)))%nat.

Record wmild (a : addr) (s : wsSession) (g g' : GW session) : Prop := {
  wm_sess : exists s', sessions g' = <[a := SWs s']> (sessions g) /\ wkept s s';
  wm_ctx : ctxs g' = ctxs g;
  wm_manager : sessionManager g' = sessionManager g;
  wm_uuid : (n_uuid g <= n_uuid g')%nat;
}.

Lemma wkept_trans s1 s2 s3 : wkept s1 s2 -> wkept s2 s3 -> wkept s1 s3.
Proof. intros (A1 & A2 & A3 & A4) (B1 & B2 & B3 & B4). split_and!; [congruence..|lia]. Qed.

Lemma wkept_send e s : wkept s (ws_SendEnvelope e s).2.
Proof. destruct (ws_Send_keeps e s) as (K1 & K2 & K3 & K4). split_and!; [done|done|done|by rewrite K3]. Qed.

Lemma wmild_refl a s g : sessions g !! a = Some (SWs s) -> wmild a s g g.
Proof. intros Hs. split; try done. exists s. split; [by rewrite insert_id|done]. Qed.

Lemma wmild_set a s s' g : wkept s s' -> wmild a s g (set_sessions <[a := SWs s']> g).
Proof. intros Hk. split; try done. by exists s'. Qed.

Lemma wmild_trans a s g1 s2 g2 g3 :
  wmild a s g1 g2 -> sessions g2 !! a = Some (SWs s2) -> wmild a s2 g2 g3 -> wmild a s g1 g3.
Proof.
  intros [(s1 & E1 & K1) C1 M1 U1] H2 [(s3 & E3 & K3) C3 M3 U3]. rewrite E1, lookup_insert_eq in H2. simplify_eq.
  split; [|congruence|congruence|lia]. exists s3. rewrite E3, E1, insert_insert_eq. split; [done|by eapply wkept_trans].
Qed.

Lemma wmild_frame a sc i s g g' : wmild a s g g' -> framed a sc i g g'.
Proof.
  intros [(s' & E & _) C M U]. split; [|by rewrite C|by rewrite M|done].
  intros x Hx. by rewrite E, lookup_insert_ne.
Qed.

(** The connection at [a] and [sc]. *)
Definition at_ctx (g : GW session) (a sc : addr) (c : SessionContext) (s : wsSession) : Prop :=
  ctxs g !! sc = Some c /\ sess c = a /\ sessions g !! a = Some (SWs s).

Lemma wmild_at g g' a sc c s : at_ctx g a sc c s -> wmild a s g g' -> exists s', at_ctx g' a sc c s' /\ wkept s s'.
Proof.
  intros (Hc & Ha & Hs) [(s' & E & K) C _ _]. exists s'. split; [|done].
  split_and!; [by rewrite C|done|by rewrite E, lookup_insert_eq].
Qed.

Lemma sc_Send_wmild a sc c s e g : at_ctx g a sc c s -> exists r g', sc_Send sc e g = (Ret r, g') /\ wmild a s g g'.
Proof.
  intros (Hc & Ha & Hs). destruct (sc_closed c) eqn:Hcl.
  - rewrite (sc_Send_closed sc c) by done. eexists _, _. split; [done|]. by apply wmild_refl.
  - rewrite (sc_Send_eval sc c (SWs s)) by (rewrite ?Ha; done). rewrite Ha. eexists _, _. split; [done|].
    split; try done. exists (ws_SendEnvelope e s).2. split; [|apply wkept_send].
    cbn [sessions set_sessions SendEnvelope session_Session]. by destruct (ws_SendEnvelope e s).
Qed.

Lemma wmild_ticked a s u k g g' : wmild a s (tick u k g) g' -> wmild a s g g'.
Proof. intros [S C M U]. split; try done. simpl in U. lia. Qed.

Lemma OnEnvelope_wmild a sc c s e g : at_ctx g a sc c s -> exists g', OnEnvelope sc e g = (Ret tt, g') /\ wmild a s g g'.
Proof.
  intros Hat. unfold OnEnvelope, Dispatch. unfold_go.
  destruct (disp g !! Type_ e) as [[]|]; [|eexists; split; [done|by apply wmild_refl, Hat]].
  cbn [run_handler]. unfold ping_handler, now_milli, time_now, new_uuid. unfold_go.
  match goal with |- context [sc_Send sc ?p ?g1] => destruct (sc_Send_wmild a sc c s p g1 Hat) as (r & g' & E & Hm) end.
  rewrite E. eexists. split; [done|]. by repeat apply wmild_ticked in Hm.
Qed.

Lemma legacy_wmild a sc c s text g : at_ctx g a sc c s ->
  exists l g', handleLegacyTextMessage m sc text g = (Ret l, g') /\ wmild a s g g'.
Proof.
  intros Hat. unfold handleLegacyTextMessage. destruct text as [|ch text]; [eexists _, _; split; [done|by apply wmild_refl, Hat]|].
  unfold new_uuid, now_milli, time_now. unfold_go.
  match goal with |- context [OnEnvelope sc ?e ?g1] => destruct (OnEnvelope_wmild a sc c s e g1 Hat) as (g' & E & Hm) end.
  rewrite E. eexists _, _. split; [done|]. by repeat apply wmild_ticked in Hm.
Qed.

(** One iteration of the read loop; it only fails to return if the decoder
    panics. *)
Lemma ws_iter_wmild a sc c s g : at_ctx g a sc c s -> w_manager s = m ->
  match ws_in (w_conn s) with
  | [] => ws_iter opt a sc g = (Ret (false, []), g)
  | (_, data) :: _ =>
      (exists es g', ws_iter opt a sc g = (Ret (true, es), g') /\ wmild a s g g' /\
         forall s', sessions g' !! a = Some (SWs s') -> (length (ws_in (w_conn s')) < length (ws_in (w_conn s)))%nat) \/
      (exists q g', DecodeMessage m data zero_envelope (OptMaxFrameSize opt) = Panic q /\ ws_iter opt a sc g = (Panic q, g'))
  end.
Proof.
  intros Hat Hm. pose proof Hat as (Hc & Ha & Hs). unfold ws_iter, store_ws, store_sess. unfold_go.
  rewrite (deref_ws_eval _ _ s) by done. destruct (ws_in (w_conn s)) as [|[mt data] rest] eqn:Ein; [done|]. unfold_go.
  set (s1 := mkWs _ _ _ _). set (g1 := set_sessions <[a := SWs s1]> g).
  assert (K1 : wkept s s1) by (split_and!; [done..|rewrite Ein; simpl; lia]).
  assert (M1 : wmild a s g g1) by (by apply wmild_set).
  assert (Hs1 : sessions g1 !! a = Some (SWs s1)) by (cbn; apply lookup_insert_eq).
  assert (Hat1 : at_ctx g1 a sc c s1) by done.
  assert (Hfin : forall g', wmild a s1 g1 g' -> wmild a s g g' /\
    forall s', sessions g' !! a = Some (SWs s') -> (length (ws_in (w_conn s')) < length ((mt, data) :: rest))%nat).
  { intros g' M2. split; [by eapply wmild_trans|]. destruct (wmild_at _ _ _ _ _ _ Hat1 M2) as (s2 & (_ & _ & H2) & (_ & _ & _ & K4)).
    intros s' H'. assert (s' = s2) as -> by congruence. simpl in *. lia. }
  rewrite Hm. destruct mt; [|left; eexists _, _; split; [done|]; apply Hfin; by apply wmild_refl].
  assert (Hleg : exists l g', handleLegacyTextMessage m sc (str data) g1 = (Ret l, g') /\ wmild a s1 g1 g')
    by (by apply (legacy_wmild a sc c)).
  destruct Hleg as (l & g2 & El & M2).
  destruct (DecodeMessage m data zero_envelope (OptMaxFrameSize opt)) as [[[err|] env]|q].
  - left. rewrite El. eexists _, _. split; [done|]. by apply Hfin.
  - left. destruct (bool_decide (Type_ env = ""%string)); [rewrite El; eexists _, _; split; [done|]; by apply Hfin|].
    destruct (OnEnvelope_wmild a sc c s1 env g1 Hat1) as (g3 & -> & M3). eexists _, _. split; [done|]. by apply Hfin.
  - right. by eexists _, _.
Qed.

(** ** The invariant *)

Record wconn_inv (g : GW session) (t : wtask) : Prop := {
  wi_ctx : exists raddr, ctxs g !! wk_ctx t = Some (mkSC (wk_id t) raddr (wk_sess t) (gone t) (gone t));
  wi_sess : exists s, sessions g !! wk_sess t = Some (SWs s) /\ w_manager s = m /\
    w_closeChan s = gone t /\ closeOnce (w_base s) = gone t;
  wi_map : smap (sessionManager g) !! wk_id t = if gone t then None else Some (wk_ctx t);
  wi_id : exists k, (k < n_uuid g)%nat /\ wk_id t = uuid_of k;
  wi_pinger : wk_pinger t = PEnded -> gone t = true;
}.

Lemma wconn_inv_framed a sc i g g' t : framed a sc i g g' -> wconn_inv g t ->
  wk_sess t <> a -> wk_ctx t <> sc -> wk_id t <> i -> wconn_inv g' t.
Proof.
  intros [F1 F2 F3 F4] [C S M (k & Hk & Hi) P] N1 N2 N3.
  split; [by rewrite F2|by rewrite F1|by rewrite F3| |done]. exists k. split; [lia|done].
Qed.

Record wserver_inv (sv : wserver) : Prop := {
  wsi_conns : Forall (wconn_inv (wgw sv)) (wconns sv);
  wsi_sess : NoDup (wk_sess <$> wconns sv);
  wsi_ctx : NoDup (wk_ctx <$> wconns sv);
  wsi_id : NoDup (wk_id <$> wconns sv);
  wsi_count : sm_ok (sessionManager (wgw sv));
  wsi_map i a : smap (sessionManager (wgw sv)) !! i = Some a -> i ∈ wk_id <$> wconns sv;
}.

(** An operation of one connection: what it touches, and that the manager takes
    at most a step that keeps it consistent. *)
Record wconn_step (g : GW session) (t : wtask) (g' : GW session) (t' : wtask) : Prop := {
  wcs_sess : wk_sess t' = wk_sess t;
  wcs_ctx : wk_ctx t' = wk_ctx t;
  wcs_id : wk_id t' = wk_id t;
  wcs_framed : framed (wk_sess t) (wk_ctx t) (wk_id t) g g';
  wcs_inv : wconn_inv g' t';
  wcs_manager : rtc sm_step (sessionManager g) (sessionManager g');
}.

Lemma wconn_step_inv g ts d l j t g' t' d' l' :
  wserver_inv (mkWServer g ts d l) -> ts !! j = Some t -> wconn_step g t g' t' ->
  wserver_inv (mkWServer g' (<[j := t']> ts) d' l').
Proof.
  intros [I1 I2 I3 I4 I5 I6] Hj [C1 C2 C3 F CI Hsm]. cbn [wgw wconns] in *.
  split; cbn [wgw wconns].
  - apply Forall_lookup. intros i u Hu. apply list_lookup_insert_Some in Hu as [(-> & <- & _)|[Hne Hu]]; [done|].
    eapply wconn_inv_framed; [exact F|by eapply Forall_lookup in I1|..]; symmetry; by eapply NoDup_fmap_ne.
  - by rewrite (fmap_insert_same _ _ _ t).
  - by rewrite (fmap_insert_same _ _ _ t).
  - by rewrite (fmap_insert_same _ _ _ t).
  - eapply (rtc_invariant sm_step sm_ok); [exact sm_step_ok|exact I5|exact Hsm].
  - intros i a Hi. rewrite (fmap_insert_same _ _ _ t) by done. destruct (decide (i = wk_id t)) as [->|Hne].
    + apply list_elem_of_fmap. exists t. split; [done|]. by eapply list_elem_of_lookup_2.
    + apply (I6 i a). by rewrite <- (fr_map _ _ _ _ _ F).
Qed.

Lemma wconn_at g t : wconn_inv g t -> exists c s, at_ctx g (wk_sess t) (wk_ctx t) c s /\ Id c = wk_id t /\
  sc_closed c = gone t /\ sc_closeOnce c = gone t /\ w_manager s = m /\ w_closeChan s = gone t /\ closeOnce (w_base s) = gone t.
Proof. intros [(raddr & C) (s & Hs & Hm & Hch & Ho) _ _ _]. eexists _, s. split_and!; [split_and!; [exact C|done|done]|done..]. Qed.

(** Nothing is closed. *)
Lemma wconn_step_mild g t s g' t' :
  wconn_inv g t -> sessions g !! wk_sess t = Some (SWs s) -> wmild (wk_sess t) s g g' ->
  wk_sess t' = wk_sess t -> wk_ctx t' = wk_ctx t -> wk_id t' = wk_id t -> gone t' = gone t ->
  (wk_pinger t' = PEnded -> gone t = true) -> wconn_step g t g' t'.
Proof.
  intros [C (s0 & S0 & Sm & Sc & So) M (k & Hk & Hi) P] Hs Hm E1 E2 E3 E4 E5. assert (s0 = s) as -> by congruence.
  split; try done; [by eapply wmild_frame| |by rewrite (wm_manager _ _ _ _ Hm)].
  destruct Hm as [(s' & Hs' & (K1 & K2 & K3 & K4)) Hc Hmg Hu].
  split; rewrite ?E1, ?E2, ?E3, ?E4; [by rewrite Hc| |by rewrite Hmg|exists k; split; [lia|done]|done].
  exists s'. rewrite Hs', lookup_insert_eq. split_and!; congruence.
Qed.

(** [OnSessionClose] runs, for the first time. *)
Lemma wconn_step_on_close g t :
  wconn_inv g t -> wk_reader t = ROnClose ->
  exists g', OnSessionClose (wk_ctx t) g = (Ret tt, g') /\ wconn_step g t g' (wset_reader RClose t).
Proof.
  intros I Hr. destruct (wconn_at g t I) as (c & s & (Hc & Ha & Hs) & Hid & Hcl & Honce & Hsm & Hch & Hso).
  assert (Hg : gone t = false) by (unfold gone; by rewrite Hr). rewrite Hg in *.
  rewrite (OnSessionClose_eval (wk_ctx t) c (SWs s)) by (rewrite ?Ha; done). eexists. split; [done|]. rewrite Ha, Hid.
  assert (Hw : Close (SWs s) = (None, SWs (ws_Close s).2)) by (cbn; unfold ws_Close; by rewrite Hso).
  assert (Hs' : w_closeChan (ws_Close s).2 = true /\ closeOnce (w_base (ws_Close s).2) = true /\ w_manager (ws_Close s).2 = w_manager s)
    by (unfold ws_Close; by rewrite Hso).
  rewrite Hw. cbn [snd]. destruct Hs' as (H1 & H2 & H3). destruct I as [_ _ M (q & Hq & Hi) P].
  split; [done..| | |].
  - split; cbn; [intros x Hx; by rewrite lookup_insert_ne|intros x Hx; by rewrite lookup_insert_ne|
        intros k Hk; by rewrite lookup_delete_ne|lia].
  - split; cbn; [| |apply lookup_delete_eq|by exists q|done].
    + exists (ScRemoteAddr c). rewrite lookup_insert_eq. unfold closed_ctx. by rewrite Ha, Hid.
    + exists (ws_Close s).2. rewrite lookup_insert_eq. split_and!; [done|congruence|done|done].
  - apply (rtc_once (R := sm_step)), (sm_remove (sessionManager g)). rewrite M, Hg. by eexists.
Qed.

(** The second, deferred [Close] does nothing. *)
Lemma wconn_step_close g t :
  wconn_inv g t -> wk_reader t = RClose ->
  exists g', ws_close (wk_sess t) g = (Ret tt, g') /\ wconn_step g t g' (wset_reader RDone t).
Proof.
  intros I Hr. destruct (wconn_at g t I) as (c & s & (Hc & Ha & Hs) & _ & _ & _ & _ & _ & Hso).
  assert (Hg : gone t = true) by (unfold gone; by rewrite Hr). rewrite Hg in *.
  unfold ws_close, store_ws, store_sess. unfold_go. rewrite (deref_ws_eval _ _ s) by done.
  eexists. split; [done|]. assert ((ws_Close s).2 = s) as -> by (unfold ws_Close; by rewrite Hso).
  eapply wconn_step_mild; [done|exact Hs|by apply wmild_set|done..|by rewrite Hg|by rewrite Hg].
Qed.

Section unique_ids.
(** [uuid.New] never returns the same identifier twice. *)
Context (uuid_unique : forall i j, uuid_of i = uuid_of j -> i = j).

Lemma ws_accept_eval a sc cn raddr g :
  let g' := (ws_accept a sc cn raddr m g).2 in
  let i := uuid_of (n_uuid g) in
  (exists s, sessions g' = <[a := SWs s]> (sessions g) /\ w_manager s = m /\ w_closeChan s = false /\ closeOnce (w_base s) = false) /\
  ctxs g' = <[sc := mkSC i raddr a false false]> (ctxs g) /\
  sessionManager g' = AddContext (Some (sc, mkSC i raddr a false false)) (sessionManager g) /\
  (n_uuid g < n_uuid g')%nat.
Proof.
  intros g' i. unfold g', ws_accept, new_uuid, store_sess, store_ctx. unfold_go.
  set (s := newWsSession i raddr cn m). set (c := mkSC i raddr a false false).
  rewrite (OnSessionOpen_eval _ c (SWs s)) by (cbn; by rewrite ?lookup_insert_eq).
  cbn [snd sessions ctxs sessionManager n_uuid set_ctxs set_sessions tick sess c]. split_and!; [|done|done|lia].
  set (e := welcome_for _). exists (ws_SendEnvelope e s).2. rewrite insert_insert_eq. cbn [SendEnvelope session_Session].
  destruct (wkept_send e s) as (K1 & K2 & K3 & _). rewrite K1, K2, K3. split; [|done]. by destruct (ws_SendEnvelope e s).
Qed.

Lemma wset_NoDup {A} (f : wtask -> A) ts t : NoDup (f <$> ts) -> Forall (fun u => f u <> f t) ts -> NoDup (f <$> ts ++ [t]).
Proof.
  intros Hn Hf. rewrite fmap_app. apply NoDup_app. split_and!; [done| |apply NoDup_singleton].
  intros x (u & -> & Hu)%list_elem_of_fmap. rewrite Forall_forall in Hf. specialize (Hf u Hu). simpl. set_solver.
Qed.

Lemma waccept_inv g ts d l a sc cn raddr :
  wserver_inv (mkWServer g ts d l) -> sessions g !! a = None -> ctxs g !! sc = None ->
  wserver_inv (mkWServer (ws_accept a sc cn raddr m g).2 (ts ++ [mkWTask a sc (uuid_of (n_uuid g)) RReading PRunning]) d l).
Proof.
  intros [I1 I2 I3 I4 I5 I6] Ha Hsc. cbn [wgw wconns] in *.
  destruct (ws_accept_eval a sc cn raddr g) as ((s & Es & Sm & Sc & So) & Ec & Em & Hu). set (g' := (ws_accept _ _ _ _ _ _).2) in *.
  set (i := uuid_of (n_uuid g)) in *. set (t := mkWTask _ _ _ _ _).
  assert (Hold : Forall (fun u => wk_sess u <> a /\ wk_ctx u <> sc /\ wk_id u <> i) ts).
  { eapply Forall_impl; [exact I1|]. intros u [(? & C) (s' & Hs' & _) _ (k & Hk & Hi) _]. split_and!; [congruence|congruence|].
    rewrite Hi. intros ?%uuid_unique. lia. }
  assert (F : framed a sc i g g').
  { split; [intros x Hx; by rewrite Es, lookup_insert_ne|intros x Hx; by rewrite Ec, lookup_insert_ne|
      intros x Hx; rewrite Em; cbn; by rewrite lookup_insert_ne|lia]. }
  assert (Hfresh : smap (sessionManager g) !! i = None).
  { destruct (smap _ !! i) as [x|] eqn:E; [|done]. apply I6, list_elem_of_fmap in E as (u & E & Hin).
    rewrite Forall_forall in Hold. by destruct (Hold u Hin) as (_ & _ & []). }
  split; cbn [wgw wconns].
  - apply Forall_app. split; [|apply Forall_singleton].
    + rewrite Forall_forall in I1, Hold |- *. intros u Hin. destruct (Hold u Hin) as (N1 & N2 & N3).
      eapply wconn_inv_framed; [exact F|by apply I1|done..].
    + split; cbn [wk_sess wk_ctx wk_id wk_pinger t gone wk_reader]; [| | | |done].
      * exists raddr. by rewrite Ec, lookup_insert_eq.
      * exists s. rewrite Es, lookup_insert_eq. done.
      * rewrite Em. cbn. by rewrite lookup_insert_eq.
      * exists (n_uuid g). by split.
  - apply wset_NoDup; [done|]. eapply Forall_impl; [exact Hold|]. naive_solver.
  - apply wset_NoDup; [done|]. eapply Forall_impl; [exact Hold|]. naive_solver.
  - apply wset_NoDup; [done|]. eapply Forall_impl; [exact Hold|]. naive_solver.
  - rewrite Em. eapply sm_step_ok; [exact I5|]. by apply sm_add.
  - intros k b. rewrite Em. cbn. rewrite fmap_app, elem_of_app. intros [[<- _]|[_ Hk]]%lookup_insert_Some.
    + right. apply list_elem_of_singleton. done.
    + left. by eapply I6.
Qed.

Lemma wserver_step_inv sv sv' : wserver_inv sv -> wserver_step sv sv' -> wserver_inv sv'.
Proof.
  intros I Hstep. destruct Hstep as [g ts d l|g ts l|g ts d a sc u ot g' Ha Hsc E|g ts d l j t go es g' Hj Hr E|
    g ts d l j t g' Hj Hr E|g ts d l j t g' Hj Hr E|g ts d l j t s r go f Hj Hp Hs E|g ts d l j t e r g' Hj E].
  all: try (pose proof (Forall_lookup_1 _ _ _ _ (wsi_conns _ I) Hj) as CI; cbn [wgw] in CI;
    destruct (wconn_at g t CI) as (c & s' & Hat & Hid & _ & _ & Hsm & Hch & _); pose proof Hat as (Hc & Hca & Hs')).
  - destruct I; by split.
  - destruct I; by split.
  - destruct u as [[cn raddr]|]; injection E as <- <-; [by apply waccept_inv|]. rewrite app_nil_r. destruct I; by split.
  - eapply wconn_step_inv; [exact I|exact Hj|]. pose proof (ws_iter_wmild _ _ c s' g Hat Hsm) as Hit.
    assert (Hg : gone t = false) by (unfold gone; by rewrite Hr).
    assert (Hm : wmild (wk_sess t) s' g g').
    { destruct (ws_in (w_conn s')) as [|[mt data] rest]; [rewrite Hit in E; injection E as _ _ <-; by apply wmild_refl|].
      destruct Hit as [(es' & g1 & Hit & Hm & _)|(q & g1 & _ & Hit)]; rewrite Hit in E; [by injection E as _ _ <-|done]. }
    eapply wconn_step_mild; try done; [|by apply CI]. unfold gone in *. by destruct go.
  - eapply wconn_step_inv; [exact I|exact Hj|]. destruct (wconn_step_on_close g t CI Hr) as (g1 & E1 & Hst).
    assert (g1 = g') as -> by congruence. done.
  - eapply wconn_step_inv; [exact I|exact Hj|]. destruct (wconn_step_close g t CI Hr) as (g1 & E1 & Hst).
    assert (g1 = g') as -> by congruence. done.
  - eapply wconn_step_inv; [exact I|exact Hj|]. eapply wconn_step_mild; [done|exact Hs|by apply wmild_refl|done..|].
    assert (s' = s) as -> by congruence. destruct r; cbn in E; [injection E as <- _; simpl; intros; by apply CI|].
    destruct (w_closeChan s); [|done]. by rewrite <- Hch.
  - rewrite <- (list_insert_id ts j t) by done. eapply wconn_step_inv; [exact I|exact Hj|].
    destruct (sc_Send_wmild _ _ c s' e g Hat) as (r1 & g1 & E1 & Hm). assert (g1 = g') as -> by congruence.
    eapply wconn_step_mild; try done. by apply CI.
Qed.

Lemma new_wserver_inv : wserver_inv new_wserver.
Proof. split; cbn; try done; constructor. Qed.

Lemma wreachable_inv sv : rtc wserver_step new_wserver sv -> wserver_inv sv.
Proof. apply rtc_invariant; [exact wserver_step_inv|exact new_wserver_inv]. Qed.

(** The manager holds the live connections. *)
Lemma wget sv : wserver_inv sv -> forall i a, smap (sessionManager (wgw sv)) !! i = Some a <->
  exists t, t ∈ wconns sv /\ wk_id t = i /\ wk_ctx t = a /\ gone t = false.
Proof.
  intros [I1 _ _ _ _ I6] i a. rewrite Forall_forall in I1. split.
  - intros Hi. destruct (proj1 (list_elem_of_fmap _ _ _) (I6 i a Hi)) as (t & -> & Hin). exists t.
    rewrite (wi_map _ _ (I1 t Hin)) in Hi. destruct (gone t); simplify_eq. done.
  - intros (t & Hin & <- & <- & Hz). by rewrite (wi_map _ _ (I1 t Hin)), Hz.
Qed.

Lemma live_size sv : wserver_inv sv ->
  size (smap (sessionManager (wgw sv))) = length (filter (fun t => gone t = false) (wconns sv)).
Proof.
  intros I. set (L := filter (fun t => gone t = false) (wconns sv)).
  assert (Hn : NoDup (wk_id <$> L)).
  { pose proof (wsi_id _ I) as Hn. unfold L. clear -Hn. induction (wconns sv) as [|t ts IH]; [constructor|].
    rewrite fmap_cons in Hn. apply NoDup_cons in Hn as [Hnot Hn]. rewrite filter_cons. destruct (decide _); [|by apply IH].
    rewrite fmap_cons. apply NoDup_cons. split; [|by apply IH]. intros Hin. apply Hnot.
    apply list_elem_of_fmap in Hin as (u & -> & Hu). apply list_elem_of_filter in Hu as [_ Hu].
    by apply list_elem_of_fmap_2. }
  rewrite <- size_dom. replace (dom (smap (sessionManager (wgw sv)))) with (list_to_set (wk_id <$> L) : gset string).
  - rewrite size_list_to_set by done. by rewrite length_fmap.
  - apply set_eq. intros i. rewrite elem_of_list_to_set, elem_of_dom. split.
    + intros (t & -> & Ht)%list_elem_of_fmap. apply list_elem_of_filter in Ht as [Hg Ht].
      exists (wk_ctx t). apply wget; eauto.
    + intros [a Ha]. apply wget in Ha as (t & Hin & <- & _ & Hg); [|done].
      apply list_elem_of_fmap_2, list_elem_of_filter. done.
Qed.

(** C11 (invariant): WebSocket sessions are counted exactly, whatever the
    interleaving.  In every reachable state of a WebSocket server with any
    number of connections, the manager holds exactly the connections whose read
    loop has not run OnSessionClose, and the counter is their number; a session
    is closed exactly when it is out of the manager, so nothing else, the
    cancelled context and the shutdown of the HTTP server included, closes a
    connection; a ping loop has ended only if its session is closed. *)
Theorem ws_sessions_accounted sv :
  rtc wserver_step new_wserver sv ->
  (forall i a, GetSession i (wgw sv) = Some a <->
     exists t, t ∈ wconns sv /\ wk_id t = i /\ wk_ctx t = a /\ gone t = false) /\
  Count (sessionManager (wgw sv)) = wrap64 (Z.of_nat (length (filter (fun t => gone t = false) (wconns sv)))) /\
  (forall t, t ∈ wconns sv -> exists s, sessions (wgw sv) !! wk_sess t = Some (SWs s) /\ w_closeChan s = gone t /\
     (wk_pinger t = PEnded -> gone t = true)).
Proof.
  intros Hr. pose proof (wreachable_inv sv Hr) as I. split_and!; [by apply wget| |].
  - rewrite <- live_size by done. apply (wsi_count _ I).
  - intros t Hin. pose proof (wsi_conns _ I) as I1. rewrite Forall_forall in I1. destruct (I1 t Hin) as [_ (s & Hs & _ & Hch & _) _ _ P].
    by exists s.
Qed.

(** ** Every connection can end, and leaves no goroutine *)

Definition ended (t : wtask) : wtask := mkWTask (wk_sess t) (wk_ctx t) (wk_id t) RDone PEnded.

(** Reading goes on in states that keep the other connections' program points. *)
Definition runs_to (sv : wserver) (j : nat) (t' : wtask) : Prop :=
  exists sv', rtc wserver_step sv sv' /\ wconns sv' = <[j := t']> (wconns sv).

Lemma runs_to_step sv sv1 j t1 t' : wserver_step sv sv1 -> wconns sv1 = <[j := t1]> (wconns sv) ->
  runs_to sv1 j t' -> runs_to sv j t'.
Proof.
  intros Hst E (sv' & Hr & E'). exists sv'. split; [by eapply rtc_l|]. by rewrite E', E, list_insert_insert_eq.
Qed.

Lemma lookup_set {A} (l : list A) j x y : l !! j = Some x -> <[j := y]> l !! j = Some y.
Proof. intros Hj. apply list_lookup_insert_eq. by eapply lookup_lt_Some. Qed.

(** The ping loop sees that the session is closed. *)
Lemma pinger_ends sv j t : wserver_inv sv -> wconns sv !! j = Some t -> wk_reader t = RDone -> runs_to sv j (ended t).
Proof.
  intros I Hj Hr. destruct sv as [g ts d l]; cbn [wconns wgw] in *.
  destruct (wk_pinger t) eqn:Hp.
  - pose proof (Forall_lookup_1 _ _ _ _ (wsi_conns _ I) Hj) as CI. destruct (wi_sess _ _ CI) as (s & Hs & _ & Hch & _).
    eexists. split; [apply rtc_once; eapply (wv_ping g ts d l j t s PClosed false None)|]; try done.
    + cbn. rewrite Hch. unfold gone. by rewrite Hr.
    + cbn. unfold ended, wset_pinger. by rewrite Hr.
  - eexists. split; [done|]. cbn. unfold ended. rewrite <- Hr, <- Hp. destruct t. by rewrite list_insert_id.
Qed.

Lemma reader_closes sv j t : wserver_inv sv -> wconns sv !! j = Some t -> wk_reader t = RClose -> runs_to sv j (ended t).
Proof.
  intros I Hj Hr. destruct sv as [g ts d l]; cbn [wconns] in *.
  destruct (wconn_step_close g t (Forall_lookup_1 _ _ _ _ (wsi_conns _ I) Hj) Hr) as (g' & E & _).
  pose proof (wv_close g ts d l j t g' Hj Hr E) as Hst. eapply runs_to_step; [exact Hst|done|].
  apply (pinger_ends _ j (wset_reader RDone t)); [by eapply wserver_step_inv|by eapply lookup_set|done].
Qed.

Lemma reader_on_closes sv j t : wserver_inv sv -> wconns sv !! j = Some t -> wk_reader t = ROnClose -> runs_to sv j (ended t).
Proof.
  intros I Hj Hr. destruct sv as [g ts d l]; cbn [wconns] in *.
  destruct (wconn_step_on_close g t (Forall_lookup_1 _ _ _ _ (wsi_conns _ I) Hj) Hr) as (g' & E & _).
  pose proof (wv_on_close g ts d l j t g' Hj Hr E) as Hst. eapply runs_to_step; [exact Hst|done|].
  apply (reader_closes _ j (wset_reader RClose t)); [by eapply wserver_step_inv|by eapply lookup_set|done].
Qed.

(** The decoder does not panic on these limits. *)
Definition decodes : Prop := forall data, exists r, DecodeMessage m data zero_envelope (OptMaxFrameSize opt) = Ret r.

Lemma reader_drains n sv j t s : decodes -> wserver_inv sv -> wconns sv !! j = Some t -> wk_reader t = RReading ->
  sessions (wgw sv) !! wk_sess t = Some (SWs s) -> (length (ws_in (w_conn s)) <= n)%nat -> runs_to sv j (ended t).
Proof.
  intros Hdec. revert sv t s. induction n as [|n IH]; intros sv t s I Hj Hr Hs Hn; destruct sv as [g ts d l]; cbn [wconns wgw] in *;
    destruct (wconn_at g t (Forall_lookup_1 _ _ _ _ (wsi_conns _ I) Hj)) as (c & s' & Hat & _ & _ & _ & Hm & _);
    (assert (s' = s) as -> by (destruct Hat as (_ & _ & Hs'); congruence));
    pose proof (ws_iter_wmild _ _ c s g Hat Hm) as Hit; destruct (ws_in (w_conn s)) as [|[mt data] rest].
  1, 3: pose proof (wv_read g ts d l j t false [] g Hj Hr Hit) as Hst; eapply runs_to_step; [exact Hst|done|];
    apply (reader_on_closes _ j (wset_reader ROnClose t)); [by eapply wserver_step_inv|by eapply lookup_set|done].
  - simpl in Hn. lia.
  - destruct Hit as [(es & g' & Hit & Hmild & Hlt)|(q & g' & Hp & _)]; [|destruct (Hdec data) as [r Hd]; congruence].
    destruct (wmild_at _ _ _ _ _ _ Hat Hmild) as (s2 & (_ & _ & Hs2) & _). specialize (Hlt s2 Hs2). simpl in Hlt, Hn.
    pose proof (wv_read g ts d l j t true es g' Hj Hr Hit) as Hst. eapply runs_to_step; [exact Hst|done|].
    apply (IH _ (wset_reader RReading t) s2); [by eapply wserver_step_inv|by eapply lookup_set|done|exact Hs2|lia].
Qed.

(** C19 (liveness): every WebSocket connection can come to its end.  In every
    reachable state, as long as the decoder does not panic, each connection can
    run until both its goroutines have ended, on its own and whatever the others
    have done; it is then out of the manager, its session closed.  A ping loop
    never outlives its connection for good. *)
Theorem ws_connection_ends sv j t :
  decodes -> rtc wserver_step new_wserver sv -> wconns sv !! j = Some t ->
  exists sv', rtc wserver_step sv sv' /\ wconns sv' = <[j := ended t]> (wconns sv) /\
    GetSession (wk_id t) (wgw sv') = None /\
    exists s, sessions (wgw sv') !! wk_sess t = Some (SWs s) /\ w_closeChan s = true.
Proof.
  intros Hdec Hr Hj. pose proof (wreachable_inv sv Hr) as I.
  assert (Hrun : runs_to sv j (ended t)).
  { destruct (wk_reader t) eqn:Er; [|by apply reader_on_closes|by apply reader_closes|by apply pinger_ends].
    destruct (wi_sess _ _ (Forall_lookup_1 _ _ _ _ (wsi_conns _ I) Hj)) as (s & Hs & _).
    by apply (reader_drains (length (ws_in (w_conn s))) _ _ _ s). }
  destruct Hrun as (sv' & Hrt & E). exists sv'.
  assert (I' : wserver_inv sv') by (apply wreachable_inv; by etrans).
  assert (Hj' : wconns sv' !! j = Some (ended t)) by (rewrite E; by eapply lookup_set).
  destruct (Forall_lookup_1 _ _ _ _ (wsi_conns _ I') Hj') as [_ (s & Hs & _ & Hch & _) M _ _].
  split_and!; [done|done|exact M|by exists s].
Qed.
End unique_ids.
End ws_lifecycle.

(** ** The theorems at a concrete input

    One connection that has sent a text; the context is cancelled and the HTTP
    server shut down while it is being read. *)
Import LifeDemo.

Module WsLifeDemo.

Definition cn : wsConn := mkWsConn [(TextMessage, bytes "hello")] [] None.
Definition g1 : GW session := (ws_accept 0%nat 1%nat cn "peer" m NewSimpleGateway).2.
Definition g2 : GW session := (ws_iter opt 0%nat 1%nat g1).2.
Definition t (r : reader) (p : pinger) : wtask := mkWTask 0%nat 1%nat (as_n 0) r p.

Lemma decodes_json : decodes opt m.
Proof.
  intros data. cbn [DecodeMessage m manager_of codec Decode JSONCodec]. unfold JSONCodec_Decode. repeat case_match; eauto.
Qed.

Lemma shut_down : rtc (wserver_step opt m) new_wserver (mkWServer g2 [t RReading PRunning] true false).
Proof.
  eapply rtc_l.
  { apply (wv_accept opt m NewSimpleGateway [] false 0%nat 1%nat (Some (cn, "peer"%string)) (Some (t RReading PRunning)) g1 eq_refl eq_refl).
    reflexivity. }
  eapply rtc_l.
  { apply (wv_read opt m g1 [t RReading PRunning] false true 0 (t RReading PRunning) true
      [CreateTextMessage NewMessageFactory "hello" (as_n 2) 0] g2 eq_refl eq_refl).
    apply run_fst. vm_compute. reflexivity. }
  eapply rtc_l; [apply wv_cancel|]. apply rtc_once, wv_shutdown.
Qed.
End WsLifeDemo.

Lemma ws_sessions_accounted_witness :
  GetSession (LifeDemo.as_n 0) WsLifeDemo.g2 = Some 1%nat /\ Count (sessionManager WsLifeDemo.g2) = 1 /\
  exists s, sessions WsLifeDemo.g2 !! 0%nat = Some (SWs s) /\ w_closeChan s = false.
Proof.
  destruct (ws_sessions_accounted LifeDemo.opt LifeDemo.m LifeDemo.uuid_unique _ WsLifeDemo.shut_down) as (Hg & Hc & Hs).
  split_and!.
  - apply Hg. exists (WsLifeDemo.t RReading PRunning). split_and!; [left|reflexivity..].
  - exact Hc.
  - destruct (Hs (WsLifeDemo.t RReading PRunning)) as (s & H1 & H2 & _); [left|]. exists s. split; [exact H1|exact H2].
Defined.

Lemma ws_connection_ends_witness :
  exists sv', rtc (wserver_step LifeDemo.opt LifeDemo.m) (mkWServer WsLifeDemo.g2 [WsLifeDemo.t RReading PRunning] true false) sv' /\
    wconns sv' = [WsLifeDemo.t RDone PEnded] /\ GetSession (LifeDemo.as_n 0) (wgw sv') = None.
Proof.
  destruct (ws_connection_ends LifeDemo.opt LifeDemo.m LifeDemo.uuid_unique _ 0 (WsLifeDemo.t RReading PRunning)
    WsLifeDemo.decodes_json WsLifeDemo.shut_down eq_refl) as (sv' & Hr & Hc & Hg & _).
  exists sv'. split_and!; [exact Hr|exact Hc|exact Hg].
Defined.
