(* ===== verification/Config.v ===== *)
(** * Configuration: [internal/config/config.go], [pkg/logger/logger.go],
    the options [cmd/server/main.go] builds from them

    The process environment is a function from names to values, the empty
    string standing for an unset variable, as [os.Getenv] reports it. *)

From S2P Require Import Prelude Utf8 GoStrings Json Envelope Codec Factory Conn Frame Session Gateway Servers.

Local Open Scope Z_scope.

Definition environ := string -> string.

Record Config := mkConfig {
  TCPAddr : string;
  CfgOutBuffer : Z;
  WSAddr : string;
  HTTPAddr : string;
  LogLevel : string;
  TCPCodec : Z;
  WSCodec : Z;
  CfgReadTimeout : Z;
  CfgWriteTimeout : Z;
  CfgMaxFrameSize : Z;
  RedisAddr : string;
  RedisDB : Z;
  RedisStream : string;
  RedisGroup : string;
  RedisEnable : bool;
}.

Definition getEnv (env : environ) (key def : string) : string :=
  if bool_decide (env key = ""%string) then def else env key.

(** [v, _ := strconv.Atoi(s)]: the value also when there is an error. *)
Definition atoi_value (s : string) : Z := (Atoi s).1.

Definition Load (env : environ) : Config :=
  let addr := getEnv env "CHAT_TCP_ADDR" ":8080" in
  let outBufStr := getEnv env "CHAT_OUTBUF" "256" in
  let '(outBuf, err) := Atoi outBufStr in
  let outBuf := if bool_decide (err <> None) || (outBuf <=? 0) then 256 else outBuf in
  mkConfig addr outBuf
    (getEnv env "CHAT_WS_ADDR" ":8081") (getEnv env "CHAT_HTTP_ADDR" ":8082")
    (getEnv env "CHAT_LOG_LEVEL" "info")
    (atoi_value (getEnv env "CHAT_TCP_CODEC" "0")) (atoi_value (getEnv env "CHAT_WS_CODEC" "0"))
    (atoi_value (getEnv env "CHAT_TCP_READ_TIMEOUT" "60"))
    (atoi_value (getEnv env "CHAT_TCP_WRITE_TIMEOUT" "15"))
    (atoi_value (getEnv env "CHAT_TCP_MAX_FRAME" "1048576"))
    (getEnv env "CHAT_REDIS_ADDR" "localhost:6379") (atoi_value (getEnv env "CHAT_REDIS_DB" "0"))
    (getEnv env "CHAT_REDIS_STREAM" "chat_stream") (getEnv env "CHAT_REDIS_GROUP" "chat_group")
    (bool_decide (getEnv env "CHAT_REDIS_ENABLE" "true" = "true"%string)).

(** The options [main] passes to the two servers; the WebSocket one has no
    frame size and no heartbeat. *)
Definition tcp_main_options `{ProtoLib} (cfg : Config) : Options :=
  mkOptions (CfgOutBuffer cfg) (wrap64 (CfgReadTimeout cfg * Second)) (wrap64 (CfgWriteTimeout cfg * Second))
    (Second * 30) (60 * Second) (CfgMaxFrameSize cfg) (Some (NewProtocolManager (TCPCodec cfg))) None.
Definition ws_main_options `{ProtoLib} (cfg : Config) : Options :=
  mkOptions (CfgOutBuffer cfg) (wrap64 (CfgReadTimeout cfg * Second)) (wrap64 (CfgWriteTimeout cfg * Second)) 0 0 0
    None (Some (NewProtocolManager (WSCodec cfg))).

(** ** Log levels *)

Inductive Level := DebugLevel | InfoLevel | WarnLevel | ErrorLevel.

Definition parseLevel `{UnicodeTables} (s : string) : Level :=
  let s := ToLower (TrimSpace s) in
  if bool_decide (s = "debug"%string) then DebugLevel
  else if bool_decide (s = "warn"%string) || bool_decide (s = "warning"%string) then WarnLevel
  else if bool_decide (s = "error"%string) then ErrorLevel
  else InfoLevel.

(** The logger's level: set from the environment when the package is loaded,
    and again by [SetLevel]. *)
Definition logger_getEnv (env : environ) (k def : string) : string :=
  let v := env k in if bool_decide (v <> ""%string) then v else def.

Definition logger_init `{UnicodeTables} (env : environ) : Level :=
  parseLevel (logger_getEnv env "CHAT_LOG_LEVEL" "info").

(** The configuration [init] builds the logger from; encoders are named by the
    zap functions.  The logger reads its level through the atomic one. *)
Record EncoderConfig := mkEncoderConfig {
  TimeKey : string; LevelKey : string; NameKey : string; CallerKey : string; MessageKey : string; StacktraceKey : string;
  EncodeLevel : string; EncodeTime : string; EncodeDuration : string; EncodeCaller : string;
}.

Record zapConfig := mkZapConfig {
  zap_Level : Level;
  zap_Development : bool;
  zap_Encoding : string;
  zap_EncoderConfig : EncoderConfig;
  zap_OutputPaths : list string;
  zap_ErrorOutputPaths : list string;
}.

Definition logger_config `{UnicodeTables} (env : environ) : zapConfig :=
  mkZapConfig (logger_init env) false "json"
    (mkEncoderConfig "ts" "level" "logger" "caller" "msg" "stack"
       "LowercaseLevelEncoder" "ISO8601TimeEncoder" "SecondsDurationEncoder" "ShortCallerEncoder")
    ["stdout"%string] ["stderr"%string].

Definition SetLevel `{UnicodeTables} (level : string) (atomicLVL : Level) : Level := parseLevel level.

(** ** Properties *)

(** Setting the configured level changes nothing: the package has read the same
    variable with the same default. *)
Lemma SetLevel_configured `{UnicodeTables} env :
  SetLevel (LogLevel (Load env)) (logger_init env) = logger_init env.
Proof.
  unfold SetLevel, logger_init, logger_getEnv, Load, getEnv. destruct (Atoi _). cbn [LogLevel].
  repeat case_bool_decide; done || naive_solver.
Qed.


Lemma Atoi_range s : in_int64 (Atoi s).1.
Proof.
  assert (Hp : forall (l : list byte) n us z u, 0 <= n <= max_uint64 ->
    parse_digits false 10 n us l = inl (z, u) -> 0 <= z <= max_uint64).
  { induction l as [|b l IH]; intros n us z u Hn; cbn [parse_digits]; [by intros [= <- _]|]. simpl andb. cbn iota.
    destruct (digit_val b) as [d|] eqn:Ed; [|done]. destruct (10 <=? d); [done|].
    destruct (Z.ltb_spec max_uint64 (n * 10 + d)) as [|Hle]; [done|]. apply IH. split; [|done].
    unfold digit_val in Ed. repeat case_match; simplify_eq; lia. }
  unfold Atoi, ParseInt. destruct (match bytes s with | [] => _ | _ => _ end) as [neg ds].
  assert (Hu : 0 <= (ParseUint false ds).1 <= max_uint64).
  { unfold ParseUint. destruct ds as [|b ds]; [unfold max_uint64; simpl; lia|].
    destruct (parse_digits false 10 0 false (b :: ds)) as [[z u]|[]] eqn:E; [|unfold max_uint64; simpl; lia..].
    apply Hp in E; [|unfold max_uint64; lia]. destruct (u && _); simpl; [unfold max_uint64; lia|done]. }
  unfold in_int64, min_int64, max_int64, max_uint64 in *.
  destruct (ParseUint false ds) as [un [[]|]]; simpl in *; [lia|..];
    destruct neg; simpl; repeat case_match; simpl; lia.
Qed.

(** Whatever the environment, the configuration is usable: the
    outgoing buffer is positive, every number fits its machine type, and an
    empty environment gives the documented defaults. *)
Theorem config_load_sane env :
  0 < CfgOutBuffer (Load env) /\ in_int64 (CfgOutBuffer (Load env)) /\
  Forall in_int64 [TCPCodec (Load env); WSCodec (Load env); CfgReadTimeout (Load env);
                   CfgWriteTimeout (Load env); CfgMaxFrameSize (Load env); RedisDB (Load env)] /\
  Load (fun _ => ""%string) =
    mkConfig ":8080" 256 ":8081" ":8082" "info" 0 0 60 15 1048576
      "localhost:6379" 0 "chat_stream" "chat_group" true.
Proof.
  assert (Hb : 0 < CfgOutBuffer (Load env) /\ in_int64 (CfgOutBuffer (Load env))).
  { unfold Load. pose proof (Atoi_range (getEnv env "CHAT_OUTBUF" "256")) as Hr.
    destruct (Atoi (getEnv env "CHAT_OUTBUF" "256")) as [z err]. cbn [CfgOutBuffer fst] in *.
    destruct (bool_decide (err <> None) || (z <=? 0)) eqn:E; [by split|]. split; [|done].
    apply orb_false_iff in E as [_ E]. lia. }
  destruct Hb as [Hb1 Hb2]. split_and!; [done|done| |vm_compute; reflexivity].
  unfold Load. destruct (Atoi _) as [z err]. cbn. repeat constructor; apply Atoi_range.
Qed.

(** The codec settings are numbers.  Naming a codec, as in
    [CHAT_TCP_CODEC=protobuf], is not understood: any value that is not a number
    selects JSON. *)
Theorem codec_setting_by_name_is_json `{ProtoLib} env name :
  env "CHAT_TCP_CODEC"%string = name -> name <> ""%string -> Atoi name = (0, Some ErrSyntax) ->
  codec (NewProtocolManager (TCPCodec (Load env))) = JSONCodec.
Proof.
  intros He Hn Ha. unfold Load. destruct (Atoi (getEnv env "CHAT_OUTBUF" "256")) as [z err]. cbn [TCPCodec].
  unfold getEnv. rewrite bool_decide_false by congruence. rewrite He. unfold atoi_value. by rewrite Ha.
Qed.

Lemma codec_setting_by_name_is_json_witness :
  codec (NewProtocolManager (L := WireProto.lib)
    (TCPCodec (Load (fun k => if bool_decide (k = "CHAT_TCP_CODEC"%string) then "protobuf"%string else ""%string)))) = JSONCodec.
Proof.
  apply (codec_setting_by_name_is_json _ "protobuf"); [reflexivity|discriminate|vm_compute; reflexivity].
Defined.

(** The read timeout the server is started with.  A setting of
    10, 15 or 30 seconds makes every TCP read fail at once; the default of 60
    keeps the connection but puts the deadline 147 years ahead. *)
Theorem configured_read_timeout `{ProtoLib} env :
  let offset s := wrap64 (ReadTimeout (tcp_main_options (Load (fun k =>
      if bool_decide (k = "CHAT_TCP_READ_TIMEOUT"%string) then s else env k))) * Second) in
  offset "10"%string < 0 /\ offset "15"%string < 0 /\ offset "30"%string < 0 /\
  offset "60"%string = 4659767778871345152.
Proof.
  intros offset. unfold offset, tcp_main_options, Load.
  destruct (Atoi (getEnv _ "CHAT_OUTBUF" "256")) as [z err]. cbn [ReadTimeout CfgReadTimeout].

  split_and!; vm_compute; reflexivity.
Qed.

(** Log levels are matched without regard to case and blanks;
    anything unknown is the info level. *)
Theorem parse_level_spec `{UnicodeTables} s :
  parseLevel s = parseLevel (TrimSpace s) /\
  (parseLevel s = DebugLevel <-> ToLower (TrimSpace s) = "debug"%string) /\
  (parseLevel s = ErrorLevel <-> ToLower (TrimSpace s) = "error"%string) /\
  (parseLevel s = WarnLevel <-> ToLower (TrimSpace s) = "warn"%string \/ ToLower (TrimSpace s) = "warning"%string).
Proof.
  unfold parseLevel. rewrite TrimSpace_idemp. split; [done|].
  generalize (ToLower (TrimSpace s)) as t. intros t.
  repeat (case_bool_decide; simpl); subst; split_and!; split; intros; destruct_or?; done || auto.
Qed.
