(* ===== verification/CmdClient.v ===== *)
(** * The command-line clients: [cmd/client/main.go], [cmd/peek/main.go]

    The sample client has frame functions of its own.  They agree with the
    server's when the header arrives in one piece; the client reads the header
    with a single [Read], so a header that arrives in pieces is misread.  The
    peek tool uses the library codec and prints what it receives. *)

From S2P Require Import Prelude Utf8 GoStrings Base64 Json Envelope Codec Conn Frame.

Local Open Scope Z_scope.

(** ** [cmd/client] *)

Definition writeFrame (c : conn) (payload : list byte) : option io_error * conn :=
  match conn_write c (put_be32 (wrapU32 (zlen payload))) with
  | (Some e, c') => (Some e, c')
  | (None, c') => conn_write c' payload
  end.

(** The loop of [ioReadFull] with [want] bytes missing: what it read and the
    error that ended it.  A call of [Read] is one iteration. *)
Fixpoint ioReadFull_loop (fuel : nat) (c : conn) (want : nat) : list byte * option io_error * conn :=
  match want with
  | O => ([], None, c)
  | S _ =>
      match fuel with
      | O => ([], None, c)
      | S f =>
          match conn_read c want with
          | (d, Some e, c') => ([], Some e, c')
          | (d, None, c') =>
              let '(d', e, c2) := ioReadFull_loop f c' (want - length d) in (d ++ d', e, c2)
          end
      end
  end.

(** Every iteration but the last uses up a chunk. *)
Definition ioReadFull (c : conn) (n : nat) : list byte * option io_error * conn :=
  ioReadFull_loop (S (length (inbuf c))) c n.

(** The buffer holds what was read, zero elsewhere. *)
Definition zero_fill (d : list byte) (n : nat) : list byte := d ++ replicate (n - length d) zero.

Definition readFrame (c : conn) : (list byte + io_error) * conn :=
  match conn_read c 4 with
  | (_, Some e, c') => (inr e, c')
  | (d, None, c') =>
      let n := Z.to_nat (be32 (zero_fill d 4)) in
      match ioReadFull c' n with
      | (buf, None, c2) => (inl (zero_fill buf n), c2)
      | (_, Some e, c2) => (inr e, c2)
      end
  end.

(** The reading loop is [io.ReadFull] with the bare error of the connection. *)
Lemma ioReadFull_spec c n fuel : (length (inbuf c) < fuel)%nat ->
  exists c', ioReadFull_loop fuel c n =
    ((if (n <=? length (pending c))%nat then take n (pending c) else pending c),
     (if (n <=? length (pending c))%nat then None else Some (inerr c)), c') /\
    pending c' = drop n (pending c) /\ inerr c' = inerr c.
Proof.
  revert c n. induction fuel as [|f IH]; intros c n Hf; [lia|].
  destruct n as [|n]; [exists c; by destruct (pending c)|]. cbn [ioReadFull_loop]. unfold conn_read.
  destruct (inbuf c) as [|ch l] eqn:Ei.
  { exists c. unfold pending. rewrite Ei. simpl. done. }
  assert (Hpend : pending c = ch ++ concat l) by (unfold pending; by rewrite Ei).
  destruct (Nat.leb_spec (S n) (length ch)) as [Hle|Hgt].
  - rewrite length_take, Nat.min_l, Nat.sub_diag by lia.
    exists (set_in c (push_chunk (drop (S n) ch) l)).
    rewrite Hpend, length_app, (proj2 (Nat.leb_le (S n) _)) by lia.
    rewrite take_app_le, drop_app_le by lia. split; [|split; [|done]].
    + destruct f as [|f]; cbn [ioReadFull_loop]; by rewrite app_nil_r.
    + by rewrite pending_set_in, push_chunk_concat.
  - rewrite take_ge, drop_ge by lia. cbn [push_chunk].
    destruct (IH (set_in c l) (S n - length ch)%nat) as (c' & E & Hp & He); [simpl in *; lia|].
    rewrite E. rewrite pending_set_in in *. exists c'. rewrite Hpend, length_app.
    assert ((S n - length ch <=? length (concat l))%nat = (S n <=? length ch + length (concat l))%nat) as ->.
    { destruct (Nat.leb_spec (S n - length ch) (length (concat l))), (Nat.leb_spec (S n) (length ch + length (concat l))); lia. }
    rewrite take_app_ge, drop_app_ge by lia. split; [|done].
    destruct (S n <=? length ch + length (concat l))%nat; reflexivity.
Qed.

(** The client writes what the server writes: for payloads up
    to 16 MiB its writeFrame is the library's WriteFrame, errors included; above
    that the server refuses and the client still sends a frame that every
    ReadFrame rejects. *)
Theorem client_write_is_server_write c cn payload :
  (zlen payload <= MaxFrameSize ->
     WriteFrame (Some c) cn payload = (ErrIO <$> (writeFrame cn payload).1, (writeFrame cn payload).2)) /\
  (MaxFrameSize < zlen payload < 4294967296 -> wfail cn = None ->
     writeFrame cn payload = (None, mkConn (inbuf cn) (inerr cn) (out cn ++ frame payload) None) /\
     forall rest e, (frame_spec (frame payload ++ rest) e).1 = inr (ErrFrameSize (zlen payload))).
Proof.
  split.
  - intros Hp. unfold WriteFrame, writeFrame. rewrite (proj2 (Z.ltb_ge _ _)) by done.
    destruct (conn_write cn (put_be32 (wrapU32 (zlen payload)))) as [[e|] c1]; [done|].
    by destruct (conn_write c1 payload) as [[e|] c2].
  - intros Hp Hw. assert (Hwr : wrapU32 (zlen payload) = zlen payload) by (apply Z.mod_small; unfold zlen in *; lia).
    split.
    + unfold writeFrame. rewrite Hwr, !conn_write_ok by done. simpl. unfold frame. by rewrite <- app_assoc.
    + intros rest e. unfold frame_spec, frame. rewrite <- app_assoc.
      rewrite (proj2 (Nat.ltb_ge _ _)) by (rewrite length_app, length_put_be32; lia).
      rewrite (take_app_exact (put_be32 (zlen payload))) by done. rewrite be32_put by (unfold zlen in *; lia).
      assert ((zlen payload <=? 0) || (MaxFrameSize <? zlen payload) = true) as -> by (unfold MaxFrameSize in *; lia). done.
Qed.

Lemma client_read_whole c p k : inbuf c <> [] ->
  (match inbuf c with ch :: _ => 4 <= length ch | [] => False end)%nat ->
  pending c = frame p ++ k -> zlen p < 4294967296 ->
  exists c', readFrame c = (inl p, c') /\ pending c' = k.
Proof.
  intros Hne Hch Hp Hlen. destruct (inbuf c) as [|ch l] eqn:Ei; [done|]. cbn iota in Hch.
  unfold readFrame, conn_read. rewrite Ei.
  assert (Hcat : ch ++ concat l = put_be32 (zlen p) ++ p ++ k).
  { unfold pending in Hp. rewrite Ei in Hp. unfold frame in Hp. by rewrite <- app_assoc in Hp. }
  assert (Ht : take 4 ch = put_be32 (zlen p)).
  { apply (f_equal (take 4)) in Hcat. rewrite take_app_le in Hcat by lia. rewrite Hcat. by apply take_app_exact. }
  assert (Hd : drop 4 ch ++ concat l = p ++ k).
  { apply (f_equal (drop 4)) in Hcat. rewrite drop_app_le in Hcat by lia. rewrite Hcat. by apply drop_app_exact. }
  assert (Hn : be32 (zero_fill (take 4 ch) 4) = zlen p).
  { unfold zero_fill. rewrite Ht, length_put_be32, Nat.sub_diag, app_nil_r. apply be32_put. unfold zlen in *. lia. }
  cbn zeta. rewrite !Hn.
  set (c1 := set_in c (push_chunk (drop 4 ch) l)).
  assert (Hp1 : pending c1 = p ++ k) by (unfold c1; by rewrite pending_set_in, push_chunk_concat).
  unfold ioReadFull. destruct (ioReadFull_spec c1 (Z.to_nat (zlen p)) (S (length (inbuf c1)))) as (c' & -> & Hp' & _); [lia|].
  assert (Hz : Z.to_nat (zlen p) = length p) by (unfold zlen; lia). rewrite Hz, Hp1 in *. rewrite length_app.
  rewrite (proj2 (Nat.leb_le _ _)) by lia. rewrite take_app_length. unfold zero_fill.
  rewrite Nat.sub_diag, app_nil_r. exists c'. split; [done|]. rewrite Hp'. by rewrite drop_app_length.
Qed.

(** The client reads a frame back when its header arrives in
    one piece, however the payload is cut, and leaves the rest of the stream. *)
Theorem client_reads_frame c p k :
  (exists ch l, inbuf c = ch :: l /\ 4 <= length ch)%nat ->
  pending c = frame p ++ k -> zlen p < 4294967296 ->
  exists c', readFrame c = (inl p, c') /\ pending c' = k.
Proof. intros (ch & l & Ei & Hc) Hp Hl. apply client_read_whole; rewrite ?Ei; done. Qed.

Lemma client_reads_frame_witness :
  let c := mkConn [frame (bytes "ab"); bytes "rest"] EOF [] None in
  exists c', readFrame c = (inl (bytes "ab"), c') /\ pending c' = bytes "rest".
Proof.
  intros c. apply client_reads_frame.
  - do 2 eexists. split; [reflexivity|]. vm_compute. lia.
  - vm_compute. reflexivity.
  - vm_compute. reflexivity.
Defined.

(** A header in pieces is misread.  When the first byte of a frame
    below 16 MiB arrives alone, the client takes it for a whole header of length
    0: it reports an empty frame without an error and leaves the other header
    bytes in the stream. *)
Theorem client_split_header_misread c p k l :
  inbuf c = take 1 (frame p) :: l -> pending c = frame p ++ k -> zlen p < MaxFrameSize ->
  exists c', readFrame c = (inl [], c') /\ pending c' = drop 1 (frame p) ++ k.
Proof.
  intros Ei Hp Hlen. unfold readFrame, conn_read. rewrite Ei.
  assert (Hb : take 1 (frame p) = [z2b 0]).
  { unfold frame, put_be32. simpl. do 2 f_equal. rewrite Z.shiftr_div_pow2 by lia.
    apply Z.div_small. unfold zlen, MaxFrameSize in *. lia. }
  rewrite Hb. cbn [take drop push_chunk]. change (Z.to_nat (be32 (zero_fill [z2b 0] 4))) with O.
  eexists. split; [reflexivity|]. rewrite pending_set_in.
  unfold pending in Hp. rewrite Ei in Hp. cbn [concat] in Hp.
  apply (app_inv_head (take 1 (frame p))). rewrite Hp, app_assoc. by rewrite take_drop.
Qed.

Lemma client_split_header_misread_witness :
  let c := mkConn [take 1 (frame (bytes "ab")); drop 1 (frame (bytes "ab"))] EOF [] None in
  exists c', readFrame c = (inl [], c') /\ pending c' = drop 1 (frame (bytes "ab")) ++ [].
Proof.
  intros c. apply (client_split_header_misread c (bytes "ab") [] [drop 1 (frame (bytes "ab"))]);
    vm_compute; reflexivity.
Defined.

(** ** [cmd/peek] *)

Definition parseCodec (s : string) : Z + string :=
  if bool_decide (s ∈ ["json"; "JSON"; "0"]%string) then inl CodecJson
  else if bool_decide (s ∈ ["protobuf"; "pb"; "PB"; "1"]%string) then inl CodecProtobuf
  else inr ("unknown codec: " ++ s)%string.

(** What is printed of the data of an envelope. *)
Inductive data_line := DataEmpty | DataText (s : list byte) | DataBase64 (s : list byte).

Definition peek_data (e : Envelope) : data_line :=
  match Data e with
  | [] => DataEmpty
  | d => if utf8_valid d then DataText d
         else let s := b64_encode d in
              DataBase64 (if (80 <? length s)%nat then take 80 s ++ bytes "..." else s)
  end.

(** The peek tool.  Every codec name it accepts selects a
    codec that exists, and what it prints of a payload of at most 60 bytes
    determines the payload. *)
Theorem peek_shows_data `{ProtoLib} s e1 e2 :
  (forall n, parseCodec s = inl n -> exists c, NewCodec n = inl c) /\
  ((length (Data e1) <= 60)%nat -> (length (Data e2) <= 60)%nat ->
   peek_data e1 = peek_data e2 -> Data e1 = Data e2).
Proof.
  split.
  - intros n. unfold parseCodec. repeat case_bool_decide; intros [= <-]; eexists; reflexivity.
  - assert (Hlen : forall d, length (b64_encode d) = (4 * ((length d + 2) / 3))%nat).
    { intros d. induction d as [|a|a b|a b c d IH] using b64_ind; [done..|]. cbn [b64_encode length].
      rewrite IH. replace (S (S (S (length d))) + 2)%nat with (1 * 3 + (length d + 2))%nat by lia.
      rewrite Nat.div_add_l by lia. lia. }
    assert (Hshort : forall d, (length d <= 60)%nat -> (80 <? length (b64_encode d))%nat = false).
    { intros d Hd. rewrite Hlen. apply Nat.ltb_ge.
      assert ((length d + 2) / 3 <= 20)%nat; [|lia]. pose proof (Nat.Div0.div_le_mono (length d + 2) 62 3 ltac:(lia)).
      etrans; [eassumption|]. vm_compute. lia. }
    unfold peek_data. intros H1 H2.
    destruct (Data e1) as [|x d1], (Data e2) as [|y d2]; try (repeat case_match; done).
    rewrite !Hshort by done. destruct (utf8_valid (x :: d1)), (utf8_valid (y :: d2)); try done; [congruence|].
    intros E0. assert (E : b64_encode (x :: d1) = b64_encode (y :: d2)) by congruence.
    apply (f_equal b64_decode) in E. rewrite !b64_roundtrip in E. congruence.
Qed.

Lemma peek_shows_data_witness :
  let e := mkEnvelope "" "" "" "" "" "" 0 [z2b 255] in
  peek_data e = DataBase64 (bytes "/w==") /\ Data e = Data e.
Proof.
  intros e. split; [vm_compute; reflexivity|].
  apply (peek_shows_data (H := WireProto.lib) "json" e e); [vm_compute; lia|vm_compute; lia|reflexivity].
Defined.
