(* ===== verification/Tools.v ===== *)
(** * The command-line tools as programs: [cmd/client/main.go], [cmd/peek/main.go]

    What a tool prints is a list of lines, each a constructor with the values
    printed; how it ends is a panic, an exit code or a normal return.  Dialling
    is I/O: the connection or the error is an argument.  The theorems run the
    tools against the server of this repository. *)

From S2P Require Import Prelude Utf8 GoStrings Base64 Json Envelope Codec Factory Conn Frame Session Gateway Servers CmdClient.

Local Open Scope Z_scope.

(** ** [cmd/client] *)

(** The client's own envelope. *)
Record CEnvelope := mkCEnvelope {
  CVersion : string;
  CType : string;
  CEncoding : string;
  CMid : string;
  CCorrelation : string;
  CFrom : string;
  CTo : string;
  CTs : Z;
  CData : list byte;
}.

Definition zero_cenvelope : CEnvelope := mkCEnvelope "" "" "" "" "" "" "" 0 [].

Definition omit_empty (name s : string) : list (list byte * jval) :=
  if bool_decide (s = ""%string) then [] else [field name (jstr s)].

Definition jCEnvelope (e : CEnvelope) : jval :=
  JObj ([field "version" (jstr (CVersion e)); field "type" (jstr (CType e))] ++
        omit_empty "encoding" (CEncoding e) ++ omit_empty "mid" (CMid e) ++
        omit_empty "correlation_id" (CCorrelation e) ++ omit_empty "from" (CFrom e) ++ omit_empty "to" (CTo e) ++
        [field "ts" (jint (CTs e))] ++
        match CData e with [] => [] | d => [field "data" (jdata (Some d))] end).

Definition client_fields : list string :=
  ["version"; "type"; "encoding"; "mid"; "correlation_id"; "from"; "to"; "ts"; "data"]%string.

(** The struct under construction, with the stale bytes of [Data]. *)
Definition client_set : setter (CEnvelope * list byte) := fun n v es =>
  let '(mkCEnvelope ve ty en mi co fr to ts da, spare) := es in
  let upd s (f : string -> CEnvelope) := let '(s', err) := dec_string v s in ((f s', spare), err) in
  if String.eqb n "version" then upd ve (fun x => mkCEnvelope x ty en mi co fr to ts da)
  else if String.eqb n "type" then upd ty (fun x => mkCEnvelope ve x en mi co fr to ts da)
  else if String.eqb n "encoding" then upd en (fun x => mkCEnvelope ve ty x mi co fr to ts da)
  else if String.eqb n "mid" then upd mi (fun x => mkCEnvelope ve ty en x co fr to ts da)
  else if String.eqb n "correlation_id" then upd co (fun x => mkCEnvelope ve ty en mi x fr to ts da)
  else if String.eqb n "from" then upd fr (fun x => mkCEnvelope ve ty en mi co x to ts da)
  else if String.eqb n "to" then upd to (fun x => mkCEnvelope ve ty en mi co fr x ts da)
  else if String.eqb n "ts" then
    let '(z, err) := dec_int64 v ts in ((mkCEnvelope ve ty en mi co fr to z da, spare), err)
  else
    let '((d, sp), err) := dec_bytes v (da, spare) in ((mkCEnvelope ve ty en mi co fr to ts d, sp), err).

Inductive console :=
| Connected (addr : string)
| WelcomeLine (ty : string) (ts : Z) (data : list byte)
| DecodeWelcomeFailed (e : dec_error)
| ReadWelcomeFailed (e : io_error)
| SentLine.

Definition client_addr : string := "127.0.0.1:8080".

(** The welcome message as far as it is shown. *)
Definition read_welcome (c : conn) : console * conn :=
  match readFrame c with
  | (inl buf, c1) =>
      (match Unmarshal client_fields client_set buf (zero_cenvelope, []) with
       | ((env, _), None) => WelcomeLine (CType env) (CTs env) (CData env)
       | (_, Some err) => DecodeWelcomeFailed err
       end, c1)
  | (inr err, c1) => (ReadWelcomeFailed err, c1)
  end.

Definition client_message (mid : string) (ts : Z) : CEnvelope :=
  mkCEnvelope "1.0" "text" "json" mid "" "go-client" "" ts (bytes "Hello from Go client").

(** [json.NewEncoder(&payload).Encode(&env)] adds a line break. *)
Definition client_payload (mid : string) (ts : Z) : list byte := Marshal (jCEnvelope (client_message mid ts)) ++ [z2b 10].

(** The lines printed, how the program ends and the connection it leaves; the
    deferred [Close] runs in every case. *)
Definition client_main (dial : conn + io_error) (mid : string) (ts : Z)
  : list console * outcome unit * option conn :=
  match dial with
  | inr err => ([], Panic "dial", None)
  | inl c =>
      let '(line, c1) := read_welcome c in
      match writeFrame c1 (client_payload mid ts) with
      | (Some err, c2) => ([Connected client_addr; line], Panic "write", Some (conn_close c2))
      | (None, c2) => ([Connected client_addr; line; SentLine], Ret tt, Some (conn_close c2))
      end
  end.

(** ** [cmd/peek] *)

Inductive peek_error :=
| PeekCodec (msg : string)
| PeekUnsupported (e : codec_error)
| PeekDial (e : io_error)
| PeekRead (e : frame_error)
| PeekDecode (e : codec_error).

Inductive peek_end :=
| PeekRunning
| PeekExit (code : Z) (e : peek_error)          (** after a message on stderr *)
| PeekPanic (msg : string).

(** What is printed of one envelope. *)
Record peek_line := mkPeek { p_type : string; p_ts : Z; p_data : data_line }.

Definition peek_print (e : Envelope) : peek_line := mkPeek (Type_ e) (Ts e) (peek_data e).

(** The loop, one buffer choice per frame. *)
Fixpoint peek_loop (mc : MessageCodec) (max : Z) (picks : list (option nat)) (fc : option FrameCodec) (cn : option conn)
  : list peek_line * peek_end :=
  match picks with
  | [] => ([], PeekRunning)
  | pick :: picks' =>
      match ReadFrame pick fc cn with
      | (inr err, _, _) => ([], PeekExit 1 (PeekRead err))
      | (inl data, fc', cn') =>
          match Decode mc data zero_envelope max with
          | Panic p => ([], PeekPanic p)
          | Ret (Some err, _) => ([], PeekExit 1 (PeekDecode err))
          | Ret (None, env) =>
              let '(lines, fin) := peek_loop mc max picks' fc' cn' in (peek_print env :: lines, fin)
          end
      end
  end.

Section peek.
Context `{ProtoLib}.

(** The flags, the connection and the buffer choices are arguments. *)
Definition peek_main (codecS : string) (max : Z) (dial : conn + io_error) (picks : list (option nat))
  : list peek_line * peek_end :=
  match parseCodec codecS with
  | inr msg => ([], PeekExit 2 (PeekCodec msg))
  | inl cc =>
      match NewCodec cc with
      | inr err => ([], PeekExit 2 (PeekUnsupported err))
      | inl mc =>
          match dial with
          | inr err => ([], PeekExit 1 (PeekDial err))
          | inl cn => peek_loop mc max picks (Some NewFrameCodec) (Some cn)
          end
      end
  end.
End peek.

(** ** Peek shows what a server sends *)

Lemma peek_loop_frames (m : Manager) `{CodecLaw (codec m)} max es bs picks fc cn :
  Forall2 (fun e b => Encode (codec m) e = inl b /\ legal_payload b /\ Z.of_nat (length b) <= max /\ admits max /\ accepts e) es bs ->
  pending cn = concat (frame <$> bs) -> inerr cn = EOF -> (length es < length picks)%nat ->
  peek_loop (codec m) max picks (Some fc) (Some cn) =
    (peek_print <$> (norm <$> es), PeekExit 1 (PeekRead (ErrIO EOF))).
Proof.
  intros Hf. revert picks fc cn. induction Hf as [|e b es bs (Eb & Hb & Hmax & Hadm & Ha) Hf IH]; intros picks fc cn Hp He Hk;
    (destruct picks as [|pick picks]; [simpl in Hk; lia|]); cbn [peek_loop];
    destruct (ReadFrame_refines pick fc cn) as (fc' & cn' & -> & Hp' & He' & _); rewrite Hp, He in *.
  - done.
  - rewrite fmap_cons in *. cbn [concat] in *. rewrite frame_spec_frame in * by done. cbn [fst snd] in *.
    rewrite (decode_encoded e b) by done. rewrite (IH picks fc' cn') by (done || simpl in Hk; lia). done.
Qed.

(** Peek shows what a server sends.  For any codec that keeps
    its interface law: envelopes sent one after the other on a healthy session
    all succeed, and the peek tool, reading the same bytes in any chunks with
    any buffers, prints type, time and data of each of them in order, as the
    codec normalises them, and exits with code 1 at the end of the stream. *)
Theorem peek_shows_sent `{ProtoLib} (m : Manager) `{CodecLaw (codec m)} codecS n max es snd cn picks :
  parseCodec codecS = inl n -> NewCodec n = inl (codec m) ->
  state (t_base snd) = SessionStateActive -> t_manager snd = m ->
  wfail (t_conn snd) = None -> out (t_conn snd) = [] -> Forall (sendable m max) es ->
  pending cn = out (t_conn (send_all es snd).2) -> inerr cn = EOF -> (length es < length picks)%nat ->
  (send_all es snd).1 = None /\
  peek_main codecS max (inl cn) picks =
    (peek_print <$> (norm <$> es), PeekExit 1 (PeekRead (ErrIO EOF))).
Proof.
  intros Hcn Hcc Hst Hm Hw Ho Hes Hp He Hk. destruct (send_all_ok m _ es snd Hst Hm Hw Hes) as (s' & bs & E & Eo & Hf).
  rewrite E in *. split; [done|]. unfold peek_main. rewrite Hcn, Hcc. apply (peek_loop_frames m max es bs); try done.
  rewrite Hp. simpl. by rewrite Eo, Ho.
Qed.

(** ** The client meets the server *)

Lemma field_of_client n : n ∈ client_fields -> field_of client_fields (sanitize (bytes n)) = Some n.
Proof.
  intros Hn. unfold client_fields in Hn.
  repeat (apply elem_of_cons in Hn as [->|Hn]; [vm_compute; reflexivity|]). by apply elem_of_nil in Hn.
Qed.

Lemma decode_member_client n v ms es saved : n ∈ client_fields ->
  decode_members client_fields client_set ((sanitize (bytes n), v) :: ms) es saved =
    (let '(es', err) := client_set n v es in decode_members client_fields client_set ms es' (first_err saved err)).
Proof. intros Hn. cbn [decode_members]. by rewrite field_of_client. Qed.

(** A text with a line break after it. *)
Lemma Unmarshal_line {A} names (set : setter A) l a : jfits maxNestingDepth (JObj l) ->
  Unmarshal names set (Marshal (JObj l) ++ [z2b 10]) a = decode_struct names set (jsan (JObj l)) a.
Proof. intros Hl. unfold Unmarshal, parse_whole, Marshal. by rewrite parse_object_enc. Qed.

(** The client decodes what the server encodes. *)
Lemma client_decodes_envelope e : in_int64 (Ts e) ->
  Unmarshal client_fields client_set (Marshal (jEnvelope e) ++ [z2b 10]) (zero_cenvelope, []) =
    (mkCEnvelope (san (Version e)) (san (Type_ e)) (san (Encoding_ e)) (san (Mid e)) (san (Correlation e))
       (san (From e)) "" (Ts e) (Data e), [], None).
Proof.
  intros Hts. pose proof (jfits_envelope e Hts) as Hf. unfold jEnvelope in *. rewrite Unmarshal_line by done.
  unfold decode_struct. cbn [jsan]. unfold field, jstr.
  rewrite fmap_app, !fmap_cons. cbn [fst snd jsan app]. change (jsan (jint (Ts e))) with (jint (Ts e)).
  do 7 (rewrite decode_member_client by (unfold client_fields; set_solver);
    cbn -[dec_int64 decode_members sanitize jint jdata list_ascii_of_string client_fields]).
  rewrite dec_int64_jint by done.
  cbn -[decode_members sanitize jdata list_ascii_of_string client_fields]. destruct (Data e) as [|x d] eqn:Ed.
  - done.
  - rewrite fmap_cons. cbn [fst snd]. rewrite jsan_jdata.
    rewrite decode_member_client by (unfold client_fields; set_solver).
    cbn -[b64_encode b64_decode]. by rewrite b64_roundtrip.
Qed.

(** The server decodes what the client encodes. *)
Definition client_envelope (mid : string) (ts : Z) : Envelope :=
  mkEnvelope "1.0" MsgText EncodingJSON "go-client" (san mid) "" ts (bytes "Hello from Go client").

Lemma jfits_client mid ts : in_int64 ts -> jfits maxNestingDepth (jCEnvelope (client_message mid ts)).
Proof.
  intros Hts. unfold jCEnvelope, client_message, omit_empty. cbn [CEncoding CMid CCorrelation CFrom CTo CTs CData CVersion CType].
  rewrite !foldr_app || idtac. split; [done|]. repeat case_bool_decide; simpl; split_and!; try done; by exists ts.
Qed.

Lemma decode_members_app {A} names (set : setter A) l1 l2 a saved :
  decode_members names set (l1 ++ l2) a saved =
    (let '(a', saved') := decode_members names set l1 a saved in decode_members names set l2 a' saved').
Proof.
  revert a saved. induction l1 as [|[k v] l1 IH]; intros a saved; [done|]. cbn [app decode_members].
  destruct (field_of names k) as [n|]; [|apply IH]. destruct (set n v a). apply IH.
Qed.

Lemma server_decodes_client mid ts : in_int64 ts ->
  decode_envelope (jsan (jCEnvelope (client_message mid ts))) zero_envelope = (client_envelope mid ts, None).
Proof.
  intros Hts. unfold decode_envelope, decode_struct, jCEnvelope, client_message. cbn [jsan].
  cbn [CEncoding CMid CCorrelation CFrom CTo CTs CData CVersion CType].
  rewrite !fmap_app, decode_members_app.
  set (p1 := decode_members _ _ (_ <$> [field "version" _; _]) _ _).
  assert (p1 = (mkEnvelope "1.0" "text" "" "" "" "" 0 [], [], None)) as -> by (vm_compute; reflexivity). cbn iota; rewrite decode_members_app.
  set (p1 := decode_members _ _ (_ <$> omit_empty "encoding" "json") _ _).
  assert (p1 = (mkEnvelope "1.0" "text" "json" "" "" "" 0 [], [], None)) as -> by (vm_compute; reflexivity). cbn iota; rewrite decode_members_app.
  set (p1 := decode_members _ _ (_ <$> omit_empty "mid" mid) _ _).
  assert (p1 = (mkEnvelope "1.0" "text" "json" "" (san mid) "" 0 [], [], None)) as ->.
  { unfold p1, omit_empty. case_bool_decide as Hm; [by rewrite Hm|]. rewrite fmap_cons. unfold field, jstr. cbn [fst snd jsan].
    rewrite decode_member_envelope by (unfold envelope_fields; set_solver). done. }
  cbn iota; rewrite decode_members_app.
  change (omit_empty "correlation_id" "") with (@nil (list byte * jval)).
  change (omit_empty "to" "") with (@nil (list byte * jval)). rewrite !fmap_nil. cbn [app decode_members].
  rewrite decode_members_app.
  set (p1 := decode_members _ _ (_ <$> omit_empty "from" "go-client") _ _).
  assert (p1 = (mkEnvelope "1.0" "text" "json" "go-client" (san mid) "" 0 [], [], None)) as -> by reflexivity. cbn iota; rewrite decode_members_app.
  set (p1 := decode_members _ _ (_ <$> [field "ts" (jint ts)]) _ _).
  assert (p1 = (mkEnvelope "1.0" "text" "json" "go-client" (san mid) "" ts [], [], None)) as ->.
  { unfold p1. rewrite fmap_cons. unfold field. cbn [fst snd]. change (jsan (jint ts)) with (jint ts).
    rewrite decode_member_envelope by (unfold envelope_fields; set_solver). cbn -[dec_int64 decode_members jint].
    by rewrite dec_int64_jint. }
  reflexivity.
Qed.

(** Reading leaves the write side alone. *)
Lemma conn_read_out c n : out (conn_read c n).2 = out c /\ wfail (conn_read c n).2 = wfail c.
Proof. unfold conn_read. by destruct (inbuf c). Qed.

Lemma ioReadFull_out fuel c n : out (ioReadFull_loop fuel c n).2 = out c /\ wfail (ioReadFull_loop fuel c n).2 = wfail c.
Proof.
  revert c n. induction fuel as [|f IH]; intros c [|n]; try done. cbn [ioReadFull_loop].
  pose proof (conn_read_out c (S n)) as [H1 H2]. destruct (conn_read c (S n)) as [[d [e|]] c']; [done|]. cbn [snd] in *.
  pose proof (IH c' (S n - length d)%nat) as [H3 H4].
  destruct (ioReadFull_loop f c' (S n - length d)) as [[d' e'] c2]. cbn [snd] in *. split; congruence.
Qed.

Lemma readFrame_out c r c' : readFrame c = (r, c') -> out c' = out c /\ wfail c' = wfail c.
Proof.
  unfold readFrame, ioReadFull. pose proof (conn_read_out c 4) as [H1 H2].
  destruct (conn_read c 4) as [[d [e|]] c1]; [by intros [= <- <-]|]. cbn [snd] in *. set (n := Z.to_nat _).
  pose proof (ioReadFull_out (S (length (inbuf c1))) c1 n) as [H3 H4].
  destruct (ioReadFull_loop (S (length (inbuf c1))) c1 n) as [[buf [e|]] c2]; intros [= <- <-]; cbn [snd] in *; split; congruence.
Qed.

Section meeting.
Context `{RtEnv}.

(** What the server writes first. *)
Definition welcome_frame (w : GW session) : list byte :=
  Marshal (jEnvelope (CreateTextMessage NewMessageFactory welcome_text (uuid_of (n_uuid w + 1)) (millis (now_ns (n_now w + 1)))))
  ++ [z2b 10].

Lemma accept_writes_welcome a sc cn raddr w :
  wfail cn = None -> zlen (welcome_frame w) <= MaxFrameSize ->
  exists s, sessions (tcp_accept a sc cn raddr (manager_of JSONCodec) w).2 !! a = Some (STcp s) /\
    out (t_conn s) = out cn ++ frame (welcome_frame w).
Proof.
  intros Hw Hl. unfold tcp_accept, new_uuid, time_now, store_sess, store_ctx. unfold_go.
  cbn [n_uuid tick n_now]. rewrite !Nat.add_0_r. set (id := uuid_of (n_uuid w)). set (s := newTcpSession id raddr cn _ _).
  set (c := NewSessionContext a (STcp s)). set (w0 := set_ctxs <[sc := c]> _).
  rewrite (OnSessionOpen_eval sc c (STcp s) w0) by (cbn; rewrite ?lookup_insert_eq; done).
  cbn [snd sessions sess c NewSessionContext]. rewrite lookup_insert_eq.
  exists (tcp_SendEnvelope (welcome_for w0) s).2. split; [cbn [SendEnvelope session_Session]; by destruct (tcp_SendEnvelope (welcome_for w0) s)|].
  unfold tcp_SendEnvelope. cbn [State t_base newTcpSession NewBase state s t_manager EncodeMessage codec manager_of Encode JSONCodec JSONCodec_Encode].
  replace (Marshal (jEnvelope (welcome_for w0)) ++ [z2b 10]) with (welcome_frame w)
    by (unfold welcome_frame, welcome_for, w0; cbn [n_uuid n_now set_ctxs set_sessions tick]; by rewrite ?Nat.add_0_r).
  by rewrite WriteFrame_ok.
Qed.

(** C24 (roundtrip): the sample client meets the server.  When each side reads
    the bytes the other writes (the header of the welcome in one piece), the
    server greets the connection it accepts; the client shows the greeting's
    type, time and text, sends its message and returns; and the server hands
    exactly that message to its gateway before it closes the session.  Every
    byte one side reads is a byte the other has written. *)
Theorem client_meets_server opt w a sc cn raddr c ch l mid ts picks :
  wfail cn = None -> out cn = [] -> pending cn = frame (client_payload mid ts) -> inerr cn = EOF ->
  inbuf c = ch :: l -> (4 <= length ch)%nat -> pending c = frame (welcome_frame w) -> wfail c = None -> out c = [] ->
  in_int64 ts -> in_int64 (millis (now_ns (n_now w + 1))) ->
  zlen (welcome_frame w) <= MaxFrameSize -> zlen (client_payload mid ts) <= MaxFrameSize ->
  zlen (client_payload mid ts) <= OptMaxFrameSize opt -> live opt -> (2 <= length picks)%nat ->
  let w1 := (tcp_accept a sc cn raddr (manager_of JSONCodec) w).2 in
  exists s w2 c',
    sessions w1 !! a = Some (STcp s) /\ out (t_conn s) = pending c /\
    client_main (inl c) mid ts =
      ([Connected client_addr;
        WelcomeLine "text" (millis (now_ns (n_now w + 1))) (Marshal (jTextPayload (mkTextPayload welcome_text)));
        SentLine], Ret tt, Some c') /\
    out c' = pending cn /\
    tcp_readLoop opt picks a sc w1 = (Ret (true, [client_envelope mid ts]), w2) /\
    GetSession (uuid_of (n_uuid w)) w2 = None.
Proof.
  intros Hw Ho Hp He Hin Hch Hpc Hwc Hoc Hts Htw Hlw Hlc Hmax Hlive Hk w1.
  destruct (accept_writes_welcome a sc cn raddr w Hw Hlw) as (s & Hs & Hos).
  destruct (tcp_accept_at a sc cn raddr (manager_of JSONCodec) w) as (w1' & E1 & Hat).
  assert (w1' = w1) as -> by (unfold w1; by rewrite E1). rewrite Hp, He in Hat.
  destruct (tcp_readLoop_eval opt picks w1 _ _ _ _ _ _ _ _ Hlive Hat eq_refl) as (w2 & E2 & Hg).
  assert (Hh : handed opt (manager_of JSONCodec) (length picks) (frame (client_payload mid ts)) EOF =
    Ret (true, [client_envelope mid ts])).
  { destruct picks as [|p1 [|p2 picks]]; [simpl in Hk; lia..|]. cbn [length handed].
    rewrite <- (app_nil_r (frame _)), frame_spec_frame.
    - unfold frame_result, DecodeMessage, client_payload. cbn [codec Decode JSONCodec]. unfold Marshal, jCEnvelope.
      rewrite json_decode_object.
      + fold (jCEnvelope (client_message mid ts)). rewrite server_decodes_client by done. done.
      + by apply jfits_client.
      + right. unfold client_payload, Marshal, jCEnvelope, zlen in Hmax. rewrite length_app in Hmax. lia.
    - split; [|done]. unfold client_payload, zlen. rewrite length_app. simpl. lia. }
  rewrite Hh in E2. specialize (Hg _ Hh).
  assert (Hrd : exists c1, readFrame c = (inl (welcome_frame w), c1) /\ pending c1 = [] /\ out c1 = out c /\ wfail c1 = wfail c).
  { destruct (client_read_whole c (welcome_frame w) []) as (c1 & Er & Hr1); rewrite ?Hin, ?app_nil_r; try done.
    - unfold MaxFrameSize in *. lia.
    - exists c1. split_and!; try done; by apply (readFrame_out c (inl (welcome_frame w))). }
  destruct Hrd as (c1 & Er & _ & Hoc1 & Hwc1).
  exists s, w2, (conn_close (mkConn (inbuf c1) (inerr c1) (frame (client_payload mid ts)) None)). split_and!; try done.
  - by rewrite Hos, Ho, Hpc.
  - unfold client_main, read_welcome. rewrite Er. unfold welcome_frame. rewrite client_decodes_envelope by done.
    cbn [CType CTs CData Type_ Ts Data CreateTextMessage].
    destruct (client_write_is_server_write NewFrameCodec c1 (client_payload mid ts)) as [Hwr _].
    specialize (Hwr Hlc). rewrite WriteFrame_ok in Hwr by (congruence || done).
    destruct (writeFrame c1 (client_payload mid ts)) as [[err|] c2]; [done|]. simpl in Hwr.
    assert (c2 = mkConn (inbuf c1) (inerr c1) (frame (client_payload mid ts)) None) as ->
      by (rewrite Hoc1, Hoc in Hwr; simpl in Hwr; congruence). done.
  - unfold GetSession, Get. rewrite (tg_manager _ _ _ _ _ Hg). cbn. apply lookup_delete_eq.
Qed.
End meeting.

(** ** The theorems at concrete inputs *)
Import GwDemo.

Module ToolsDemo.
Definition opt : Options := mkOptions 256 0 0 0 0 4096 None None.
Definition server_conn : conn := mkConn [frame (client_payload "m1" 7)] EOF [] None.
Definition client_conn : conn := mkConn [frame (welcome_frame NewSimpleGateway)] EOF [] None.
End ToolsDemo.
Import ToolsDemo.

Lemma client_meets_server_witness :
  exists w2, tcp_readLoop ToolsDemo.opt [None; None] 0%nat 1%nat
    (tcp_accept 0%nat 1%nat server_conn "peer" (manager_of JSONCodec) NewSimpleGateway).2 =
    (Ret (true, [client_envelope "m1" 7]), w2).
Proof.
  destruct (client_meets_server ToolsDemo.opt NewSimpleGateway 0%nat 1%nat server_conn "peer" client_conn
    (frame (welcome_frame NewSimpleGateway)) [] "m1" 7 [None; None]) as (s & w2 & c' & _ & _ & _ & _ & Hr & _).
  - reflexivity.
  - reflexivity.
  - vm_compute. reflexivity.
  - reflexivity.
  - reflexivity.
  - vm_compute. lia.
  - vm_compute. reflexivity.
  - reflexivity.
  - reflexivity.
  - vm_compute. split; discriminate.
  - vm_compute. split; discriminate.
  - vm_compute. discriminate.
  - vm_compute. discriminate.
  - vm_compute. discriminate.
  - left. vm_compute. discriminate.
  - vm_compute. lia.
  - exists w2. exact Hr.
Defined.

Lemma peek_shows_sent_witness :
  let cn := mkConn [out (t_conn (send_all [SrvDemo.hello] SrvDemo.sender).2)] EOF [] None in
  peek_main (H := WireProto.lib) "json" 4096 (inl cn) [None; None] =
    ([mkPeek "text" 1 (DataText (bytes "hi"))], PeekExit 1 (PeekRead (ErrIO EOF))).
Proof.
  intros cn.
  destruct (peek_shows_sent (H := WireProto.lib) SrvDemo.manager "json" 0 4096 [SrvDemo.hello] SrvDemo.sender cn [None; None])
    as [_ E].
  - reflexivity.
  - reflexivity.
  - reflexivity.
  - reflexivity.
  - reflexivity.
  - reflexivity.
  - apply Forall_cons_2; [|apply Forall_nil_2]. split; [split; [vm_compute; split; discriminate|discriminate]|split; [exact I|]].
    intros b Hb. vm_compute in Hb. injection Hb as <-. vm_compute. split; discriminate.
  - vm_compute. reflexivity.
  - reflexivity.
  - vm_compute. lia.
  - rewrite E. vm_compute. reflexivity.
Defined.
