(* ===== verification/Http.v ===== *)
(** * HTTP routing: [internal/observe/http.go], [WebSocketServer.Start]

    Both HTTP servers of the program route requests with [http.ServeMux].  The
    multiplexer is modelled as the program uses it: plain path patterns, a
    pattern that ends in a slash standing for its whole subtree, the longest
    match first.  Request paths are in canonical form; the multiplexer answers
    others with a redirect.  The Prometheus handler and the file server are
    third-party code and parameters. *)

From S2P Require Import Prelude Utf8 GoStrings Json Envelope Codec Factory Conn Frame Session Gateway Servers.

(** ** [http.ServeMux] *)
Section mux.
Context {A : Type}.

Definition ServeMux := list (string * A).

Definition NewServeMux : ServeMux := [].

(** Registering an empty pattern or a pattern twice panics. *)
Definition Handle (pattern : string) (h : A) (mux : ServeMux) : outcome ServeMux :=
  if bool_decide (pattern = ""%string) then Panic "http: invalid pattern"
  else if bool_decide (pattern ∈ mux.*1) then Panic "http: multiple registrations"
  else Ret (mux ++ [(pattern, h)]).

(** The last byte of a pattern. *)
Definition is_tree (pattern : string) : bool :=
  bool_decide (last (bytes pattern) = Some (ascii_of_nat 47)).

Definition pattern_matches (pattern path : string) : bool :=
  if is_tree pattern then HasPrefix path pattern else bool_decide (path = pattern).

(** The longest of two matches; patterns of one length that match one path are
    equal. *)
Definition better (best : option (string * A)) (p : string * A) : option (string * A) :=
  match best with
  | Some q => if (String.length q.1 <? String.length p.1)%nat then Some p else best
  | None => Some p
  end.

Definition mux_handler (mux : ServeMux) (path : string) : option A :=
  snd <$> foldl (fun best p => if pattern_matches p.1 path then better best p else best) None mux.
End mux.
Arguments ServeMux : clear implicits.

(** ** The metrics endpoint *)
Section observe.
Record response := mkResponse { status : Z; body : list byte }.

(** What [promhttp.Handler] and [http.FileServer] answer to a path. *)
Context (prometheus file_server : string -> response).

Inductive http_handler := Healthz | Metrics | Static.

Definition StartHTTP_mux : outcome (ServeMux http_handler) :=
  match Handle "/healthz" Healthz NewServeMux with
  | Panic p => Panic p
  | Ret mux =>
      match Handle "/metrics" Metrics mux with
      | Panic p => Panic p
      | Ret mux => Handle "/" Static mux
      end
  end.

Definition run_http (h : http_handler) (path : string) : response :=
  match h with
  | Healthz => mkResponse 200 (bytes "ok" ++ [ascii_of_nat 10])
  | Metrics => prometheus path
  | Static => file_server path
  end.

(** A request to the server [StartHTTP] starts; without a match the answer is
    404. *)
Definition serve_http (path : string) : response :=
  match StartHTTP_mux with
  | Panic _ => mkResponse 500 []
  | Ret mux => match mux_handler mux path with
               | Some h => run_http h path
               | None => mkResponse 404 (bytes "404 page not found" ++ [ascii_of_nat 10])
               end
  end.

(** The endpoint: [/healthz] and [/metrics] are answered by their own handlers
    and nothing else reaches these; every other path is a static file. *)
Theorem http_routes path :
  HasPrefix path "/" = true ->
  serve_http path =
    if bool_decide (path = "/healthz"%string) then mkResponse 200 (bytes "ok" ++ [ascii_of_nat 10])
    else if bool_decide (path = "/metrics"%string) then prometheus path
    else file_server path.
Proof.
  intros Hp. unfold serve_http.
  assert (E : StartHTTP_mux = Ret [("/healthz", Healthz); ("/metrics", Metrics); ("/", Static)]%string) by reflexivity.
  rewrite E. unfold mux_handler. cbn [foldl fst snd]. unfold pattern_matches.
  change (is_tree "/healthz") with false. change (is_tree "/metrics") with false. change (is_tree "/") with true.
  cbn iota. rewrite Hp.
  repeat (case_bool_decide; subst; try done).
Qed.
End observe.

(** ** The WebSocket server's routes *)

Definition ws_mux (s : WebSocketServer) : outcome (ServeMux unit) := Handle (Path s) tt NewServeMux.

(** The WebSocket server upgrades requests for its path only. *)
Theorem ws_routes path mux request :
  ws_mux (NewWebSocketServer path) = Ret mux -> is_tree path = false ->
  mux_handler mux request = if bool_decide (request = Path (NewWebSocketServer path)) then Some tt else None.
Proof.
  unfold ws_mux, Handle. intros Hm Ht.
  assert (Hn : bool_decide (Path (NewWebSocketServer path) = ""%string) = false /\ is_tree (Path (NewWebSocketServer path)) = false).
  { unfold NewWebSocketServer. destruct (bool_decide_reflect (path = ""%string)); [by split|]. split; [by apply bool_decide_eq_false|done]. }
  destruct Hn as [Hn Ht']. rewrite Hn in Hm. clear Hn Ht. generalize dependent (Path (NewWebSocketServer path)). intros p Hm Ht.
  injection Hm as <-. unfold mux_handler. cbn [foldl fst snd]. unfold pattern_matches. rewrite Ht. by case_bool_decide.
Qed.

Lemma ws_routes_witness :
  mux_handler [("/ws"%string, tt)] "/ws" = Some tt /\ mux_handler [("/ws"%string, tt)] "/wss" = None.
Proof.
  split; [exact (ws_routes "" _ "/ws" eq_refl eq_refl)|exact (ws_routes "" _ "/wss" eq_refl eq_refl)].
Defined.
