(* ===== verification/Observe.v ===== *)
(** * Metrics: [internal/observe/metrics.go]

    The Prometheus collectors are third-party objects; what the program does
    with them is the sequence of calls it makes, so the state is the log of
    those calls.  [count] and [online] are the values the collectors then show
    (a counter is the number of increments, the gauge the sum of its deltas). *)

From S2P Require Import Prelude.

Inductive metric :=
| MMessage (kind : string)           (** chat_messages_total{type} *)
| MDirect                            (** chat_direct_messages_total *)
| MDropped                           (** chat_dropped_messages_total *)
| MHeartbeat                         (** chat_heartbeats_total *)
| MOnline (delta : Z)                (** chat_online_users *)
| MCommand (name : string)           (** chat_commands_total{name} *)
| MCommandError (reason : string).   (** chat_command_errors_total{reason} *)

#[export] Instance metric_eq_dec : EqDecision metric.
Proof. solve_decision. Defined.

(** The states that carry the metric log. *)
Class HasMetrics (S : Type) := {
  metrics_of : S -> list metric;
  add_metric : metric -> S -> S;
  metrics_of_add m s : metrics_of (add_metric m s) = metrics_of s ++ [m];
}.

Section calls.
Context {S : Type} `{HasMetrics S}.

Definition IncMessage (kind : string) : GoM S unit := modify (add_metric (MMessage kind)).
Definition IncDirect : GoM S unit := modify (add_metric MDirect).
Definition IncDropped : GoM S unit := modify (add_metric MDropped).
Definition IncHeartbeat : GoM S unit := modify (add_metric MHeartbeat).
Definition AddOnline (delta : Z) : GoM S unit := modify (add_metric (MOnline delta)).
Definition IncCommand (name : string) : GoM S unit := modify (add_metric (MCommand name)).
Definition IncCommandError (reason : string) : GoM S unit :=
  modify (add_metric (MCommandError reason)).
End calls.

(** ** What the collectors show *)

Definition count (m : metric) (l : list metric) : nat := length (filter (fun x => x = m) l).

Fixpoint online (l : list metric) : Z :=
  match l with
  | [] => 0
  | MOnline d :: l' => d + online l'
  | _ :: l' => online l'
  end.

Lemma online_app l k : online (l ++ k) = (online l + online k)%Z.
Proof. induction l as [|m l IH]; [done|]. destruct m; simpl; lia. Qed.

Lemma count_app m l k : count m (l ++ k) = (count m l + count m k)%nat.
Proof. unfold count. by rewrite filter_app, length_app. Qed.

Lemma online_snoc_other l m : (forall d, m <> MOnline d) -> online (l ++ [m]) = online l.
Proof. intros Hm. rewrite online_app. destruct m; simpl; try lia. by destruct (Hm delta). Qed.

#[export] Hint Rewrite online_app count_app : chatgo.

(** ** The collectors

    What a scrape shows: a value per collector and label.  Counters and gauges
    are floating-point numbers in the library; the values here are integers,
    which they represent exactly up to 2^53. *)

Inductive collector_kind := Gauge | Counter | CounterVec (label : string).

Record collector := mkCollector { col_kind : collector_kind; col_name : string; col_help : string }.

Definition onlineUsers := mkCollector Gauge "chat_online_users" "Number of online users".
Definition messagesTotal := mkCollector (CounterVec "type") "chat_messages_total" "Total chat messages by type".
Definition directMessagesTotal := mkCollector Counter "chat_direct_messages_total" "Total direct (private) messages".
Definition droppedMessagesTotal :=
  mkCollector Counter "chat_dropped_messages_total" "Total messages dropped due to client backpressure".
Definition heartbeatsTotal := mkCollector Counter "chat_heartbeats_total" "Total heartbeats received".
Definition commandsTotal := mkCollector (CounterVec "name") "chat_commands_total" "Total commands executed by name".
Definition commandErrorsTotal :=
  mkCollector (CounterVec "reason") "chat_command_errors_total" "Total command errors by reason".

(** [prometheus.MustRegister] panics on a name that is taken. *)
Definition MustRegister (cs reg : list collector) : outcome (list collector) :=
  foldl (fun r c => match r with
                    | Panic p => Panic p
                    | Ret reg => if bool_decide (col_name c ∈ col_name <$> reg)
                                 then Panic "duplicate metrics collector registration attempted"
                                 else Ret (reg ++ [c])
                    end) (Ret reg) cs.

Definition observe_init : outcome (list collector) :=
  MustRegister [onlineUsers; messagesTotal; directMessagesTotal; droppedMessagesTotal; heartbeatsTotal;
                commandsTotal; commandErrorsTotal] [].

Definition sample_of (m : metric) : collector * string * Z :=
  match m with
  | MMessage kind => (messagesTotal, kind, 1)
  | MDirect => (directMessagesTotal, ""%string, 1)
  | MDropped => (droppedMessagesTotal, ""%string, 1)
  | MHeartbeat => (heartbeatsTotal, ""%string, 1)
  | MOnline d => (onlineUsers, ""%string, d)
  | MCommand name => (commandsTotal, name, 1)
  | MCommandError reason => (commandErrorsTotal, reason, 1)
  end%Z.

(** Samples by collector name and label value; a collector without labels has
    the empty one. *)
Definition value_at (s : gmap (string * string) Z) (c : collector) (l : string) : Z := default 0%Z (s !! (col_name c, l)).

(** [WithLabelValues(l).Inc()], [Add]. *)
Definition apply_metric (s : gmap (string * string) Z) (m : metric) : gmap (string * string) Z :=
  let '(c, l, d) := sample_of m in <[(col_name c, l) := (value_at s c l + d)%Z]> s.

Definition scrape (l : list metric) : gmap (string * string) Z := foldl apply_metric ∅ l.

(** The sum a log contributes to one sample. *)
Definition contribution (c : collector) (lab : string) (m : metric) : Z :=
  let '(c', l', d) := sample_of m in if bool_decide (col_name c' = col_name c /\ l' = lab) then d else 0%Z.
Definition total (c : collector) (lab : string) (l : list metric) : Z := foldr (fun m z => contribution c lab m + z)%Z 0%Z l.

Lemma value_apply s m c lab : value_at (apply_metric s m) c lab = (value_at s c lab + contribution c lab m)%Z.
Proof.
  unfold apply_metric, contribution. destruct (sample_of m) as [[c' l'] d]. unfold value_at.
  destruct (bool_decide_reflect (col_name c' = col_name c /\ l' = lab)) as [[-> ->]|Hne].
  - by rewrite lookup_insert_eq.
  - rewrite lookup_insert_ne by (intros [= ? ?]; by apply Hne). lia.
Qed.

Lemma scrape_total l c lab : value_at (scrape l) c lab = total c lab l.
Proof.
  unfold scrape. assert (H : forall s, value_at (foldl apply_metric s l) c lab = (value_at s c lab + total c lab l)%Z).
  { induction l as [|m l IH]; intros s; cbn [foldl total foldr]; [lia|]. rewrite IH, value_apply. unfold total. lia. }
  rewrite H. unfold value_at. rewrite lookup_empty. simpl. lia.
Qed.

(** The log shows what the collectors show: every counter is the number of the
    calls that name it and its label, and the gauge is the sum of its deltas,
    whatever the order and mix of the calls; the registration in [init] does not
    panic. *)
Theorem scrape_is_log l :
  (forall kind, value_at (scrape l) messagesTotal kind = Z.of_nat (count (MMessage kind) l)) /\
  value_at (scrape l) directMessagesTotal "" = Z.of_nat (count MDirect l) /\
  value_at (scrape l) droppedMessagesTotal "" = Z.of_nat (count MDropped l) /\
  value_at (scrape l) heartbeatsTotal "" = Z.of_nat (count MHeartbeat l) /\
  (forall name, value_at (scrape l) commandsTotal name = Z.of_nat (count (MCommand name) l)) /\
  (forall reason, value_at (scrape l) commandErrorsTotal reason = Z.of_nat (count (MCommandError reason) l)) /\
  value_at (scrape l) onlineUsers "" = online l /\
  exists reg, observe_init = Ret reg /\ length reg = 7%nat.
Proof.
  assert (Hc : forall c lab m0, (forall m, contribution c lab m = if bool_decide (m = m0) then 1%Z else 0%Z) ->
    value_at (scrape l) c lab = Z.of_nat (count m0 l)).
  { intros c lab m0 Hm. rewrite scrape_total. unfold total, count. induction l as [|m l' IH]; [done|].
    cbn [foldr]. rewrite IH, Hm, filter_cons. case_bool_decide; [rewrite decide_True by done|rewrite decide_False by done]; simpl length; lia. }
  split_and!; intros; try (apply Hc; intros []; unfold contribution; cbn [sample_of]; repeat case_bool_decide; naive_solver).
  - clear Hc. rewrite scrape_total. unfold total. induction l as [|m l' IH]; [done|]. cbn [foldr]. rewrite IH.
    destruct m; unfold contribution; cbn [sample_of online]; repeat case_bool_decide; try lia; naive_solver.
  - eexists. split; reflexivity.
Qed.
