(* ===== verification/Client.v ===== *)
(** * One connected user: [internal/chat/client.go]

    A [Client] owns a buffered channel of outgoing text.  [Send] never blocks:
    when the buffer is full the message is dropped and counted; after [Close]
    it panics, as a send on a closed channel does in Go.  The theorems show
    that the pair of channel and drop counter refines a bounded queue. *)

From S2P Require Import Prelude Observe.

Record Client := mkClient {
  ID : string;
  Name : string;
  Meta : option (gmap string string);   (** [None] is the nil map *)
  out : list string;                    (** buffered messages, oldest first *)
  out_cap : nat;
  out_closed : bool;
  closed : bool;                        (** the [closed] channel is closed *)
  closeOnce : bool;                     (** the once has run *)
}.

Definition set_out (c : Client) (o : list string) : Client :=
  mkClient (ID c) (Name c) (Meta c) o (out_cap c) (out_closed c) (closed c) (closeOnce c).
Definition set_meta (c : Client) (m : option (gmap string string)) : Client :=
  mkClient (ID c) (Name c) m (out c) (out_cap c) (out_closed c) (closed c) (closeOnce c).
Definition set_name (c : Client) (n : string) : Client :=
  mkClient (ID c) n (Meta c) (out c) (out_cap c) (out_closed c) (closed c) (closeOnce c).

Definition NewClientWithBuffer (id : string) (bufferSize : Z) : Client :=
  let bufferSize := if (bufferSize <=? 0)%Z then 256%Z else bufferSize in
  mkClient id "" (Some ∅) [] (Z.to_nat bufferSize) false false false.

Definition send_on_closed : string := "send on closed channel".

(** [Send] as a function of the object: the new object and whether the message
    was dropped, or a panic. *)
Definition client_send (c : Client) (message : string) : outcome (Client * bool) :=
  if out_closed c then Panic send_on_closed
  else if (length (out c) <? out_cap c)%nat then Ret (set_out c (out c ++ [message]), false)
  else Ret (c, true).

(** [Close]: only the first call closes the two channels. *)
Definition client_close (c : Client) : Client :=
  if closeOnce c then c
  else mkClient (ID c) (Name c) (Meta c) (out c) (out_cap c) true true true.

Definition IsClosed (c : Client) : bool := closed c.

(** A receive on [Outgoing()]: a message, the end of the channel, or a block. *)
Inductive recv := RMsg (m : string) | RClosed | RBlock.

Definition Outgoing (c : Client) : recv * Client :=
  match out c with
  | m :: o => (RMsg m, set_out c o)
  | [] => if out_closed c then (RClosed, c) else (RBlock, c)
  end.

(** The object invariant: the buffer respects its capacity, the capacity is
    positive, and the channels and the once agree. *)
Record client_wf (c : Client) : Prop := {
  cw_bound : (length (out c) <= out_cap c)%nat;
  cw_cap : (0 < out_cap c)%nat;
  cw_closed : out_closed c = closeOnce c /\ closed c = closeOnce c;
}.

Lemma new_client_wf id n : client_wf (NewClientWithBuffer id n).
Proof.
  unfold NewClientWithBuffer. split; simpl; [lia| |done].
  destruct (Z.leb_spec n 0); lia.
Qed.

Lemma client_send_wf c m c' d : client_wf c -> client_send c m = Ret (c', d) -> client_wf c'.
Proof.
  intros Hwf. unfold client_send. destruct (out_closed c) eqn:Ec; [done|].
  destruct (Nat.ltb_spec (length (out c)) (out_cap c)); intros [= <- <-]; [|done].
  destruct Hwf. split; simpl; [rewrite length_app; simpl; lia|done|done].
Qed.

Lemma client_close_wf c : client_wf c -> client_wf (client_close c).
Proof. intros Hwf. unfold client_close. destruct (closeOnce c); [done|]. destruct Hwf. by split. Qed.

Lemma outgoing_wf c : client_wf c -> client_wf (Outgoing c).2.
Proof.
  intros Hwf. unfold Outgoing. destruct (out c) as [|m o] eqn:E.
  - by destruct (out_closed c).
  - destruct Hwf as [Hb Hc Hd]. rewrite E in Hb. split; simpl in *; [lia|done|done].
Qed.

#[export] Hint Resolve new_client_wf client_close_wf outgoing_wf : chatgo.

(** ** Refinement of a bounded lossy queue

    The operations a client object sees, and what an observer records. *)
Inductive client_op := OpSend (m : string) | OpRecv.

(** Runs the operations: messages received (oldest first), number of drops and
    the final object; a panic stops the run. *)
Fixpoint run_ops (c : Client) (ops : list client_op) : outcome (list string * nat * Client) :=
  match ops with
  | [] => Ret ([], O, c)
  | OpSend m :: ops' =>
      match client_send c m with
      | Panic p => Panic p
      | Ret (c', d) =>
          match run_ops c' ops' with
          | Panic p => Panic p
          | Ret (r, n, cf) => Ret (r, (if d then S n else n), cf)
          end
      end
  | OpRecv :: ops' =>
      match Outgoing c with
      | (RMsg m, c') =>
          match run_ops c' ops' with
          | Panic p => Panic p
          | Ret (r, n, cf) => Ret (m :: r, n, cf)
          end
      | (_, c') => run_ops c' ops'
      end
  end.

Definition sent (ops : list client_op) : list string :=
  omap (fun o => match o with OpSend m => Some m | OpRecv => None end) ops.

Lemma run_ops_spec c ops :
  client_wf c -> out_closed c = false ->
  exists r n cf, run_ops c ops = Ret (r, n, cf) /\ client_wf cf /\ out_closed cf = false /\
    (exists acc, acc `sublist_of` sent ops /\ out c ++ acc = r ++ out cf /\
       (length acc + n = length (sent ops))%nat).
Proof.
  revert c. induction ops as [|[m|] ops IH]; intros c Hwf Hcl.
  - exists [], O, c. split_and!; try done. exists []. by rewrite app_nil_r.
  - simpl. unfold client_send. rewrite Hcl.
    destruct (Nat.ltb_spec (length (out c)) (out_cap c)) as [Hl|Hl].
    + assert (Hwf' : client_wf (set_out c (out c ++ [m]))).
      { eapply (client_send_wf c m _ false); [done|]. unfold client_send.
        by rewrite Hcl, (proj2 (Nat.ltb_lt _ _)). }
      destruct (IH _ Hwf' Hcl) as (r & n & cf & -> & ? & ? & acc & Hs & E & Hn).
      exists r, n, cf. split_and!; try done. exists (m :: acc). simpl in E.
      rewrite <- app_assoc in E. split; [by constructor|]. split; [done|]. simpl. lia.
    + destruct (IH c Hwf Hcl) as (r & n & cf & -> & ? & ? & acc & Hs & E & Hn).
      exists r, (S n), cf. split_and!; try done. exists acc.
      split; [by constructor|]. split; [done|]. simpl. lia.
  - simpl. unfold Outgoing. destruct (out c) as [|m o] eqn:Eo.
    + rewrite Hcl. destruct (IH c Hwf Hcl) as (r & n & cf & -> & ? & ? & acc & Hs & E & Hn).
      exists r, n, cf. split_and!; try done. exists acc. rewrite Eo in E. done.
    + assert (Hwf' : client_wf (set_out c o)).
      { pose proof (outgoing_wf c Hwf) as Hw. unfold Outgoing in Hw. by rewrite Eo in Hw. }
      destruct (IH _ Hwf' Hcl) as (r & n & cf & -> & ? & ? & acc & Hs & E & Hn).
      exists (m :: r), n, cf. split_and!; try done. exists acc. simpl in *. by rewrite E.
Qed.

(** The abstract queue: a message sent to a full queue is dropped and counted,
    every other one is appended. *)
Fixpoint lossy_queue (cap : nat) (q : list string) (ops : list client_op) : list string * nat * list string :=
  match ops with
  | [] => ([], O, q)
  | OpSend m :: ops' =>
      if (length q <? cap)%nat then lossy_queue cap (q ++ [m]) ops'
      else let '(r, n, q') := lossy_queue cap q ops' in (r, S n, q')
  | OpRecv :: ops' =>
      match q with
      | [] => lossy_queue cap [] ops'
      | m :: q1 => let '(r, n, q') := lossy_queue cap q1 ops' in (m :: r, n, q')
      end
  end.

Lemma set_out_id c : set_out c (out c) = c.
Proof. by destruct c. Qed.

Lemma run_ops_queue c ops : out_closed c = false ->
  run_ops c ops = let '(r, n, q) := lossy_queue (out_cap c) (out c) ops in Ret (r, n, set_out c q).
Proof.
  revert c. induction ops as [|[m|] ops IH]; intros c Hcl; simpl; [by rewrite set_out_id|..].
  - unfold client_send. rewrite Hcl. destruct (length (out c) <? out_cap c)%nat; rewrite IH by done; simpl;
      by destruct (lossy_queue _ _ ops) as [[r n] q].
  - unfold Outgoing. destruct (out c) as [|m o] eqn:Eo.
    + rewrite Hcl, IH, Eo by done. done.
    + rewrite IH by done. simpl. by destruct (lossy_queue _ _ ops) as [[r n] q].
Qed.

Lemma sublist_full_length {A} (l k : list A) : l `sublist_of` k -> (length k <= length l)%nat -> l = k.
Proof.
  induction 1 as [|x l k Hs IH|x l k Hs IH]; simpl; intros Hl; [done|f_equal; apply IH; lia|].
  apply sublist_length in Hs. lia.
Qed.

Lemma lossy_queue_lossless cap q ops : (length q + length (sent ops) <= cap)%nat -> (lossy_queue cap q ops).1.2 = O.
Proof.
  revert q. induction ops as [|[m|] ops IH]; intros q Hq; simpl in *; [done|..].
  - rewrite (proj2 (Nat.ltb_lt _ _)) by lia. apply IH. rewrite length_app. simpl. lia.
  - destruct q as [|m q]; [by apply IH|]. specialize (IH q ltac:(simpl in *; lia)).
    by destruct (lossy_queue cap q ops) as [[r n] q'].
Qed.

(** C23 (refinement): an open client is a bounded lossy FIFO.  Any interleaving
    of sends and receives runs without a panic and computes what the abstract
    queue of the same capacity computes.  So what the receiver got followed by
    what is still buffered is a subsequence of what was sent, in order; every
    other message is counted as dropped, and nothing is dropped as long as no
    more is sent than the buffer holds. *)
Theorem client_is_lossy_fifo id bufferSize ops :
  let c := NewClientWithBuffer id bufferSize in
  exists r n q, run_ops c ops = Ret (r, n, set_out c q) /\
    lossy_queue (out_cap c) [] ops = (r, n, q) /\
    (r ++ q) `sublist_of` sent ops /\
    (length (r ++ q) + n = length (sent ops))%nat /\
    (length q <= out_cap c)%nat /\
    ((out_cap c < length (sent ops))%nat \/ r ++ q = sent ops).
Proof.
  intros c. destruct (run_ops_spec c ops) as
    (r & n & cf & E & Hwf & _ & acc & Hs & Ho & Hn); [apply new_client_wf|done|].
  pose proof (run_ops_queue c ops eq_refl) as Eq. rewrite E in Eq. change (out c) with (@nil string) in Eq, Ho.
  pose proof (lossy_queue_lossless (out_cap c) [] ops) as Hl.
  destruct (lossy_queue (out_cap c) [] ops) as [[r' n'] q]. injection Eq as <- <- ->. simpl in Ho, Hl.
  exists r, n, q. rewrite <- Ho. split_and!; try done; [apply Hwf|].
  destruct (Nat.lt_ge_cases (out_cap c) (length (sent ops))) as [Hc|Hc]; [by left|right].
  specialize (Hl Hc). apply sublist_full_length; [done|lia].
Qed.

(** Closing.  [Close] is idempotent, keeps the buffered
    messages readable in order before the end of the channel, and makes every
    later [Send] panic. *)
Theorem client_close_behaviour c m :
  client_wf c ->
  client_close (client_close c) = client_close c /\
  IsClosed (client_close c) = true /\
  client_send (client_close c) m = Panic send_on_closed /\
  out (client_close c) = out c /\
  (Outgoing (client_close c)).1 = match out c with x :: _ => RMsg x | [] => RClosed end.
Proof.
  intros [_ _ [Ho Hc]]. unfold client_close, IsClosed, client_send, Outgoing.
  destruct (closeOnce c) eqn:E; simpl; rewrite ?E, ?Ho, ?Hc; split_and!; try done;
    by destruct (out c).
Qed.

Lemma client_close_behaviour_witness :
  let c := mkClient "id1" "alice" (Some ∅) ["hello"] 2 false false false in
  (Outgoing (client_close c)).1 = RMsg "hello" /\
  client_send (client_close c) "x" = Panic send_on_closed.
Proof.
  intros c.
  assert (Hwf : client_wf c) by (split; simpl; [lia|lia|done]).
  destruct (client_close_behaviour c "x" Hwf) as (_ & _ & H3 & _ & H5). split; [exact H5|exact H3].
Defined.
