(* ===== verification/Events.v ===== *)
(** * Chat events: [internal/chat/events.go] and the [*_event.go] files

    Event types are strings in the source and stay strings here.  Times are
    nanoseconds since the zero [time.Time], so [0] is the zero time. *)

From S2P Require Import Prelude.

(** [time.Time] *)
Definition Time := Z.

(** A [*Client]: the address of a client object. *)
Definition loc := nat.

Definition EventType := string.

Definition EventUserJoined : EventType := "user.joined".
Definition EventUserLeave : EventType := "user.leave".
Definition EventMessageLocal : EventType := "message.local".
Definition EventMessageRemote : EventType := "message.remote".
Definition EventMessageDirect : EventType := "message.direct".
Definition EventSystemNotice : EventType := "system.notice".
Definition EventFileTransfer : EventType := "file.transfer".
Definition EventHeartbeat : EventType := "heartbeat".

(** ** The event structs with their methods [Type] and [Time] *)

Record userEvent := mkUserEvent { ue_When : Time; ue_User : loc; ue_Desc : string }.

Definition UserEvent_Type (e : userEvent) : EventType :=
  if bool_decide ("leave"%string = ue_Desc e) then EventUserLeave else EventUserJoined.
Definition UserEvent_Time (e : userEvent) : Time := ue_When e.

Record messageEvent := mkMessageEvent {
  me_When : Time;
  me_From : string;
  me_Content : string;
  me_Local : bool;
}.

Definition MessageEvent_Type (e : messageEvent) : EventType :=
  if me_Local e then EventMessageLocal else EventMessageRemote.
Definition MessageEvent_Time (e : messageEvent) : Time := me_When e.

Record directMessageEvent := mkDirectMessageEvent {
  de_When : Time;
  de_From : string;
  de_To : string;
  de_Content : string;
}.

Definition DirectMessageEvent_Type (e : directMessageEvent) : EventType := EventMessageDirect.
Definition DirectMessageEvent_Time (e : directMessageEvent) : Time := de_When e.

Record systemNoticeEvent := mkSystemNoticeEvent { sn_When : Time; sn_Level : string; sn_Content : string }.

Definition SystemNoticeEvent_Type (e : systemNoticeEvent) : EventType := EventSystemNotice.
Definition SystemNoticeEvent_Time (e : systemNoticeEvent) : Time := sn_When e.

Record fileTransferEvent := mkFileTransferEvent {
  ft_When : Time;
  ft_From : string;
  ft_To : string;
  ft_FileName : string;
  ft_SizeBytes : Z;
  ft_MimeType : string;
  ft_StorageKey : string;
}.

Definition FileTransferEvent_Type (e : fileTransferEvent) : EventType := EventFileTransfer.
Definition FileTransferEvent_Time (e : fileTransferEvent) : Time := ft_When e.

Record heartbeatEvent := mkHeartbeatEvent { hb_When : Time; hb_FromID : string; hb_Detail : string }.

Definition HeartbeatEvent_Type (e : heartbeatEvent) : EventType := EventHeartbeat.
Definition HeartbeatEvent_Time (e : heartbeatEvent) : Time := hb_When e.

#[export] Instance userEvent_eq_dec : EqDecision userEvent.
Proof. solve_decision. Defined.
#[export] Instance messageEvent_eq_dec : EqDecision messageEvent.
Proof. solve_decision. Defined.
#[export] Instance directMessageEvent_eq_dec : EqDecision directMessageEvent.
Proof. solve_decision. Defined.
#[export] Instance systemNoticeEvent_eq_dec : EqDecision systemNoticeEvent.
Proof. solve_decision. Defined.
#[export] Instance fileTransferEvent_eq_dec : EqDecision fileTransferEvent.
Proof. solve_decision. Defined.
#[export] Instance heartbeatEvent_eq_dec : EqDecision heartbeatEvent.
Proof. solve_decision. Defined.

(** ** The interface [Event]

    A value of the interface is one of the structs; a type assertion is a match
    on the constructor. *)
Inductive Event :=
| EvUser (e : userEvent)
| EvMessage (e : messageEvent)
| EvDirectMessage (e : directMessageEvent)
| EvSystemNotice (e : systemNoticeEvent)
| EvFileTransfer (e : fileTransferEvent)
| EvHeartbeat (e : heartbeatEvent).

#[export] Instance event_eq_dec : EqDecision Event.
Proof. solve_decision. Defined.

(** Struct literals. *)
Abbreviation UserEvent When User Desc := (EvUser (mkUserEvent When User Desc)).
Abbreviation MessageEvent When From Content Local := (EvMessage (mkMessageEvent When From Content Local)).
Abbreviation DirectMessageEvent When From To Content :=
  (EvDirectMessage (mkDirectMessageEvent When From To Content)).
Abbreviation SystemNoticeEvent When Level Content := (EvSystemNotice (mkSystemNoticeEvent When Level Content)).
Abbreviation FileTransferEvent When From To FileName SizeBytes MimeType StorageKey :=
  (EvFileTransfer (mkFileTransferEvent When From To FileName SizeBytes MimeType StorageKey)).
Abbreviation HeartbeatEvent When FromID Detail := (EvHeartbeat (mkHeartbeatEvent When FromID Detail)).

(** [e.Type()] *)
Definition event_type (e : Event) : EventType :=
  match e with
  | EvUser e => UserEvent_Type e
  | EvMessage e => MessageEvent_Type e
  | EvDirectMessage e => DirectMessageEvent_Type e
  | EvSystemNotice e => SystemNoticeEvent_Type e
  | EvFileTransfer e => FileTransferEvent_Type e
  | EvHeartbeat e => HeartbeatEvent_Type e
  end.

(** [e.Time()] *)
Definition event_time (e : Event) : Time :=
  match e with
  | EvUser e => UserEvent_Time e
  | EvMessage e => MessageEvent_Time e
  | EvDirectMessage e => DirectMessageEvent_Time e
  | EvSystemNotice e => SystemNoticeEvent_Time e
  | EvFileTransfer e => FileTransferEvent_Time e
  | EvHeartbeat e => HeartbeatEvent_Time e
  end.
