(* ===== verification/Hub.v ===== *)
(** * The chat hub: [internal/chat/hub.go]

    The hub keeps the online clients, the event handlers and the ban list.
    Client objects live in a heap and are shared by address, as the [*Client]
    pointers of the source are.  [Emit] starts one goroutine per handler: the
    goroutines wait in [tasks] until a scheduler runs them (see Subscriber.v).
    The handler type [H] is a parameter of the hub, as handlers are function
    values to it.  [sync.Map.Range] visits the keys in an unspecified order:
    the order is an argument of the operations that range. *)

From S2P Require Import Prelude Observe Client Events.

Section hub.
Context {H : Type}.

Record handlerEntry := mkEntry { he_id : Z; he_fn : H }.

Record Hub := mkHub {
  clients : gmap string loc;
  handlers : gmap string (list handlerEntry);
  nextHID : Z;                          (** uint64 *)
  banned : gmap string Time;            (** 0 is the zero time: banned for ever *)
}.

Record World := mkWorld {
  heap : gmap loc Client;
  hub : Hub;
  w_metrics : list metric;
  tasks : list (H * Event);             (** goroutines not yet run *)
  now : Time;                           (** what [time.Now] returns *)
}.

Definition set_heap (f : gmap loc Client -> gmap loc Client) (w : World) : World :=
  mkWorld (f (heap w)) (hub w) (w_metrics w) (tasks w) (now w).
Definition set_hub (f : Hub -> Hub) (w : World) : World :=
  mkWorld (heap w) (f (hub w)) (w_metrics w) (tasks w) (now w).
Definition set_clients (f : gmap string loc -> gmap string loc) (h : Hub) : Hub :=
  mkHub (f (clients h)) (handlers h) (nextHID h) (banned h).
Definition set_banned (f : gmap string Time -> gmap string Time) (h : Hub) : Hub :=
  mkHub (clients h) (handlers h) (nextHID h) (f (banned h)).
Definition spawn (ts : list (H * Event)) (w : World) : World :=
  mkWorld (heap w) (hub w) (w_metrics w) (tasks w ++ ts) (now w).

#[global] Program Instance World_metrics : HasMetrics World := {|
  metrics_of := w_metrics;
  add_metric := fun m w => mkWorld (heap w) (hub w) (w_metrics w ++ [m]) (tasks w) (now w);
|}.
Next Obligation. done. Qed.

Abbreviation M := (GoM World).

Definition nil_deref : string := "invalid memory address or nil pointer dereference".

Definition NewHub : Hub := mkHub ∅ ∅ 0 ∅.

(** ** Client objects through their address *)

Definition deref (l : loc) : M Client :=
  w ← get; match heap w !! l with Some c => mret c | None => panic nil_deref end.

Definition store (l : loc) (c : Client) : M unit := modify (set_heap <[l := c]>).

(** [c.Send(message)] *)
Definition Send (l : loc) (message : string) : M unit :=
  c ← deref l;
  match client_send c message with
  | Panic p => panic p
  | Ret (c', false) => store l c'
  | Ret (_, true) => IncDropped
  end.

(** [c.Close()] *)
Definition Close (l : loc) : M unit := c ← deref l; store l (client_close c).

(** ** Handlers *)

(** The loop of the cancel function: it filters [entries] in place, reading
    index [i] and writing index [j <= i] of the same array. *)
Fixpoint filter_in_place (keep : handlerEntry -> bool) (arr : list handlerEntry)
  (i j : nat) (k : nat) : list handlerEntry * nat :=
  match k with
  | O => (arr, j)
  | S k' =>
      match arr !! i with
      | Some e => if keep e then filter_in_place keep (<[j := e]> arr) (S i) (S j) k'
                  else filter_in_place keep arr (S i) j k'
      | None => (arr, j)
      end
  end.

Definition filtered (keep : handlerEntry -> bool) (entries : list handlerEntry) : list handlerEntry :=
  let '(arr, j) := filter_in_place keep entries 0 0 (length entries) in take j arr.

(** [SubscribeCancelable]: the new handler goes last; the result stands for the
    cancel function, which captures [t] and [id]. *)
Definition SubscribeCancelable (t : EventType) (fn : H) : M (EventType * Z) :=
  w ← get;
  let id := wrapU64 (nextHID (hub w) + 1) in
  let entries := match handlers (hub w) !! t with Some es => es | None => [] end in
  _ ← modify (set_hub (fun h =>
        mkHub (clients h) (<[t := entries ++ [mkEntry id fn]]> (handlers h)) id (banned h)));
  mret (t, id).

Definition Subscribe (t : EventType) (fn : H) : M unit :=
  _ ← SubscribeCancelable t fn; mret tt.

(** The function [SubscribeCancelable] returns. *)
Definition cancel (tid : EventType * Z) : M unit :=
  let '(t, id) := tid in
  w ← get;
  match handlers (hub w) !! t with
  | Some (e0 :: es) =>
      let fl := filtered (fun e => negb (he_id e =? id)%Z) (e0 :: es) in
      modify (set_hub (fun h =>
        mkHub (clients h)
          (match fl with [] => delete t (handlers h) | _ => <[t := fl]> (handlers h) end)
          (nextHID h) (banned h)))
  | _ => mret tt
  end.

(** [Emit]: one goroutine per handler of the event's type, in order. *)
Definition Emit (e : Event) : M unit :=
  w ← get;
  match handlers (hub w) !! event_type e with
  | Some (e0 :: es) => modify (spawn ((fun en => (he_fn en, e)) <$> (e0 :: es)))
  | _ => mret tt
  end.

(** ** Clients *)

Definition RegisterClient (c : loc) : M unit :=
  cl ← deref c;
  _ ← modify (set_hub (set_clients <[ID cl := c]>));
  w ← get;
  _ ← Emit (UserEvent (now w) c "joined");
  AddOnline 1.

Definition UnregisterClient (c : loc) : M unit :=
  cl ← deref c;
  w ← get;
  match clients (hub w) !! ID cl with
  | Some _ =>
      _ ← modify (set_hub (set_clients (delete (ID cl))));
      _ ← Close c;
      _ ← Emit (UserEvent (now w) c "leave");
      AddOnline (-1)
  | None => Close c
  end.

(** [clients.Range(f)] for callbacks that return true; [order] is the order in
    which the map visits its keys, the value is read when the key is visited. *)
Definition Range {A} (order : list string) (f : A -> loc -> M A) (a : A) : M A :=
  fold_each (fun a k =>
    w ← get;
    match clients (hub w) !! k with
    | Some l => f a l
    | None => mret a
    end) a order.

Definition KickByName (order : list string) (name : string) : M bool :=
  Range order (fun found l =>
    c ← deref l;
    if bool_decide (Name c = name) then _ ← UnregisterClient l; mret true else mret found) false.

Definition ListNames (order : list string) : M (list string) :=
  Range order (fun acc l => c ← deref l; mret (acc ++ [Name c])) [].

Definition SendToAll (order : list string) (msg : string) : M unit :=
  Range order (fun _ l => Send l msg) tt.

Definition SendToUser (order : list string) (userName msg : string) : M bool :=
  Range order (fun found l =>
    c ← deref l;
    if bool_decide (Name c = userName) then _ ← Send l msg; mret true else mret found) false.

(** ** Messages *)

Definition BroadcastLocal (from content : string) : M unit :=
  w ← get; Emit (MessageEvent (now w) from content true).

Definition BroadcastRemote (from content : string) (t : Time) : M unit :=
  Emit (MessageEvent t from content false).

(** ** Bans *)

(** [t.Add(d)]: the wall clock has no 64-bit limit within reach of a duration. *)
Definition BanFor (name : string) (d : Z) : M unit :=
  w ← get;
  modify (set_hub (set_banned <[name := if (d <=? 0)%Z then 0%Z else (now w + d)%Z]>)).

Definition IsBanned (name : string) : M bool :=
  w ← get;
  match banned (hub w) !! name with
  | None => mret false
  | Some until =>
      if (until =? 0)%Z then mret true
      else if (now w <? until)%Z then mret true
      else _ ← modify (set_hub (set_banned (delete name))); mret false
  end.

End hub.

Arguments handlerEntry : clear implicits.
Arguments Hub : clear implicits.
Arguments World : clear implicits.
