(* ===== verification/HubFacts.v ===== *)
(** * Correctness of the chat hub

    Evaluation lemmas (what each operation returns and how it changes the
    world), the world invariant, and the theorems on handlers, membership,
    kicks, broadcasts and bans. *)

From S2P Require Import Prelude Observe Client Events Hub.

Section facts.
Context {H : Type}.
Abbreviation World := (World H).
Implicit Types (w : World) (l : loc).

(** ** The in-place filter of the cancel function *)

Lemma take_snoc {A} (l : list A) i x : l !! i = Some x -> take (S i) l = take i l ++ [x].
Proof. apply take_S_r. Qed.

Lemma filter_in_place_spec (keep : handlerEntry H -> bool) entries k arr i j :
  (i + k = length entries)%nat -> (j <= i)%nat -> length arr = length entries ->
  drop i arr = drop i entries ->
  take j arr = filter (fun e => keep e = true) (take i entries) ->
  let '(arr', j') := filter_in_place keep arr i j k in
  take j' arr' = filter (fun e => keep e = true) entries.
Proof.
  revert arr i j. induction k as [|k IH]; intros arr i j Hk Hj Hl Hd Ht; simpl.
  - rewrite Ht, take_ge by lia. done.
  - assert (Hi : (i < length entries)%nat) by lia.
    destruct (lookup_lt_is_Some_2 entries i Hi) as [e He].
    assert (Ha : arr !! i = Some e).
    { rewrite <- (Nat.add_0_r i), <- lookup_drop, Hd, lookup_drop, Nat.add_0_r. done. }
    rewrite Ha. destruct (keep e) eqn:Ek.
    + apply IH; try lia.
      * by rewrite length_insert.
      * rewrite drop_insert_lt by lia.
        by rewrite <- Nat.add_1_r, <- !drop_drop, Hd.
      * rewrite (take_snoc _ j e) by (apply list_lookup_insert_eq; lia).
        rewrite take_insert_ge by lia. rewrite (take_snoc _ _ _ He), filter_app, Ht.
        by rewrite filter_cons_True.
    + apply IH; try lia; try done.
      * by rewrite <- Nat.add_1_r, <- !drop_drop, Hd.
      * rewrite (take_snoc _ _ _ He), filter_app, Ht, filter_cons_False by congruence.
        by rewrite filter_nil, app_nil_r.
Qed.

Lemma filtered_eq (keep : handlerEntry H -> bool) entries :
  filtered keep entries = filter (fun e => keep e = true) entries.
Proof.
  unfold filtered. pose proof (filter_in_place_spec keep entries (length entries) entries 0 0) as Hf.
  destruct (filter_in_place keep entries 0 0 (length entries)). apply Hf; done.
Qed.

Lemma filtered_ids (entries : list (handlerEntry H)) (id : Z) :
  filtered (fun e => negb (he_id e =? id)%Z) entries = filter (fun e => he_id e <> id) entries.
Proof.
  rewrite filtered_eq. apply list_filter_iff. intros e.
  destruct (Z.eqb_spec (he_id e) id); simpl; naive_solver.
Qed.

(** ** Evaluation of the operations *)

(** The goroutines [Emit e] starts. *)
Definition emitted (h : Hub H) (e : Event) : list (H * Event) :=
  match handlers h !! event_type e with
  | Some es => (fun en => (he_fn en, e)) <$> es
  | None => []
  end.

Lemma spawn_nil w : spawn [] w = w.
Proof. unfold spawn. rewrite app_nil_r. by destruct w. Qed.

Lemma Emit_eval e w : Emit e w = (Ret tt, spawn (emitted (hub w) e) w).
Proof.
  unfold Emit, emitted. unfold_go.
  destruct (handlers (hub w) !! event_type e) as [[|e0 es]|]; simpl; by rewrite ?spawn_nil.
Qed.

Lemma deref_eval l c w : heap w !! l = Some c -> deref l w = (Ret c, w).
Proof. intros E. unfold deref. unfold_go. by rewrite E. Qed.

Lemma Send_eval l c m w : heap w !! l = Some c ->
  Send l m w =
    match client_send c m with
    | Panic p => (Panic p, w)
    | Ret (c', false) => (Ret tt, set_heap <[l := c']> w)
    | Ret (_, true) => (Ret tt, add_metric MDropped w)
    end.
Proof.
  intros E. unfold Send. unfold_go. rewrite (deref_eval _ _ _ E).
  by destruct (client_send c m) as [[c' []]|].
Qed.

Lemma Close_eval l c w : heap w !! l = Some c ->
  Close l w = (Ret tt, set_heap <[l := client_close c]> w).
Proof. intros E. unfold Close. unfold_go. by rewrite (deref_eval _ _ _ E). Qed.

(** The world after a registration. *)
Definition after_register (c : loc) (cl : Client) (w : World) : World :=
  mkWorld (heap w) (set_clients <[ID cl := c]> (hub w)) (w_metrics w ++ [MOnline 1])
    (tasks w ++ emitted (hub w) (UserEvent (now w) c "joined")) (now w).

Lemma RegisterClient_eval c cl w : heap w !! c = Some cl ->
  RegisterClient c w = (Ret tt, after_register c cl w).
Proof.
  intros E. unfold RegisterClient. unfold_go. rewrite (deref_eval _ _ _ E).
  rewrite Emit_eval. reflexivity.
Qed.

(** The world after an unregistration of a client that was online. *)
Definition after_unregister (c : loc) (cl : Client) (w : World) : World :=
  mkWorld (<[c := client_close cl]> (heap w)) (set_clients (delete (ID cl)) (hub w))
    (w_metrics w ++ [MOnline (-1)])
    (tasks w ++ emitted (hub w) (UserEvent (now w) c "leave")) (now w).

Lemma UnregisterClient_eval c cl l' w :
  heap w !! c = Some cl -> clients (hub w) !! ID cl = Some l' ->
  UnregisterClient c w = (Ret tt, after_unregister c cl w).
Proof.
  intros E El. unfold UnregisterClient. unfold_go. rewrite (deref_eval _ _ _ E), El.
  erewrite Close_eval by (simpl; exact E). rewrite Emit_eval. reflexivity.
Qed.

Lemma UnregisterClient_offline_eval c cl w :
  heap w !! c = Some cl -> clients (hub w) !! ID cl = None ->
  UnregisterClient c w = (Ret tt, set_heap <[c := client_close cl]> w).
Proof.
  intros E El. unfold UnregisterClient. unfold_go. rewrite (deref_eval _ _ _ E), El.
  by rewrite (Close_eval _ _ _ E).
Qed.

(** ** The world invariant *)

Record world_wf w : Prop := {
  (** every client object is well formed *)
  ww_heap : forall l c, heap w !! l = Some c -> client_wf c;
  (** a registered address is an open client stored under its own ID *)
  ww_clients : forall k l, clients (hub w) !! k = Some l ->
    exists c, heap w !! l = Some c /\ ID c = k /\ out_closed c = false;
  (** handler lists are not empty, ids are distinct and already issued *)
  ww_handlers : forall t es, handlers (hub w) !! t = Some es -> es <> [] /\ NoDup (he_id <$> es) /\
    Forall (fun e => (0 < he_id e <= nextHID (hub w))%Z) es;
  ww_next : (0 <= nextHID (hub w))%Z;
}.

Lemma world_wf_new t : world_wf (mkWorld ∅ NewHub [] [] t).
Proof. split; simpl; intros; by simplify_map_eq. Qed.

(** A client object may be replaced by a well-formed one with the same ID that
    is open if it is registered. *)
Lemma world_wf_heap w l c c' :
  world_wf w -> heap w !! l = Some c -> client_wf c' -> ID c' = ID c ->
  (out_closed c' = false \/ forall k, clients (hub w) !! k <> Some l) ->
  world_wf (set_heap <[l := c']> w).
Proof.
  intros I Hl Hc Hid Hop. split; simpl; try apply I.
  - intros l2 c2 Hl2. apply lookup_insert_Some in Hl2 as [[<- <-]|[_ Hl2]]; [done|].
    by eapply (ww_heap w I).
  - intros k l2 Hk. destruct (ww_clients w I k l2 Hk) as (c2 & Hh & Hi & Ho).
    destruct (decide (l = l2)) as [<-|Hne].
    + rewrite lookup_insert_eq. exists c'. split; [done|].
      rewrite Hl in Hh. injection Hh as <-. split; [congruence|].
      destruct Hop as [?|Hno]; [done|]. by destruct (Hno k).
    + rewrite lookup_insert_ne by done. eauto.
Qed.

Lemma world_wf_metric m w : world_wf w -> world_wf (add_metric m w).
Proof. intros I. split; apply I. Qed.

Lemma world_wf_spawn ts w : world_wf w -> world_wf (spawn ts w).
Proof. intros I. split; apply I. Qed.

Lemma world_wf_Send l c m w :
  world_wf w -> heap w !! l = Some c -> world_wf (Send l m w).2.
Proof.
  intros I Hl. rewrite (Send_eval _ _ _ _ Hl).
  destruct (client_send c m) as [[c' []]|] eqn:Es; simpl; [by apply world_wf_metric| |done].
  unfold client_send in Es. destruct (out_closed c) eqn:Eo; [done|].
  assert (Hc' : client_wf c').
  { eapply (client_send_wf c m c' false); [by eapply (ww_heap w I)|].
    unfold client_send. by rewrite Eo. }
  destruct (length (out c) <? out_cap c)%nat; [|done]. injection Es as <-.
  apply (world_wf_heap w l c); auto.
Qed.

(** ** Handlers: subscribe, cancel, emit *)

Definition handlers_of (h : Hub H) (t : EventType) : list (handlerEntry H) :=
  match handlers h !! t with Some es => es | None => [] end.

Lemma emitted_handlers h e : emitted h e = (fun en => (he_fn en, e)) <$> handlers_of h (event_type e).
Proof. unfold emitted, handlers_of. by destruct (handlers h !! event_type e). Qed.

Lemma SubscribeCancelable_eval t fn w :
  SubscribeCancelable t fn w =
    (Ret (t, wrapU64 (nextHID (hub w) + 1)),
     mkWorld (heap w) (mkHub (clients (hub w))
       (<[t := handlers_of (hub w) t ++ [mkEntry (wrapU64 (nextHID (hub w) + 1)) fn]]> (handlers (hub w)))
       (wrapU64 (nextHID (hub w) + 1)) (banned (hub w))) (w_metrics w) (tasks w) (now w)).
Proof. reflexivity. Qed.

(** The handlers after a cancel. *)
Definition cancel_handlers (t : EventType) (id : Z) (m : gmap string (list (handlerEntry H)))
  : gmap string (list (handlerEntry H)) :=
  match m !! t with
  | Some es =>
      match filter (fun e => he_id e <> id) es with [] => delete t m | es' => <[t := es']> m end
  | None => m
  end.

Lemma cancel_eval t id w : (forall es, handlers (hub w) !! t = Some es -> es <> []) ->
  cancel (t, id) w =
    (Ret tt, mkWorld (heap w) (mkHub (clients (hub w)) (cancel_handlers t id (handlers (hub w)))
       (nextHID (hub w)) (banned (hub w))) (w_metrics w) (tasks w) (now w)).
Proof.
  intros Hne. unfold cancel, cancel_handlers. unfold_go.
  destruct (handlers (hub w) !! t) as [[|e0 es]|] eqn:E.
  - by destruct (Hne [] eq_refl).
  - rewrite filtered_ids. by destruct (filter (fun e => he_id e <> id) (e0 :: es)).
  - by destruct w as [? [] ? ? ?].
Qed.

Definition no_hid_wrap w : Prop := (nextHID (hub w) < 18446744073709551615)%Z.

Lemma next_id w : world_wf w -> no_hid_wrap w -> wrapU64 (nextHID (hub w) + 1) = (nextHID (hub w) + 1)%Z.
Proof. intros I Hn. apply Z.mod_small. pose proof (ww_next w I). unfold no_hid_wrap in Hn. lia. Qed.

Lemma world_wf_subscribe t fn w : world_wf w -> no_hid_wrap w -> world_wf (SubscribeCancelable t fn w).2.
Proof.
  intros I Hn. rewrite SubscribeCancelable_eval. pose proof (next_id w I Hn) as En.
  split; cbn [snd set_hub hub heap clients handlers nextHID]; rewrite ?En.
  - apply I.
  - apply I.
  - pose proof (ww_next w I) as H0.
    assert (Hall : forall t0 es0, handlers (hub w) !! t0 = Some es0 ->
      Forall (fun e => (0 < he_id e <= nextHID (hub w) + 1)%Z) es0).
    { intros t0 es0 Ht0. eapply Forall_impl; [apply (ww_handlers w I t0 es0 Ht0)|]. simpl. lia. }
    intros t' es Ht. apply lookup_insert_Some in Ht as [[<- <-]|[_ Ht]].
    + split; [by destruct (handlers_of (hub w) t)|]. unfold handlers_of.
      destruct (handlers (hub w) !! t) as [es0|] eqn:E.
      * destruct (ww_handlers w I t es0 E) as (_ & Hnd & Hf). split.
        -- rewrite fmap_app. apply NoDup_app. split; [done|]. split; [|apply NoDup_singleton].
           intros x Hx ->%list_elem_of_singleton. apply list_elem_of_fmap in Hx as (e & Ee & He).
           simpl in Ee. eapply Forall_forall in Hf; [|exact He]. simpl in Hf. lia.
        -- apply Forall_app. split; [by apply (Hall t)|]. constructor; [simpl; lia|done].
      * split; [apply NoDup_singleton|]. constructor; [simpl; lia|done].
    + destruct (ww_handlers w I t' es Ht) as (Hne & Hnd & _). split_and!; try done. by apply (Hall t').
  - pose proof (ww_next w I). lia.
Qed.

Lemma world_wf_cancel t id w : world_wf w -> world_wf (cancel (t, id) w).2.
Proof.
  intros I. rewrite cancel_eval by (intros es Hes; apply (ww_handlers w I t es Hes)).
  split; simpl; try apply I. unfold cancel_handlers.
  intros t' es Ht. destruct (handlers (hub w) !! t) as [es0|] eqn:E; [|by apply (ww_handlers w I t')].
  destruct (filter (fun e => he_id e <> id) es0) as [|e1 es1] eqn:Ef.
  { apply lookup_delete_Some in Ht as [_ Ht]. by apply (ww_handlers w I t'). }
  apply lookup_insert_Some in Ht as [[<- <-]|[_ Ht]]; [|by apply (ww_handlers w I t')].
  destruct (ww_handlers w I t es0 E) as (_ & Hnd & Hf). rewrite <- Ef. split_and!.
  - by rewrite Ef.
  - eapply sublist_NoDup; [exact Hnd|]. apply fmap_sublist, sublist_filter.
  - apply Forall_forall. intros e [_ He]%list_elem_of_filter. by eapply Forall_forall in Hf.
Qed.

(** C39 (equivalence): the cancel function filters the handler slice in place
    (reading index [i], writing index [j <= i] of one array).  The result is the
    reference filter: in every world, cancelling leaves exactly the other
    handlers of that type, in the order of subscription, and every other type
    untouched. *)
Theorem cancel_filter_in_place (t t' : EventType) (id : Z) w :
  (forall entries : list (handlerEntry H),
     filtered (fun e => negb (he_id e =? id)%Z) entries = filter (fun e => he_id e <> id) entries) /\
  (cancel (t, id) w).1 = Ret tt /\
  handlers_of (hub (cancel (t, id) w).2) t' =
    (if decide (t' = t) then filter (fun e => he_id e <> id) (handlers_of (hub w) t)
     else handlers_of (hub w) t').
Proof.
  split_and!; [intros entries; apply filtered_ids| |]; unfold cancel, handlers_of; unfold_go;
    destruct (handlers (hub w) !! t) as [[|e0 es]|] eqn:E; try done; simpl.
  1,3: case_decide; subst; by rewrite ?E.
  rewrite filtered_ids. case_decide as Ht; [subst t'|]; destruct (filter _ (e0 :: es)) as [|e1 fl];
    by rewrite ?lookup_insert_eq, ?lookup_delete_eq, ?lookup_insert_ne, ?lookup_delete_ne by done.
Qed.

(** Subscriptions.  A new handler gets an id no live handler
    has and is placed after the existing handlers of its type; its cancel
    function removes it and nothing else, so that subscribing and cancelling
    restores the handler table; cancelling twice changes nothing more. *)
Theorem subscribe_cancel_restores t fn w :
  world_wf w -> no_hid_wrap w ->
  exists id w1,
    SubscribeCancelable t fn w = (Ret (t, id), w1) /\
    (forall t' es, handlers (hub w) !! t' = Some es -> id ∉ (he_id <$> es)) /\
    handlers_of (hub w1) t = handlers_of (hub w) t ++ [mkEntry id fn] /\
    handlers (hub (cancel (t, id) w1).2) = handlers (hub w) /\
    cancel (t, id) (cancel (t, id) w1).2 = cancel (t, id) w1.
Proof.
  intros I Hn. pose proof (world_wf_subscribe t fn w I Hn) as I1.
  exists (nextHID (hub w) + 1)%Z, (SubscribeCancelable t fn w).2.
  assert (Hfresh : forall t' es, handlers (hub w) !! t' = Some es ->
    Forall (fun e => he_id e <> (nextHID (hub w) + 1)%Z) es).
  { intros t' es Hes. eapply Forall_impl; [apply (ww_handlers w I t' es Hes)|]. simpl. lia. }
  rewrite SubscribeCancelable_eval in *. rewrite (next_id w I Hn) in *. cbn [snd fst] in *.
  split_and!; [done| | | |].
  - intros t' es Hes (e & Ee & He)%list_elem_of_fmap. eapply Forall_forall in Hfresh; [|done..].
    simpl in Hfresh. congruence.
  - unfold handlers_of at 1. cbn [hub handlers]. by rewrite lookup_insert_eq.
  - rewrite cancel_eval by (intros es Hes; apply (ww_handlers _ I1 t es Hes)).
    cbn [snd hub handlers]. unfold cancel_handlers. rewrite lookup_insert_eq, filter_app, filter_cons_False by (simpl; lia).
    rewrite filter_nil, app_nil_r. unfold handlers_of.
    destruct (handlers (hub w) !! t) as [es|] eqn:E.
    + rewrite filter_all by eauto. destruct es as [|e0 es]; [by destruct (ww_handlers w I t [] E)|].
      by rewrite insert_insert_eq, insert_id.
    + rewrite filter_nil. by rewrite delete_insert_id.
  - pose proof (world_wf_cancel t (nextHID (hub w) + 1) _ I1) as I2.
    rewrite (cancel_eval t _ (cancel _ _).2) by (intros es Hes; apply (ww_handlers _ I2 t es Hes)).
    rewrite cancel_eval by (intros es Hes; apply (ww_handlers _ I1 t es Hes)).
    cbn [snd hub heap clients handlers nextHID banned w_metrics tasks now]. do 3 f_equal. unfold cancel_handlers at 1.
    set (m := <[t := _]> (handlers (hub w))). unfold cancel_handlers.
    destruct (m !! t) as [es|] eqn:Em; [|by rewrite Em].
    destruct (filter (fun e => he_id e <> _) es) as [|e1 es1] eqn:Ef; [by rewrite lookup_delete_eq|].
    rewrite lookup_insert_eq, <- Ef, list_filter_filter_l by done. rewrite Ef.
    by rewrite insert_insert_eq.
Qed.

(** Emit starts exactly one goroutine per handler subscribed
    to the event's type at that moment, in the order of subscription, and
    changes nothing else; an event nobody subscribed to starts none. *)
Theorem emit_starts_subscribers e w :
  Emit e w = (Ret tt, spawn ((fun en => (he_fn en, e)) <$> handlers_of (hub w) (event_type e)) w).
Proof. by rewrite Emit_eval, emitted_handlers. Qed.
End facts.

Arguments world_wf {H} w.
Arguments emitted {H} h e.

#[export] Hint Resolve world_wf_new world_wf_metric world_wf_spawn : chatgo.

Lemma subscribe_cancel_restores_witness :
  let w : World unit := mkWorld ∅ NewHub [] [] 0%Z in
  exists id w1, SubscribeCancelable "t"%string tt w = (Ret ("t"%string, id), w1) /\
    handlers (hub (cancel ("t"%string, id) w1).2) = handlers (hub w).
Proof.
  intros w. destruct (subscribe_cancel_restores "t"%string tt w) as (id & w1 & H1 & _ & _ & H4 & _).
  - apply world_wf_new.
  - vm_compute. reflexivity.
  - exists id, w1. split; [exact H1|exact H4].
Defined.
