(* ===== verification/Membership.v ===== *)
(** * Who is online: registration, kicks, broadcasts, bans

    Theorems about the operations of hub.go that walk over the clients.  The
    walk order of [sync.Map.Range] is arbitrary; the results are shown not to
    depend on it.  [hub_step] is the transition system of everything that can
    happen to a hub; its invariant ties the online gauge to the client map, and
    [hub_run] counts the registrations that put the two apart. *)

From S2P Require Import Prelude Observe Client Events Hub HubFacts.

Section membership.
Context {H : Type}.
Abbreviation World := (World H).
Implicit Types (w : World) (l : loc) (k name : string).

(** ** Registration *)

Lemma registered_id w k l c :
  world_wf w -> clients (hub w) !! k = Some l -> heap w !! l = Some c -> k = ID c.
Proof. intros I Hk Hl. destruct (ww_clients w I k l Hk) as (c' & Hl' & <- & _). congruence. Qed.

Lemma world_wf_unregister l c w :
  world_wf w -> heap w !! l = Some c -> clients (hub w) !! ID c = Some l ->
  world_wf (after_unregister l c w).
Proof.
  intros I Hl Hc. split; simpl; try apply I.
  - intros l2 c2 H2. apply lookup_insert_Some in H2 as [[<- <-]|[_ H2]]; [|by eapply (ww_heap w I)].
    apply client_close_wf. by eapply (ww_heap w I).
  - intros k l2 Hk. apply lookup_delete_Some in Hk as [Hne Hk].
    destruct (ww_clients w I k l2 Hk) as (c2 & H2 & Hid & Ho).
    rewrite lookup_insert_ne; [eauto|]. intros <-. apply Hne. congruence.
Qed.

(** Registering an open client and unregistering it again
    takes it off line, closes it, tells the subscribers of both events, and
    leaves the other members, the handlers and the online gauge as they were. *)
Theorem register_unregister l c w :
  heap w !! l = Some c -> clients (hub w) !! ID c = None ->
  exists w1 w2,
    RegisterClient l w = (Ret tt, w1) /\ UnregisterClient l w1 = (Ret tt, w2) /\
    clients (hub w1) = <[ID c := l]> (clients (hub w)) /\
    clients (hub w2) = clients (hub w) /\
    heap w2 = <[l := client_close c]> (heap w) /\
    online (w_metrics w2) = online (w_metrics w) /\
    tasks w2 = tasks w ++ emitted (hub w) (UserEvent (now w) l "joined")
                       ++ emitted (hub w) (UserEvent (now w) l "leave").
Proof.
  intros Hl Hc. exists (after_register l c w), (after_unregister l c (after_register l c w)).
  rewrite (RegisterClient_eval _ _ _ Hl). split; [done|]. split.
  { apply UnregisterClient_eval with (l' := l); [done|]. simpl. apply lookup_insert_eq. }
  split; [done|]. split; [simpl; by rewrite delete_insert_id|]. split; [done|].
  split; [simpl; rewrite <- app_assoc, online_app; simpl; lia|].
  simpl. by rewrite <- app_assoc.
Qed.

(** ** Kicks *)

(** The key belongs to an online client of that name. *)
Definition named w name k : bool :=
  match clients (hub w) !! k with
  | Some l => match heap w !! l with Some c => bool_decide (Name c = name) | None => false end
  | None => false
  end.

(** The address was kicked on the way through [order]. *)
Definition kicked_at w name (order : list string) l : bool :=
  existsb (fun k => named w name k && bool_decide (clients (hub w) !! k = Some l)) order.

Abbreviation kick_body name := (fun (found : bool) l =>
    c ← deref l;
    if bool_decide (Name c = name) then _ ← UnregisterClient l; mret true else mret found).

Lemma Range_cons {A} k order (f : A -> loc -> GoM World A) a w :
  Range (k :: order) f a w =
    match clients (hub w) !! k with
    | Some l => match f a l w with (Ret a', w') => Range order f a' w' | (Panic p, w') => (Panic p, w') end
    | None => Range order f a w
    end.
Proof. unfold Range. simpl. unfold_go. by destruct (clients (hub w) !! k). Qed.

Lemma kick_body_eval name found l c w :
  heap w !! l = Some c -> clients (hub w) !! ID c = Some l ->
  kick_body name found l w =
    if bool_decide (Name c = name) then (Ret true, after_unregister l c w) else (Ret found, w).
Proof.
  intros Hl Hc. unfold_go. rewrite (deref_eval _ _ _ Hl).
  destruct (bool_decide (Name c = name)); [|done]. by rewrite (UnregisterClient_eval l c l w Hl Hc).
Qed.

(** Removing one named client leaves the other keys' status alone. *)
Lemma named_after w k l c name k' :
  world_wf w -> clients (hub w) !! k = Some l -> heap w !! l = Some c -> k' <> k ->
  named (after_unregister l c w) name k' = named w name k'.
Proof.
  intros I Hk Hl Hne. pose proof (registered_id w k l c I Hk Hl) as ->.
  unfold named. simpl. rewrite lookup_delete_ne by done.
  destruct (clients (hub w) !! k') as [l'|] eqn:Hk'; [|done].
  destruct (decide (l = l')) as [<-|Hl']; [|by rewrite lookup_insert_ne].
  by rewrite (registered_id w k' l c I Hk' Hl) in Hne.
Qed.

Lemma existsb_ext_in {A} (f g : A -> bool) (xs : list A) :
  (forall x, x ∈ xs -> f x = g x) -> existsb f xs = existsb g xs.
Proof.
  intros E. induction xs as [|x xs IH]; [done|]. simpl.
  rewrite E, IH by set_solver. done.
Qed.

Record kick_post w name order (found : bool) (r : outcome bool) w' : Prop := {
  kp_ret : r = Ret (found || existsb (named w name) order);
  kp_wf : world_wf w';
  kp_clients : forall k, clients (hub w') !! k =
    if bool_decide (k ∈ order) && named w name k then None else clients (hub w) !! k;
  kp_heap : forall l, heap w' !! l =
    if kicked_at w name order l then client_close <$> heap w !! l else heap w !! l;
  kp_rest : handlers (hub w') = handlers (hub w) /\ nextHID (hub w') = nextHID (hub w) /\
    banned (hub w') = banned (hub w) /\ now w' = now w;
  kp_gauge : online (w_metrics w') =
    (online (w_metrics w) - Z.of_nat (length (filter (fun k => named w name k = true) order)))%Z;
}.

Lemma kick_post_skip w name k order found r w' :
  named w name k = false -> kick_post w name order found r w' ->
  kick_post w name (k :: order) found r w'.
Proof.
  intros Hk [H1 H2 H3 H4 H5 H6]. split; try done.
  - simpl. by rewrite Hk.
  - intros k'. rewrite H3. destruct (decide (k' = k)) as [->|Hne].
    + by rewrite Hk, !andb_false_r.
    + rewrite (bool_decide_ext (k' ∈ k :: order) (k' ∈ order)); [done|set_solver].
  - intros l. rewrite H4. unfold kicked_at. simpl. by rewrite Hk.
  - rewrite filter_cons_False by congruence. done.
Qed.

Lemma kick_loop order name found w :
  world_wf w -> NoDup order ->
  kick_post w name order found (Range order (kick_body name) found w).1
    (Range order (kick_body name) found w).2.
Proof.
  revert found w. induction order as [|k order IH]; intros found w I Hnd.
  { split; simpl; try done; [by rewrite orb_false_r|lia]. }
  apply NoDup_cons in Hnd as [Hk Hnd]. rewrite Range_cons.
  destruct (clients (hub w) !! k) as [l|] eqn:Ek.
  2:{ apply kick_post_skip; [unfold named; by rewrite Ek|]. by apply IH. }
  destruct (ww_clients w I k l Ek) as (c & Hl & Hid & Ho).
  subst k. rewrite (kick_body_eval name found l c w Hl Ek).
  destruct (bool_decide_reflect (Name c = name)) as [Hn|Hn].
  2:{ apply kick_post_skip; [|by apply IH]. unfold named. rewrite Ek, Hl. by apply bool_decide_eq_false. }
  assert (Hnk : named w name (ID c) = true) by (unfold named; rewrite Ek, Hl; by apply bool_decide_eq_true).
  set (w1 := after_unregister l c w).
  assert (I1 : world_wf w1) by (by apply world_wf_unregister).
  assert (Hnamed : forall k', k' ∈ order -> named w1 name k' = named w name k').
  { intros k' Hk'. apply (named_after w (ID c)); try done. intros ->. done. }
  destruct (IH true w1 I1 Hnd) as [H1 H2 H3 H4 H5 H6]. split; try done.
  - rewrite H1. simpl. rewrite Hnk. by destruct found.
  - intros k'. rewrite H3. simpl. destruct (decide (k' = ID c)) as [->|Hne].
    + rewrite lookup_delete_eq, (bool_decide_true (_ ∈ _ :: _)), Hnk by set_solver.
      by destruct (bool_decide _ && _).
    + rewrite lookup_delete_ne by done. destruct (decide (k' ∈ order)) as [Hin|Hout].
      * rewrite Hnamed by done. by rewrite !bool_decide_true by set_solver.
      * by rewrite !bool_decide_false by set_solver.
  - intros l'. rewrite H4. unfold kicked_at. cbn [existsb]. rewrite Hnk.
    assert (E : existsb (fun k' => named w1 name k' && bool_decide (clients (hub w1) !! k' = Some l')) order
              = existsb (fun k' => named w name k' && bool_decide (clients (hub w) !! k' = Some l')) order).
    { apply existsb_ext_in. intros k' Hk'. rewrite Hnamed by done. f_equal. simpl.
      by rewrite lookup_delete_ne by (intros <-; done). }
    rewrite E. clear E. simpl heap. destruct (decide (l' = l)) as [->|Hne].
    + rewrite (bool_decide_true (_ = Some l)), lookup_insert_eq by done. simpl.
      match goal with |- (if ?b then _ else _) = _ => destruct b eqn:Ex; [|by rewrite Hl] end.
      apply existsb_exists in Ex as (k' & Hk' & Hb). apply andb_true_iff in Hb as [_ Hb].
      apply bool_decide_eq_true in Hb. apply list_elem_of_In in Hk'.
      by rewrite (registered_id w k' l c I Hb Hl) in Hk'.
    + rewrite bool_decide_false by congruence. simpl. by rewrite lookup_insert_ne.
  - rewrite H6. simpl. rewrite online_app, filter_cons_True by done. simpl.
    assert (Ef : filter (fun k => named w1 name k = true) order = filter (fun k => named w name k = true) order).
    { clear -Hnamed. induction order as [|k' order IHo]; [done|].
      rewrite !filter_cons. rewrite Hnamed by set_solver. rewrite IHo; [done|].
      intros x Hx. apply Hnamed. set_solver. }
    rewrite Ef. lia.
Qed.

(** A legal visiting order of [sync.Map.Range]: every key once. *)
Definition range_order w (order : list string) : Prop := order ≡ₚ elements (dom (clients (hub w))).

Lemma range_order_NoDup w order : range_order w order -> NoDup order.
Proof. intros Ho. rewrite Ho. apply NoDup_elements. Qed.

Lemma range_order_elem w order k : range_order w order -> k ∈ order <-> is_Some (clients (hub w) !! k).
Proof. intros Ho. rewrite Ho, elem_of_elements. apply elem_of_dom. Qed.

(** The client is on line. *)
Definition is_online w l c : bool := bool_decide (clients (hub w) !! ID c = Some l).

Lemma named_in_order w order name k :
  range_order w order -> bool_decide (k ∈ order) && named w name k = named w name k.
Proof.
  intros Ho. unfold named. destruct (clients (hub w) !! k) eqn:E; [|by rewrite andb_false_r].
  rewrite bool_decide_true; [done|]. apply (range_order_elem w); eauto.
Qed.

Lemma kicked_at_spec w order name l c :
  world_wf w -> range_order w order -> heap w !! l = Some c ->
  kicked_at w name order l = is_online w l c && bool_decide (Name c = name).
Proof.
  intros I Ho Hl. unfold kicked_at, is_online. apply eq_true_iff_eq.
  rewrite existsb_exists, andb_true_iff, !bool_decide_eq_true. split.
  - intros (k & Hk & Hb). apply andb_true_iff in Hb as [Hn Hb]. apply bool_decide_eq_true in Hb.
    rewrite <- (registered_id w k l c I Hb Hl). split; [done|].
    unfold named in Hn. rewrite Hb, Hl in Hn. by apply bool_decide_eq_true in Hn.
  - intros [Hk Hn]. exists (ID c). split.
    + apply list_elem_of_In, (range_order_elem w); eauto.
    + unfold named. rewrite Hk, Hl. rewrite !bool_decide_true by done. done.
Qed.

(** C26 (functional): KickByName takes exactly the online clients with that name
    off line and closes them, keeps everybody else, reports whether there was
    one, and lowers the online gauge by their number, whatever the order in
    which the map is walked. *)
Theorem kick_by_name order name w :
  world_wf w -> range_order w order ->
  exists w',
    KickByName order name w = (Ret (existsb (named w name) (elements (dom (clients (hub w))))), w') /\
    world_wf w' /\
    (forall k, clients (hub w') !! k = if named w name k then None else clients (hub w) !! k) /\
    (forall l c, heap w !! l = Some c ->
       heap w' !! l = Some (if is_online w l c && bool_decide (Name c = name) then client_close c else c)) /\
    online (w_metrics w') =
      (online (w_metrics w) -
       Z.of_nat (length (filter (fun k => named w name k = true) (elements (dom (clients (hub w)))))))%Z.
Proof.
  intros I Ho. pose proof (kick_loop order name false w I (range_order_NoDup w order Ho)) as [H1 H2 H3 H4 H5 H6].
  exists (Range order (kick_body name) false w).2. split_and!; try done.
  - unfold KickByName. rewrite (surjective_pairing (Range _ _ _ _)). rewrite H1. simpl. do 2 f_equal.
    apply eq_true_iff_eq. rewrite !existsb_exists.
    split; intros (k & Hk & Hn); exists k; (split; [|done]); apply list_elem_of_In; apply list_elem_of_In in Hk.
    + by rewrite <- Ho.
    + by rewrite Ho.
  - intros k. rewrite H3. by rewrite (named_in_order w).
  - intros l c Hl. rewrite H4, (kicked_at_spec w order name l c), Hl by done. by case_match.
  - rewrite H6. do 2 f_equal. by rewrite Ho.
Qed.

(** ** Broadcasts *)

(** What an open client looks like after a [Send]. *)
Definition deliver (m : string) (c : Client) : Client :=
  if (length (out c) <? out_cap c)%nat then set_out c (out c ++ [m]) else c.

Definition full (c : Client) : bool := negb (length (out c) <? out_cap c)%nat.

Definition after_send l c m w : World :=
  if full c then add_metric MDropped w else set_heap <[l := deliver m c]> w.

Lemma Send_open_eval l c m w :
  heap w !! l = Some c -> out_closed c = false -> Send l m w = (Ret tt, after_send l c m w).
Proof.
  intros Hl Ho. rewrite (Send_eval _ _ _ _ Hl). unfold client_send, after_send, full, deliver. rewrite Ho.
  by destruct (length (out c) <? out_cap c)%nat.
Qed.

Lemma after_send_heap l c m w l' :
  heap w !! l = Some c ->
  heap (after_send l c m w) !! l' = if decide (l' = l) then Some (deliver m c) else heap w !! l'.
Proof.
  intros Hl. unfold after_send, full, deliver.
  destruct (length (out c) <? out_cap c)%nat; simpl; case_decide; subst; by simplify_map_eq.
Qed.

Lemma world_wf_after_send l c m w :
  world_wf w -> heap w !! l = Some c -> out_closed c = false -> world_wf (after_send l c m w).
Proof.
  intros I Hl Ho. pose proof (world_wf_Send l c m w I Hl) as Hw.
  by rewrite (Send_open_eval _ _ _ _ Hl Ho) in Hw.
Qed.

(** Walks that send [m] to the clients selected by [p]. *)
Section send_walk.
Context {A : Type} (f : A -> loc -> GoM World A) (g : A -> A) (p : Client -> bool) (m : string).
Context (Hf : forall a l c w, heap w !! l = Some c -> out_closed c = false ->
  f a l w = if p c then (Ret (g a), after_send l c m w) else (Ret a, w)).
Context (Hp : forall c, p (deliver m c) = p c).

Definition selected w k : bool :=
  match clients (hub w) !! k with
  | Some l => match heap w !! l with Some c => p c | None => false end
  | None => false
  end.

Definition hit w (order : list string) l : bool :=
  existsb (fun k => selected w k && bool_decide (clients (hub w) !! k = Some l)) order.

Lemma send_walk order a w :
  world_wf w -> NoDup order ->
  exists w', Range order f a w =
      (Ret (Nat.iter (length (filter (fun k => selected w k = true) order)) g a), w') /\
    world_wf w' /\ hub w' = hub w /\ tasks w' = tasks w /\ now w' = now w /\
    online (w_metrics w') = online (w_metrics w) /\
    (forall l, heap w' !! l = if hit w order l then deliver m <$> heap w !! l else heap w !! l).
Proof.
  revert a w. induction order as [|k order IH]; intros a w I Hnd; [by exists w|].
  apply NoDup_cons in Hnd as [Hk Hnd]. rewrite Range_cons.
  assert (Hskip : selected w k = false -> (forall l, hit w (k :: order) l = hit w order l) /\
    filter (fun k => selected w k = true) (k :: order) = filter (fun k => selected w k = true) order).
  { intros E. split; [intros l; unfold hit; simpl; by rewrite E|]. by rewrite filter_cons_False by congruence. }
  destruct (clients (hub w) !! k) as [l|] eqn:Ek.
  2:{ destruct Hskip as [Hs1 Hs2]; [unfold selected; by rewrite Ek|]. rewrite Hs2.
      destruct (IH a w I Hnd) as (w' & E & ? & ? & ? & ? & ? & Hh). exists w'. split_and!; try done.
      intros l. by rewrite Hs1. }
  destruct (ww_clients w I k l Ek) as (c & Hl & Hid & Ho). rewrite (Hf a l c w Hl Ho).
  destruct (p c) eqn:Ep.
  2:{ destruct Hskip as [Hs1 Hs2]; [unfold selected; by rewrite Ek, Hl|]. rewrite Hs2.
      destruct (IH a w I Hnd) as (w' & E & ? & ? & ? & ? & ? & Hh). exists w'. split_and!; try done.
      intros l'. by rewrite Hs1. }
  assert (Hsel : selected w k = true) by (unfold selected; by rewrite Ek, Hl).
  set (w1 := after_send l c m w).
  assert (I1 : world_wf w1) by (by apply world_wf_after_send).
  assert (Hhub : hub w1 = hub w) by (unfold w1, after_send; by destruct (full c)).
  assert (Hs : forall k', selected w1 k' = selected w k').
  { intros k'. unfold selected. rewrite Hhub. destruct (clients (hub w) !! k') as [l'|]; [|done].
    unfold w1. rewrite after_send_heap by done. case_decide; [|done]. subst l'. by rewrite Hl, Hp. }
  destruct (IH (g a) w1 I1 Hnd) as (w' & E & I' & Hh1 & Ht & Hn & Hon & Hh). exists w'. rewrite E.
  split_and!; [|done|by rewrite Hh1|..].
  - rewrite filter_cons_True by done.
    rewrite (list_filter_iff (fun k => selected w1 k = true) (fun k => selected w k = true))
      by (intros x; by rewrite Hs).
    cbn [length]. by rewrite Nat.iter_succ_r.
  - rewrite Ht. unfold w1, after_send. by destruct (full c).
  - rewrite Hn. unfold w1, after_send. by destruct (full c).
  - rewrite Hon. unfold w1, after_send. destruct (full c); simpl; [|done]. by rewrite online_snoc_other.
  - intros l'. rewrite Hh. unfold w1 at 2 3. rewrite after_send_heap by done.
    assert (Eh : hit w1 order l' = hit w order l').
    { unfold hit. apply existsb_ext_in. intros k' _. by rewrite Hs, Hhub. }
    rewrite Eh. unfold hit at 2. cbn [existsb]. rewrite Hsel, Ek. simpl. case_decide as Hll.
    + subst l'. rewrite bool_decide_true by done. simpl. rewrite Hl.
      destruct (hit w order l) eqn:Ex; [|done].
      apply existsb_exists in Ex as (k' & Hk' & Hb). apply andb_true_iff in Hb as [_ Hb].
      apply bool_decide_eq_true in Hb. apply list_elem_of_In in Hk'.
      rewrite (registered_id w k' l c I Hb Hl) in Hk'. congruence.
    + rewrite bool_decide_false by congruence. done.
Qed.
End send_walk.

Lemma hit_spec (p : Client -> bool) w order l c :
  world_wf w -> range_order w order -> heap w !! l = Some c ->
  hit p w order l = is_online w l c && p c.
Proof.
  intros I Ho Hl. unfold hit, is_online. apply eq_true_iff_eq.
  rewrite existsb_exists, andb_true_iff, bool_decide_eq_true. split.
  - intros (k & Hk & Hb). apply andb_true_iff in Hb as [Hn Hb]. apply bool_decide_eq_true in Hb.
    rewrite <- (registered_id w k l c I Hb Hl). split; [done|].
    unfold selected in Hn. by rewrite Hb, Hl in Hn.
  - intros [Hk Hn]. exists (ID c). split.
    + apply list_elem_of_In, (range_order_elem w); eauto.
    + unfold selected. rewrite Hk, Hl, Hn. rewrite bool_decide_true by done. done.
Qed.

Lemma deliver_name m c : Name (deliver m c) = Name c.
Proof. unfold deliver. by destruct (_ <? _)%nat. Qed.

Lemma SendToAll_walk order m w :
  world_wf w -> range_order w order ->
  exists w', SendToAll order m w = (Ret tt, w') /\ world_wf w' /\ hub w' = hub w /\
    tasks w' = tasks w /\ now w' = now w /\ online (w_metrics w') = online (w_metrics w) /\
    (forall l c, heap w !! l = Some c ->
       heap w' !! l = Some (if is_online w l c then deliver m c else c)).
Proof.
  intros I Ho.
  destruct (send_walk (fun _ l => Send l m) (fun u => u) (fun _ => true) m) with (order := order) (a := tt) (w := w)
    as (w' & E & I' & H1 & H2 & H3 & H4 & Hh); try done.
  - intros [] l c w0 Hl Hc. by apply Send_open_eval.
  - by eapply range_order_NoDup.
  - exists w'. split_and!; try done.
    + unfold SendToAll. rewrite E. do 2 f_equal. by destruct (Nat.iter _ _ _).
    + intros l c Hl. rewrite Hh, (hit_spec _ w order l c), andb_true_r, Hl by done. by case_match.
Qed.

Lemma iter_true n (b : bool) : Nat.iter n (fun _ => true) b = (b || (0 <? n)%nat).
Proof. destruct n; simpl; [by rewrite orb_false_r|]. by destruct b. Qed.

Lemma SendToUser_walk order name m w :
  world_wf w -> range_order w order ->
  exists w', SendToUser order name m w = (Ret (existsb (named w name) order), w') /\
    world_wf w' /\ hub w' = hub w /\
    tasks w' = tasks w /\ now w' = now w /\ online (w_metrics w') = online (w_metrics w) /\
    (forall l c, heap w !! l = Some c ->
       heap w' !! l = Some (if is_online w l c && bool_decide (Name c = name) then deliver m c else c)).
Proof.
  intros I Ho.
  destruct (send_walk (fun (found : bool) l => c ← deref l;
      if bool_decide (Name c = name) then _ ← Send l m; mret true else mret found)
      (fun _ => true) (fun c => bool_decide (Name c = name)) m) with (order := order) (a := false) (w := w)
    as (w' & E & I' & H1 & H2 & H3 & H4 & Hh); try done.
  - intros a l c w0 Hl Hc. unfold_go. rewrite (deref_eval _ _ _ Hl).
    destruct (bool_decide (Name c = name)); [|done]. by rewrite (Send_open_eval _ _ _ _ Hl Hc).
  - intros c. by rewrite deliver_name.
  - by eapply range_order_NoDup.
  - exists w'. split_and!; try done.
    + unfold SendToUser. rewrite E, iter_true. simpl. do 2 f_equal.
      clear. induction order as [|k order IH]; [done|]. rewrite filter_cons. simpl.
      change (selected _ w k) with (named w name k). case_decide as Hd.
      * by rewrite Hd.
      * rewrite IH. by destruct (named w name k).
    + intros l c Hl. rewrite Hh, (hit_spec _ w order l c), Hl by done. by case_match.
Qed.

(** SendToAll reaches exactly the online clients: each gets
    the message appended to its buffer, or keeps its buffer when it is full;
    nobody else is touched, no handler or member changes, the call does not
    panic, and the order of the walk is immaterial. *)
Theorem send_to_all_reaches_online order m w :
  world_wf w -> range_order w order ->
  exists w', SendToAll order m w = (Ret tt, w') /\ world_wf w' /\ hub w' = hub w /\
    (forall l c, heap w !! l = Some c ->
       heap w' !! l = Some (if is_online w l c then deliver m c else c)).
Proof.
  intros I Ho. destruct (SendToAll_walk order m w I Ho) as (w' & E & I' & Hh & _ & _ & _ & Hl).
  by exists w'.
Qed.

(** SendToUser reaches exactly the online clients with that
    name, all of them when several share it, and returns whether there is one. *)
Theorem send_to_user_reaches_named order name m w :
  world_wf w -> range_order w order ->
  exists w', SendToUser order name m w = (Ret (existsb (named w name) order), w') /\
    world_wf w' /\ hub w' = hub w /\
    (forall l c, heap w !! l = Some c ->
       heap w' !! l = Some (if is_online w l c && bool_decide (Name c = name) then deliver m c else c)).
Proof.
  intros I Ho. destruct (SendToUser_walk order name m w I Ho) as (w' & E & I' & Hh & _ & _ & _ & Hl).
  by exists w'.
Qed.

(** ** Bans *)

Definition at_time (t : Time) w : World := mkWorld (heap w) (hub w) (w_metrics w) (tasks w) t.

(** A ban issued at time [now] for [d] nanoseconds holds at a
    time [t] exactly when [d <= 0] (for ever) or [t < now + d]; the check drops
    an expired entry and touches no other name. *)
Theorem ban_window name d t w :
  (0 < now w)%Z ->
  exists w1, BanFor name d w = (Ret tt, w1) /\
    (IsBanned name (at_time t w1)).1 = Ret ((d <=? 0)%Z || (t <? now w + d)%Z) /\
    (forall other, other <> name ->
       banned (hub (IsBanned name (at_time t w1)).2) !! other = banned (hub w) !! other) /\
    (banned (hub (IsBanned name (at_time t w1)).2) !! name = None <->
       (0 < d)%Z /\ (now w + d <= t)%Z).
Proof.
  intros Hnow. eexists. split; [reflexivity|]. unfold IsBanned. unfold_go. simpl.
  rewrite lookup_insert_eq. destruct (Z.leb_spec d 0) as [Hd|Hd]; simpl.
  { split_and!; [done| |].
    - intros other Hne. by rewrite lookup_insert_ne.
    - rewrite lookup_insert_eq. split; [done|lia]. }
  rewrite (proj2 (Z.eqb_neq _ _)) by lia.
  destruct (Z.ltb_spec t (now w + d)); simpl.
  - split_and!; [done| |].
    + intros other Hne. by rewrite lookup_insert_ne.
    + rewrite lookup_insert_eq. split; [done|lia].
  - split_and!; [done| |].
    + intros other Hne. by rewrite lookup_delete_ne, lookup_insert_ne.
    + rewrite lookup_delete_eq. done.
Qed.

(** Nothing consults the ban list at registration: a client
    whose name is banned for ever is registered all the same. *)
Theorem banned_user_can_register l c w :
  heap w !! l = Some c -> banned (hub w) !! Name c = Some 0%Z ->
  (IsBanned (Name c) w).1 = Ret true /\
  clients (hub (RegisterClient l w).2) !! ID c = Some l.
Proof.
  intros Hl Hb. split.
  - unfold IsBanned. unfold_go. by rewrite Hb.
  - rewrite (RegisterClient_eval _ _ _ Hl). simpl. apply lookup_insert_eq.
Qed.

(** ** Everything that can happen to a hub

    One step is one call (or one event of the environment): clients are created,
    renamed, registered, unregistered, kicked, written to and read from; handlers
    come and go; goroutines are taken off the list and count metrics; time
    passes.  As in the source, nothing stands in the way of a call: a client may
    be registered under an ID that is taken, after it was closed, or twice, and
    unregistered when another object is filed under its ID.  Only the 2^64 ids of
    handlers are taken not to run out. *)
Inductive hub_call : relation World :=
| hs_new w l id n : heap w !! l = None -> hub_call w (set_heap <[l := NewClientWithBuffer id n]> w)
| hs_name w l c nm : heap w !! l = Some c -> hub_call w (set_heap <[l := set_name c nm]> w)
| hs_meta w l c m : heap w !! l = Some c -> hub_call w (set_heap <[l := set_meta c m]> w)
| hs_recv w l c : heap w !! l = Some c -> hub_call w (set_heap <[l := (Outgoing c).2]> w)
| hs_send w l m : hub_call w (Send l m w).2
| hs_unregister w l : hub_call w (UnregisterClient l w).2
| hs_kick w order name : range_order w order -> hub_call w (KickByName order name w).2
| hs_send_all w order m : range_order w order -> hub_call w (SendToAll order m w).2
| hs_send_user w order name m : range_order w order -> hub_call w (SendToUser order name m w).2
| hs_subscribe w t fn : no_hid_wrap w -> hub_call w (SubscribeCancelable t fn w).2
| hs_cancel w t id : hub_call w (cancel (t, id) w).2
| hs_emit w e : hub_call w (Emit e w).2
| hs_ban w name d : hub_call w (BanFor name d w).2
| hs_is_banned w name : hub_call w (IsBanned name w).2
| hs_metric w m : (forall d, m <> MOnline d) -> hub_call w (add_metric m w)
| hs_tasks w ts : hub_call w (mkWorld (heap w) (hub w) (w_metrics w) ts (now w))
| hs_tick w t : (now w <= t)%Z -> hub_call w (at_time t w).

Definition hub_step w w' : Prop := hub_call w w' \/ exists l, w' = (RegisterClient l w).2.

(** A registration of [l] that finds its ID taken, or its client closed. *)
Definition id_taken l w : bool :=
  match heap w !! l with Some c => bool_decide (is_Some (clients (hub w) !! ID c)) | None => false end.

Definition was_closed l w : bool :=
  match heap w !! l with Some c => out_closed c | None => false end.

(** The runs of a hub from its creation at [t]: [over] counts the registrations
    that found their ID taken, [stale] the ones of a closed client. *)
Inductive hub_run (t : Time) : nat -> nat -> World -> Prop :=
| hr_fresh : hub_run t 0 0 (mkWorld ∅ NewHub [] [] t)
| hr_call over stale w w' : hub_run t over stale w -> hub_call w w' -> hub_run t over stale w'
| hr_register over stale w l :
    hub_run t over stale w ->
    hub_run t (Nat.b2n (id_taken l w) + over) (Nat.b2n (was_closed l w) + stale) (RegisterClient l w).2.

(** ** Its invariant *)

Record hub_wf w : Prop := {
  hw_heap : forall l c, heap w !! l = Some c -> client_wf c;
  (** a registered address is a client object stored under its own ID *)
  hw_clients : forall k l, clients (hub w) !! k = Some l -> exists c, heap w !! l = Some c /\ ID c = k;
  hw_handlers : forall t es, handlers (hub w) !! t = Some es -> es <> [] /\ NoDup (he_id <$> es) /\
    Forall (fun e => (0 < he_id e <= nextHID (hub w))%Z) es;
  hw_next : (0 <= nextHID (hub w))%Z;
}.

(** Every registered client is open. *)
Definition online_open w : Prop := forall k l c,
  clients (hub w) !! k = Some l -> heap w !! l = Some c -> out_closed c = false.

Lemma world_wf_split w : world_wf w <-> hub_wf w /\ online_open w.
Proof.
  split.
  - intros [H1 H2 H3 H4]. split; [split; try done|].
    + intros k l Hk. destruct (H2 k l Hk) as (c & ? & ? & _). eauto.
    + intros k l c Hk Hl. destruct (H2 k l Hk) as (c' & ? & _ & ?). congruence.
  - intros [[H1 H2 H3 H4] Ho]. split; try done. intros k l Hk. destruct (H2 k l Hk) as (c & Hl & Hi). eauto 6.
Qed.

(** [hub_wf] is [world_wf] of the hub without its clients, and the filing. *)
Definition emptied w : World := set_hub (set_clients (fun _ => ∅)) w.

Lemma hub_wf_emptied w :
  hub_wf w <-> world_wf (emptied w) /\
    (forall k l, clients (hub w) !! k = Some l -> exists c, heap w !! l = Some c /\ ID c = k).
Proof.
  split.
  - intros [H1 H2 H3 H4]. split; [by split|done].
  - intros [[H1 _ H3 H4] H2]. by split.
Qed.

(** The gauge is ahead of the map by [over]. *)
Definition gauge_over (over : Z) w : Prop :=
  online (w_metrics w) = (Z.of_nat (size (clients (hub w))) + over)%Z.

Definition gauge_ok w : Prop := online (w_metrics w) = Z.of_nat (size (clients (hub w))).

Record hub_inv (over : Z) (stale : nat) w : Prop := {
  hi_wf : hub_wf w;
  hi_gauge : gauge_over over w;
  hi_open : stale = 0%nat -> online_open w;
}.

Lemma client_wf_set_name c nm : client_wf c -> client_wf (set_name c nm).
Proof. intros []. by split. Qed.
Lemma client_wf_set_meta c m : client_wf c -> client_wf (set_meta c m).
Proof. intros []. by split. Qed.

Lemma Outgoing_id c : ID (Outgoing c).2 = ID c /\ out_closed (Outgoing c).2 = out_closed c.
Proof. unfold Outgoing. destruct (out c); [|done]. destruct (out_closed c) eqn:E; simpl; auto. Qed.

Lemma client_close_id c : ID (client_close c) = ID c.
Proof. unfold client_close. by destruct (closeOnce c). Qed.

Lemma hub_wf_new t : hub_wf (mkWorld ∅ NewHub [] [] t).
Proof. apply world_wf_split, world_wf_new. Qed.

Lemma hub_wf_heap w l c c' :
  hub_wf w -> heap w !! l = Some c -> client_wf c' -> ID c' = ID c -> hub_wf (set_heap <[l := c']> w).
Proof.
  intros I Hl Hc Hid. split; simpl; try apply I.
  - intros l2 c2 [[<- <-]|[_ H2]]%lookup_insert_Some; [done|by eapply (hw_heap w I)].
  - intros k l2 Hk. destruct (hw_clients w I k l2 Hk) as (c2 & Hh & Hi).
    destruct (decide (l = l2)) as [<-|Hne]; [|rewrite lookup_insert_ne by done; eauto].
    rewrite lookup_insert_eq. exists c'. split; [done|congruence].
Qed.

Lemma hub_wf_new_client w l id n :
  hub_wf w -> heap w !! l = None -> hub_wf (set_heap <[l := NewClientWithBuffer id n]> w).
Proof.
  intros I Hl. split; simpl; try apply I.
  - intros l2 c2 [[<- <-]|[_ H2]]%lookup_insert_Some; [apply new_client_wf|by eapply (hw_heap w I)].
  - intros k l2 Hk. destruct (hw_clients w I k l2 Hk) as (c2 & Hh & Hi).
    rewrite lookup_insert_ne by congruence. eauto.
Qed.

Lemma hub_wf_register l c w : hub_wf w -> heap w !! l = Some c -> hub_wf (after_register l c w).
Proof.
  intros I Hl. split; simpl; try apply I.
  intros k l2 [[<- <-]|[_ Hk]]%lookup_insert_Some; [eauto|by apply (hw_clients w I)].
Qed.

Lemma hub_wf_unregister l c w : hub_wf w -> heap w !! l = Some c -> hub_wf (after_unregister l c w).
Proof.
  intros I Hl.
  assert (I1 : hub_wf (set_heap <[l := client_close c]> w)).
  { eapply hub_wf_heap; [done..| |apply client_close_id]. eapply client_close_wf, (hw_heap w I), Hl. }
  split; simpl; try apply I1. intros k l2 [_ Hk]%lookup_delete_Some. by apply (hw_clients _ I1).
Qed.

Lemma hub_wf_subscribe t fn w : hub_wf w -> no_hid_wrap w -> hub_wf (SubscribeCancelable t fn w).2.
Proof.
  intros [Hw Hf]%hub_wf_emptied Hn. apply hub_wf_emptied. split; [|done].
  exact (world_wf_subscribe t fn (emptied w) Hw Hn).
Qed.

Lemma hub_wf_cancel t id w : hub_wf w -> hub_wf (cancel (t, id) w).2.
Proof.
  intros I. pose proof I as [Hw Hf]%hub_wf_emptied. apply (world_wf_cancel t id) in Hw.
  rewrite cancel_eval in * by (intros es Hes; apply (hw_handlers w I t es Hes)). by apply hub_wf_emptied.
Qed.

(** ** The calls keep the invariant *)
Section kept.
Context (over : Z) (stale : nat).
Abbreviation inv := (hub_inv over stale).

(** A client object changes, but not its ID, and it is closed only when nobody
    finds it in the map. *)
Lemma hub_inv_heap w l c c' :
  inv w -> heap w !! l = Some c -> client_wf c' -> ID c' = ID c ->
  out_closed c' = out_closed c \/ clients (hub w) !! ID c <> Some l -> inv (set_heap <[l := c']> w).
Proof.
  intros [I G O] Hl Hc Hi Ho. split; [by eapply hub_wf_heap|done|].
  intros Hs k l2 c2 Hk H2. simpl in Hk, H2. apply lookup_insert_Some in H2 as [[<- <-]|[_ H2]]; [|by eapply O].
  destruct Ho as [->|Hn]; [by eapply O|].
  destruct (hw_clients w I k l Hk) as (c3 & H3 & <-). assert (c3 = c) as -> by congruence. done.
Qed.

Lemma hub_inv_metric w m : (forall d, m <> MOnline d) -> inv w -> inv (add_metric m w).
Proof.
  intros Hm [[] G O]. split; [by split| |exact O]. unfold gauge_over in *. simpl. by rewrite online_snoc_other.
Qed.

Lemma hub_inv_tasks w ts t : inv w -> inv (mkWorld (heap w) (hub w) (w_metrics w) ts t).
Proof. intros [[] G O]. by split; [split| |]. Qed.

Lemma keeps_inv_deref l : keeps inv (deref l).
Proof. intros w Hw. unfold deref. unfold_go. by destruct (heap w !! l). Qed.

Lemma keeps_inv_Send l m : keeps inv (Send l m).
Proof.
  intros w Hw. destruct (heap w !! l) as [c|] eqn:Hl; [|unfold Send, deref; unfold_go; by rewrite Hl].
  rewrite (Send_eval _ _ _ _ Hl). destruct (client_send c m) as [[c' []]|] eqn:E; simpl; [|..].
  - by apply hub_inv_metric.
  - pose proof (client_send_wf c m c' false (hw_heap w (hi_wf _ _ w Hw) l c Hl) E) as Hc.
    unfold client_send in E. destruct (out_closed c) eqn:Eo; [done|]. destruct (_ <? _)%nat; [|done]. injection E as <-.
    eapply hub_inv_heap; eauto.
  - done.
Qed.

Lemma keeps_inv_Unregister l : keeps inv (UnregisterClient l).
Proof.
  intros w Hw. destruct (heap w !! l) as [c|] eqn:Hl; [|unfold UnregisterClient, deref; unfold_go; by rewrite Hl].
  destruct Hw as [I G O]. destruct (clients (hub w) !! ID c) as [l'|] eqn:Hc.
  - rewrite (UnregisterClient_eval _ _ _ _ Hl Hc). split; [by apply hub_wf_unregister| |].
    + unfold gauge_over in *. simpl. rewrite online_app, G, map_size_delete_Some by eauto. simpl.
      assert (size (clients (hub w)) <> 0%nat) by (apply (map_size_ne_0_lookup_2 _ (ID c)); eauto). lia.
    + intros Hs k l2 c2 Hk H2. simpl in Hk, H2. apply lookup_delete_Some in Hk as [Hne Hk].
      apply lookup_insert_Some in H2 as [[<- <-]|[_ H2]]; [|by eapply (O Hs)].
      destruct (hw_clients w I k l Hk) as (c3 & H3 & <-). congruence.
  - rewrite (UnregisterClient_offline_eval _ _ _ Hl Hc). eapply hub_inv_heap; [done|done| |apply client_close_id|].
    + eapply client_close_wf, (hw_heap w I), Hl.
    + right. congruence.
Qed.

Hint Resolve keeps_inv_deref keeps_inv_Send keeps_inv_Unregister : keeps.

Lemma hub_call_inv w w' : inv w -> hub_call w w' -> inv w'.
Proof.
  intros Hw Hs. pose proof Hw as [I G O].
  destruct Hs as [w l id n Hl|w l c nm Hl|w l c m Hl|w l c Hl|w l m|w l|w order name Hr|w order m Hr
    |w order name m Hr|w t fn Hn|w t id|w e|w name d|w name|w m Hm|w ts|w t Ht].
  - split; [by apply hub_wf_new_client|exact G|]. intros Hs k l2 c2 Hk H2. simpl in Hk, H2.
    apply lookup_insert_Some in H2 as [[<- <-]|[_ H2]]; [done|by eapply (O Hs)].
  - eapply hub_inv_heap; eauto. eapply client_wf_set_name, (hw_heap w I), Hl.
  - eapply hub_inv_heap; eauto. eapply client_wf_set_meta, (hw_heap w I), Hl.
  - destruct (Outgoing_id c). eapply hub_inv_heap; eauto. eapply outgoing_wf, (hw_heap w I), Hl.
  - by apply keeps_inv_Send.
  - by apply keeps_inv_Unregister.
  - assert (K : keeps inv (KickByName order name)) by (unfold KickByName, Range; auto 20 with keeps). by apply K.
  - assert (K : keeps inv (SendToAll order m)) by (unfold SendToAll, Range; auto 20 with keeps). by apply K.
  - assert (K : keeps inv (SendToUser order name m)) by (unfold SendToUser, Range; auto 20 with keeps). by apply K.
  - split; [by apply hub_wf_subscribe|exact G|exact O].
  - split; [by apply hub_wf_cancel|..]; rewrite cancel_eval by (intros es Hes; apply (hw_handlers w I t es Hes)); done.
  - rewrite Emit_eval. by apply hub_inv_tasks.
  - destruct I. by split; [split| |].
  - unfold IsBanned. unfold_go. destruct (banned (hub w) !! name) as [u|]; [|done].
    destruct (u =? 0)%Z; [done|]. destruct (now w <? u)%Z; [done|]. destruct I. by split; [split| |].
  - by apply hub_inv_metric.
  - by apply hub_inv_tasks.
  - by apply hub_inv_tasks.
Qed.
End kept.

(** What a registration adds to the difference. *)
Lemma register_inv over stale l w :
  hub_inv over stale w ->
  hub_inv (Z.b2z (id_taken l w) + over) (Nat.b2n (was_closed l w) + stale) (RegisterClient l w).2.
Proof.
  intros [I G O]. unfold id_taken, was_closed. destruct (heap w !! l) as [c|] eqn:Hl; cycle 1.
  { unfold RegisterClient, deref. unfold_go. by rewrite Hl. }
  rewrite (RegisterClient_eval _ _ _ Hl). split; [by apply hub_wf_register| |].
  - unfold gauge_over in *. simpl. rewrite online_app, G. simpl. case_bool_decide as Hc; simpl.
    + rewrite map_size_insert_Some by done. lia.
    + rewrite map_size_insert_None by (by apply eq_None_not_Some). lia.
  - intros Hs k l2 c2 Hk H2. simpl in Hk, H2. apply lookup_insert_Some in Hk as [[<- <-]|[_ Hk]].
    + assert (c2 = c) as -> by congruence. by destruct (out_closed c).
    + eapply O; [|exact Hk|exact H2]. lia.
Qed.

Lemma hub_run_inv t over stale w : hub_run t over stale w -> hub_inv (Z.of_nat over) stale w.
Proof.
  induction 1 as [|over stale w w' _ IH Hs|over stale w l _ IH].
  - split; [apply hub_wf_new|done|]. intros _ k l c Hk. simpl in Hk. by rewrite lookup_empty in Hk.
  - by eapply hub_call_inv.
  - apply (register_inv _ _ l) in IH. replace (Z.of_nat (Nat.b2n (id_taken l w) + over))
      with (Z.b2z (id_taken l w) + Z.of_nat over)%Z; [done|]. destruct (id_taken l w); simpl; lia.
Qed.

(** Well-formedness by itself is kept by every step, from any state. *)
Lemma hub_inv_any w : hub_wf w -> hub_inv (online (w_metrics w) - Z.of_nat (size (clients (hub w)))) 1 w.
Proof. intros I. split; [done| |done]. unfold gauge_over. lia. Qed.

Lemma hub_step_wf w w' : hub_wf w -> hub_step w w' -> hub_wf w'.
Proof.
  intros I%hub_inv_any [Hs|[l ->]].
  - by eapply hi_wf, hub_call_inv.
  - eapply hi_wf, register_inv, I.
Qed.


(** C7 (invariant): from a fresh hub, after any sequence of calls and events, the
    hub is well formed (every registered client is an object filed under its own
    ID, buffers within capacity, handler ids distinct) and the online gauge is
    the number of online clients plus the number of registrations that found
    their ID taken: [Store] replaces the entry, [AddOnline] counts it again and
    nothing ever takes that back.  While every registration used a free ID the
    gauge is the number of online clients; while none was of a closed client,
    every online client is open. *)
Theorem online_gauge_is_membership t over stale w :
  hub_run t over stale w ->
  hub_wf w /\
  online (w_metrics w) = (Z.of_nat (size (clients (hub w))) + Z.of_nat over)%Z /\
  (stale = 0%nat -> world_wf w).
Proof.
  intros Hr. destruct (hub_run_inv t over stale w Hr) as [I G O]. split_and!; [done|exact G|].
  intros Hs. apply world_wf_split. auto.
Qed.
End membership.

(** ** A small world

    Two clients, alice and bob, both online: the theorems at concrete inputs. *)
Module Demo.
Definition alice : Client := mkClient "1" "alice" (Some ∅) [] 4 false false false.
Definition bob : Client := mkClient "2" "bob" (Some ∅) [] 4 false false false.

Definition world (H : Type) : World H :=
  mkWorld {[ 0%nat := alice; 1%nat := bob ]} (mkHub {[ "1"%string := 0%nat; "2"%string := 1%nat ]} ∅ 0 ∅)
    [MOnline 1; MOnline 1] [] 5%Z.

(** The keys in the map's own order. *)
Definition order (H : Type) : list string := elements (dom (clients (hub (world H)))).

Lemma world_ok (H : Type) : world_wf (world H).
Proof.
  split; simpl.
  - intros l c Hl. apply lookup_insert_Some in Hl as [[_ <-]|[_ Hl]]; [by split; simpl; [lia|lia|]|].
    apply lookup_singleton_Some in Hl as [_ <-]. by split; simpl; [lia|lia|].
  - intros k l Hl. apply lookup_insert_Some in Hl as [[<- <-]|[_ Hl]]; [by exists alice|].
    apply lookup_singleton_Some in Hl as [<- <-]. by exists bob.
  - intros t es Hes. by apply lookup_empty_Some in Hes.
  - lia.
Qed.

Lemma order_ok (H : Type) : range_order (world H) (order H).
Proof. unfold range_order, order. reflexivity. Qed.
End Demo.

Lemma kick_by_name_witness :
  exists w', KickByName (Demo.order unit) "bob" (Demo.world unit) = (Ret true, w') /\
    clients (hub w') !! "2"%string = None /\ clients (hub w') !! "1"%string = Some 0%nat.
Proof.
  destruct (kick_by_name (Demo.order unit) "bob" (Demo.world unit) (Demo.world_ok unit) (Demo.order_ok unit))
    as (w' & E & _ & Hc & _).
  exists w'. split; [exact E|]. rewrite !Hc. split; vm_compute; reflexivity.
Defined.

Lemma send_to_all_reaches_online_witness :
  exists w', SendToAll (Demo.order unit) "hi" (Demo.world unit) = (Ret tt, w') /\
    heap w' !! 0%nat = Some (set_out Demo.alice ["hi"%string]).
Proof.
  destruct (send_to_all_reaches_online (Demo.order unit) "hi" (Demo.world unit) (Demo.world_ok unit) (Demo.order_ok unit))
    as (w' & E & _ & _ & Hh).
  exists w'. split; [exact E|]. exact (Hh 0%nat Demo.alice eq_refl).
Defined.

(** Two objects of one ID: the second registration replaces the first client. *)
Lemma online_gauge_is_membership_witness :
  let w0 := set_heap <[1%nat := NewClientWithBuffer "1" 8%Z]> (set_heap <[0%nat := NewClientWithBuffer "1" 8%Z]>
              (mkWorld (H := unit) ∅ NewHub [] [] 7%Z)) in
  let w1 := (RegisterClient 0%nat w0).2 in
  let w2 := (RegisterClient 1%nat w1).2 in
  world_wf w1 /\ online (w_metrics w1) = 1%Z /\
  world_wf w2 /\ size (clients (hub w2)) = 1%nat /\ online (w_metrics w2) = 2%Z.
Proof.
  intros w0 w1 w2.
  assert (R0 : hub_run 7%Z 0 0 w0).
  { eapply hr_call; [eapply hr_call; [apply hr_fresh|apply hs_new; reflexivity]|apply hs_new; vm_compute; reflexivity]. }
  assert (R1 : hub_run 7%Z 0 0 w1) by exact (hr_register 7%Z 0 0 w0 0%nat R0).
  assert (R2 : hub_run 7%Z 1 0 w2) by exact (hr_register 7%Z 0 0 w1 1%nat R1).
  destruct (online_gauge_is_membership 7%Z 0 0 w1 R1) as (_ & G1 & O1).
  destruct (online_gauge_is_membership 7%Z 1 0 w2 R2) as (_ & G2 & O2).
  split; [exact (O1 eq_refl)|]. split; [rewrite G1; vm_compute; reflexivity|].
  split; [exact (O2 eq_refl)|]. split; [vm_compute; reflexivity|]. rewrite G2. vm_compute. reflexivity.
Defined.

Lemma banned_user_can_register_witness :
  let w := mkWorld (H := unit) {[ 0%nat := Demo.alice ]} (mkHub ∅ ∅ 0%Z {[ "alice"%string := 0%Z ]}) [] [] 5%Z in
  (IsBanned "alice" w).1 = Ret true /\ clients (hub (RegisterClient 0%nat w).2) !! "1"%string = Some 0%nat.
Proof. intros w. apply (banned_user_can_register 0%nat Demo.alice w); reflexivity. Defined.
