(* ===== verification/Broadcast.v ===== *)
(** * The walks of the hub beside other goroutines: [SendToAll] and [SendToUser]
    of [internal/chat/hub.go]

    Both walk the client map without a lock: they look a client up, [SendToUser]
    compares its name, then they write to its channel, and other goroutines may
    call the hub between any two of these operations.  [bstep] runs one operation
    of the walk, or one hub call of somebody else, at a time.  A client that stays
    is reached unless the walk panics; a client that leaves between its lookup and
    its write makes the walk panic, and the clients behind it get nothing. *)

From S2P Require Import Prelude Observe Client Events Hub HubFacts Membership.

(** The walk: keys to visit; a client looked up under a key whose name has not
    been compared; a client not yet written to; the end; a panic (which the
    goroutine of the event handler recovers). *)
Inductive walk :=
| Walking (todo : list string)
| Checking (k : string) (l : loc) (todo : list string)
| Sending (k : string) (l : loc) (todo : list string)
| Finished
| Panicked.

Section broadcast.
Context {H : Type} (want : option string) (msg : string).
Abbreviation World := (World H).

(** The walk, the clients written to (with their keys), the world.  [want] is
    [None] for [SendToAll] and the name for [SendToUser]. *)
Record bstate := mkB { b_walk : walk; b_sent : list (string * loc); b_world : World }.

Inductive bstep : relation bstate :=
| b_load k l todo sent w :
    clients (hub w) !! k = Some l ->
    bstep (mkB (Walking (k :: todo)) sent w)
      (mkB (if want then Checking k l todo else Sending k l todo) sent w)
| b_skip k todo sent w :
    clients (hub w) !! k = None ->
    bstep (mkB (Walking (k :: todo)) sent w) (mkB (Walking todo) sent w)
| b_match k l c n todo sent w :
    want = Some n -> heap w !! l = Some c -> Name c = n ->
    bstep (mkB (Checking k l todo) sent w) (mkB (Sending k l todo) sent w)
| b_pass k l c n todo sent w :
    want = Some n -> heap w !! l = Some c -> Name c <> n ->
    bstep (mkB (Checking k l todo) sent w) (mkB (Walking todo) sent w)
| b_send k l todo sent w w' :
    Send l msg w = (Ret tt, w') ->
    bstep (mkB (Sending k l todo) sent w) (mkB (Walking todo) (sent ++ [(k, l)]) w')
| b_panic k l todo sent w w' p :
    Send l msg w = (Panic p, w') ->
    bstep (mkB (Sending k l todo) sent w) (mkB Panicked sent w')
| b_end sent w : bstep (mkB (Walking []) sent w) (mkB Finished sent w)
| b_other x sent w w' : hub_step w w' -> bstep (mkB x sent w) (mkB x sent w').

(** ** Whom a walk has reached *)

(** Keys not yet passed by. *)
Definition ahead (x : walk) : list string :=
  match x with
  | Walking todo => todo
  | Checking k _ todo | Sending k _ todo => k :: todo
  | Finished | Panicked => []
  end.

(** Each key is passed at most once, in the order of the walk. *)
Lemma bstep_sublist order s s' :
  ((b_sent s).*1 ++ ahead (b_walk s)) `sublist_of` order -> bstep s s' ->
  ((b_sent s').*1 ++ ahead (b_walk s')) `sublist_of` order.
Proof.
  intros Hs Hst. destruct Hst; simpl in *; try done.
  - by destruct want.
  - etrans; [|exact Hs]. apply sublist_app; [done|]. by apply sublist_cons.
  - etrans; [|exact Hs]. apply sublist_app; [done|]. by apply sublist_cons.
  - by rewrite fmap_app, <- app_assoc.
  - etrans; [|exact Hs]. apply sublist_app; [done|]. apply sublist_nil_l.
Qed.

(** The client at [l] is one the walk is meant for. *)
Definition wanted (w : World) (l : loc) : Prop :=
  match want with None => True | Some n => exists c, heap w !! l = Some c /\ Name c = n end.

(** A step taken while the client [l] is on line under [k] and wanted. *)
Definition stays (k : string) (l : loc) (s s' : bstate) : Prop :=
  bstep s s' /\ clients (hub (b_world s)) !! k = Some l /\ wanted (b_world s) l.

(** A step taken while the client [l] is not wanted. *)
Definition shunned (l : loc) (s s' : bstate) : Prop := bstep s s' /\ ~ wanted (b_world s) l.

(** The client has been written to, or the walk is on its way to it, or has
    panicked. *)
Definition due (k : string) (l : loc) (s : bstate) : Prop :=
  (k, l) ∈ b_sent s \/
  match b_walk s with
  | Walking todo => k ∈ todo
  | Checking k' l' todo | Sending k' l' todo => (k', l') = (k, l) \/ k ∈ todo
  | Finished => False
  | Panicked => True
  end.

Lemma stays_due k l s s' : due k l s -> stays k l s s' -> due k l s'.
Proof.
  unfold due, stays, wanted. intros Hk (Hst & Hon & Hw).
  destruct Hst as [k' l' todo sent w Hc|k' todo sent w Hc|k' l' c n todo sent w E Hl Hn|k' l' c n todo sent w E Hl Hn
    |k' l' todo sent w w' E|k' l' todo sent w w' p E|sent w|x sent w w' Hh]; simpl in *; auto;
    (destruct Hk as [Hk|Hk]; [left; set_solver|]); try done.
  - right. apply elem_of_cons in Hk as [->|Hk]; [|destruct want; by right].
    replace l' with l by congruence. destruct want; by left.
  - right. apply elem_of_cons in Hk as [->|Hk]; [congruence|done].
  - rewrite E in Hw. destruct Hw as (c' & Hl' & Hn'), Hk as [[= -> ->]|Hk]; [congruence|by right].
  - destruct Hk as [[= -> ->]|Hk]; [left; set_solver|by right].
  - by apply elem_of_nil in Hk.
Qed.

(** A walk reaches those who stay.  Beside any other hub calls,
    a [SendToAll] that ends without a panic has written to every client that was
    on line during the whole walk, and a [SendToUser] to every one that also had
    the name all the time; it writes to nobody twice, in the order of the walk. *)
Theorem broadcast_reaches_stayers order k l w sent w' :
  NoDup order -> k ∈ order ->
  rtc (stays k l) (mkB (Walking order) [] w) (mkB Finished sent w') ->
  (k, l) ∈ sent /\ NoDup sent.*1 /\ sent.*1 `sublist_of` order.
Proof.
  intros Hnd Hk Hr.
  assert (Hin : due k l (mkB Finished sent w')).
  { refine (rtc_invariant (stays k l) (due k l) _ _ _ _ Hr); [intros s s'; apply stays_due|by right]. }
  assert (Hsub : (sent.*1 ++ []) `sublist_of` order).
  { refine (rtc_invariant (stays k l) (fun s => ((b_sent s).*1 ++ ahead (b_walk s)) `sublist_of` order) _ _ _ _ Hr); [|done].
    intros s s' Hs [Hst _]. by eapply bstep_sublist. }
  rewrite app_nil_r in *. destruct Hin as [Hin|[]]. split_and!; [done|by eapply sublist_NoDup|done].
Qed.

(** A client that never bears the name is not written to. *)
Lemma shunned_unreached n l s s' : want = Some n ->
  (l ∉ (b_sent s).*2 /\ forall k todo, b_walk s <> Sending k l todo) -> shunned l s s' ->
  l ∉ (b_sent s').*2 /\ forall k todo, b_walk s' <> Sending k l todo.
Proof.
  unfold shunned, wanted. intros Ew [Hs Hx] [Hst Hw]. rewrite Ew in Hw.
  destruct Hst as [k' l' todo sent w Hc|k' todo sent w Hc|k' l' c n' todo sent w E Hl Hn|k' l' c n' todo sent w E Hl Hn
    |k' l' todo sent w w' E|k' l' todo sent w w' p E|sent w|x sent w w' Hh]; simpl in *; try (by split).
  - rewrite Ew. by split.
  - split; [done|]. intros k2 todo2 [= -> -> ->]. apply Hw. exists c. split; [done|congruence].
  - rewrite fmap_app. split; [|done]. apply not_elem_of_app. split; [done|]. intros ->%list_elem_of_singleton.
    by eapply Hx.
Qed.

(** A walk nobody interferes with is the atomic operation. *)
Lemma broadcast_alone order sent w w' : want = None ->
  SendToAll order msg w = (Ret tt, w') ->
  exists sent', rtc bstep (mkB (Walking order) sent w) (mkB Finished (sent ++ sent') w').
Proof.
  intros Ew. unfold SendToAll. revert sent w. induction order as [|k order IH]; intros sent w E.
  { injection E as <-. exists []. rewrite app_nil_r. apply rtc_once, b_end. }
  rewrite Range_cons in E. destruct (clients (hub w) !! k) as [l|] eqn:Ek.
  - destruct (Send l msg w) as [[[]|p] w1] eqn:Es; [|done].
    destruct (IH (sent ++ [(k, l)]) w1 E) as [sent' Hr]. exists ((k, l) :: sent'). rewrite <- app_assoc in Hr.
    eapply rtc_l; [by apply (b_load k l)|]. rewrite Ew. eapply rtc_l; [by apply b_send|]. exact Hr.
  - destruct (IH sent w E) as [sent' Hr]. exists sent'. eapply rtc_l; [by apply b_skip|]. exact Hr.
Qed.

Definition hit {A} (sent : list A) : bool := match sent with [] => false | _ => true end.

Lemma direct_alone name order sent w found w' : want = Some name ->
  Range order (fun found l =>
    c ← deref l;
    if bool_decide (Name c = name) then _ ← Send l msg; mret true else mret found) (hit sent) w = (Ret found, w') ->
  exists sent', rtc bstep (mkB (Walking order) sent w) (mkB Finished sent' w') /\ found = hit sent'.
Proof.
  intros Ew. revert sent w. induction order as [|k order IH]; intros sent w E.
  { injection E as <- <-. exists sent. split; [apply rtc_once, b_end|done]. }
  rewrite Range_cons in E. destruct (clients (hub w) !! k) as [l|] eqn:Ek.
  2: { destruct (IH sent w E) as (sent' & Hr & Ef). exists sent'. split; [|done]. eapply rtc_l; [by apply b_skip|exact Hr]. }
  destruct (heap w !! l) as [c|] eqn:El; [|unfold_go; unfold deref in E; unfold_go; by rewrite El in E].
  revert E. unfold_go. rewrite (deref_eval _ _ _ El). case_bool_decide as Hn.
  - destruct (Send l msg w) as [[[]|p] w1] eqn:Es; [|done]. intros E.
    destruct (IH (sent ++ [(k, l)]) w1) as (sent' & Hr & Ef); [by destruct sent|]. exists sent'. split; [|done].
    eapply rtc_l; [by apply (b_load k l)|]. rewrite Ew. eapply rtc_l; [by eapply b_match|].
    eapply rtc_l; [by apply b_send|exact Hr].
  - intros E. destruct (IH sent w E) as (sent' & Hr & Ef). exists sent'. split; [|done].
    eapply rtc_l; [by apply (b_load k l)|]. rewrite Ew. eapply rtc_l; [by eapply b_pass|exact Hr].
Qed.

(** The walk gets to the write of a client it is meant for. *)
Lemma walk_to_sending k l todo sent w :
  clients (hub w) !! k = Some l -> wanted w l ->
  rtc bstep (mkB (Walking (k :: todo)) sent w) (mkB (Sending k l todo) sent w).
Proof.
  unfold wanted. intros Hk Hw. destruct want as [n|] eqn:Ew.
  - destruct Hw as (c & Hl & Hn). eapply rtc_l; [by apply (b_load k l)|]. rewrite Ew. apply rtc_once. by eapply b_match.
  - eapply rtc_l; [by apply (b_load k l)|]. by rewrite Ew.
Qed.

(** A walk is cut short.  When an online client leaves after
    [SendToAll] has looked it up, or [SendToUser] has compared its name, the write
    panics: the walk is over, and no client behind it has got the message,
    whether it stays on line or not. *)
Theorem broadcast_cut_short k l c todo sent w :
  world_wf w -> clients (hub w) !! k = Some l -> heap w !! l = Some c -> wanted w l ->
  let w' := after_unregister l c w in
  UnregisterClient l w = (Ret tt, w') /\
  rtc bstep (mkB (Walking (k :: todo)) sent w) (mkB Panicked sent w') /\
  (forall l' c', l' <> l -> heap w !! l' = Some c' ->
     heap w' !! l' = Some c' /\ is_online w' l' c' = is_online w l' c') /\
  (forall s, bstep (mkB Panicked sent w') s -> b_walk s = Panicked /\ b_sent s = sent).
Proof.
  intros I Hk Hl Hw w'. pose proof (registered_id w k l c I Hk Hl) as ->.
  assert (E : UnregisterClient l w = (Ret tt, w')) by (by apply (UnregisterClient_eval l c l)).
  split_and!; [done| | |].
  - etrans; [by apply walk_to_sending|].
    eapply rtc_l; [apply b_other; left; apply (hs_unregister w l)|]. rewrite E. cbn [snd].
    apply rtc_once. eapply b_panic. rewrite (Send_eval l (client_close c)) by apply lookup_insert_eq.
    unfold client_send, client_close. destruct (closeOnce c) eqn:Ec; [|done].
    pose proof (ww_heap w I l c Hl) as [_ _ [E1 _]]. by rewrite E1, Ec.
  - intros l' c' Hne Hl'. simpl. rewrite lookup_insert_ne by done. split; [done|]. unfold is_online. simpl.
    destruct (decide (ID c' = ID c)) as [Hi|Hi]; [|by rewrite lookup_delete_ne].
    rewrite Hi, lookup_delete_eq, Hk. apply bool_decide_ext. split; congruence.
  - intros s Hs. inversion Hs; subst; done.
Qed.
End broadcast.

(** ** The theorems at concrete inputs

    Alice is looked up first.  In the first run she stays and bob leaves; in the
    second she leaves and bob, who stays, gets nothing. *)
Lemma broadcast_reaches_stayers_witness :
  exists sent w', rtc (stays (H := unit) None "hi" "1" 0%nat) (mkB (Walking ["1"; "2"]%string) [] (Demo.world unit)) (mkB Finished sent w') /\
    ("1"%string, 0%nat) ∈ sent.
Proof.
  set (w := Demo.world unit).
  set (w1 := (UnregisterClient 1%nat w).2). set (w2 := (Send 0%nat "hi" w1).2).
  exists [("1"%string, 0%nat)], w2.
  assert (Hr : rtc (stays (H := unit) None "hi" "1" 0%nat) (mkB (Walking ["1"; "2"]%string) [] w) (mkB Finished [("1"%string, 0%nat)] w2)).
  { eapply rtc_l; [split; [apply (b_load None _ "1" 0%nat); reflexivity|split; [reflexivity|exact I]]|].
    eapply rtc_l; [split; [apply b_other; left; apply (hs_unregister w 1%nat)|split; [reflexivity|exact I]]|].
    eapply rtc_l; [split; [apply (b_send None _ _ _ _ _ w1 w2); reflexivity|split; [reflexivity|exact I]]|].
    eapply rtc_l; [split; [apply b_skip; reflexivity|split; [reflexivity|exact I]]|].
    apply rtc_once. split; [apply b_end|split; [reflexivity|exact I]]. }
  split; [exact Hr|].
  apply (broadcast_reaches_stayers None "hi" ["1"; "2"]%string "1" 0%nat w [("1"%string, 0%nat)] w2); [|left|exact Hr].
  repeat constructor; set_solver.
Defined.

Lemma broadcast_cut_short_witness :
  exists w', rtc (bstep None "hi") (mkB (Walking ["1"; "2"]%string) [] (Demo.world unit)) (mkB Panicked [] w') /\
    heap w' !! 1%nat = Some Demo.bob /\ is_online w' 1%nat Demo.bob = true.
Proof.
  exists (after_unregister 0%nat Demo.alice (Demo.world unit)).
  destruct (broadcast_cut_short None "hi" "1" 0%nat Demo.alice ["2"%string] [] (Demo.world unit) (Demo.world_ok unit))
    as (_ & Hr & Hb & _); [reflexivity|reflexivity|exact I|].
  split; [exact Hr|]. destruct (Hb 1%nat Demo.bob) as [H1 H2]; [discriminate|reflexivity|].
  split; [exact H1|]. rewrite H2. reflexivity.
Defined.
