(* ===== verification/HubConc.v ===== *)
(** * Hub calls beside each other: [RegisterClient], [UnregisterClient] and
      [KickByName] of [internal/chat/hub.go]

    The calls that change membership take no common lock: storing or deleting
    the client, closing it, emitting the event and moving the gauge are separate
    operations, and other goroutines run between any two of them.  [mstep] runs
    one operation of one call at a time.  The gauge is then behind the client map
    by exactly what the calls under way still owe it, and right when they have
    all returned, however many goroutines unregister the same client, except
    that a registration under a taken ID counts for ever. *)

From S2P Require Import Prelude Observe Client Events Hub HubFacts Membership.

Local Open Scope Z_scope.

(** What a call of [UnregisterClient] returns to: nothing, or the walk of
    [KickByName] (the name and the keys to visit). *)
Definition cont := option (string * list string).

(** Where a call is. *)
Inductive mpc :=
| MReg (l : loc)                                  (** [RegisterClient], before [Store] *)
| MRegEmit (l : loc)
| MRegGauge
| MUnreg (l : loc) (k : cont)                     (** [UnregisterClient], before [LoadAndDelete] *)
| MUnregClose (l : loc) (k : cont)                (** the entry was there *)
| MUnregEmit (l : loc) (k : cont)
| MUnregGauge (l : loc) (k : cont)
| MUnregMiss (l : loc) (k : cont)                 (** the entry was not there *)
| MKick (name : string) (todo : list string) (found : bool)
| MKickAt (l : loc) (name : string) (todo : list string) (found : bool)
| MDone (unregistered : option loc) (found : bool).

(** After [UnregisterClient l]. *)
Definition resume (l : loc) (k : cont) : mpc :=
  match k with
  | None => MDone (Some l) true
  | Some (name, todo) => MKick name todo true
  end.

Section hub_conc.
Context {H : Type}.
Abbreviation World := (World H).
Implicit Types (w : World) (l : loc).

(** [m_over] is no part of the program: it counts the [Store]s that found their
    ID taken. *)
Record mstate := mkMS { m_world : World; m_calls : list mpc; m_over : nat }.

(** 1 if the ID of the client is taken. *)
Definition taken (c : Client) (w : World) : nat := Nat.b2n (bool_decide (is_Some (clients (hub w) !! ID c))).

Inductive mstep : relation mstate :=
| mt_call w cs o pc :
    (exists l, pc = MReg l) \/ (exists l, pc = MUnreg l None) \/ (exists name order, pc = MKick name order false) ->
    mstep (mkMS w cs o) (mkMS w (cs ++ [pc]) o)
| mt_store w cs o i l c :
    cs !! i = Some (MReg l) -> heap w !! l = Some c ->
    mstep (mkMS w cs o) (mkMS (set_hub (set_clients <[ID c := l]>) w) (<[i := MRegEmit l]> cs) (taken c w + o))
| mt_joined w cs o i l :
    cs !! i = Some (MRegEmit l) ->
    mstep (mkMS w cs o) (mkMS (Emit (UserEvent (now w) l "joined") w).2 (<[i := MRegGauge]> cs) o)
| mt_gauge_up w cs o i :
    cs !! i = Some MRegGauge ->
    mstep (mkMS w cs o) (mkMS (AddOnline 1 w).2 (<[i := MDone None true]> cs) o)
| mt_load_delete w cs o i l k c l' :
    cs !! i = Some (MUnreg l k) -> heap w !! l = Some c -> clients (hub w) !! ID c = Some l' ->
    mstep (mkMS w cs o) (mkMS (set_hub (set_clients (delete (ID c))) w) (<[i := MUnregClose l k]> cs) o)
| mt_load_miss w cs o i l k c :
    cs !! i = Some (MUnreg l k) -> heap w !! l = Some c -> clients (hub w) !! ID c = None ->
    mstep (mkMS w cs o) (mkMS w (<[i := MUnregMiss l k]> cs) o)
| mt_close w cs o i l k w' :
    cs !! i = Some (MUnregClose l k) -> Close l w = (Ret tt, w') ->
    mstep (mkMS w cs o) (mkMS w' (<[i := MUnregEmit l k]> cs) o)
| mt_leave w cs o i l k :
    cs !! i = Some (MUnregEmit l k) ->
    mstep (mkMS w cs o) (mkMS (Emit (UserEvent (now w) l "leave") w).2 (<[i := MUnregGauge l k]> cs) o)
| mt_gauge_down w cs o i l k :
    cs !! i = Some (MUnregGauge l k) ->
    mstep (mkMS w cs o) (mkMS (AddOnline (-1) w).2 (<[i := resume l k]> cs) o)
| mt_miss_close w cs o i l k w' :
    cs !! i = Some (MUnregMiss l k) -> Close l w = (Ret tt, w') ->
    mstep (mkMS w cs o) (mkMS w' (<[i := resume l k]> cs) o)
| mt_visit w cs o i name key todo found l :
    cs !! i = Some (MKick name (key :: todo) found) -> clients (hub w) !! key = Some l ->
    mstep (mkMS w cs o) (mkMS w (<[i := MKickAt l name todo found]> cs) o)
| mt_gone w cs o i name key todo found :
    cs !! i = Some (MKick name (key :: todo) found) -> clients (hub w) !! key = None ->
    mstep (mkMS w cs o) (mkMS w (<[i := MKick name todo found]> cs) o)
| mt_match w cs o i l name todo found c :
    cs !! i = Some (MKickAt l name todo found) -> heap w !! l = Some c -> Name c = name ->
    mstep (mkMS w cs o) (mkMS w (<[i := MUnreg l (Some (name, todo))]> cs) o)
| mt_other_name w cs o i l name todo found c :
    cs !! i = Some (MKickAt l name todo found) -> heap w !! l = Some c -> Name c <> name ->
    mstep (mkMS w cs o) (mkMS w (<[i := MKick name todo found]> cs) o)
| mt_walked w cs o i name found :
    cs !! i = Some (MKick name [] found) ->
    mstep (mkMS w cs o) (mkMS w (<[i := MDone None found]> cs) o)
| mt_send w cs o l msg w' r :
    Send l msg w = (r, w') -> mstep (mkMS w cs o) (mkMS w' cs o)
| mt_rename w cs o l c nm :
    heap w !! l = Some c -> mstep (mkMS w cs o) (mkMS (set_heap <[l := set_name c nm]> w) cs o)
| mt_new w cs o l id n :
    heap w !! l = None -> mstep (mkMS w cs o) (mkMS (set_heap <[l := NewClientWithBuffer id n]> w) cs o)
| mt_tick w cs o t :
    now w <= t -> mstep (mkMS w cs o) (mkMS (at_time t w) cs o).

(** A call that nobody disturbs is the operation of Hub.v. *)
Lemma unregister_alone l c l' w cs o :
  heap w !! l = Some c -> clients (hub w) !! ID c = Some l' ->
  rtc mstep (mkMS w (cs ++ [MUnreg l None]) o) (mkMS (UnregisterClient l w).2 (cs ++ [MDone (Some l) true]) o).
Proof.
  intros Hl Hc. set (i := length cs).
  assert (Hi : forall pc, (cs ++ [pc]) !! i = Some pc) by (intros pc; by apply list_lookup_middle).
  assert (Hu : forall pc pc', <[i := pc']> (cs ++ [pc]) = cs ++ [pc'])
    by (intros pc pc'; unfold i; replace (length cs) with (length cs + 0)%nat by lia; by rewrite insert_app_r).
  rewrite (UnregisterClient_eval l c l') by done. cbn [snd].
  eapply rtc_l; [eapply mt_load_delete; [apply Hi|done|done]|]. rewrite Hu.
  eapply rtc_l; [eapply mt_close; [apply Hi|by apply (Close_eval _ c)]|]. rewrite Hu.
  eapply rtc_l; [eapply mt_leave, Hi|]. rewrite Hu, Emit_eval. cbn [snd].
  eapply rtc_l; [eapply mt_gauge_down, Hi|]. rewrite Hu. reflexivity.
Qed.

(** ** What the calls owe the gauge *)

Definition owes (pc : mpc) : Z :=
  match pc with
  | MRegEmit _ | MRegGauge => 1
  | MUnregClose _ _ | MUnregEmit _ _ | MUnregGauge _ _ => -1
  | _ => 0
  end.

Definition debt (cs : list mpc) : Z := foldr (fun pc z => owes pc + z) 0 cs.

Definition finished (pc : mpc) : bool := match pc with MDone _ _ => true | _ => false end.

(** The client the call has closed. *)
Definition has_closed (pc : mpc) : option loc :=
  match pc with MUnregEmit l _ | MUnregGauge l _ | MDone (Some l) _ => Some l | _ => None end.

Lemma debt_app cs pc : debt (cs ++ [pc]) = debt cs + owes pc.
Proof. induction cs as [|x cs IH]; simpl; [lia|]. rewrite IH. lia. Qed.

Lemma debt_insert cs i pc pc' : cs !! i = Some pc -> debt (<[i := pc']> cs) = debt cs + owes pc' - owes pc.
Proof. revert i. induction cs as [|x cs IH]; intros [|i] Hi; simplify_eq/=; [lia|]. rewrite (IH i Hi). lia. Qed.

Lemma debt_finished cs : Forall (fun pc => finished pc = true) cs -> debt cs = 0.
Proof. induction 1 as [|pc cs Hp _ IH]; [done|]. simpl. rewrite IH. by destruct pc. Qed.

Lemma owes_resume l k : owes (resume l k) = 0.
Proof. by destruct k as [[? ?]|]. Qed.

Definition is_closed (w : World) (l : loc) : Prop :=
  exists c, heap w !! l = Some c /\ out_closed c = true /\ closed c = true /\ closeOnce c = true.

Record minv (st : mstate) : Prop := {
  mi_gauge : online (w_metrics (m_world st)) + debt (m_calls st) =
    Z.of_nat (size (clients (hub (m_world st)))) + Z.of_nat (m_over st);
  mi_wf l c : heap (m_world st) !! l = Some c -> client_wf c;
  mi_closed i pc l : m_calls st !! i = Some pc -> has_closed pc = Some l -> is_closed (m_world st) l;
}.

Lemma wf_closed c : client_wf c -> out_closed (client_close c) = true /\ closed (client_close c) = true /\ closeOnce (client_close c) = true.
Proof. intros [_ _ [W1 W2]]. unfold client_close. destruct (closeOnce c) eqn:E; [|done]. split_and!; congruence. Qed.

Lemma wf_close c : client_wf c -> client_wf (client_close c).
Proof. intros Wc. unfold client_close. destruct (closeOnce c); [done|]. destruct Wc. by split. Qed.

(** One call moves on; the world changes only in what the gauge and the map show. *)
Lemma minv_move w cs o i pc pc' w' o' :
  minv (mkMS w cs o) -> cs !! i = Some pc -> heap w' = heap w ->
  online (w_metrics w') - online (w_metrics w) + owes pc' - owes pc =
    Z.of_nat (size (clients (hub w'))) - Z.of_nat (size (clients (hub w))) + Z.of_nat o' - Z.of_nat o ->
  (forall l, has_closed pc' = Some l -> is_closed w l) -> minv (mkMS w' (<[i := pc']> cs) o').
Proof.
  intros [G W C] Hi Hh Hg Hc. cbn [m_world m_calls m_over] in *. split; cbn [m_world m_calls m_over].
  - rewrite (debt_insert _ _ pc) by done. lia.
  - intros l c. rewrite Hh. apply W.
  - intros j q l Hj Hq. unfold is_closed. rewrite Hh.
    apply list_lookup_insert_Some in Hj as [(-> & -> & _)|[_ Hj]]; [by apply Hc|by eapply C].
Qed.

(** A client object changes, membership does not. *)
Lemma minv_heap w cs o l c c' w' :
  minv (mkMS w cs o) -> heap w !! l = Some c -> heap w' = <[l := c']> (heap w) ->
  online (w_metrics w') = online (w_metrics w) -> clients (hub w') = clients (hub w) ->
  client_wf c' -> (closeOnce c = true -> closeOnce c' = true) -> minv (mkMS w' cs o).
Proof.
  intros [G W C] Hl Hh Hg Hcl Hwf Hmono. cbn [m_world m_calls m_over] in *. split; cbn [m_world m_calls m_over].
  - by rewrite Hg, Hcl.
  - intros l2 c2. rewrite Hh. intros [[_ <-]|[_ E]]%lookup_insert_Some; [done|by eapply W].
  - intros j q l2 Hj Hq. destruct (C j q l2 Hj Hq) as (c2 & E & H1 & H2 & H3). unfold is_closed. rewrite Hh.
    destruct (decide (l2 = l)) as [->|Hne]; [|exists c2; by rewrite lookup_insert_ne].
    exists c'. rewrite lookup_insert_eq. assert (c2 = c) as -> by congruence. destruct Hwf as [_ _ [W1 W2]].
    rewrite W1, W2. split; [done|]. by rewrite Hmono.
Qed.

(** [Close] on behalf of a call. *)
Lemma minv_close w cs o i pc pc' l w' :
  minv (mkMS w cs o) -> cs !! i = Some pc -> Close l w = (Ret tt, w') -> owes pc' = owes pc ->
  (forall l2, has_closed pc' = Some l2 -> l2 = l) -> minv (mkMS w' (<[i := pc']> cs) o).
Proof.
  intros I Hi E Ho Hc. pose proof I as [_ W _]. cbn in W.
  destruct (heap w !! l) as [c|] eqn:El; [|unfold Close, deref in E; revert E; unfold_go; by rewrite El].
  rewrite (Close_eval _ c) in E by done. injection E as <-. pose proof (W l c El) as Wc.
  assert (I' : minv (mkMS (set_heap <[l := client_close c]> w) cs o)).
  { eapply (minv_heap w cs o l c (client_close c)); try done; [by apply wf_close|]. intros _. by apply wf_closed. }
  eapply (minv_move _ cs o i pc pc' _ o I'); try done; [lia|].
  intros l2 ->%Hc. exists (client_close c). cbn. rewrite lookup_insert_eq. split; [done|]. by apply wf_closed.
Qed.

Lemma has_closed_resume l k l2 : has_closed (resume l k) = Some l2 -> l2 = l.
Proof. destruct k as [[? ?]|]; [done|]. by intros [= ->]. Qed.

Lemma minv_step st st' : minv st -> mstep st st' -> minv st'.
Proof.
  intros I Hst. destruct Hst as [w cs o pc Hpc|w cs o i l c Hi Hl|w cs o i l Hi|w cs o i Hi|w cs o i l k c l' Hi Hl Hc|
    w cs o i l k c Hi Hl Hc|w cs o i l k w' Hi E|w cs o i l k Hi|w cs o i l k Hi|w cs o i l k w' Hi E|w cs o i name key todo found l Hi Hk|
    w cs o i name key todo found Hi Hk|w cs o i l name todo found c Hi Hl Hn|w cs o i l name todo found c Hi Hl Hn|w cs o i name found Hi|
    w cs o l msg w' r E|w cs o l c nm Hl|w cs o l id n Hl|w cs o t Ht].
  all: try (rewrite Emit_eval; cbn [snd]).
  all: try (eapply minv_move; [exact I|exact Hi|done|cbn [w_metrics hub clients set_hub set_clients spawn owes]; lia|done]).
  - destruct I as [G W C]. cbn [m_world m_calls m_over] in *. split; cbn [m_world m_calls m_over]; [|done|].
    + rewrite debt_app. destruct Hpc as [[? ->]|[[? ->]|(? & ? & ->)]]; simpl; lia.
    + intros j q l Hj Hq. apply lookup_app_Some in Hj as [Hj|[_ Hj]]; [by eapply C|].
      apply list_lookup_singleton_Some in Hj as [_ <-]. by destruct Hpc as [[? ->]|[[? ->]|(? & ? & ->)]].
  - eapply minv_move; [exact I|exact Hi|done| |done]. unfold taken. cbn. case_bool_decide as Ht; cbn.
    + rewrite map_size_insert_Some by done. lia.
    + rewrite map_size_insert_None by (by apply eq_None_not_Some). lia.
  - eapply minv_move; [exact I|exact Hi|done| |done]. cbn. rewrite online_app. cbn. lia.
  - eapply minv_move; [exact I|exact Hi|done| |done]. cbn. rewrite map_size_delete_Some by eauto.
    assert (size (clients (hub w)) <> O) by (apply (map_size_ne_0_lookup_2 _ (ID c)); eauto). lia.
  - eapply minv_close; [exact I|exact Hi|exact E|done|]. by intros l2 [= ->].
  - eapply minv_move; [exact I|exact Hi|done|cbn; lia|]. intros l2 [= <-]. destruct I as [_ _ C]. by eapply C.
  - eapply minv_move; [exact I|exact Hi|done| |].
    + rewrite owes_resume. cbn. rewrite online_app. cbn. lia.
    + intros l2 ->%has_closed_resume. destruct I as [_ _ C]. by eapply C.
  - eapply minv_close; [exact I|exact Hi|exact E|apply owes_resume|apply has_closed_resume].
  - pose proof I as [_ W _]. cbn in W. destruct (heap w !! l) as [c|] eqn:El.
    + rewrite (Send_eval _ c) in E by done. destruct (client_send c msg) as [[c' []]|p] eqn:Es; injection E as <- <-; [| |done].
      * destruct I as [G W' C]. split; [|exact W'|exact C]. cbn in *. rewrite online_snoc_other by done. exact G.
      * eapply (minv_heap w cs o l c c'); try done; [by eapply client_send_wf; [apply (W l)|]|].
        unfold client_send in Es. destruct (out_closed c); [done|]. destruct (_ <? _)%nat; by injection Es as <-.
    + unfold Send, deref in E. revert E. unfold_go. rewrite El. by intros [= _ <-].
  - pose proof I as [_ W _]. cbn in W. eapply (minv_heap w cs o l c (set_name c nm)); try done. by apply client_wf_set_name, (W l).
  - destruct I as [G W C]. split; [exact G| |]; cbn [m_world m_calls m_over set_heap heap] in *.
    + intros l2 c2 [[_ <-]|[_ E]]%lookup_insert_Some; [apply new_client_wf|by eapply W].
    + intros j q l2 Hj Hq. destruct (C j q l2 Hj Hq) as (c2 & E & Hc). exists c2. cbn. rewrite lookup_insert_ne by congruence. done.
  - destruct I as [G W C]. by split.
Qed.

Lemma minv_reachable w st : gauge_ok w -> (forall l c, heap w !! l = Some c -> client_wf c) ->
  rtc mstep (mkMS w [] 0) st -> minv st.
Proof.
  intros G W Hr. eapply rtc_invariant; [exact minv_step| |exact Hr]. split; cbn; [|done|done].
  unfold gauge_ok in G. lia.
Qed.

(** C8 (invariant): the online gauge under concurrency.  However the operations
    of registrations, unregistrations and kicks interleave, with each other and
    with sends, the gauge differs from the number of online clients by exactly
    what the calls under way still owe it and the number of registrations whose
    [Store] found the ID taken; when all calls have returned only the latter is
    left, no matter how often a client was unregistered, so that the gauge is
    right if every ID was free; and a client whose unregistration has returned
    is closed. *)
Theorem gauge_settles w st :
  gauge_ok w -> (forall l c, heap w !! l = Some c -> client_wf c) -> rtc mstep (mkMS w [] 0) st ->
  online (w_metrics (m_world st)) + debt (m_calls st) =
    Z.of_nat (size (clients (hub (m_world st)))) + Z.of_nat (m_over st) /\
  (Forall (fun pc => finished pc = true) (m_calls st) ->
     online (w_metrics (m_world st)) = Z.of_nat (size (clients (hub (m_world st)))) + Z.of_nat (m_over st)) /\
  (forall l b, MDone (Some l) b ∈ m_calls st ->
     exists c, heap (m_world st) !! l = Some c /\ out_closed c = true /\ closed c = true).
Proof.
  intros G W Hr. destruct (minv_reachable w st G W Hr) as [I1 _ I3]. split_and!; [done| |].
  - intros Hf. rewrite <- I1, (debt_finished _ Hf). lia.
  - intros l b (i & Hi)%list_elem_of_lookup. destruct (I3 i _ l Hi eq_refl) as (c & E & H1 & H2 & _). by exists c.
Qed.
End hub_conc.

(** ** The theorem at concrete inputs: two goroutines unregister one client at
    the same time; two register objects of one ID. *)
Module ConcDemo.
Definition c : Client := NewClientWithBuffer "a" 4.
Definition w0 : World unit := mkWorld {[ 0%nat := c ]} (mkHub {[ "a"%string := 0%nat ]} ∅ 0 ∅) [MOnline 1] [] 1.
Definition w1 : World unit :=
  mkWorld {[ 0%nat := client_close c ]} (mkHub ∅ ∅ 0 ∅) [MOnline 1; MOnline (-1)] [] 1.
Definition done : mpc := MDone (Some 0%nat) true.

Lemma conc_run : rtc mstep (mkMS w0 [] 0) (mkMS w1 [done; done] 0).
Proof.
  eapply rtc_l; [apply (mt_call w0 [] 0 (MUnreg 0%nat None)); eauto|].
  eapply rtc_l; [apply (mt_call w0 [MUnreg 0%nat None] 0 (MUnreg 0%nat None)); eauto|].
  eapply rtc_l; [eapply (mt_load_delete _ _ _ 0 0%nat None c 0%nat); reflexivity|].
  eapply rtc_l; [eapply (mt_load_miss _ _ _ 1 0%nat None c); reflexivity|].
  eapply rtc_l; [eapply (mt_miss_close _ _ _ 1 0%nat None); reflexivity|].
  eapply rtc_l; [eapply (mt_close _ _ _ 0 0%nat None); reflexivity|].
  eapply rtc_l; [eapply (mt_leave _ _ _ 0 0%nat None); reflexivity|].
  eapply rtc_l; [eapply (mt_gauge_down _ _ _ 0 0%nat None); reflexivity|]. apply rtc_refl.
Qed.

Definition v0 : World unit := mkWorld {[ 0%nat := c; 1%nat := c ]} (mkHub ∅ ∅ 0 ∅) [] [] 1.
Definition v1 : World unit :=
  mkWorld {[ 0%nat := c; 1%nat := c ]} (mkHub {[ "a"%string := 1%nat ]} ∅ 0 ∅) [MOnline 1; MOnline 1] [] 1.
Definition registered : mpc := MDone None true.

Lemma double_run : rtc mstep (mkMS v0 [] 0) (mkMS v1 [registered; registered] 1).
Proof.
  eapply rtc_l; [apply (mt_call v0 [] 0 (MReg 0%nat)); eauto|].
  eapply rtc_l; [apply (mt_call v0 [MReg 0%nat] 0 (MReg 1%nat)); eauto|].
  eapply rtc_l; [eapply (mt_store _ _ _ 0 0%nat c); reflexivity|].
  eapply rtc_l; [eapply (mt_store _ _ _ 1 1%nat c); reflexivity|].
  eapply rtc_l; [eapply (mt_joined _ _ _ 0 0%nat); reflexivity|].
  eapply rtc_l; [eapply (mt_joined _ _ _ 1 1%nat); reflexivity|].
  eapply rtc_l; [eapply (mt_gauge_up _ _ _ 0); reflexivity|].
  eapply rtc_l; [eapply (mt_gauge_up _ _ _ 1); reflexivity|]. apply rtc_refl.
Qed.

Lemma clients_wf (w : World unit) l d : w = w0 \/ w = v0 -> heap w !! l = Some d -> client_wf d.
Proof.
  intros Hw Hl. assert (d = c) as ->; [|apply new_client_wf]. destruct Hw as [-> | ->]; unfold w0, v0 in Hl; cbn [heap] in Hl.
  - by apply lookup_singleton_Some in Hl as [_ <-].
  - apply lookup_insert_Some in Hl as [[_ <-]|[_ Hl]]; [done|]. by apply lookup_singleton_Some in Hl as [_ <-].
Qed.
End ConcDemo.

Lemma gauge_settles_witness :
  gauge_ok ConcDemo.w1 /\ (exists c, heap ConcDemo.w1 !! 0%nat = Some c /\ closed c = true) /\
  size (clients (hub ConcDemo.v1)) = 1%nat /\ online (w_metrics ConcDemo.v1) = 2.
Proof.
  destruct (gauge_settles ConcDemo.w0 (mkMS ConcDemo.w1 [ConcDemo.done; ConcDemo.done] 0)) as (_ & Hg & Hc).
  - vm_compute. reflexivity.
  - intros l c Hl. apply (ConcDemo.clients_wf ConcDemo.w0 l c); [auto|exact Hl].
  - exact ConcDemo.conc_run.
  - assert (Hf : forall st : mpc, finished st = true -> Forall (fun pc => finished pc = true) [st; st]) by (repeat constructor; done).
    split; [unfold gauge_ok; refine (eq_trans (Hg (Hf ConcDemo.done eq_refl)) _); reflexivity|].
    split; [destruct (Hc 0%nat true) as (c & E & _ & H2); [left|]; exists c; split; [exact E|exact H2]|].
    split; [reflexivity|].
    destruct (gauge_settles ConcDemo.v0 (mkMS ConcDemo.v1 [ConcDemo.registered; ConcDemo.registered] 1)) as (_ & Hv & _).
    + vm_compute. reflexivity.
    + intros l c Hl. apply (ConcDemo.clients_wf ConcDemo.v0 l c); [auto|exact Hl].
    + exact ConcDemo.double_run.
    + exact (Hv (Hf ConcDemo.registered eq_refl)).
Defined.
