(* ===== verification/Bans.v ===== *)
(** * Bans beside each other: [BanFor] and [IsBanned] of [internal/chat/hub.go]

    [IsBanned] reads the entry under the read lock, decides without a lock, and
    deletes an expired entry under the write lock: another goroutine may renew
    the ban in between.  [bnstep] runs one critical section at a time.  A ban
    holds for its whole time as long as no check that saw an expired entry is
    still under way when it is issued; such a check deletes the renewed ban. *)

From S2P Require Import Prelude Observe Client Events Hub HubFacts Membership.

Local Open Scope Z_scope.

(** Where a call of [IsBanned] is. *)
Inductive ipc :=
| IStart (name : string)
| IRead (name : string) (entry : option Time)       (** what was read under the read lock *)
| IClean (name : string)                            (** about to delete *)
| IDone (name : string) (r : bool).

Record bans := mkBans { table : gmap string Time; clock : Time; checks : list ipc }.

(** The end of a ban of [d] issued at [t]. *)
Definition ban_end (t d : Z) : Time := if d <=? 0 then 0 else t + d.

(** The label names whom the step bans. *)
Inductive bnstep : option string -> relation bans :=
| bn_tick b c cs t : c <= t -> bnstep None (mkBans b c cs) (mkBans b t cs)
| bn_ban b c cs name d : bnstep (Some name) (mkBans b c cs) (mkBans (<[name := ban_end c d]> b) c cs)
| bn_call b c cs name : bnstep None (mkBans b c cs) (mkBans b c (cs ++ [IStart name]))
| bn_read b c cs i name :
    cs !! i = Some (IStart name) -> bnstep None (mkBans b c cs) (mkBans b c (<[i := IRead name (b !! name)]> cs))
| bn_none b c cs i name :
    cs !! i = Some (IRead name None) -> bnstep None (mkBans b c cs) (mkBans b c (<[i := IDone name false]> cs))
| bn_forever b c cs i name :
    cs !! i = Some (IRead name (Some 0)) -> bnstep None (mkBans b c cs) (mkBans b c (<[i := IDone name true]> cs))
| bn_held b c cs i name u :
    cs !! i = Some (IRead name (Some u)) -> u <> 0 -> c < u ->
    bnstep None (mkBans b c cs) (mkBans b c (<[i := IDone name true]> cs))
| bn_expired b c cs i name u :
    cs !! i = Some (IRead name (Some u)) -> u <> 0 -> u <= c ->
    bnstep None (mkBans b c cs) (mkBans b c (<[i := IClean name]> cs))
| bn_clean b c cs i name :
    cs !! i = Some (IClean name) ->
    bnstep None (mkBans b c cs) (mkBans (delete name b) c (<[i := IDone name false]> cs)).

(** The sequential operations of Hub.v are runs of these steps. *)
Definition bans_of {H} (w : World H) (cs : list ipc) : bans := mkBans (banned (hub w)) (now w) cs.

Lemma ban_is_step {H} name d (w : World H) cs : bnstep (Some name) (bans_of w cs) (bans_of (BanFor name d w).2 cs).
Proof. apply bn_ban. Qed.

Lemma check_alone {H} name (w : World H) cs :
  exists r w', IsBanned name w = (Ret r, w') /\
    rtc (bnstep None) (bans_of w (cs ++ [IStart name])) (bans_of w' (cs ++ [IDone name r])).
Proof.
  set (i := length cs). assert (Hi : forall pc, (cs ++ [pc]) !! i = Some pc) by (intros pc; by apply list_lookup_middle).
  assert (Hu : forall pc pc', <[i := pc']> (cs ++ [pc]) = cs ++ [pc'])
    by (intros pc pc'; unfold i; replace (length cs) with (length cs + 0)%nat by lia; by rewrite insert_app_r).
  assert (Hr : bnstep None (bans_of w (cs ++ [IStart name])) (bans_of w (cs ++ [IRead name (banned (hub w) !! name)])))
    by (rewrite <- (Hu (IStart name) (IRead _ _)); by apply bn_read).
  unfold IsBanned. unfold_go. destruct (banned (hub w) !! name) as [u|].
  - destruct (Z.eqb_spec u 0) as [->|Hu0].
    { eexists _, _. split; [done|]. eapply rtc_l; [exact Hr|]. apply rtc_once. rewrite <- (Hu (IRead name (Some 0)) (IDone _ _)). by apply bn_forever. }
    destruct (Z.ltb_spec (now w) u) as [Hl|Hl].
    { eexists _, _. split; [done|]. eapply rtc_l; [exact Hr|]. apply rtc_once. rewrite <- (Hu (IRead name (Some u)) (IDone _ _)). by eapply bn_held. }
    eexists _, _. split; [done|]. eapply rtc_l; [exact Hr|]. eapply rtc_l; [by eapply bn_expired|]. rewrite Hu.
    apply rtc_once. rewrite <- (Hu (IClean name) (IDone _ _)). by apply bn_clean.
  - eexists _, _. split; [done|]. eapply rtc_l; [exact Hr|]. apply rtc_once. rewrite <- (Hu (IRead name None) (IDone _ _)). by apply bn_none.
Qed.

(** ** A ban holds for its time *)

(** A ban that ends at [u] holds at [t]. *)
Definition holds (u t : Time) : Prop := u = 0 \/ t < u.

(** The check cannot delete a ban of [name] up to the time [t]. *)
Definition harmless (name : string) (t : Time) (pc : ipc) : Prop :=
  match pc with
  | IClean n => n <> name
  | IRead n (Some u) => n = name -> holds u t
  | _ => True
  end.

(** A step in which nobody bans [name]. *)
Definition quiet (name : string) : relation bans := fun st st' => exists a, a <> Some name /\ bnstep a st st'.

Record ban_inv (name : string) (u t : Time) (k : nat) (st : bans) : Prop := {
  bi_ban : table st !! name = Some u;
  bi_harmless : Forall (harmless name t) (checks st);
  bi_true i r : checks st !! i = Some (IDone name r) -> (k <= i)%nat -> r = true;
  bi_seen i e : checks st !! i = Some (IRead name e) -> (k <= i)%nat -> e = Some u;
  bi_len : (k <= length (checks st))%nat;
}.

(** A call moves on and leaves the ban alone. *)
Lemma ban_inv_move name u t k b c cs i pc pc' b' :
  ban_inv name u t k (mkBans b c cs) -> cs !! i = Some pc -> b' !! name = Some u -> harmless name t pc' ->
  (forall r, pc' = IDone name r -> (k <= i)%nat -> r = true) ->
  (forall e, pc' = IRead name e -> (k <= i)%nat -> e = Some u) ->
  ban_inv name u t k (mkBans b' c (<[i := pc']> cs)).
Proof.
  intros [B1 B2 B3 B4 B5] Hi Hb Hh Ht Hs. cbn in *. split; cbn; [done|by apply Forall_insert| | |by rewrite length_insert].
  - intros j r [(-> & E & _)|[_ Hj]]%list_lookup_insert_Some Hk; [by eapply Ht|by eapply B3].
  - intros j e [(-> & E & _)|[_ Hj]]%list_lookup_insert_Some Hk; [by eapply Hs|by eapply B4].
Qed.

Lemma ban_inv_step name u t k st st' : holds u t -> ban_inv name u t k st -> clock st' <= t -> quiet name st st' ->
  ban_inv name u t k st'.
Proof.
  intros Hh I Hc (a & Ha & Hst). pose proof I as [B1 B2 B3 B4 B5].
  destruct Hst as [b c cs t' Ht|b c cs n d|b c cs n|b c cs i n Hi|b c cs i n Hi|b c cs i n Hi|b c cs i n v Hi Hv Hl|b c cs i n v Hi Hv Hl|b c cs i n Hi];
    cbn in B1, B2, B3, B4, B5, Hc.
  all: try (pose proof (Forall_lookup_1 _ _ _ _ B2 Hi) as Hhi; cbn in Hhi).
  - by split.
  - split; cbn; try done. rewrite lookup_insert_ne; [done|]. by intros ->.
  - split; cbn; [done| | | |rewrite length_app; simpl; lia].
    + apply Forall_app. by split; [|apply Forall_singleton].
    + intros j r [Hj|[_ [_ Hj]%list_lookup_singleton_Some]]%lookup_app_Some Hk; [by eapply B3|done].
    + intros j e [Hj|[_ [_ Hj]%list_lookup_singleton_Some]]%lookup_app_Some Hk; [by eapply B4|done].
  - eapply ban_inv_move; try done.
    + destruct (b !! n) as [v|] eqn:E; [|done]. cbn. intros ->. congruence.
    + intros e [= -> <-] _. done.
  - eapply ban_inv_move; try done. intros r [= -> <-] Hk. by specialize (B4 i None Hi Hk).
  - eapply ban_inv_move; try done. by intros r [= -> <-] _.
  - eapply ban_inv_move; try done. by intros r [= -> <-] _.
  - eapply ban_inv_move; try done. cbn. intros ->. destruct (Hhi eq_refl); [done|lia].
  - eapply ban_inv_move; try done; [by rewrite lookup_delete_ne|]. by intros r [= ->].
Qed.

Lemma clock_grows a st st' : bnstep a st st' -> clock st <= clock st'.
Proof. intros H. destruct H; simpl; lia. Qed.

Lemma ban_inv_run name u t k st st' : holds u t -> rtc (quiet name) st st' -> ban_inv name u t k st -> clock st' <= t ->
  ban_inv name u t k st'.
Proof.
  intros Hh Hr. induction Hr as [st|st1 st2 st3 Hst Hr IH]; intros I Hc; [done|]. apply IH; [|done].
  eapply ban_inv_step; [done|exact I| |exact Hst]. etrans; [|exact Hc]. clear -Hr.
  induction Hr as [|a b c (x & _ & H%clock_grows) _ IH]; [done|lia].
Qed.

(** C29 (safety): a ban outlives the checks beside it, unless one of them is
    cleaning up.  Take a ban issued while checks are under way.  If none of them
    has seen an entry of that name that has expired by then, the ban stays in the
    table and every check started afterwards reports it, whatever else happens,
    until it is over or the name is banned anew.  But a check that has read an
    expired entry before the ban was issued can delete the new ban at once. *)
Theorem ban_outlives_checks b c cs name d t :
  let u := ban_end c d in
  let st := mkBans (<[name := u]> b) c cs in
  holds u t ->
  (Forall (harmless name t) cs ->
   forall st', rtc (quiet name) st st' -> clock st' <= t ->
     table st' !! name = Some u /\
     forall i r, (length cs <= i)%nat -> checks st' !! i = Some (IDone name r) -> r = true) /\
  (forall i v, cs !! i = Some (IRead name (Some v)) -> v <> 0 -> v <= c ->
     exists st', rtc (quiet name) st st' /\ clock st' = c /\ table st' !! name = None /\
       checks st' !! i = Some (IDone name false)).
Proof.
  intros u st Hh. split.
  - intros Hcs st' Hr Hc. assert (I : ban_inv name u t (length cs) st).
    { split; cbn; [apply lookup_insert_eq|done| | |done];
        intros i e Hi%lookup_lt_Some Hk; lia. }
    destruct (ban_inv_run name u t (length cs) st st' Hh Hr I Hc) as [I1 _ I3 _ _]. split; [done|]. intros i r Hk Hi. by eapply I3.
  - intros i v Hi Hv Hl. assert (Hlen : (i < length cs)%nat) by (by eapply lookup_lt_Some).
    eexists. split_and!.
    + eapply rtc_l; [exists None; split; [done|]; by eapply bn_expired|].
      apply rtc_once. exists None. split; [done|]. apply bn_clean. by apply list_lookup_insert_eq.
    + done.
    + cbn. apply lookup_delete_eq.
    + cbn. apply list_lookup_insert_eq. by rewrite length_insert.
Qed.

(** ** The theorem at a concrete input: a ban that ran out at five is renewed at
    ten for ever, beside a check that has read the old entry. *)
Lemma ban_outlives_checks_witness :
  (exists st', rtc (quiet "eve") (mkBans {[ "eve"%string := 0 ]} 10 [IRead "eve" (Some 5)]) st' /\ clock st' = 10 /\ table st' !! "eve"%string = None) /\
  forall st', rtc (quiet "eve") (mkBans {[ "eve"%string := 0 ]} 10 [IStart "eve"]) st' -> clock st' <= 99 ->
    table st' !! "eve"%string = Some 0.
Proof.
  split.
  - destruct (ban_outlives_checks ∅ 10 [IRead "eve" (Some 5)] "eve" 0 99) as [_ H].
    + left. reflexivity.
    + destruct (H 0%nat 5) as (st' & H1 & H2 & H3 & _); [reflexivity|discriminate|discriminate|].
      exists st'. split; [exact H1|]. split; [exact H2|exact H3].
  - destruct (ban_outlives_checks ∅ 10 [IStart "eve"] "eve" 0 99) as [H _].
    + left. reflexivity.
    + intros st' Hr Hc. apply H; [repeat constructor|exact Hr|exact Hc].
Defined.
