(* ===== verification/Subscriber.v ===== *)
(** * Built-in event handlers: [internal/subscriber/subscriber.go]

    Each closure that [RegisterAll] subscribes is a constructor of
    [sub_handler]; [run_sub] is its body.  The hub that runs them may hold other
    handlers too, so [H] is any type with an injection [Sub].  The local-time
    rendering of a timestamp depends on the machine's time zone and is a
    parameter.  [run_task] is the goroutine [Emit] starts: the body under
    [recover]. *)

From S2P Require Import Prelude Observe Client Events Hub HubFacts Membership.

Inductive sub_handler :=
| OnMessageLocal | OnMessageRemote | OnUserJoined | OnUserLeave
| OnSystemNotice | OnFileTransfer | OnHeartbeat | OnDirectMessage.

#[export] Instance sub_handler_eq_dec : EqDecision sub_handler.
Proof. solve_decision. Defined.

Definition conversion_panic : string := "interface conversion: chat.Event".

Section subscriber.
Context {H : Type} (Sub : sub_handler -> H).
Context (format_time : Time -> string).
Abbreviation World := (World H).
Abbreviation M := (GoM World).
Local Open Scope string_scope.

Definition registerMessage : M unit :=
  _ ← Subscribe EventMessageLocal (Sub OnMessageLocal);
  Subscribe EventMessageRemote (Sub OnMessageRemote).

Definition registerUserLifecycle : M unit :=
  _ ← Subscribe EventUserJoined (Sub OnUserJoined);
  Subscribe EventUserLeave (Sub OnUserLeave).

Definition registerSystem : M unit := Subscribe EventSystemNotice (Sub OnSystemNotice).
Definition registerFile : M unit := Subscribe EventFileTransfer (Sub OnFileTransfer).
Definition registerHeartbeat : M unit := Subscribe EventHeartbeat (Sub OnHeartbeat).
Definition registerDirect : M unit := Subscribe EventMessageDirect (Sub OnDirectMessage).

Definition RegisterAll : M unit :=
  _ ← registerMessage;
  _ ← registerUserLifecycle;
  _ ← registerSystem;
  _ ← registerFile;
  _ ← registerHeartbeat;
  registerDirect.

(** The texts the handlers send. *)
Definition text_local (when : Time) (from content : string) : string :=
  "[" ++ format_time when ++ "] " ++ from ++ ": " ++ content.
Definition text_joined (name : string) : string := "[系统] " ++ name ++ " 加入".
Definition text_leave (name : string) : string := "[系统] " ++ name ++ " 离开".
Definition text_notice (level content : string) : string := "[系统通知][" ++ level ++ "] " ++ content.
Definition text_file (from target name : string) : string :=
  "[文件] " ++ from ++ " -> " ++ target ++ ": " ++ name.
Definition text_direct (from content : string) : string := "[私信] " ++ from ++ ": " ++ content.
Definition text_offline (to : string) : string := "[系统] 用户不在线或不存在: " ++ to.

(** The body of a handler; [o1] and [o2] are the orders of its map walks. *)
Definition run_sub (o1 o2 : list string) (h : sub_handler) (e : Event) : M unit :=
  match h, e with
  | OnMessageLocal, MessageEvent When From Content _ =>
      _ ← SendToAll o1 (text_local When From Content);
      IncMessage "local"
  | OnMessageRemote, _ => IncMessage "remote"
  | OnUserJoined, UserEvent _ User _ =>
      u ← deref User; SendToAll o1 (text_joined (Name u))
  | OnUserLeave, UserEvent _ User _ =>
      u ← deref User; SendToAll o1 (text_leave (Name u))
  | OnSystemNotice, SystemNoticeEvent _ Level Content => SendToAll o1 (text_notice Level Content)
  | OnFileTransfer, FileTransferEvent _ From To FileName _ _ _ =>
      if bool_decide (To = "") || bool_decide (To = "*")
      then SendToAll o1 (text_file From "所有人" FileName)
      else SendToAll o1 (text_file From To FileName)
  | OnHeartbeat, _ => IncHeartbeat
  | OnDirectMessage, DirectMessageEvent _ From To Content =>
      SendToUser o1 To (text_direct From Content) ≫= fun (sent : bool) =>
      _ ← (if sent then mret tt
           else _ ← SendToUser o2 From (text_offline To); mret tt);
      IncDirect
  | _, _ => panic conversion_panic
  end.

(** The goroutine of [Emit]: a panic of the handler is recovered. *)
Definition run_task (o1 o2 : list string) (h : sub_handler) (e : Event) (w : World) : World :=
  (run_sub o1 o2 h e w).2.

(** ** What the handlers do *)

(** The handler and the event fit: the type assertion succeeds. *)
Definition fits (h : sub_handler) (t : EventType) : bool :=
  match h with
  | OnMessageLocal => bool_decide (t = EventMessageLocal)
  | OnMessageRemote => bool_decide (t = EventMessageRemote)
  | OnUserJoined => bool_decide (t = EventUserJoined)
  | OnUserLeave => bool_decide (t = EventUserLeave)
  | OnSystemNotice => bool_decide (t = EventSystemNotice)
  | OnFileTransfer => bool_decide (t = EventFileTransfer)
  | OnHeartbeat => bool_decide (t = EventHeartbeat)
  | OnDirectMessage => bool_decide (t = EventMessageDirect)
  end.

(** The user of a membership event is an object of the heap. *)
Definition event_ok (e : Event) (w : World) : Prop :=
  match e with UserEvent _ u _ => is_Some (heap w !! u) | _ => True end.

Lemma range_order_hub (w w' : World) order : hub w' = hub w -> range_order w order -> range_order w' order.
Proof. unfold range_order. by intros ->. Qed.

(** A handler subscribed to the right type neither panics nor breaks the
    world. *)
Lemma run_sub_safe o1 o2 h e (w : World) :
  world_wf w -> range_order w o1 -> range_order w o2 -> event_ok e w -> fits h (event_type e) = true ->
  (run_sub o1 o2 h e w).1 = Ret tt /\ world_wf (run_sub o1 o2 h e w).2 /\
  clients (hub (run_sub o1 o2 h e w).2) = clients (hub w).
Proof.
  intros I H1 H2 He Hf.
  assert (HA : forall m, exists w', SendToAll o1 m w = (Ret tt, w') /\ world_wf w' /\ hub w' = hub w).
  { intros m. destruct (SendToAll_walk o1 m w I H1) as (w' & E & I' & Hh & _). eauto. }
  destruct h, e as [[t u d]|[t f c [|]]|[t f to c]|[t lv c]|[t f to n s mi sk]|[t f dt]];
    unfold event_type, UserEvent_Type in Hf; cbn [ue_Desc] in Hf; try destruct (bool_decide ("leave" = d)); try (exfalso; vm_compute in Hf; discriminate Hf);
    clear Hf; simpl; unfold_go.
  - destruct (HA (text_local t f c)) as (w' & -> & I' & Hh). simpl.
    split_and!; [done|exact (world_wf_metric (MMessage "local") w' I')|by rewrite Hh].
  - split_and!; [done|exact (world_wf_metric (MMessage "remote") w I)|done].
  - destruct He as [cl Hu]. rewrite (deref_eval _ _ _ Hu).
    destruct (HA (text_joined (Name cl))) as (w' & -> & I' & Hh). simpl. by rewrite Hh.
  - destruct He as [cl Hu]. rewrite (deref_eval _ _ _ Hu).
    destruct (HA (text_leave (Name cl))) as (w' & -> & I' & Hh). simpl. by rewrite Hh.
  - destruct (HA (text_notice lv c)) as (w' & -> & I' & Hh). simpl. by rewrite Hh.
  - destruct (bool_decide (to = "") || bool_decide (to = "*"));
      [destruct (HA (text_file f "所有人" n)) as (w' & -> & I' & Hh)
      |destruct (HA (text_file f to n)) as (w' & -> & I' & Hh)]; simpl; by rewrite Hh.
  - split_and!; [done|exact (world_wf_metric MHeartbeat w I)|done].
  - destruct (SendToUser_walk o1 to (text_direct f c) w I H1) as (w1 & -> & I1 & Hh1 & _).
    destruct (existsb (named w to) o1); simpl.
    { split_and!; [done|exact (world_wf_metric MDirect w1 I1)|by rewrite Hh1]. }
    destruct (SendToUser_walk o2 f (text_offline to) w1 I1) as (w2 & -> & I2 & Hh2 & _);
      [by apply (range_order_hub w)|]. simpl. 
    split_and!; [done|exact (world_wf_metric MDirect w2 I2)|by rewrite Hh2, Hh1].
Qed.

(** ** The table RegisterAll builds *)

(** The handler of an event type. *)
Definition handler_for (e : Event) : sub_handler :=
  match e with
  | UserEvent _ _ Desc => if bool_decide ("leave" = Desc) then OnUserLeave else OnUserJoined
  | MessageEvent _ _ _ Local => if Local then OnMessageLocal else OnMessageRemote
  | DirectMessageEvent _ _ _ _ => OnDirectMessage
  | SystemNoticeEvent _ _ _ => OnSystemNotice
  | FileTransferEvent _ _ _ _ _ _ _ => OnFileTransfer
  | HeartbeatEvent _ _ _ => OnHeartbeat
  end.

Definition fresh_world (t : Time) : World := mkWorld ∅ NewHub [] [] t.

Definition started (t : Time) : World := (RegisterAll (fresh_world t)).2.

Lemma RegisterAll_ret t : RegisterAll (fresh_world t) = (Ret tt, started t).
Proof. reflexivity. Qed.

Lemma started_emitted t e : emitted (hub (started t)) e = [(Sub (handler_for e), e)].
Proof.
  destruct e as [[? ? d]|[? ? ? []]|[]|[]|[]|[]]; try reflexivity.
  unfold emitted, event_type, UserEvent_Type, handler_for. cbn [ue_Desc]. destruct (bool_decide ("leave" = d)); reflexivity.
Qed.

Lemma handler_for_fits e : fits (handler_for e) (event_type e) = true.
Proof.
  destruct e as [[? ? d]|[? ? ? []]|[]|[]|[]|[]]; try reflexivity.
  unfold event_type, UserEvent_Type, handler_for. cbn [ue_Desc]. destruct (bool_decide ("leave" = d)); reflexivity.
Qed.

Lemma emitted_same h1 h2 e : handlers h1 = handlers h2 -> emitted (H := H) h1 e = emitted h2 e.
Proof. unfold emitted. by intros ->. Qed.

(** In a hub whose handler table is the one RegisterAll builds,
    emitting any event starts exactly one goroutine, and running it later, in
    any well-formed world with any walk order, never panics (its type assertion
    always succeeds) and keeps the world well formed and the membership
    unchanged. *)
Theorem builtin_handlers_never_panic t e (w w2 : World) o1 o2 :
  handlers (hub w) = handlers (hub (started t)) ->
  world_wf w2 -> range_order w2 o1 -> range_order w2 o2 -> event_ok e w2 ->
  exists h, Emit e w = (Ret tt, spawn [(Sub h, e)] w) /\
    (run_sub o1 o2 h e w2).1 = Ret tt /\ world_wf (run_sub o1 o2 h e w2).2 /\
    clients (hub (run_sub o1 o2 h e w2).2) = clients (hub w2).
Proof.
  intros Hh I H1 H2 He. exists (handler_for e). split.
  - by rewrite Emit_eval, (emitted_same _ _ _ Hh), started_emitted.
  - apply run_sub_safe; auto. apply handler_for_fits.
Qed.

(** C30 (functional): a private message goes to the online clients that carry
    the recipient's name and to nobody else; if there is none, the sender's
    clients get the "not online" notice and nobody else hears of it. *)
Theorem direct_message_is_private when from to content o1 o2 (w : World) l c :
  world_wf w -> range_order w o1 -> range_order w o2 -> heap w !! l = Some c ->
  let w' := run_task o1 o2 OnDirectMessage (DirectMessageEvent when from to content) w in
  heap w' !! l = Some (
    if existsb (named w to) o1
    then if is_online w l c && bool_decide (Name c = to) then deliver (text_direct from content) c else c
    else if is_online w l c && bool_decide (Name c = from) then deliver (text_offline to) c else c).
Proof.
  intros I H1 H2 Hl. unfold run_task. simpl. unfold_go.
  destruct (SendToUser_walk o1 to (text_direct from content) w I H1)
    as (w1 & -> & I1 & Hh1 & _ & _ & _ & Hheap1).
  destruct (existsb (named w to) o1) eqn:Ex; simpl; [by apply Hheap1|].
  destruct (SendToUser_walk o2 from (text_offline to) w1 I1) as (w2 & -> & I2 & Hh2 & _ & _ & _ & Hheap2);
    [by apply (range_order_hub w)|]. simpl.
  assert (Hnot : is_online w l c && bool_decide (Name c = to) = false).
  { apply not_true_iff_false. intros [Ho Hn]%andb_true_iff.
    apply bool_decide_eq_true in Ho, Hn. rewrite <- not_true_iff_false in Ex. apply Ex.
    apply existsb_exists. exists (ID c). split.
    - apply list_elem_of_In, (range_order_elem w); eauto.
    - unfold named. rewrite Ho, Hl. by apply bool_decide_eq_true. }
  rewrite (Hheap2 l c); [unfold is_online; by rewrite Hh1|]. rewrite (Hheap1 l c Hl). by rewrite Hnot.
Qed.

(** A file announcement is written to every online client,
    also when it is addressed to one user; only the text names the target. *)
Theorem file_event_reaches_everybody when from to name size mime key o1 o2 (w : World) l c :
  world_wf w -> range_order w o1 -> heap w !! l = Some c ->
  let w' := run_task o1 o2 OnFileTransfer (FileTransferEvent when from to name size mime key) w in
  heap w' !! l = Some (
    if is_online w l c
    then deliver (text_file from (if bool_decide (to = "") || bool_decide (to = "*")
                                  then "所有人" else to) name) c
    else c).
Proof.
  intros I H1 Hl. unfold run_task. simpl.
  destruct (bool_decide (to = "") || bool_decide (to = "*")).
  - destruct (SendToAll_walk o1 (text_file from "所有人" name) w I H1) as (w' & -> & _ & _ & _ & _ & _ & Hh).
    by apply Hh.
  - destruct (SendToAll_walk o1 (text_file from to name) w I H1) as (w' & -> & _ & _ & _ & _ & _ & Hh).
    by apply Hh.
Qed.

(** A local chat message is delivered to every online client
    with its time and author; a remote one is only counted, no client sees it. *)
Theorem chat_message_delivery when from content o1 o2 (w : World) l c :
  world_wf w -> range_order w o1 -> heap w !! l = Some c ->
  heap (run_task o1 o2 OnMessageLocal (MessageEvent when from content true) w) !! l =
    Some (if is_online w l c then deliver (text_local when from content) c else c) /\
  run_task o1 o2 OnMessageRemote (MessageEvent when from content false) w = add_metric (MMessage "remote") w.
Proof.
  intros I H1 Hl. split; [|done]. unfold run_task. simpl. unfold_go.
  destruct (SendToAll_walk o1 (text_local when from content) w I H1) as (w' & -> & _ & _ & _ & _ & _ & Hh).
  simpl. by apply Hh.
Qed.
End subscriber.

(** ** The theorems at concrete inputs *)

Lemma builtin_handlers_never_panic_witness :
  let e := DirectMessageEvent 5%Z "alice" "bob" "hi" in
  exists h, Emit e (started id 0%Z) = (Ret tt, spawn [(h, e)] (started id 0%Z)) /\
    (run_sub (fun _ => "now"%string) (Demo.order sub_handler) (Demo.order sub_handler) h e (Demo.world sub_handler)).1 = Ret tt.
Proof.
  intros e.
  destruct (builtin_handlers_never_panic (H := sub_handler) id (fun _ => "now"%string) 0%Z e (started id 0%Z)
    (Demo.world sub_handler) (Demo.order sub_handler) (Demo.order sub_handler)) as (h & H1 & H2 & _).
  - reflexivity.
  - apply Demo.world_ok.
  - apply Demo.order_ok.
  - apply Demo.order_ok.
  - exact I.
  - exists h. split; [exact H1|exact H2].
Defined.

Lemma direct_message_is_private_witness :
  let w := Demo.world sub_handler in
  let o := Demo.order sub_handler in
  let w' := run_task (fun _ => "now"%string) o o OnDirectMessage (DirectMessageEvent 5%Z "alice" "bob" "hi") w in
  heap w' !! 1%nat = Some (deliver (text_direct "alice" "hi") Demo.bob).
Proof.
  intros w o w'.
  pose proof (direct_message_is_private (fun _ => "now"%string) 5%Z "alice" "bob" "hi" o o w 1%nat Demo.bob
    (Demo.world_ok _) (Demo.order_ok _) (Demo.order_ok _) eq_refl) as E.
  exact E.
Defined.

Lemma chat_message_delivery_witness :
  let w := Demo.world sub_handler in
  let o := Demo.order sub_handler in
  heap (run_task (fun _ => "now"%string) o o OnMessageLocal (MessageEvent 5%Z "alice" "hi" true) w) !! 1%nat =
    Some (deliver "[now] alice: hi" Demo.bob).
Proof.
  intros w o.
  exact (proj1 (chat_message_delivery (fun _ => "now"%string) 5%Z "alice" "hi" o o w 1%nat Demo.bob
    (Demo.world_ok _) (Demo.order_ok _) eq_refl)).
Defined.
