(* ===== verification/Delivery.v ===== *)
(** * The built-in handlers beside other goroutines:
    [internal/subscriber/subscriber.go], one operation at a time

    [Emit] runs every handler in a goroutine of its own.  [hstep] runs one
    operation of a handler (the type assertion and the text, an operation of a
    walk over the clients, the decision to notify the sender, the metric), or one
    hub call of somebody else.  Alone, a handler does what its atomic body
    [run_sub] does; beside others it reaches those who stay, and a recipient who
    leaves at the wrong moment makes a private message disappear without a
    notice. *)

From S2P Require Import Prelude Observe Client Events Hub HubFacts Membership Broadcast Subscriber.

(** A call of [SendToAll] ([None]) or [SendToUser]. *)
Record call := mkCall { c_want : option string; c_text : string }.

(** What a handler does after its type assertion: a call, a second one when the
    first found nobody, a metric. *)
Record plan := mkPlan { p_first : option call; p_second : option call; p_metric : option metric }.

Inductive hpc :=
| HStart
| HFirst (p : plan) (x : walk)
| HSecond (p : plan) (x : walk)
| HMetric (p : plan)
| HDone
| HPanicked.

Section delivery.
Context {H : Type} (format_time : Time -> string).
Abbreviation World := (World H).
Context (o1 o2 : list string) (h : sub_handler) (e : Event).
Local Open Scope string_scope.

Definition to_all (text : string) : option call := Some (mkCall None text).
Definition to_user (name text : string) : option call := Some (mkCall (Some name) text).

(** [None]: the type assertion panics. *)
Definition plan_of (w : World) : option plan :=
  match h, e with
  | OnMessageLocal, MessageEvent When From Content _ =>
      Some (mkPlan (to_all (text_local format_time When From Content)) None (Some (MMessage "local")))
  | OnMessageRemote, _ => Some (mkPlan None None (Some (MMessage "remote")))
  | OnUserJoined, UserEvent _ User _ =>
      (fun u => mkPlan (to_all (text_joined (Name u))) None None) <$> heap w !! User
  | OnUserLeave, UserEvent _ User _ =>
      (fun u => mkPlan (to_all (text_leave (Name u))) None None) <$> heap w !! User
  | OnSystemNotice, SystemNoticeEvent _ Level Content => Some (mkPlan (to_all (text_notice Level Content)) None None)
  | OnFileTransfer, FileTransferEvent _ From To FileName _ _ _ =>
      Some (mkPlan (to_all (text_file From (if bool_decide (To = "") || bool_decide (To = "*") then "所有人" else To) FileName))
              None None)
  | OnHeartbeat, _ => Some (mkPlan None None (Some MHeartbeat))
  | OnDirectMessage, DirectMessageEvent _ From To Content =>
      Some (mkPlan (to_user To (text_direct From Content)) (to_user From (text_offline To)) (Some MDirect))
  | _, _ => None
  end.

(** The program point, the clients each of the two calls has written to, the
    world. *)
Record hstate := mkHS { h_pc : hpc; h_sent1 : list (string * loc); h_sent2 : list (string * loc); h_world : World }.

Definition after_first (p : plan) (sent : list (string * loc)) : hpc :=
  match hit sent, p_second p with
  | false, Some _ => HSecond p (Walking o2)
  | _, _ => HMetric p
  end.

Inductive hstep : relation hstate :=
| h_start p w :
    plan_of w = Some p ->
    hstep (mkHS HStart [] [] w) (mkHS (if p_first p then HFirst p (Walking o1) else HMetric p) [] [] w)
| h_mismatch w : plan_of w = None -> hstep (mkHS HStart [] [] w) (mkHS HPanicked [] [] w)
| h_walk1 p c x s1 x' s1' s2 w w' :
    p_first p = Some c -> bstep (c_want c) (c_text c) (mkB x s1 w) (mkB x' s1' w') ->
    hstep (mkHS (HFirst p x) s1 s2 w) (mkHS (HFirst p x') s1' s2 w')
| h_end1 p s1 s2 w : hstep (mkHS (HFirst p Finished) s1 s2 w) (mkHS (after_first p s1) s1 s2 w)
| h_panic1 p s1 s2 w : hstep (mkHS (HFirst p Panicked) s1 s2 w) (mkHS HPanicked s1 s2 w)
| h_walk2 p c x s1 s2 x' s2' w w' :
    p_second p = Some c -> bstep (c_want c) (c_text c) (mkB x s2 w) (mkB x' s2' w') ->
    hstep (mkHS (HSecond p x) s1 s2 w) (mkHS (HSecond p x') s1 s2' w')
| h_end2 p s1 s2 w : hstep (mkHS (HSecond p Finished) s1 s2 w) (mkHS (HMetric p) s1 s2 w)
| h_panic2 p s1 s2 w : hstep (mkHS (HSecond p Panicked) s1 s2 w) (mkHS HPanicked s1 s2 w)
| h_metric p s1 s2 w :
    hstep (mkHS (HMetric p) s1 s2 w) (mkHS HDone s1 s2 (if p_metric p is Some m then add_metric m w else w))
| h_other x s1 s2 w w' : hub_step w w' -> hstep (mkHS x s1 s2 w) (mkHS x s1 s2 w').

(** ** A handler alone *)

Lemma walk1_lift p c s2 s s' : p_first p = Some c -> rtc (bstep (c_want c) (c_text c)) s s' ->
  rtc hstep (mkHS (HFirst p (b_walk s)) (b_sent s) s2 (b_world s)) (mkHS (HFirst p (b_walk s')) (b_sent s') s2 (b_world s')).
Proof.
  intros Hp Hr. induction Hr as [s|[x1 s1 w1] [x2 t2 w2] s3 Hs _ IH]; [done|].
  eapply rtc_l; [by eapply h_walk1|exact IH].
Qed.

Lemma walk2_lift p c s1 s s' : p_second p = Some c -> rtc (bstep (c_want c) (c_text c)) s s' ->
  rtc hstep (mkHS (HSecond p (b_walk s)) s1 (b_sent s) (b_world s)) (mkHS (HSecond p (b_walk s')) s1 (b_sent s') (b_world s')).
Proof.
  intros Hp Hr. induction Hr as [s|[x1 t1 w1] [x2 t2 w2] s3 Hs _ IH]; [done|].
  eapply rtc_l; [by eapply h_walk2|exact IH].
Qed.

Lemma to_all_alone p text w w' :
  plan_of w = Some p -> p_first p = to_all text -> p_second p = None -> SendToAll o1 text w = (Ret tt, w') ->
  exists s1, rtc hstep (mkHS HStart [] [] w) (mkHS HDone s1 [] (if p_metric p is Some m then add_metric m w' else w')).
Proof.
  intros Hp H1 H2 E. destruct (broadcast_alone None text o1 [] w w' eq_refl E) as [s1 Hr].
  exists s1. eapply rtc_l; [by apply h_start|]. rewrite H1. cbn [to_all].
  etrans; [exact (walk1_lift p (mkCall None text) [] _ _ H1 Hr)|].
  eapply rtc_l; [apply h_end1|]. unfold after_first. rewrite H2. destruct (hit _); apply rtc_once, h_metric.
Qed.

Lemma direct_alone_sent p name text w found w' :
  p_first p = to_user name text -> SendToUser o1 name text w = (Ret found, w') ->
  exists s1, rtc hstep (mkHS (HFirst p (Walking o1)) [] [] w) (mkHS (after_first p s1) s1 [] w') /\ found = hit s1.
Proof.
  intros H1 E. destruct (direct_alone (Some name) text name o1 [] w found w' eq_refl E) as (s1 & Hr & Ef).
  exists s1. split; [|done]. etrans; [exact (walk1_lift p (mkCall (Some name) text) [] _ _ H1 Hr)|]. apply rtc_once, h_end1.
Qed.

(** Two handlers only count. *)
Lemma metric_alone m w :
  plan_of w = Some (mkPlan None None (Some m)) -> rtc hstep (mkHS HStart [] [] w) (mkHS HDone [] [] (add_metric m w)).
Proof.
  intros Hp. eapply rtc_l; [by apply h_start|]. apply rtc_once, (h_metric (mkPlan None None (Some m))).
Qed.

(** A private message: the recipients, or else the notice to the sender. *)
Lemma direct_message_alone name text from notice m w found w1 w2 :
  let p := mkPlan (to_user name text) (to_user from notice) (Some m) in
  plan_of w = Some p -> SendToUser o1 name text w = (Ret found, w1) ->
  (if found then w2 = w1 else exists f, SendToUser o2 from notice w1 = (Ret f, w2)) ->
  exists s1 s2, rtc hstep (mkHS HStart [] [] w) (mkHS HDone s1 s2 (add_metric m w2)).
Proof.
  intros p Hp E1 E2. destruct (direct_alone_sent p name text w found w1 eq_refl E1) as (s1 & Hr & Ef).
  assert (Hstart : rtc hstep (mkHS HStart [] [] w) (mkHS (after_first p s1) s1 [] w1)) by (eapply rtc_l; [by apply h_start|exact Hr]).
  unfold after_first in Hstart. rewrite <- Ef in Hstart. destruct found.
  - subst w2. exists s1, []. etrans; [exact Hstart|]. apply rtc_once, (h_metric p).
  - destruct E2 as [f E2]. destruct (direct_alone (Some from) notice from o2 [] w1 f w2 eq_refl E2) as (s2 & Hr2 & _).
    exists s1, s2. etrans; [exact Hstart|]. etrans; [exact (walk2_lift p (mkCall (Some from) notice) s1 _ _ eq_refl Hr2)|].
    eapply rtc_l; [apply h_end2|]. apply rtc_once, (h_metric p).
Qed.
End delivery.

(** Uninterrupted, a handler does what its atomic body does. *)
Lemma handler_alone {H} format_time o1 o2 h e (w w' : World H) :
  run_sub format_time o1 o2 h e w = (Ret tt, w') ->
  exists s1 s2, rtc (hstep format_time o1 o2 h e) (mkHS HStart [] [] w) (mkHS HDone s1 s2 w').
Proof.
  assert (Hall : forall p text w1, plan_of format_time h e w = Some p -> p_first p = to_all text -> p_second p = None ->
    SendToAll o1 text w = (Ret tt, w1) -> w' = (if p_metric p is Some m then add_metric m w1 else w1) ->
    exists s1 s2, rtc (hstep format_time o1 o2 h e) (mkHS HStart [] [] w) (mkHS HDone s1 s2 w')).
  { intros p text w1 Hp H1 H2 Es ->. edestruct (to_all_alone format_time o1 o2 h e p text w w1) as [s1 Hr]; eauto. }
  destruct h.
  2,7: intros [= <-]; exists [], []; by apply metric_alone.
  all: destruct e as [[t u d]|[t f c loc]|[t f to c]|[t lv c]|[t f to n sz mi sk]|[t f dt]]; try done; simpl; unfold_go.
  - destruct (SendToAll o1 _ w) as [[[]|] w1] eqn:Es; [|done]. intros [= <-]. by eapply Hall.
  - destruct (heap w !! u) as [cl|] eqn:Hu; [|unfold deref; unfold_go; by rewrite Hu]. rewrite (deref_eval _ _ _ Hu).
    intros Es. eapply Hall; [simpl; rewrite Hu; reflexivity|done..|reflexivity].
  - destruct (heap w !! u) as [cl|] eqn:Hu; [|unfold deref; unfold_go; by rewrite Hu]. rewrite (deref_eval _ _ _ Hu).
    intros Es. eapply Hall; [simpl; rewrite Hu; reflexivity|done..|reflexivity].
  - intros Es. by eapply Hall.
  - intros Es. eapply Hall; [reflexivity|reflexivity|done| |reflexivity]. simpl. by destruct (_ || _).
  - destruct (SendToUser o1 to _ w) as [[found|] w1] eqn:E1; [|done]. simpl. destruct found; simpl.
    { intros [= <-]. by eapply direct_message_alone. }
    destruct (SendToUser o2 f _ w1) as [[f2|] w2] eqn:E2; [|done]. simpl. intros [= <-].
    eapply direct_message_alone; [reflexivity|exact E1|by exists f2].
Qed.

(** ** Beside other calls *)

(** The handlers that write to clients, and whom an event is meant for. *)
Definition speaks (h : sub_handler) : bool :=
  match h with OnMessageRemote | OnHeartbeat => false | _ => true end.

Definition want_of (e : Event) : option string :=
  match e with DirectMessageEvent _ _ To _ => Some To | _ => None end.

Section beside.
Context {H : Type} (format_time : Time -> string).
Context (o1 o2 : list string) (h : sub_handler) (e : Event).
Abbreviation World := (World H).
Abbreviation hstep := (hstep (H := H) format_time o1 o2 h e).
Abbreviation hstate := (hstate (H := H)).

Lemma plan_first (w : World) p : speaks h = true -> plan_of format_time h e w = Some p ->
  exists text, p_first p = Some (mkCall (want_of e) text).
Proof.
  intros Hs. destruct h, e as [[t u d]|[t f c loc]|[t f to c]|[t lv c]|[t f to n sz mi sk]|[t f dt]]; try done; simpl.
  all: try (intros [= <-]; by eexists).
  all: destruct (heap w !! u); [|done]; intros [= <-]; by eexists.
Qed.

(** A step taken while the client [l] is on line under [k] and meant by the
    event; one taken while it is not meant. *)
Definition hstays (k : string) (l : loc) (s s' : hstate) : Prop :=
  hstep s s' /\ clients (hub (h_world s)) !! k = Some l /\ wanted (want_of e) (h_world s) l.

Definition hshunned (l : loc) (s s' : hstate) : Prop := hstep s s' /\ ~ wanted (want_of e) (h_world s) l.

(** Along every run the first call is the one the event asks for. *)
Definition plan_ok (s : hstate) : Prop :=
  match h_pc s with
  | HStart => h_sent1 s = [] /\ h_sent2 s = []
  | HFirst p _ => (exists text, p_first p = Some (mkCall (want_of e) text)) /\ h_sent2 s = []
  | _ => True
  end.

Lemma hstep_plan_ok s s' : speaks h = true -> plan_ok s -> hstep s s' -> plan_ok s'.
Proof.
  unfold plan_ok. intros Hs Hok Hst.
  destruct Hst as [p w Hp|w Hp|p c x s1 x' s1' s2 w w' Hp Hb|p s1 s2 w| |p c x s1 s2 x' s2' w w' Hp Hb| | | |]; simpl in *; try done.
  - destruct (plan_first w p Hs Hp) as [text E]. rewrite E. split; [by exists text|done].
  - unfold after_first. destruct (hit s1), (p_second p); done.
Qed.

(** The client has been written to or will be, and the sender is told nothing. *)
Definition hdue (k : string) (l : loc) (s : hstate) : Prop :=
  match h_pc s with
  | HStart | HPanicked => True
  | HFirst _ x => due k l (mkB x (h_sent1 s) (h_world s))
  | HSecond _ _ => False
  | HMetric _ | HDone => (k, l) ∈ h_sent1 s /\ h_sent2 s = []
  end.

Lemma hstays_due k l s s' : k ∈ o1 -> speaks h = true ->
  plan_ok s -> hdue k l s -> hstays k l s s' -> hdue k l s'.
Proof.
  unfold plan_ok, hdue, hstays. intros Ho Hs Hok Hd (Hst & Hon & Hw).
  destruct Hst as [p w Hp|w Hp|p c x s1 x' s1' s2 w w' Hp Hb|p s1 s2 w| |p c x s1 s2 x' s2' w w' Hp Hb| | | |]; simpl in *; try done.
  - destruct (plan_first w p Hs Hp) as [text ->]. simpl. by right.
  - destruct Hok as [[text E] _]. rewrite Hp in E. injection E as ->. simpl in Hb.
    eapply (stays_due (want_of e) text k l (mkB x s1 w)); [exact Hd|]. by split.
  - destruct Hd as [Hd|[]], Hok as [_ ->]. unfold after_first. simpl in Hd.
    destruct s1; [by apply elem_of_nil in Hd|]. by destruct (p_second p).
Qed.


(** A private message is written to nobody who never bears the recipient's
    name. *)
Theorem handler_spares_others name l w s :
  speaks h = true -> want_of e = Some name ->
  rtc (hshunned l) (mkHS HStart [] [] w) s -> l ∉ (h_sent1 s).*2.
Proof.
  intros Hs Hn Hr.
  pose (inv := fun s => plan_ok s /\ l ∉ (h_sent1 s).*2 /\
    match h_pc s with HFirst _ x => forall k todo, x <> Sending k l todo | _ => True end).
  enough (inv s) as (_ & Hi & _) by done.
  refine (rtc_invariant (hshunned l) inv _ _ _ _ Hr); [|split_and!; try done; apply not_elem_of_nil].
  clear s Hr. intros s s' (Hok & Hl & Hx) [Hst Hw]. unfold inv. split; [by eapply hstep_plan_ok|]. unfold plan_ok in Hok.
  destruct Hst as [p w1 Hp|w1 Hp|p c x s1 x' s1' s2 w1 w' Hp Hb|p s1 s2 w1| |p c x s1 s2 x' s2' w1 w' Hp Hb| | | |];
    simpl in *; try done.
  - split; [done|]. by destruct (p_first p).
  - destruct Hok as [[text E] _]. rewrite Hp in E. injection E as ->. simpl in Hb.
    exact (shunned_unreached (want_of e) text name l (mkB x s1 w1) (mkB x' s1' w') Hn (conj Hl Hx) (conj Hb Hw)).
  - split; [done|]. unfold after_first. by destruct (hit s1), (p_second p).
Qed.

(** C28 (error): a handler is cut short.  Let the walk of a handler come to an
    online client its event is meant for.  If that client leaves between the
    lookup and the write, the handler panics: nobody behind it in the walk gets
    the text although those clients stay on line, the sender of a private message
    is not told that it went nowhere, and the message is not counted. *)
Theorem handler_cut_short w0 p k l c todo s1 w :
  speaks h = true ->
  rtc hstep (mkHS HStart [] [] w0) (mkHS (HFirst p (Walking (k :: todo))) s1 [] w) ->
  world_wf w -> clients (hub w) !! k = Some l -> heap w !! l = Some c -> wanted (want_of e) w l ->
  let w' := after_unregister l c w in
  UnregisterClient l w = (Ret tt, w') /\
  rtc hstep (mkHS (HFirst p (Walking (k :: todo))) s1 [] w) (mkHS HPanicked s1 [] w') /\
  w_metrics w' = w_metrics w ++ [MOnline (-1)] /\
  (forall l' c', l' <> l -> heap w !! l' = Some c' ->
     heap w' !! l' = Some c' /\ is_online w' l' c' = is_online w l' c') /\
  (forall s, rtc hstep (mkHS HPanicked s1 [] w') s -> h_pc s = HPanicked /\ h_sent1 s = s1 /\ h_sent2 s = []).
Proof.
  intros Hs Hr I Hk Hl Hw w'.
  assert (Hok : plan_ok (mkHS (HFirst p (Walking (k :: todo))) s1 [] w)).
  { refine (rtc_invariant hstep plan_ok _ _ _ _ Hr); [|done]. intros s s' Hi Hst. by eapply hstep_plan_ok. }
  destruct Hok as [[text Hp] _].
  destruct (broadcast_cut_short (want_of e) text k l c todo s1 w I Hk Hl Hw) as (Hu & Hb & Ho & _).
  split_and!; [done| |done|done|].
  - etrans; [exact (walk1_lift format_time o1 o2 h e p _ [] _ _ Hp Hb)|]. apply rtc_once, h_panic1.
  - intros s Hs2. refine (rtc_invariant hstep (fun s => h_pc s = HPanicked /\ h_sent1 s = s1 /\ h_sent2 s = []) _ _ _ _ Hs2); [|done].
    intros s2 s3 (Hx & Hs1 & Hs3) Hst. destruct Hst; simpl in *; done.
Qed.
End beside.

(** ** The theorems at concrete inputs: alice writes to bob

    In the first run alice leaves while her message is on its way; in the second
    bob leaves, and alice, who stays, hears nothing. *)
Module DeliveryDemo.
Definition fmt : Time -> string := fun _ => "now"%string.
Definition e : Event := DirectMessageEvent 5%Z "alice" "bob" "hi".
Definition o : list string := ["1"; "2"]%string.
Definition w : World sub_handler := Demo.world sub_handler.
Definition text : string := text_direct "alice" "hi".
Definition p : plan := mkPlan (to_user "bob" text) (to_user "alice" (text_offline "bob")) (Some MDirect).
Definition w1 : World sub_handler := (UnregisterClient 0%nat w).2.
Definition w2 : World sub_handler := (Send 1%nat text w1).2.
Definition start (w : World sub_handler) : hstate := mkHS HStart [] [] w.

Lemma walked x s x' s' (v v' : World sub_handler) :
  bstep (Some "bob"%string) text (mkB x s v) (mkB x' s' v') ->
  hstep fmt o o OnDirectMessage e (mkHS (HFirst p x) s [] v) (mkHS (HFirst p x') s' [] v').
Proof. intros Hb. eapply h_walk1; [reflexivity|exact Hb]. Qed.

(** Bob is on line and bears his name. *)
Ltac bob_stays := split; [|split; [reflexivity|exists Demo.bob; split; reflexivity]].

Lemma delivery_run : rtc (hstays fmt o o OnDirectMessage e "2" 1%nat) (start w)
  (mkHS HDone [("2"%string, 1%nat)] [] (add_metric MDirect w2)).
Proof.
  eapply rtc_l; [bob_stays; exact (h_start fmt o o OnDirectMessage e p w eq_refl)|]. simpl.
  eapply rtc_l; [bob_stays; apply walked, (b_load _ _ "1" 0%nat); reflexivity|]. simpl.
  eapply rtc_l; [bob_stays; apply h_other; left; apply (hs_unregister w 0%nat)|].
  eapply rtc_l; [bob_stays; apply walked; eapply b_pass; [reflexivity|reflexivity|discriminate]|].
  eapply rtc_l; [bob_stays; apply walked, (b_load _ _ "2" 1%nat); reflexivity|]. simpl.
  eapply rtc_l; [bob_stays; apply walked; eapply b_match; reflexivity|].
  eapply rtc_l; [bob_stays; apply walked, (b_send _ _ _ _ _ _ w1 w2); reflexivity|].
  eapply rtc_l; [|eapply rtc_l; [|eapply rtc_l; [|apply rtc_refl]]].
  - split; [apply walked, b_end|split; [reflexivity|]]. eexists. split; reflexivity.
  - split; [apply h_end1|split; [reflexivity|]]. eexists. split; reflexivity.
  - split; [exact (h_metric fmt o o OnDirectMessage e p _ _ w2)|split; [reflexivity|]]. eexists. split; reflexivity.
Qed.

End DeliveryDemo.
Import DeliveryDemo.


Lemma handler_cut_short_witness :
  let v := after_unregister 1%nat Demo.bob w in
  rtc (hstep fmt ["2"; "1"]%string o OnDirectMessage e) (start w) (mkHS HPanicked [] [] v) /\
  heap v !! 0%nat = Some Demo.alice /\ is_online v 0%nat Demo.alice = true.
Proof.
  intros v.
  assert (H0 : rtc (hstep fmt ["2"; "1"]%string o OnDirectMessage e) (start w) (mkHS (HFirst p (Walking ["2"; "1"]%string)) [] [] w)).
  { apply rtc_once. exact (h_start fmt ["2"; "1"]%string o OnDirectMessage e p w eq_refl). }
  destruct (handler_cut_short fmt ["2"; "1"]%string o OnDirectMessage e w p "2" 1%nat Demo.bob ["1"%string] [] w eq_refl H0)
    as (_ & Hr & _ & Hb & _).
  - apply Demo.world_ok.
  - reflexivity.
  - reflexivity.
  - exists Demo.bob. split; reflexivity.
  - split; [etrans; [exact H0|exact Hr]|].
    destruct (Hb 0%nat Demo.alice) as [H1 H2]; [discriminate|reflexivity|]. split; [exact H1|]. etrans; [exact H2|reflexivity].
Defined.
