(* ===== verification/Redis.v ===== *)
(** * The stream service: the interface [internal/bus/redisstream/bus.go] uses

    Redis is a service outside the repository.  [Redis] holds the four commands
    the bus sends; [RedisLaws] states what their documentation promises, through
    two views of the service's state: the entries of a stream, and the position
    and pending list of a consumer group.  A command may fail; what the service
    did before an error was reported is then open.  [ListRedis] is an
    implementation with outages and lost replies that satisfies the laws. *)

From S2P Require Import Prelude.

(** ** The commands *)

(** One delivered entry; entries are numbered in the order they were added. *)
Record XMessage := mkX { XID : nat; Values : gmap string (list byte) }.

(** The reply of [XReadGroup]: nothing new, an error, or the streams read. *)
Inductive xreply := XNil | XErr | XOk (res : list (list XMessage)).

Class Redis (R : Type) := {
  XAdd : string -> gmap string (list byte) -> R -> bool * R;        (** whether it succeeded *)
  XGroupCreateMkStream : string -> string -> R -> bool * R;         (** from the end *)
  XReadGroup : string -> string -> string -> nat -> R -> xreply * R; (** stream, group, consumer, count *)
  XAck : string -> string -> nat -> R -> bool * R;
}.

(** ** What they promise *)

(** A consumer group: how many entries it has handed out or skipped, and the
    entries handed out and not yet acknowledged. *)
Record XGroup := mkXG { xg_last : nat; xg_pending : list nat }.

Class RedisView (R : Type) := {
  xentries : string -> R -> list (gmap string (list byte));
  xgroup : string -> string -> R -> option XGroup;
}.

(** Entries [i], [i+1], ..., [i+n-1] of a stream. *)
Definition xslice (es : list (gmap string (list byte))) (i n : nat) : list XMessage :=
  imap (fun j v => mkX (i + j) v) (take n (drop i es)).

(** Acknowledging removes the entry from the pending list. *)
Definition xg_ack (k : nat) (g : XGroup) : XGroup :=
  mkXG (xg_last g) (filter (fun i => i <> k) (xg_pending g)).

Class RedisLaws (R : Type) `{Redis R} `{RedisView R} : Prop := {
  xadd_entries s v r :
    xentries s (XAdd s v r).2 = xentries s r ++ [v] \/
    ((XAdd s v r).1 = false /\ xentries s (XAdd s v r).2 = xentries s r);
  xadd_group s g v r : xgroup s g (XAdd s v r).2 = xgroup s g r;
  xcreate_entries s g r : xentries s (XGroupCreateMkStream s g r).2 = xentries s r;
  xcreate_busy s g r gr : xgroup s g r = Some gr ->      (* BUSYGROUP: left alone *)
    xgroup s g (XGroupCreateMkStream s g r).2 = Some gr;
  xcreate_group s g r : xgroup s g r = None ->
    xgroup s g (XGroupCreateMkStream s g r).2 = Some (mkXG (length (xentries s r)) []) \/
    ((XGroupCreateMkStream s g r).1 = false /\ xgroup s g (XGroupCreateMkStream s g r).2 = None);
  xread_entries s g c k r : xentries s (XReadGroup s g c k r).2 = xentries s r;
  xread_group s g c k r gr : xgroup s g r = Some gr -> xg_last gr <= length (xentries s r) ->
    exists n, n <= k /\ xg_last gr + n <= length (xentries s r) /\
      xgroup s g (XReadGroup s g c k r).2 =
        Some (mkXG (xg_last gr + n) (xg_pending gr ++ seq (xg_last gr) n)) /\
      match (XReadGroup s g c k r).1 with
      | XNil => n = 0
      | XErr => True                                     (* the reply may be lost *)
      | XOk res => concat res = xslice (xentries s r) (xg_last gr) n
      end;
  xread_nogroup s g c k r : xgroup s g r = None ->
    (XReadGroup s g c k r).1 = XErr /\ xgroup s g (XReadGroup s g c k r).2 = None;
  xack_entries s g i r : xentries s (XAck s g i r).2 = xentries s r;
  xack_group s g i r gr : xgroup s g r = Some gr ->
    xgroup s g (XAck s g i r).2 = Some (xg_ack i gr) \/
    ((XAck s g i r).1 = false /\ xgroup s g (XAck s g i r).2 = Some gr);
}.

(** A service without outages: every command succeeds, and a read hands out
    what there is, up to the count. *)
Class RedisReliable (R : Type) `{Redis R} `{RedisView R} : Prop := {
  xadd_ok s v r : (XAdd s v r).1 = true;
  xcreate_ok s g r : xgroup s g r = None -> (XGroupCreateMkStream s g r).1 = true;
  xack_ok s g i r gr : xgroup s g r = Some gr -> (XAck s g i r).1 = true;
  xread_ok s g c k r gr : xgroup s g r = Some gr -> 0 < k ->
    (XReadGroup s g c k r).1 <> XErr /\
    xgroup s g (XReadGroup s g c k r).2 =
      (let n := min k (length (xentries s r) - xg_last gr) in
       Some (mkXG (xg_last gr + n) (xg_pending gr ++ seq (xg_last gr) n)));
}.

Lemma xslice_ids es i n : i + n <= length es -> XID <$> xslice es i n = seq i n.
Proof.
  intros Hl. unfold xslice. apply list_eq. intros j. rewrite list_lookup_fmap, list_lookup_imap.
  destruct (decide (j < n)) as [Hj|Hj].
  - rewrite lookup_seq_lt by done. rewrite lookup_take_lt, lookup_drop by done.
    destruct (lookup_lt_is_Some_2 es (i + j)) as [v Hv]; [lia|]. by rewrite Hv.
  - rewrite lookup_seq_ge by lia. rewrite lookup_take_ge by lia. done.
Qed.

Lemma xslice_lookup es i n : Forall (fun x => es !! XID x = Some (Values x)) (xslice es i n).
Proof.
  apply Forall_lookup. intros j x Hx. unfold xslice in Hx. rewrite list_lookup_imap in Hx.
  destruct (take n (drop i es) !! j) as [v|] eqn:E; simplify_eq/=.
  apply lookup_take_Some in E as [E _]. by rewrite lookup_drop in E.
Qed.

(** ** An implementation

    Streams and groups in maps, and a script that says what becomes of each
    command: it succeeds, it fails without effect, or it takes effect and the
    reply is lost. *)
Module ListRedis.
Inductive fate := Up | Down | Lost.

Record state := mkState {
  streams : gmap string (list (gmap string (list byte)));
  groups : gmap (string * string) XGroup;
  script : list fate;
}.

Definition ents (s : string) (r : state) : list (gmap string (list byte)) := default [] (streams r !! s).

(** The fate of the next command, and the script left. *)
Definition fated (r : state) : fate := default Up (head (script r)).
Definition next (r : state) : state := mkState (streams r) (groups r) (tail (script r)).

Definition set_group (s g : string) (x : XGroup) (r : state) : state :=
  mkState (streams r) (<[(s, g) := x]> (groups r)) (script r).

(** A command: the reply of a failure, and what it does when the service is up. *)
Definition command {A} (failed : A) (act : state -> A * state) (r : state) : A * state :=
  match fated r with
  | Up => act (next r)
  | Down => (failed, next r)
  | Lost => (failed, (act (next r)).2)
  end.

#[export] Instance ops : Redis state := {|
  XAdd s v := command false (fun r =>
    (true, mkState (<[s := ents s r ++ [v]]> (streams r)) (groups r) (script r)));
  XGroupCreateMkStream s g := command false (fun r =>
    match groups r !! (s, g) with
    | Some _ => (false, r)
    | None => (true, set_group s g (mkXG (length (ents s r)) []) r)
    end);
  XReadGroup s g c k := command XErr (fun r =>
    match groups r !! (s, g) with
    | None => (XErr, r)
    | Some x =>
        let n := min k (length (ents s r) - xg_last x) in
        (if bool_decide (n = 0) then XNil else XOk [xslice (ents s r) (xg_last x) n],
         set_group s g (mkXG (xg_last x + n) (xg_pending x ++ seq (xg_last x) n)) r)
    end);
  XAck s g i := command false (fun r =>
    match groups r !! (s, g) with
    | None => (false, r)
    | Some x => (true, set_group s g (xg_ack i x) r)
    end);
|}.

#[export] Instance view : RedisView state := {| xentries := ents; xgroup s g r := groups r !! (s, g) |}.

(** Runs one command in each of its fates. *)
Ltac run_redis := simpl in *; unfold command; case_match; simpl; try rewrite_groups; rewrite ?lookup_insert_eq; try done
with rewrite_groups := match goal with E : groups _ !! _ = _ |- _ => rewrite E; simpl end.

#[export] Instance laws : RedisLaws state.
Proof.
  split.
  - intros s v r. unfold xentries, view, ents. run_redis; auto.
  - intros. run_redis.
  - intros. run_redis; by case_match.
  - intros. run_redis.
  - intros. run_redis; auto.
  - intros. run_redis; by case_match.
  - intros s g c k r x Hx Hl. destruct (fated r) eqn:Ef.
    2: { exists 0. simpl. unfold command. rewrite Ef, Nat.add_0_r, app_nil_r. simpl. destruct x. split_and!; try done; lia. }
    all: exists (min k (length (ents s r) - xg_last x)); simpl in *; unfold command; rewrite Ef; simpl; rewrite Hx; simpl;
      rewrite lookup_insert_eq; split_and!; try done; try lia.
    case_bool_decide; [done|]. simpl. by rewrite app_nil_r.
  - intros. run_redis.
  - intros. run_redis; by case_match.
  - intros. run_redis; auto.
Qed.

(** The same service without outages. *)
Record calm := mkCalm { inner : state }.

Definition quiet (c : calm) : state := mkState (streams (inner c)) (groups (inner c)) [].

#[export] Instance calm_ops : Redis calm := {|
  XAdd s v c := let '(b, r) := XAdd s v (quiet c) in (b, mkCalm r);
  XGroupCreateMkStream s g c := let '(b, r) := XGroupCreateMkStream s g (quiet c) in (b, mkCalm r);
  XReadGroup s g n k c := let '(x, r) := XReadGroup s g n k (quiet c) in (x, mkCalm r);
  XAck s g i c := let '(b, r) := XAck s g i (quiet c) in (b, mkCalm r);
|}.

#[export] Instance calm_view : RedisView calm := {| xentries s c := xentries s (quiet c); xgroup s g c := xgroup s g (quiet c) |}.

#[export] Instance calm_laws : RedisLaws calm.
Proof.
  split.
  - intros s v r. destruct (xadd_entries s v (quiet r)) as [E|[E1 E2]]; [by left|done].
  - done.
  - intros. pose proof (xcreate_entries s g (quiet r)) as E. simpl in *. by repeat case_match; simplify_eq/=.
  - intros s g r x Hx. pose proof (xcreate_busy s g (quiet r) x Hx) as E. simpl in *. by repeat case_match; simplify_eq/=.
  - intros s g r Hx. pose proof (xcreate_group s g (quiet r) Hx) as E. simpl in *. by repeat case_match; simplify_eq/=.
  - intros. pose proof (xread_entries s g c k (quiet r)) as E. simpl in *. by repeat case_match; simplify_eq/=.
  - intros s g c k r x Hx Hl. destruct (xread_group s g c k (quiet r) x Hx Hl) as (n & Hn). exists n.
    simpl in *. by repeat case_match; simplify_eq/=.
  - intros s g c k r Hx. pose proof (xread_nogroup s g c k (quiet r) Hx) as E. simpl in *. by repeat case_match; simplify_eq/=.
  - intros. pose proof (xack_entries s g i (quiet r)) as E. simpl in *. by repeat case_match; simplify_eq/=.
  - intros s g i r x Hx. pose proof (xack_group s g i (quiet r) x Hx) as E. simpl in *. by repeat case_match; simplify_eq/=.
Qed.

#[export] Instance calm_reliable : RedisReliable calm.
Proof.
  split.
  - done.
  - intros s g r Hg. simpl in *. unfold command. simpl. by rewrite Hg.
  - intros s g i r x Hx. simpl in *. unfold command. simpl. by rewrite Hx.
  - intros s g c k r x Hx Hk. simpl in *. unfold command. simpl. rewrite Hx. simpl. rewrite lookup_insert_eq. split; [by case_bool_decide|done].
Qed.

(** An empty service. *)
Definition empty : calm := mkCalm (mkState ∅ ∅ []).
End ListRedis.
