(* ===== verification/Bus.v ===== *)
(** * The message bus: [internal/bus/redisstream/bus.go]

    Chat and private messages travel between nodes as JSON entries of a Redis
    stream.  The service is a parameter (Redis.v).  The text form of a timestamp
    is a second one, with its round trip as law: [time.Time] marshals to RFC
    3339.  The theorems: messages survive the stream; [Consume] hands each entry
    to the handler at most once, in order, and exactly once when the service has
    no outages.  BusFaults.v is about several nodes on one stream. *)

From S2P Require Import Prelude Utf8 GoStrings Base64 Json Envelope Codec Events Redis.

Local Open Scope Z_scope.

Record Message := mkMessage {
  MType : string;
  MWhen : Time;
  MFrom : string;
  MTo : string;
  MText : string;
}.

(** [time.Time.MarshalJSON] and [UnmarshalJSON] (RFC 3339), without the quotes;
    both can fail. *)
Class TimeText := {
  time_text : Time -> option (list byte);
  parse_time : list byte -> option Time;
}.

Class TimeTextLaws (TT : TimeText) : Prop := {
  time_text_utf8 t s : time_text t = Some s -> utf8_valid s = true;
  parse_time_text t s : time_text t = Some s -> parse_time s = Some t;
}.

(** The client ([redis.NewClient] with [redis.Options]) connects lazily; what is
    kept of it is where it connects to. *)
Record Bus := mkBus { bus_Addr : string; bus_DB : Z; stream : string; group : string }.

Section bus.
Context `{TT : TimeText}.

Definition opt_field (name s : string) : list (list byte * jval) :=
  if bool_decide (s = ""%string) then [] else [field name (jstr s)].

Definition jMessage (m : Message) : option jval :=
  match time_text (MWhen m) with
  | None => None
  | Some t => Some (JObj ([field "type" (jstr (MType m)); field "when" (JStr t)] ++
                          opt_field "from" (MFrom m) ++ opt_field "to" (MTo m) ++ opt_field "text" (MText m)))
  end.

Definition message_fields : list string := ["type"; "when"; "from"; "to"; "text"]%string.

Definition dec_time (v : jval) (old : Time) : Time * option dec_error :=
  match v with
  | JNull => (old, None)
  | JStr s => match parse_time s with
              | Some t => (t, None)
              | None => (old, Some (DecType "time"))
              end
  | _ => (old, Some (DecType "time"))
  end.

Definition message_set : setter Message := fun n v m =>
  let upd s (f : string -> Message) := let '(s', err) := dec_string v s in (f s', err) in
  if String.eqb n "type" then upd (MType m) (fun x => mkMessage x (MWhen m) (MFrom m) (MTo m) (MText m))
  else if String.eqb n "when"
  then let '(t, err) := dec_time v (MWhen m) in (mkMessage (MType m) t (MFrom m) (MTo m) (MText m), err)
  else if String.eqb n "from" then upd (MFrom m) (fun x => mkMessage (MType m) (MWhen m) x (MTo m) (MText m))
  else if String.eqb n "to" then upd (MTo m) (fun x => mkMessage (MType m) (MWhen m) (MFrom m) x (MText m))
  else upd (MText m) (fun x => mkMessage (MType m) (MWhen m) (MFrom m) (MTo m) x).

Definition zero_message : Message := mkMessage "" 0 "" "" "".

Definition decode_message (raw : list byte) : option Message :=
  match Unmarshal message_fields message_set raw zero_message with
  | (m, None) => Some m
  | (_, Some _) => None
  end.

(** ** Publishing *)

Section publish.
Context {R : Type} `{Redis R}.

Definition New (addr : string) (db : Z) (stream group : string) : Bus := mkBus addr db stream group.

(** The error (the group exists already, or the service is down) is ignored. *)
Definition EnsureGroup (b : Bus) (r : R) : R := (XGroupCreateMkStream (stream b) (group b) r).2.

(** A message that cannot be marshalled is published as empty data.  Whether
    the command succeeded is returned. *)
Definition Publish (b : Bus) (m : Message) (r : R) : bool * R :=
  let payload := match jMessage m with Some v => Marshal v | None => [] end in
  XAdd (stream b) {[ "data"%string := payload ]} r.

(** ** Consuming *)

Context {W : Type} (handler : Message -> W -> W).

(** One entry: decode, call back, acknowledge.  An entry without data or whose
    data does not decode is acknowledged too, and the handler's error is
    ignored. *)
Definition raw_of (x : XMessage) : list byte := default [] (Values x !! "data"%string).

Definition handle_entry (x : XMessage) (w : W) : W :=
  match decode_message (raw_of x) with Some m => handler m w | None => w end.

Definition ack_entry (b : Bus) (x : XMessage) (r : R) : R := (XAck (stream b) (group b) (XID x) r).2.

Definition consume_message (b : Bus) (s : W * R) (x : XMessage) : W * R :=
  (handle_entry x s.1, ack_entry b x s.2).

Definition consume_batch (b : Bus) (s : W * R) (res : list (list XMessage)) : W * R :=
  foldl (fun s msgs => foldl (consume_message b) s msgs) s res.

(** One iteration of the loop: whether [Consume] returns, and the entries it was
    handed.  [ctx_err] says whether [ctx.Err()] is set at that moment. *)
Definition consume_poll (b : Bus) (consumer : string) (ctx_err : bool) (s : W * R)
  : bool * list XMessage * (W * R) :=
  let '(x, r') := XReadGroup (stream b) (group b) consumer 100 s.2 in
  match x with
  | XNil => (false, [], (s.1, r'))
  | XErr => (ctx_err, [], (s.1, r'))
  | XOk res => (false, concat res, consume_batch b (s.1, r') res)
  end.

(** The loop, one [ctx.Err()] per iteration: whether it has returned, and the
    entries handed over. *)
Fixpoint Consume (b : Bus) (consumer : string) (ctx_errs : list bool) (s : W * R)
  : bool * list XMessage * (W * R) :=
  match ctx_errs with
  | [] => (false, [], s)
  | c :: cs =>
      let '(ret, xs, s') := consume_poll b consumer c s in
      if ret then (true, xs, s')
      else let '(ret', xs', s2) := Consume b consumer cs s' in (ret', xs ++ xs', s2)
  end.

(** What the handler makes of a sequence of entries. *)
Definition handled (xs : list XMessage) (w : W) : W :=
  foldl (fun w x => handle_entry x w) w xs.
End publish.

(** ** Messages round-trip through the stream *)

Section laws.
Context `{LW : !TimeTextLaws TT}.

Definition message_utf8 (m : Message) : Prop :=
  Forall (fun s => utf8_valid (bytes s) = true) [MType m; MFrom m; MTo m; MText m].

Lemma field_of_message n : n ∈ message_fields -> field_of message_fields (sanitize (bytes n)) = Some n.
Proof.
  intros H. unfold message_fields in H.
  repeat (apply elem_of_cons in H as [->|H]; [vm_compute; reflexivity|]). by apply elem_of_nil in H.
Qed.

Lemma decode_member_message n v ms m saved : n ∈ message_fields ->
  decode_members message_fields message_set ((sanitize (bytes n), v) :: ms) m saved =
    (let '(m', err) := message_set n v m in
     decode_members message_fields message_set ms m' (first_err saved err)).
Proof. intros Hn. cbn [decode_members]. by rewrite field_of_message. Qed.

(** An optional string field: absent means unchanged. *)
Lemma decode_opt_field n s ms m (get : Message -> string) (put : Message -> string -> Message) :
  n ∈ message_fields -> utf8_valid (bytes s) = true -> get m = ""%string -> put m (get m) = m ->
  (forall v, message_set n v m = (let '(s', err) := dec_string v (get m) in (put m s', err))) ->
  decode_members message_fields message_set
    (((fun kv => (sanitize kv.1, jsan kv.2)) <$> opt_field n s) ++ ms) m None =
  decode_members message_fields message_set ms (put m s) None.
Proof.
  intros Hn Hs Hg Hp Hset. unfold opt_field. destruct (bool_decide_reflect (s = ""%string)) as [->|Hne].
  - rewrite fmap_nil. cbn [app]. rewrite Hg in Hp. by rewrite Hp.
  - rewrite fmap_cons, fmap_nil. cbn [app]. unfold field, jstr. cbn [fst snd jsan].
    rewrite decode_member_message by done. rewrite Hset. cbn [dec_string].
    rewrite sanitize_id by done. by rewrite string_of_list_ascii_of_string.
Qed.

Lemma jfits_message m v : jMessage m = Some v -> jfits maxNestingDepth v.
Proof.
  unfold jMessage. destruct (time_text (MWhen m)); [|done]. intros [= <-]. split; [done|].
  unfold opt_field. repeat case_bool_decide; simpl; split_and?; done.
Qed.

Lemma jMessage_some m t : time_text (MWhen m) = Some t -> exists v, jMessage m = Some v.
Proof. intros Ht. unfold jMessage. rewrite Ht. by eexists. Qed.

Lemma decode_published m v : message_utf8 m -> jMessage m = Some v -> decode_message (Marshal v) = Some m.
Proof.
  intros Hu Hv. pose proof (jfits_message m v Hv) as Hfit. unfold decode_message, Unmarshal, Marshal.
  rewrite parse_whole_enc by done. unfold jMessage in Hv.
  destruct (time_text (MWhen m)) as [t|] eqn:Et; [|done]. injection Hv as <-. clear Hfit.
  unfold message_utf8 in Hu. rewrite !Forall_cons in Hu. destruct Hu as (H1 & H2 & H3 & H4 & _).
  cbn [jsan decode_struct]. cbn [app]. rewrite !fmap_cons, !fmap_app. unfold field, jstr. cbn [fst snd jsan app].
  rewrite !sanitize_id by (done || by eapply time_text_utf8).
  rewrite <- (sanitize_id (bytes "type")), <- (sanitize_id (bytes "when")) by done.
  rewrite decode_member_message by (unfold message_fields; set_solver).
  cbn -[decode_members sanitize list_ascii_of_string message_fields opt_field].
  rewrite decode_member_message by (unfold message_fields; set_solver).
  cbn -[decode_members sanitize list_ascii_of_string message_fields opt_field].
  rewrite (parse_time_text _ _ Et). cbn -[decode_members sanitize list_ascii_of_string message_fields opt_field].
  rewrite string_of_list_ascii_of_string.
  rewrite (decode_opt_field "from" (MFrom m) _ _ MFrom (fun x s => mkMessage (MType x) (MWhen x) s (MTo x) (MText x)));
    [|unfold message_fields; set_solver|done..].
  cbn -[decode_members sanitize list_ascii_of_string message_fields opt_field].
  rewrite (decode_opt_field "to" (MTo m) _ _ MTo (fun x s => mkMessage (MType x) (MWhen x) (MFrom x) s (MText x)));
    [|unfold message_fields; set_solver|done..].
  cbn -[decode_members sanitize list_ascii_of_string message_fields opt_field].
  rewrite <- (app_nil_r (_ <$> opt_field "text" (MText m))).
  rewrite (decode_opt_field "text" (MText m) _ _ MText (fun x s => mkMessage (MType x) (MWhen x) (MFrom x) (MTo x) s));
    [|unfold message_fields; set_solver|done..].
  cbn. by destruct m.
Qed.

(** What Publish writes to the stream is decoded by Consume to
    the same message, for valid strings and any time that has a text form: when
    the command succeeds the stream has exactly one more entry, it decodes to
    [m], and no earlier entry and no group changes. *)
Theorem bus_roundtrip {R : Type} `{RedisLaws R} b m r t g :
  message_utf8 m -> time_text (MWhen m) = Some t -> (Publish b m r).1 = true ->
  exists v, xentries (stream b) (Publish b m r).2 = xentries (stream b) r ++ [v] /\
    (forall i, decode_message (raw_of (mkX i v)) = Some m) /\
    xgroup (stream b) g (Publish b m r).2 = xgroup (stream b) g r.
Proof.
  intros Hu Ht Hok. destruct (jMessage_some m t Ht) as [v Ev]. unfold Publish in *. rewrite Ev in *.
  exists {[ "data"%string := Marshal v ]}. split_and!.
  - destruct (xadd_entries (stream b) {[ "data"%string := Marshal v ]} r) as [E|[E _]]; [done|congruence].
  - intros i. unfold raw_of. cbn [Values]. rewrite lookup_singleton_eq. by apply decode_published.
  - apply xadd_group.
Qed.
End laws.

(** ** What [Consume] delivers *)

Section delivery.
Context {R : Type} `{RedisLaws R} {W : Type} (handler : Message -> W -> W) (b : Bus).
Local Open Scope nat_scope.

(** The group exists and stands at [i], with [p] pending. *)
Definition at_pos (r : R) (i : nat) (p : list nat) : Prop :=
  xgroup (stream b) (group b) r = Some (mkXG i p) /\ i <= length (xentries (stream b) r).

Lemma xack_at r i p k : at_pos r i p ->
  let r' := (XAck (stream b) (group b) k r).2 in
  xentries (stream b) r' = xentries (stream b) r /\
  exists p', at_pos r' i p' /\ (p' = filter (fun j => j <> k) p \/ p' = p).
Proof.
  intros [Hg Hl] r'. assert (He : xentries (stream b) r' = xentries (stream b) r) by apply xack_entries.
  split; [done|]. unfold at_pos. rewrite He.
  destruct (xack_group (stream b) (group b) k r _ Hg) as [E|[_ E]]; [eexists|exists p]; eauto.
Qed.

(** A batch: the handler sees its entries in order; the entries and the
    position of the group stay, and so does what is pending besides the batch. *)
Lemma consume_msgs_spec msgs w r i p : at_pos r i p ->
  exists r' p', foldl (consume_message handler b) (w, r) msgs = (handled handler msgs w, r') /\
    at_pos r' i p' /\ xentries (stream b) r' = xentries (stream b) r /\
    (forall k, k ∈ p -> k ∉ XID <$> msgs -> k ∈ p').
Proof.
  revert w r p. induction msgs as [|x msgs IH]; intros w r p Hat; [by exists r, p|].
  cbn [foldl]. unfold consume_message at 1. cbn [fst snd].
  destruct (xack_at r i p (XID x) Hat) as (He & p1 & Hat1 & Hp1).
  destruct (IH (handle_entry handler x w) _ p1 Hat1)
    as (r' & p' & E & Hat' & He' & Hp').
  exists r', p'. split; [exact E|]. split; [done|]. split; [congruence|].
  intros k Hk Hout. rewrite fmap_cons, not_elem_of_cons in Hout. destruct Hout as [Hne Hout].
  apply Hp'; [|done]. destruct Hp1 as [-> | ->]; [|done]. by apply list_elem_of_filter.
Qed.

Lemma consume_batch_concat s res :
  consume_batch handler b s res = foldl (consume_message handler b) s (concat res).
Proof. unfold consume_batch. revert s. induction res as [|ms res IH]; intros s; [done|]. simpl. by rewrite foldl_app. Qed.

(** One poll hands over the next entries; after an error some may be skipped.
    What is pending and not handed over stays pending. *)
Lemma consume_poll_spec consumer c w r i p : at_pos r i p ->
  exists n ret xs r' p', consume_poll handler b consumer c (w, r) = (ret, xs, (handled handler xs w, r')) /\
    at_pos r' (i + n) p' /\ xentries (stream b) r' = xentries (stream b) r /\
    (xs = xslice (xentries (stream b) r) i n \/
     xs = [] /\ (XReadGroup (stream b) (group b) consumer 100 r).1 = XErr) /\
    (ret = true -> c = true) /\
    (forall k, k ∈ p ++ seq i n -> k ∉ XID <$> xs -> k ∈ p').
Proof.
  intros [Hg Hl].
  destruct (xread_group (stream b) (group b) consumer 100 r _ Hg Hl) as (n & Hk & Hn & Hg' & Hx).
  pose proof (xread_entries (stream b) (group b) consumer 100 r) as He. unfold consume_poll. cbn [fst snd].
  destruct (XReadGroup (stream b) (group b) consumer 100 r) as [x r1]; cbn [fst snd xg_last] in *.
  assert (Hat : at_pos r1 (i + n) (p ++ seq i n)) by (split; [done|by rewrite He]).
  destruct x as [| |res].
  - subst n. exists 0, false, [], r1, (p ++ seq i 0). split_and!; try done. by left.
  - exists n, c, [], r1, (p ++ seq i n). split_and!; try done. by right.
  - destruct (consume_msgs_spec (concat res) w r1 _ _ Hat) as (r' & p' & E & Hat' & He' & Hp').
    exists n, false, (concat res), r', p'. rewrite consume_batch_concat, E. split_and!; try done; [congruence|by left].
Qed.

(** At most once, in order.  Whatever outages the service has, the
    entries [Consume] hands to the handler are entries of the stream behind the
    group's position, each at most once and in the order they were added; the
    handler has seen exactly those that decode; nothing is added to the stream,
    and the loop only returns when the context is done. *)
Theorem consume_in_order consumer cs w r i p ret xs w' r' :
  at_pos r i p -> Consume handler b consumer cs (w, r) = (ret, xs, (w', r')) ->
  w' = handled handler xs w /\
  xentries (stream b) r' = xentries (stream b) r /\
  (XID <$> xs) `sublist_of` seq i (length (xentries (stream b) r) - i) /\
  Forall (fun x => xentries (stream b) r !! XID x = Some (Values x)) xs /\
  (ret = true -> true ∈ cs).
Proof.
  intros Hat E. revert w r i p ret xs Hat E. induction cs as [|c cs IH]; intros w r i p ret xs Hat E.
  { simplify_eq/=. split_and!; try done. apply sublist_nil_l. }
  cbn [Consume] in E.
  destruct (consume_poll_spec consumer c w r i p Hat) as (n & ret1 & xs1 & r1 & p1 & E1 & Hat1 & He1 & Hx1 & Hr1 & _).
  rewrite E1 in E. pose proof (proj2 Hat1) as Hl. rewrite He1 in Hl.
  assert (Hxs1 : (XID <$> xs1) `sublist_of` seq i n /\
    Forall (fun x => xentries (stream b) r !! XID x = Some (Values x)) xs1).
  { destruct Hx1 as [->|[-> _]]; [|split; [apply sublist_nil_l|done]]. split; [by rewrite xslice_ids|].
    apply xslice_lookup. }
  destruct Hxs1 as [Hs1 Hf1].
  assert (Hsplit : seq i (length (xentries (stream b) r) - i) =
    seq i n ++ seq (i + n) (length (xentries (stream b) r) - (i + n))).
  { rewrite <- seq_app. f_equal. lia. }
  destruct ret1.
  - simplify_eq. split_and!; try done; [|intros _; rewrite (Hr1 eq_refl); apply elem_of_cons; by left].
    rewrite Hsplit. by apply sublist_inserts_r.
  - destruct (Consume handler b consumer cs _) as [[ret2 xs2] [w2 r2]] eqn:E2. simplify_eq.
    destruct (IH _ _ _ _ _ _ Hat1 E2) as (-> & He2 & Hs2 & Hf2 & Hr2). rewrite He1 in Hs2, Hf2, He2. split_and!.
    + unfold handled. by rewrite foldl_app.
    + done.
    + rewrite fmap_app, Hsplit. by apply sublist_app.
    + by apply Forall_app.
    + intros Ht. apply elem_of_cons. right. auto.
Qed.

(** ** Without outages *)

Section reliable.
Context `{RR : !RedisReliable R}.

Lemma xack_seq r i p q n : at_pos r i (p ++ seq q n) -> Forall (fun j => j < q) p ->
  xgroup (stream b) (group b) (XAck (stream b) (group b) q r).2 =
    Some (mkXG i (p ++ seq (S q) (n - 1))).
Proof.
  intros [Hg Hl] Hp. pose proof (xack_ok (stream b) (group b) q r _ Hg) as Hok.
  destruct (xack_group (stream b) (group b) q r _ Hg) as [E|[E _]]; [|congruence]. rewrite E. f_equal.
  unfold xg_ack. cbn [xg_last xg_pending]. f_equal. rewrite filter_app. f_equal.
  - apply filter_all. eapply Forall_impl; [exact Hp|]. simpl. lia.
  - destruct n as [|n]; [done|]. cbn [seq]. rewrite filter_cons_False by naive_solver. simpl.
    rewrite Nat.sub_0_r. apply filter_all. apply Forall_seq. intros j Hj. lia.
Qed.

(** A batch is acknowledged entry by entry. *)
Lemma consume_msgs_acks msgs w r i p q n : at_pos r i (p ++ seq q n) -> Forall (fun j => j < q) p ->
  XID <$> msgs = seq q n ->
  xgroup (stream b) (group b) (foldl (consume_message handler b) (w, r) msgs).2 = Some (mkXG i p).
Proof.
  revert w r p q n. induction msgs as [|x msgs IH]; intros w r p q n Hat Hp Hids.
  { destruct n; [|done]. destruct Hat as [Hg _]. by rewrite app_nil_r in Hg. }
  destruct n as [|n]; [done|]. injection Hids as Hx Hids. cbn [foldl]. unfold consume_message at 2, ack_entry. cbn [fst snd]. rewrite Hx.
  pose proof (xack_seq r i p q (S n) Hat Hp) as E. simpl in E. rewrite Nat.sub_0_r in E.
  apply (IH _ _ p (S q) n); [|eapply Forall_impl; [exact Hp|simpl; lia]|done].
  split; [done|]. rewrite xack_entries. apply Hat.
Qed.

Lemma consume_poll_reliable consumer c w r i p : at_pos r i p -> Forall (fun j => j < i) p ->
  let n := min 100 (length (xentries (stream b) r) - i) in
  let xs := xslice (xentries (stream b) r) i n in
  exists r', consume_poll handler b consumer c (w, r) = (false, xs, (handled handler xs w, r')) /\
    at_pos r' (i + n) p /\ xentries (stream b) r' = xentries (stream b) r.
Proof.
  intros Hat Hp n xs. pose proof Hat as [Hg Hl].
  destruct (xread_group (stream b) (group b) consumer 100 r _ Hg Hl) as (m & _ & Hm & Hgm & Hxm).
  pose proof (xread_entries (stream b) (group b) consumer 100 r) as Her.
  destruct (xread_ok (stream b) (group b) consumer 100 r _ Hg ltac:(lia)) as [Hne Hgr]. cbn [xg_last xg_pending] in *.
  fold n in Hgr. assert (m = n) as -> by (rewrite Hgr in Hgm; injection Hgm; lia).
  unfold consume_poll. cbn [fst snd].
  destruct (XReadGroup (stream b) (group b) consumer 100 r) as [x r1]; cbn [fst snd] in *. destruct x as [| |res]; [|done|].
  - assert (xs = []) as -> by (unfold xs; rewrite Hxm; done). exists r1. rewrite Hxm in Hgr |- *.
    rewrite app_nil_r in Hgr. split_and!; [done| |done]. split; [done|]. rewrite Her. lia.
  - rewrite consume_batch_concat. fold xs in Hxm. rewrite Hxm.
    assert (Hat1 : at_pos r1 (i + n) (p ++ seq i n)) by (split; [done|rewrite Her; lia]).
    pose proof (consume_msgs_acks xs w r1 (i + n) p i n Hat1 Hp ltac:(by apply xslice_ids)) as Hack.
    destruct (consume_msgs_spec xs w r1 _ _ Hat1) as (r' & p' & E & [_ Hl'] & He & _).
    exists r'. rewrite E in Hack |- *. split_and!; [done| |congruence]. by split.
Qed.

Lemma xslice_app es i n m : xslice es i n ++ xslice es (i + n) m = xslice es i (n + m).
Proof.
  destruct (decide (i + n <= length es)) as [Hl|Hl].
  - unfold xslice. rewrite <- (take_take_drop (drop i es) n m), imap_app, drop_drop.
    rewrite length_take, length_drop, Nat.min_l by lia. f_equal. apply imap_ext. intros j v _. simpl. f_equal. lia.
  - unfold xslice. rewrite (drop_ge es (i + n)) by lia. rewrite take_nil, app_nil_r.
    rewrite !take_ge by (rewrite length_drop; lia). done.
Qed.

(** C16 (termination): exactly once.  Without outages the consumer catches up:
    as soon as the iterations cover the entries behind the group's position (a
    hundred per read), every one of them has been handed over exactly once and
    in order, and has been acknowledged. *)
Theorem consume_catches_up consumer cs w r i p :
  at_pos r i p -> Forall (fun j => j < i) p -> length (xentries (stream b) r) - i <= 100 * length cs ->
  let xs := xslice (xentries (stream b) r) i (length (xentries (stream b) r) - i) in
  exists r', Consume handler b consumer cs (w, r) = (false, xs, (handled handler xs w, r')) /\
    xentries (stream b) r' = xentries (stream b) r /\
    xgroup (stream b) (group b) r' = Some (mkXG (length (xentries (stream b) r)) p).
Proof.
  revert w r i. induction cs as [|c cs IH]; intros w r i Hat Hp Hk.
  { pose proof Hat as [Hg Hl]. exists r. simpl in Hk. assert (length (xentries (stream b) r) - i = 0) as -> by lia.
    split_and!; [done|done|]. rewrite Hg. do 2 f_equal. lia. }
  cbn [Consume]. destruct (consume_poll_reliable consumer c w r i p Hat Hp) as (r1 & -> & Hat1 & He1).
  set (n := min 100 (length (xentries (stream b) r) - i)) in *.
  destruct (IH (handled handler (xslice (xentries (stream b) r) i n) w) r1 (i + n)) as (r2 & E2 & He2 & Hg2).
  - done.
  - eapply Forall_impl; [exact Hp|]. simpl. lia.
  - rewrite He1. unfold n. simpl in Hk. lia.
  - rewrite E2, He1. exists r2. split_and!; [|congruence|by rewrite Hg2, He1].
    rewrite xslice_app. replace (n + _) with (length (xentries (stream b) r) - i) by (unfold n; lia).
    do 2 f_equal. unfold handled. rewrite <- foldl_app, xslice_app. do 2 f_equal. unfold n. lia.
Qed.
End reliable.

(** ** The position beside other commands *)

Lemma publish_at r i p m : at_pos r i p -> at_pos (Publish b m r).2 i p.
Proof.
  intros [Hg Hl]. unfold Publish. set (v := {[ _ := _ ]}). split; [by rewrite xadd_group|].
  destruct (xadd_entries (stream b) v r) as [->|[_ ->]]; [rewrite length_app|]; lia.
Qed.

(** The group exists, so [EnsureGroup] changes nothing. *)
Lemma ensure_at r i p : at_pos r i p -> at_pos (EnsureGroup b r) i p.
Proof. intros [Hg Hl]. unfold EnsureGroup. split; [by apply xcreate_busy|by rewrite xcreate_entries]. Qed.
End delivery.
End bus.

(** ** A text form of times

    Decimal nanoseconds: it shows that the laws can hold. *)
Module DecimalTime.
#[export] Instance text : TimeText := {|
  time_text t := if bool_decide (in_int64 t) then Some (bytes (Itoa t)) else None;
  parse_time s := match ParseInt false s with (z, None) => Some z | _ => None end;
|}.

#[export] Instance laws : TimeTextLaws text.
Proof.
  split; intros t s; cbn [time_text parse_time text]; case_bool_decide as Ht; try done; intros [= <-].
  - unfold utf8_valid. rewrite segs_all_ascii.
    + apply forallb_forall. intros g Hg. apply list_elem_of_In, list_elem_of_fmap in Hg as (? & -> & _). done.
    + unfold in_int64, min_int64, max_int64 in Ht. unfold Itoa. rewrite list_ascii_of_string_of_list_ascii.
      assert (Hd : forall n, 0 <= n -> Forall (fun b => b2z b < 128) (format_uint n)).
      { intros n Hn. eapply Forall_impl; [apply (dec_digits_all 20 n []); [done|constructor]|].
        intros b Hb. unfold is_digit in Hb. simpl in *. lia. }
      destruct (Z.ltb_spec t 0); [constructor; [done|]|]; apply Hd; lia.
  - by rewrite ParseInt_Itoa.
Qed.
End DecimalTime.
Import DecimalTime.


(** ** The theorems at concrete inputs: a stream with one message and one entry
    that does not decode. *)
Module BusDemo.
Import ListRedis.
Definition b : Bus := New "localhost:6379" 0 "chat" "node".
Definition hello : Message := mkMessage "message" 42 "alice" "" "hi".
Definition r0 : calm := EnsureGroup b empty.
Definition r1 : calm := (Publish b hello r0).2.
Definition r2 : calm := (XAdd "chat"%string ∅ r1).2.
Definition log (m : Message) (w : list string) : list string := w ++ [MText m].
End BusDemo.
Import BusDemo ListRedis.

Lemma bus_roundtrip_witness :
  exists v, xentries "chat"%string r1 = [v] /\
    (forall i, decode_message (raw_of (mkX i v)) = Some hello).
Proof.
  destruct (bus_roundtrip (LW := DecimalTime.laws) b hello r0 (bytes "42") "node") as (v & E & Hd & _).
  - repeat constructor.
  - vm_compute. reflexivity.
  - vm_compute. reflexivity.
  - exists v. split; [exact E|exact Hd].
Defined.

Lemma consume_in_order_witness :
  let '(ret, xs, (w, r)) := Consume log b "c1" [false; true] ([], r2) in
  w = ["hi"%string] /\ (XID <$> xs) `sublist_of` [0%nat; 1%nat] /\ ret = false.
Proof.
  destruct (Consume log b "c1" [false; true] ([], r2)) as [[ret xs] [w r]] eqn:E.
  destruct (consume_in_order log b "c1" [false; true] [] r2 0 [] ret xs w r) as (Hw & _ & Hs & _).
  - split; vm_compute; [reflexivity|lia].
  - exact E.
  - vm_compute in E. injection E as <- <- <- <-. split; [reflexivity|]. split; [exact Hs|reflexivity].
Defined.

Lemma consume_catches_up_witness :
  exists r', (Consume log b "c1" [false] ([], r2)).2 = (["hi"%string], r') /\
    xgroup "chat"%string "node"%string r' = Some (mkXG 2 []).
Proof.
  destruct (consume_catches_up log b "c1" [false] [] r2 0 []) as (r' & E & _ & Hg).
  - split; vm_compute; [reflexivity|lia].
  - constructor.
  - vm_compute. lia.
  - exists r'. split; [|exact Hg]. rewrite E. vm_compute. reflexivity.
Defined.
