(* ===== verification/BusFaults.v ===== *)
(** * Several nodes on one stream: [Consume] of [internal/bus/redisstream/bus.go]
    beside other nodes, crashes, restarts and lost replies

    [main] gives every node the consumer group of the configuration.  A node
    reads a batch of entries, then calls the handler and acknowledges them one by
    one; between any two of these operations other nodes, publishers and the
    chat itself run.  [cluster_step] runs one operation of one node at a time
    and lists what happened: which node was assigned which entries by a reply,
    and which entry it handed to its handler (an entry that does not decode is
    dealt with without a call).  [fault_step] adds crashes anywhere
    in a batch; restarted processes come back as new nodes under any consumer
    name.  [Consume] asks for new entries only, never for those that were
    assigned and not acknowledged: what a crash or a lost reply leaves behind is
    pending for ever. *)

From S2P Require Import Prelude Codec Events Redis Bus.

(** Where a node is in [Consume]: before a read, before an entry of its batch,
    between the handler and the acknowledgement, or gone (returned or crashed). *)
Inductive point :=
| Polling
| Handling (todo : list XMessage)
| Acking (x : XMessage) (todo : list XMessage)
| Gone.

Inductive cevent := Assigned (n k : nat) | Handled (n k : nat).

(** The point after the reply of [XReadGroup]; [ctx_err] says whether
    [ctx.Err()] is set. *)
Definition after_read (ctx_err : bool) (x : xreply) : point :=
  match x with
  | XNil => Polling
  | XErr => if ctx_err then Gone else Polling
  | XOk res => Handling (concat res)
  end.

Definition reply_entries (x : xreply) : list XMessage :=
  match x with XOk res => concat res | _ => [] end.

Definition assigned_to (n : nat) (x : xreply) : list cevent := (fun e => Assigned n (XID e)) <$> reply_entries x.

(** ** Reading a trace *)

Definition assigned (tr : list cevent) : list nat :=
  omap (fun e => match e with Assigned _ k => Some k | Handled _ _ => None end) tr.
Definition assigned_by (n : nat) (tr : list cevent) : list nat :=
  omap (fun e => match e with Assigned m k => if decide (m = n) then Some k else None | Handled _ _ => None end) tr.
Definition handled_by (n : nat) (tr : list cevent) : list nat :=
  omap (fun e => match e with Handled m k => if decide (m = n) then Some k else None | Assigned _ _ => None end) tr.

(** Entries of a batch not yet handled, and not yet acknowledged. *)
Definition unhandled (pt : point) : list nat :=
  match pt with Handling todo | Acking _ todo => XID <$> todo | _ => [] end.
Definition acking (pt : point) : list nat :=
  match pt with Acking x _ => [XID x] | _ => [] end.
Definition unacked (pt : point) : list nat := acking pt ++ unhandled pt.

Lemma assigned_reply n x : assigned (assigned_to n x) = XID <$> reply_entries x.
Proof. unfold assigned, assigned_to. induction (reply_entries x) as [|y l IH]; [done|]. cbn. by rewrite <- IH. Qed.

Lemma assigned_by_reply m n x :
  assigned_by m (assigned_to n x) = if decide (n = m) then XID <$> reply_entries x else [].
Proof.
  unfold assigned_by, assigned_to. induction (reply_entries x) as [|y l IH]; cbn; [by case_decide|].
  rewrite IH. by case_decide.
Qed.

Lemma handled_by_reply m n x : handled_by m (assigned_to n x) = [].
Proof. unfold handled_by, assigned_to. by induction (reply_entries x). Qed.

Lemma elem_of_handled_by n k tr : k ∈ handled_by n tr <-> Handled n k ∈ tr.
Proof.
  unfold handled_by. rewrite list_elem_of_omap. split.
  - intros ([m j|m j] & He & E); [done|]. case_decide; [|done]. by simplify_eq.
  - intros He. exists (Handled n k). split; [done|]. by rewrite decide_True.
Qed.

Lemma elem_of_assigned k tr : k ∈ assigned tr <-> exists n, Assigned n k ∈ tr.
Proof.
  unfold assigned. rewrite list_elem_of_omap. split.
  - intros ([m j|m j] & He & E); simplify_eq. by exists m.
  - intros [n He]. by exists (Assigned n k).
Qed.

Lemma elem_of_assigned_by n k tr : k ∈ assigned_by n tr -> k ∈ assigned tr.
Proof.
  unfold assigned_by. rewrite list_elem_of_omap, elem_of_assigned. intros ([m j|m j] & He & E); [|done].
  case_decide; simplify_eq. by exists n.
Qed.

Lemma assigned_once tr k n1 n2 : NoDup (assigned tr) -> Assigned n1 k ∈ tr -> Assigned n2 k ∈ tr -> n1 = n2.
Proof.
  induction tr as [|e tr IH]; intros Hnd H1 H2; [by apply not_elem_of_nil in H1|].
  apply elem_of_cons in H1, H2. destruct e as [m j|m j]; cbn in Hnd.
  - apply NoDup_cons in Hnd as [Hj Hnd]. rewrite elem_of_assigned in Hj.
    destruct H1 as [E1|H1], H2 as [E2|H2]; simplify_eq; [done|by destruct Hj; eauto..|by apply IH].
  - destruct H1 as [E1|H1], H2 as [E2|H2]; simplify_eq. by apply IH.
Qed.

Section cluster.
Context `{TT : TimeText} {R : Type} `{RedisLaws R} {W : Type} (handler : Message -> W -> W) (b : Bus).

Record cnode := mkCN { cn_state : W; cn_at : point }.
Record cluster := mkCluster { c_nodes : list cnode; c_redis : R }.

Inductive cluster_step : cluster -> list cevent -> cluster -> Prop :=
| cl_read nodes r n w consumer ctx_err x r' :
    nodes !! n = Some (mkCN w Polling) -> XReadGroup (stream b) (group b) consumer 100 r = (x, r') ->
    cluster_step (mkCluster nodes r) (assigned_to n x) (mkCluster (<[n := mkCN w (after_read ctx_err x)]> nodes) r')
| cl_handle nodes r n w x todo :
    nodes !! n = Some (mkCN w (Handling (x :: todo))) ->
    cluster_step (mkCluster nodes r) [Handled n (XID x)]
      (mkCluster (<[n := mkCN (handle_entry handler x w) (Acking x todo)]> nodes) r)
| cl_ack nodes r n w x todo :
    nodes !! n = Some (mkCN w (Acking x todo)) ->
    cluster_step (mkCluster nodes r) [] (mkCluster (<[n := mkCN w (Handling todo)]> nodes) (ack_entry b x r))
| cl_next nodes r n w :
    nodes !! n = Some (mkCN w (Handling [])) ->
    cluster_step (mkCluster nodes r) [] (mkCluster (<[n := mkCN w Polling]> nodes) r)
| cl_publish nodes r m :
    cluster_step (mkCluster nodes r) [] (mkCluster nodes (Publish b m r).2)
| cl_local nodes r n w pt w' :
    nodes !! n = Some (mkCN w pt) ->
    cluster_step (mkCluster nodes r) [] (mkCluster (<[n := mkCN w' pt]> nodes) r)
| cl_start nodes r w :
    cluster_step (mkCluster nodes r) [] (mkCluster (nodes ++ [mkCN w Polling]) (EnsureGroup b r)).

(** A process dies wherever it is. *)
Inductive fault_step : cluster -> list cevent -> cluster -> Prop :=
| f_step c tr c' : cluster_step c tr c' -> fault_step c tr c'
| f_crash nodes r n w pt :
    nodes !! n = Some (mkCN w pt) ->
    fault_step (mkCluster nodes r) [] (mkCluster (<[n := mkCN w Gone]> nodes) r).

(** Runs, with their traces. *)
Inductive runs (step : cluster -> list cevent -> cluster -> Prop) : cluster -> list cevent -> cluster -> Prop :=
| runs_refl c : runs step c [] c
| runs_step c tr c1 tr' c2 : step c tr c1 -> runs step c1 tr' c2 -> runs step c (tr ++ tr') c2.

Abbreviation cluster_steps := (runs cluster_step).
Abbreviation fault_steps := (runs fault_step).

Lemma runs_trans step c tr c1 tr' c2 : runs step c tr c1 -> runs step c1 tr' c2 -> runs step c (tr ++ tr') c2.
Proof. induction 1; intros; [done|]. rewrite <- app_assoc. eapply runs_step; eauto. Qed.

Lemma runs_once step c tr c' : step c tr c' -> runs step c tr c'.
Proof. intros Hs. rewrite <- (app_nil_r tr). eapply runs_step; [done|constructor]. Qed.

(** ** A node that nobody disturbs runs the iteration of Bus.v *)

Lemma batch_alone nodes n msgs w r w' r' nd :
  nodes !! n = Some nd -> foldl (consume_message handler b) (w, r) msgs = (w', r') ->
  cluster_steps (mkCluster (<[n := mkCN w (Handling msgs)]> nodes) r) ((fun x => Handled n (XID x)) <$> msgs)
    (mkCluster (<[n := mkCN w' Polling]> nodes) r').
Proof.
  intros Hn. apply lookup_lt_Some in Hn. revert w r. induction msgs as [|x msgs IH]; intros w r E.
  - simplify_eq/=. apply (runs_once _ _ []). rewrite <- (list_insert_insert_eq nodes n (mkCN w' Polling) (mkCN w' (Handling []))).
    apply cl_next. by apply list_lookup_insert_eq.
  - cbn [foldl] in E. change ((fun x => Handled n (XID x)) <$> x :: msgs) with
      ([Handled n (XID x)] ++ [] ++ ((fun x => Handled n (XID x)) <$> msgs)).
    eapply runs_step; [apply cl_handle; by apply list_lookup_insert_eq|]. rewrite list_insert_insert_eq.
    eapply runs_step; [apply cl_ack; by apply list_lookup_insert_eq|]. rewrite list_insert_insert_eq. by apply IH.
Qed.

Lemma iteration_alone nodes n consumer ctx_err w r ret xs w' r' :
  nodes !! n = Some (mkCN w Polling) -> consume_poll handler b consumer ctx_err (w, r) = (ret, xs, (w', r')) ->
  cluster_steps (mkCluster nodes r) (((fun x => Assigned n (XID x)) <$> xs) ++ ((fun x => Handled n (XID x)) <$> xs))
    (mkCluster (<[n := mkCN w' (if ret then Gone else Polling)]> nodes) r').
Proof.
  intros Hn E. unfold consume_poll in E. cbn [fst snd] in E.
  destruct (XReadGroup (stream b) (group b) consumer 100 r) as [x r1] eqn:Ex.
  pose proof (cl_read nodes r n w consumer ctx_err x r1 Hn Ex) as Hr.
  destruct x as [| |res]; [simplify_eq; apply (runs_once _ _ _ _ Hr)..|].
  rewrite consume_batch_concat in E. simplify_eq. eapply runs_step; [exact Hr|]. by eapply batch_alone.
Qed.

(** ** What a step does *)

(** The batch of node [n], if there is such a node. *)
Definition at_node (f : point -> list nat) (n : nat) (c : cluster) : list nat :=
  match c_nodes c !! n with Some nd => f (cn_at nd) | None => [] end.

Lemma at_node_insert f m n nd0 nd nodes r r' : nodes !! n = Some nd0 ->
  at_node f m (mkCluster (<[n := nd]> nodes) r') =
    if decide (n = m) then f (cn_at nd) else at_node f m (mkCluster nodes r).
Proof.
  intros Hn%lookup_lt_Some. unfold at_node. cbn [c_nodes]. case_decide as Hm.
  - subst m. by rewrite list_lookup_insert_eq.
  - by rewrite list_lookup_insert_ne.
Qed.

Lemma at_node_start f m nodes w r r' : f Polling = [] ->
  at_node f m (mkCluster (nodes ++ [mkCN w Polling]) r') = at_node f m (mkCluster nodes r).
Proof.
  intros Hf. unfold at_node. cbn [c_nodes]. destruct (decide (m < length nodes)) as [Hl|Hl].
  - by rewrite lookup_app_l.
  - rewrite lookup_app_r by lia. rewrite (lookup_ge_None_2 nodes m) by lia.
    destruct (m - length nodes) as [|j]; cbn; [done|by destruct j].
Qed.

(** Handling goes through the batch from the front. *)
Lemma cluster_step_batch c tr c' n : cluster_step c tr c' ->
  handled_by n tr ++ at_node unhandled n c' = at_node unhandled n c ++ assigned_by n tr.
Proof.
  intros Hs. destruct Hs as [nodes r m w consumer ctx_err x r' Hm E|nodes r m w x todo Hm|nodes r m w x todo Hm|
    nodes r m w Hm|nodes r m|nodes r m w pt w' Hm|nodes r w].
  5: by rewrite app_nil_r.
  6: { rewrite app_nil_r. by apply at_node_start. }
  all: rewrite (at_node_insert _ n m _ _ nodes r _ Hm); rewrite ?handled_by_reply, ?assigned_by_reply; cbn [app handled_by assigned_by omap list_omap];
    case_decide as Hd; rewrite ?app_nil_r; try done; subst m; unfold at_node; cbn [c_nodes]; rewrite Hm; cbn [cn_at unhandled]; try done.
  destruct x as [| |res]; [done|by destruct ctx_err|done].
Qed.

Lemma fault_step_batch c tr c' n : fault_step c tr c' ->
  (handled_by n tr ++ at_node unhandled n c') `sublist_of` (at_node unhandled n c ++ assigned_by n tr).
Proof.
  intros Hs. destruct Hs as [c tr c' Hs|nodes r m w pt Hm]; [by rewrite (cluster_step_batch c tr c' n Hs)|].
  rewrite (at_node_insert _ n m _ _ nodes r _ Hm). cbn. case_decide; rewrite app_nil_r; [apply sublist_nil_l|done].
Qed.

(** An entry that is being acknowledged has been handled. *)
Lemma fault_step_acking c tr c' n k : fault_step c tr c' ->
  k ∈ at_node acking n c' -> k ∈ at_node acking n c \/ Handled n k ∈ tr.
Proof.
  intros Hs Hk. destruct Hs as [c tr c' Hs|nodes r m w pt Hm].
  2: { rewrite (at_node_insert _ n m _ _ nodes r _ Hm) in Hk. case_decide; [by apply not_elem_of_nil in Hk|by left]. }
  destruct Hs as [nodes r m w consumer ctx_err x r' Hm E|nodes r m w x todo Hm|nodes r m w x todo Hm|
    nodes r m w Hm|nodes r m|nodes r m w pt w' Hm|nodes r w].
  5: by left.
  6: { left. by rewrite (at_node_start acking n nodes w r) in Hk. }
  all: rewrite (at_node_insert _ n m _ _ nodes r _ Hm) in Hk; case_decide as Hd; [subst m|by left]; cbn [cn_at] in Hk.
  - destruct x as [| |res]; try destruct ctx_err; by apply not_elem_of_nil in Hk.
  - apply list_elem_of_singleton in Hk as ->. right. apply list_elem_of_singleton. done.
  - by apply not_elem_of_nil in Hk.
  - by apply not_elem_of_nil in Hk.
  - left. unfold at_node. cbn [c_nodes]. by rewrite Hm.
Qed.

(** The group moves on; the entries assigned are among those it passes, and only
    an acknowledgement takes an entry off the pending list. *)
Lemma cluster_step_group c tr c' i p : cluster_step c tr c' -> at_pos b (c_redis c) i p ->
  exists d p', at_pos b (c_redis c') (i + d) p' /\ assigned tr `sublist_of` seq i d /\
    (forall k, k ∈ p ++ seq i d -> (forall n, k ∉ at_node acking n c) -> k ∈ p').
Proof.
  intros Hs Hat. destruct Hs as [nodes r m w consumer ctx_err x r' Hm E|nodes r m w x todo Hm|nodes r m w x todo Hm|
    nodes r m w Hm|nodes r m|nodes r m w pt w' Hm|nodes r w]; cbn [c_redis] in *.
  1: { destruct Hat as [Hg Hl]. destruct (xread_group (stream b) (group b) consumer 100 r _ Hg Hl) as (d & _ & Hd & Hg' & Hx).
    pose proof (xread_entries (stream b) (group b) consumer 100 r) as He. rewrite E in *. cbn [fst snd xg_last xg_pending] in *.
    exists d, (p ++ seq i d). split_and!; [split; [done|by rewrite He]| |auto].
    rewrite assigned_reply. destruct x as [| |res]; cbn [reply_entries]; [apply sublist_nil_l..|]. by rewrite Hx, xslice_ids. }
  2: { exists 0. rewrite Nat.add_0_r. destruct (xack_at b r i p (XID x) Hat) as (_ & p' & Hat' & Hp'). exists p'.
    split_and!; [done|done|]. intros k Hk Hno. rewrite app_nil_r in Hk. destruct Hp' as [-> | ->]; [|done].
    apply list_elem_of_filter. split; [|done]. intros ->. apply (Hno m). unfold at_node. cbn [c_nodes]. rewrite Hm. by left. }
  all: exists 0, p; rewrite Nat.add_0_r, app_nil_r; split_and!; auto using publish_at, ensure_at.
Qed.

Lemma fault_step_group c tr c' i p : fault_step c tr c' -> at_pos b (c_redis c) i p ->
  exists d p', at_pos b (c_redis c') (i + d) p' /\ assigned tr `sublist_of` seq i d /\
    (forall k, k ∈ p ++ seq i d -> (forall n, k ∉ at_node acking n c) -> k ∈ p').
Proof.
  intros Hs Hat. destruct Hs as [c tr c' Hs|nodes r m w pt Hm]; [by eapply cluster_step_group|].
  exists 0, p. rewrite Nat.add_0_r, app_nil_r. auto.
Qed.

(** ** What a run does *)

Lemma fault_runs_acking c tr c' n k : fault_steps c tr c' ->
  k ∈ at_node acking n c' -> k ∈ at_node acking n c \/ Handled n k ∈ tr.
Proof.
  induction 1 as [c|c tr c1 tr' c2 Hs _ IH]; intros Hk; [by left|]. rewrite elem_of_app.
  destruct (IH Hk) as [Hk'|]; [|auto]. destruct (fault_step_acking c tr c1 n k Hs Hk'); auto.
Qed.

Lemma fault_runs_batch c tr c' n : fault_steps c tr c' ->
  (handled_by n tr ++ at_node unhandled n c') `sublist_of` (at_node unhandled n c ++ assigned_by n tr).
Proof.
  induction 1 as [c|c tr c1 tr' c2 Hs _ IH]; [by rewrite app_nil_r|].
  unfold handled_by, assigned_by in *. rewrite !omap_app, <- app_assoc. fold (handled_by n tr) (assigned_by n tr) in *.
  etrans; [by apply sublist_app; [|exact IH]|]. rewrite !app_assoc. apply sublist_app; [|done]. by apply fault_step_batch.
Qed.

Lemma fault_runs_group c tr c' i p : fault_steps c tr c' -> at_pos b (c_redis c) i p ->
  exists d p', at_pos b (c_redis c') (i + d) p' /\ assigned tr `sublist_of` seq i d /\
    (forall k, k ∈ p ++ seq i d -> (forall n, k ∉ at_node acking n c) -> (forall n, Handled n k ∉ tr) -> k ∈ p').
Proof.
  intros Hs. revert i p. induction Hs as [c|c tr c1 tr' c2 Hs _ IH]; intros i p Hat.
  { exists 0, p. rewrite Nat.add_0_r, app_nil_r. auto. }
  destruct (fault_step_group c tr c1 i p Hs Hat) as (d & p1 & Hat1 & Ha1 & Hp1).
  destruct (IH _ _ Hat1) as (d' & p2 & Hat2 & Ha2 & Hp2). exists (d + d'), p2.
  rewrite Nat.add_assoc, seq_app. unfold assigned in *. rewrite omap_app. split_and!; [done|by apply sublist_app|].
  intros k Hk Hno Hh. apply Hp2.
  - rewrite app_assoc in Hk. apply elem_of_app in Hk as [Hk|Hk]; apply elem_of_app; auto.
  - intros n Hn. destruct (fault_step_acking c tr c1 n k Hs Hn) as [Hn'|Hn']; [by apply (Hno n)|].
    apply (Hh n). apply elem_of_app. by left.
  - intros n Hn. apply (Hh n). apply elem_of_app. by right.
Qed.

(** All nodes are between two iterations. *)
Definition idle (c : cluster) : Prop := Forall (fun nd => cn_at nd = Polling) (c_nodes c).

Lemma idle_at f n c : idle c -> f Polling = [] -> at_node f n c = [].
Proof.
  intros Hi Hf. unfold at_node. destruct (c_nodes c !! n) as [nd|] eqn:E; [|done].
  by rewrite (Forall_lookup_1 _ _ _ _ Hi E).
Qed.

Lemma handled_passed c tr c' n k i p : fault_steps c tr c' -> at_pos b (c_redis c) i p ->
  Handled n k ∈ tr -> k ∈ at_node unhandled n c \/ i <= k.
Proof.
  intros Hs Hat Hk. pose proof (fault_runs_batch c tr c' n Hs) as Hb.
  assert (Hin : k ∈ at_node unhandled n c ++ assigned_by n tr).
  { eapply elem_of_sublist; [|exact Hb]. apply elem_of_app. left. by apply elem_of_handled_by. }
  apply elem_of_app in Hin as [Hin|Hin]; [by left|right]. apply elem_of_assigned_by in Hin.
  destruct (fault_runs_group c tr c' i p Hs Hat) as (d & _ & _ & Ha & _).
  apply (elem_of_sublist _ _ _ Hin), elem_of_seq in Ha. lia.
Qed.

(** C12 (safety): every entry is accounted for, whatever fails.  The operations
    of the nodes interleave; the service may refuse commands and lose replies;
    nodes may crash anywhere in a batch and start again under any name.  Entries
    are assigned in the order of the stream, none twice; what a node hands to
    its handler, followed by what is left of its batch, are entries assigned to
    it, in order and none twice; an entry the group has passed was handed to a
    handler or is pending.  An entry that was not handled and is in no running
    node's batch is lost: no later step hands it to a handler, and it stays
    pending for ever. *)
Theorem lost_entries_stay_lost c tr c' i p :
  fault_steps c tr c' -> idle c -> at_pos b (c_redis c) i p ->
  exists i' p', at_pos b (c_redis c') i' p' /\ i <= i' /\
    assigned tr `sublist_of` seq i (i' - i) /\
    (forall n, (handled_by n tr ++ at_node unhandled n c') `sublist_of` assigned_by n tr) /\
    (forall k, i <= k < i' -> k ∈ p' \/ exists n, Handled n k ∈ tr) /\
    (forall k, k ∈ p' -> k < i' -> (forall n, Handled n k ∉ tr) -> (forall n, k ∉ at_node unhandled n c') ->
       forall tr2 c2, fault_steps c' tr2 c2 ->
         (forall n, Handled n k ∉ tr2) /\ exists i2 p2, at_pos b (c_redis c2) i2 p2 /\ k ∈ p2).
Proof.
  intros Hs Hi Hat. destruct (fault_runs_group c tr c' i p Hs Hat) as (d & p' & Hat' & Ha & Hp).
  exists (i + d), p'. replace (i + d - i) with d by lia. split_and!; [done|lia|done| | |].
  - intros n. pose proof (fault_runs_batch c tr c' n Hs) as Hb. by rewrite (idle_at unhandled n c) in Hb.
  - intros k Hk. destruct (decide (k ∈ p')) as [Hin|Hout]; [by left|right].
    destruct (decide (k ∈ omap (fun e => match e with Handled _ j => Some j | Assigned _ _ => None end) tr)) as [He|He].
    + apply list_elem_of_omap in He as ([m j|m j] & He & E); simplify_eq. by exists m.
    + destruct Hout. apply Hp.
      * apply elem_of_app. right. apply elem_of_seq. lia.
      * intros n. rewrite (idle_at acking n c) by done. apply not_elem_of_nil.
      * intros n Hn. apply He, list_elem_of_omap. by exists (Handled n k).
  - intros k Hk Hlt Hh Hu tr2 c2 Hs2.
    assert (Hno : forall n, Handled n k ∉ tr2).
    { intros n Hn. destruct (handled_passed c' tr2 c2 n k _ _ Hs2 Hat' Hn) as [Hin|Hle]; [by apply (Hu n)|lia]. }
    split; [done|]. destruct (fault_runs_group c' tr2 c2 _ _ Hs2 Hat') as (d2 & p2 & Hat2 & _ & Hp2).
    exists (i + d + d2), p2. split; [done|]. apply Hp2; [apply elem_of_app; by left| |done].
    intros n Hn. destruct (fault_runs_acking c tr c' n k Hs Hn) as [Hn'|Hn']; [|by apply (Hh n)].
    rewrite (idle_at acking n c) in Hn' by done. by apply not_elem_of_nil in Hn'.
Qed.

(** ** Without outages and crashes *)
Section reliable.
Context `{RR : !RedisReliable R}.

Lemma cluster_runs_batch c tr c' n : cluster_steps c tr c' ->
  handled_by n tr ++ at_node unhandled n c' = at_node unhandled n c ++ assigned_by n tr.
Proof.
  induction 1 as [c|c tr c1 tr' c2 Hs _ IH]; [by rewrite app_nil_r|].
  unfold handled_by, assigned_by in *. rewrite !omap_app, <- app_assoc, IH. fold (handled_by n tr) (assigned_by n tr).
  rewrite !app_assoc. f_equal. by apply cluster_step_batch.
Qed.

(** What the nodes have not acknowledged yet. *)
Definition all_unacked (nodes : list cnode) : list nat := nodes ≫= (fun nd => unacked (cn_at nd)).

Lemma all_unacked_at nodes n nd : nodes !! n = Some nd ->
  all_unacked nodes ≡ₚ unacked (cn_at nd) ++ all_unacked (delete n nodes).
Proof. intros Hn. unfold all_unacked. rewrite (delete_Permutation nodes n nd Hn) at 1. done. Qed.

Lemma all_unacked_insert nodes n nd nd' : nodes !! n = Some nd ->
  all_unacked (<[n := nd']> nodes) ≡ₚ unacked (cn_at nd') ++ all_unacked (delete n nodes).
Proof.
  intros Hn. pose proof (lookup_lt_Some _ _ _ Hn) as Hl.
  rewrite (all_unacked_at (<[n := nd']> nodes) n nd') by (by apply list_lookup_insert_eq).
  by rewrite !delete_take_drop, take_insert_ge, drop_insert_lt by lia.
Qed.

(** The pending list: what was pending before, and what the nodes hold. *)
Record settled (i0 : nat) (p : list nat) (c : cluster) (i : nat) (q : list nat) : Prop := {
  st_pos : at_pos b (c_redis c) i q;
  st_pending : q ≡ₚ p ++ all_unacked (c_nodes c);
  st_once : NoDup (all_unacked (c_nodes c));
  st_range : Forall (fun k => i0 <= k < i) (all_unacked (c_nodes c));
  st_old : Forall (fun k => k < i0) p;
  st_le : i0 <= i;
}.

(** A step of a node that leaves the service and the unacknowledged entries alone. *)
Lemma settled_move i0 p nodes r i q n nd nd' :
  settled i0 p (mkCluster nodes r) i q -> nodes !! n = Some nd -> unacked (cn_at nd') = unacked (cn_at nd) ->
  settled i0 p (mkCluster (<[n := nd']> nodes) r) i q.
Proof.
  intros [S1 S2 S3 S4 S5 S6] Hn Hu. cbn [c_nodes c_redis] in *.
  assert (E : all_unacked (<[n := nd']> nodes) ≡ₚ all_unacked nodes).
  { by rewrite (all_unacked_insert nodes n nd), Hu, <- all_unacked_at. }
  split; cbn [c_nodes c_redis]; rewrite ?E; done.
Qed.

Lemma settled_read i0 p nodes r i q n w consumer ctx_err x r' :
  settled i0 p (mkCluster nodes r) i q -> nodes !! n = Some (mkCN w Polling) ->
  XReadGroup (stream b) (group b) consumer 100 r = (x, r') ->
  exists d q', settled i0 p (mkCluster (<[n := mkCN w (after_read ctx_err x)]> nodes) r') (i + d) q' /\
    assigned (assigned_to n x) = seq i d.
Proof.
  intros [[Hg Hl] S2 S3 S4 S5 S6] Hn E. cbn [c_nodes c_redis] in *.
  destruct (xread_group (stream b) (group b) consumer 100 r _ Hg Hl) as (d & _ & Hd & Hg' & Hx).
  destruct (xread_ok (stream b) (group b) consumer 100 r _ Hg ltac:(lia)) as [Hne _].
  pose proof (xread_entries (stream b) (group b) consumer 100 r) as He. rewrite E in *. cbn [fst snd xg_last xg_pending] in *.
  assert (Hids : unacked (after_read ctx_err x) = seq i d /\ XID <$> reply_entries x = seq i d).
  { destruct x as [| |res]; [by subst d|done|]. cbn. by rewrite Hx, xslice_ids. }
  destruct Hids as [Hu Hr]. exists d, (q ++ seq i d). split; [|by rewrite assigned_reply].
  assert (Ea : all_unacked (<[n := mkCN w (after_read ctx_err x)]> nodes) ≡ₚ all_unacked nodes ++ seq i d).
  { rewrite (all_unacked_insert nodes n _ _ Hn), (all_unacked_at nodes n _ Hn). cbn [cn_at]. rewrite Hu. apply Permutation_app_comm. }
  split; cbn [c_nodes c_redis]; rewrite ?Ea; try done.
  - split; [done|by rewrite He].
  - by rewrite S2, app_assoc.
  - apply NoDup_app. split_and!; [done| |apply NoDup_seq]. intros k Hk Hk2%elem_of_seq.
    rewrite Forall_forall in S4. specialize (S4 k Hk). lia.
  - apply Forall_app. split; [eapply Forall_impl; [exact S4|simpl; lia]|]. apply Forall_seq. lia.
  - lia.
Qed.

Lemma settled_ack i0 p nodes r i q n w x todo :
  settled i0 p (mkCluster nodes r) i q -> nodes !! n = Some (mkCN w (Acking x todo)) ->
  exists q', settled i0 p (mkCluster (<[n := mkCN w (Handling todo)]> nodes) (ack_entry b x r)) i q'.
Proof.
  intros [[Hg Hl] S2 S3 S4 S5 S6] Hn. cbn [c_nodes c_redis] in *. exists (filter (fun j => j <> XID x) q).
  pose proof (all_unacked_at nodes n _ Hn) as Ea. pose proof (all_unacked_insert nodes n _ (mkCN w (Handling todo)) Hn) as Eb.
  cbn [cn_at unacked acking unhandled app] in Ea, Eb. rewrite Ea in S2, S3, S4.
  change (unacked (Acking x todo)) with (XID x :: (XID <$> todo)) in S2, S3, S4.
  change (unacked (Handling todo)) with (XID <$> todo) in Eb. cbn [app] in S2, S3, S4. rewrite <- Eb in S2, S3, S4.
  apply NoDup_cons in S3 as [Hout S3]. apply Forall_cons in S4 as [Hx S4].
  pose proof (xack_ok (stream b) (group b) (XID x) r _ Hg) as Hok.
  split; cbn [c_nodes c_redis]; try done.
  - unfold ack_entry. split; [|by rewrite xack_entries].
    destruct (xack_group (stream b) (group b) (XID x) r _ Hg) as [->|[E _]]; [done|congruence].
  - rewrite S2, filter_app, filter_cons_False by auto. f_equiv.
    + apply reflexive_eq, filter_all. eapply Forall_impl; [exact S5|]. simpl. lia.
    + apply reflexive_eq, filter_all. apply Forall_forall. intros k Hk ->. done.
Qed.

Lemma settled_step i0 p c tr c' i q : cluster_step c tr c' -> settled i0 p c i q ->
  exists d q', settled i0 p c' (i + d) q' /\ assigned tr = seq i d.
Proof.
  intros Hs Hst. destruct Hs as [nodes r m w consumer ctx_err x r' Hm E|nodes r m w x todo Hm|nodes r m w x todo Hm|
    nodes r m w Hm|nodes r m|nodes r m w pt w' Hm|nodes r w].
  1: by eapply settled_read.
  2: { destruct (settled_ack i0 p nodes r i q m w x todo Hst Hm) as [q' Hq]. exists 0, q'. by rewrite Nat.add_0_r. }
  all: exists 0, q; rewrite Nat.add_0_r; split; [|done].
  1, 2, 4: by eapply settled_move.
  - destruct Hst. split; cbn [c_redis c_nodes] in *; auto using publish_at.
  - destruct Hst as [S1 S2 S3 S4 S5 S6]. cbn [c_redis c_nodes] in *.
    assert (E : all_unacked (nodes ++ [mkCN w Polling]) = all_unacked nodes) by (unfold all_unacked; by rewrite bind_app, app_nil_r).
    split; cbn [c_redis c_nodes]; rewrite ?E; auto using ensure_at.
Qed.

Lemma settled_runs i0 p c tr c' i q : cluster_steps c tr c' -> settled i0 p c i q ->
  exists d q', settled i0 p c' (i + d) q' /\ assigned tr = seq i d.
Proof.
  intros Hs. revert i q. induction Hs as [c|c tr c1 tr' c2 Hs _ IH]; intros i q Hst.
  { exists 0, q. by rewrite Nat.add_0_r. }
  destruct (settled_step i0 p c tr c1 i q Hs Hst) as (d & q1 & Hst1 & E1).
  destruct (IH _ _ Hst1) as (d' & q2 & Hst2 & E2). exists (d + d'), q2.
  rewrite Nat.add_assoc, seq_app. unfold assigned in *. by rewrite omap_app, E1, E2.
Qed.

Lemma settled_idle c i p : idle c -> at_pos b (c_redis c) i p -> Forall (fun k => k < i) p -> settled i p c i p.
Proof.
  intros Hi Hat Hp. assert (E : all_unacked (c_nodes c) = []).
  { unfold all_unacked. unfold idle in Hi. induction Hi as [|nd nodes Hn _ IH]; [done|]. cbn. by rewrite Hn, IH. }
  split; rewrite ?E, ?app_nil_r; auto. constructor.
Qed.

(** C37 (invariant): a consumer group divides the entries.  However the
    operations of the nodes of a cluster interleave, and whatever is published,
    each entry behind the group's position is assigned to exactly one node, in
    the order of the stream: a message published by one node reaches a single
    node of the cluster (possibly the publisher itself) and no other.  What a
    node hands to its handler, followed by the rest of its batch, is exactly what
    it was assigned, in that order; and pending is what was so before and what
    the nodes have still to acknowledge. *)
Theorem cluster_entry_reaches_one_node c tr c' i p :
  cluster_steps c tr c' -> idle c -> at_pos b (c_redis c) i p -> Forall (fun j => j < i) p ->
  exists i' p', at_pos b (c_redis c') i' p' /\ assigned tr = seq i (i' - i) /\ i <= i' /\
    (forall k n1 n2, Assigned n1 k ∈ tr -> Assigned n2 k ∈ tr -> n1 = n2) /\
    (forall k, i <= k < i' -> exists n, Assigned n k ∈ tr) /\
    (forall n, handled_by n tr ++ at_node unhandled n c' = assigned_by n tr) /\
    p' ≡ₚ p ++ all_unacked (c_nodes c').
Proof.
  intros Hs Hi Hat Hp. destruct (settled_runs i p c tr c' i p Hs (settled_idle c i p Hi Hat Hp)) as (d & q & Hst & E).
  exists (i + d), q. replace (i + d - i) with d by lia. split_and!; [apply Hst|done|lia| | | |apply Hst].
  - intros k n1 n2. apply assigned_once. rewrite E. apply NoDup_seq.
  - intros k Hk. apply elem_of_assigned. rewrite E. apply elem_of_seq. lia.
  - intros n. rewrite (cluster_runs_batch c tr c' n Hs). by rewrite (idle_at unhandled n c).
Qed.
End reliable.
End cluster.

Arguments mkCN {W} _ _.
Arguments mkCluster {R W} _ _.

(** ** The theorems at concrete inputs *)
Module FaultsDemo.
Import DecimalTime BusDemo ListRedis.

Lemma run_trace {R W} step (c : cluster (R := R) (W := W)) tr tr' c' (P : cluster -> Prop) :
  runs step c tr c' -> tr = tr' -> P c' -> exists c', runs step c tr' c' /\ P c'.
Proof. intros Hs -> HP. by exists c'. Qed.

(** Two nodes.  The second reads both entries of the stream; one more is
    published, the first node reads and handles it, and only then does the
    second handle its first entry. *)
Definition two : cluster (R := calm) (W := list string) := mkCluster [mkCN [] Polling; mkCN [] Polling] r2.
Definition tr : list cevent := [Assigned 1 0; Assigned 1 1; Assigned 0 2; Handled 0 2; Handled 1 0].

Lemma two_run : exists c', runs (cluster_step log b) two tr c' /\
  at_node unhandled 1 c' = [1] /\ all_unacked (c_nodes c') = [2; 0; 1] /\
  cn_state <$> c_nodes c' = [["hi"%string]; ["hi"%string]].
Proof.
  eapply run_trace.
  - eapply runs_step; [eapply (cl_read log b _ r2 1 [] "c2" false); [reflexivity|apply surjective_pairing]|].
    eapply runs_step; [apply (cl_publish log b _ _ hello)|].
    eapply runs_step; [eapply (cl_read log b _ _ 0 [] "c1" false); [reflexivity|apply surjective_pairing]|].
    eapply runs_step; [eapply (cl_handle log b _ _ 0 [] _ []); vm_compute; reflexivity|].
    eapply runs_step; [eapply (cl_handle log b _ _ 1 []); vm_compute; reflexivity|]. apply runs_refl.
  - vm_compute. reflexivity.
  - split_and!; vm_compute; reflexivity.
Qed.

(** The reply to the first read is lost; the node crashes and another starts. *)
Definition s0 : state := mkState (streams (inner r1)) (groups (inner r1)) [Lost].
Definition one : cluster (R := state) (W := list string) := mkCluster [mkCN [] Polling] s0.

Lemma lost_run : exists c', runs (fault_step log b) one [] c' /\
  (forall n, at_node unhandled n c' = []) /\ xgroup "chat"%string "node"%string (c_redis c') = Some (mkXG 1 [0]).
Proof.
  eapply run_trace.
  - eapply runs_step; [apply f_step; eapply (cl_read log b _ s0 0 [] "c1" false); [reflexivity|apply surjective_pairing]|].
    eapply runs_step; [eapply (f_crash log b _ _ 0 []); vm_compute; reflexivity|].
    eapply runs_step; [apply f_step, (cl_start log b _ _ [])|]. apply runs_refl.
  - vm_compute. reflexivity.
  - split; [|vm_compute; reflexivity]. intros n. unfold at_node. cbn. by destruct n as [|[|[|n]]].
Qed.
End FaultsDemo.
Import DecimalTime BusDemo ListRedis FaultsDemo.

Lemma cluster_entry_reaches_one_node_witness :
  exists c' p', runs (cluster_step log b) two tr c' /\ at_pos b (c_redis c') 3 p' /\ p' ≡ₚ [2; 0; 1] /\
    handled_by 1 tr ++ at_node unhandled 1 c' = [0; 1] /\
    (forall k, k < 3 -> exists n, Assigned n k ∈ tr).
Proof.
  destruct two_run as (c' & Hs & _ & Hu & _).
  destruct (cluster_entry_reaches_one_node log b two tr c' 0 []) as (i' & p' & Hat & Ea & _ & _ & Hx & Hb & Hp).
  - exact Hs.
  - repeat constructor.
  - split; vm_compute; [reflexivity|lia].
  - constructor.
  - assert (i' = 3) as ->.
    { assert (E : length (assigned tr) = 3) by reflexivity. rewrite Ea, length_seq in E. lia. }
    exists c', p'. split; [exact Hs|]. split; [exact Hat|]. split; [rewrite Hp, Hu; reflexivity|].
    split; [exact (Hb 1)|]. intros k Hk. apply Hx. lia.
Defined.

Lemma lost_entries_stay_lost_witness :
  exists c', runs (fault_step log b) one [] c' /\
    (forall tr2 c2, runs (fault_step log b) c' tr2 c2 ->
       (forall n, Handled n 0 ∉ tr2) /\ exists i2 p2, at_pos b (c_redis c2) i2 p2 /\ 0 ∈ p2).
Proof.
  destruct lost_run as (c' & Hs & Hu & Hg). exists c'. split; [exact Hs|].
  destruct (lost_entries_stay_lost log b one [] c' 0 []) as (i' & p' & Hat & _ & _ & _ & _ & Hlost).
  - exact Hs.
  - repeat constructor.
  - split; vm_compute; [reflexivity|lia].
  - destruct Hat as [Hg' _]. change (xgroup (stream b) (group b) (c_redis c')) with (xgroup "chat"%string "node"%string (c_redis c')) in Hg'.
    rewrite Hg in Hg'. injection Hg' as <- <-. intros tr2 c2 Hs2. apply Hlost.
    + left.
    + lia.
    + intros n. apply not_elem_of_nil.
    + intros n. rewrite Hu. apply not_elem_of_nil.
    + exact Hs2.
Defined.
