(* ===== verification/Wiring.v ===== *)
(** * The wiring of the server: [cmd/server/main.go], the message bus

    [main] connects the hub to the bus: local chat and private messages are
    published, entries of the stream are turned back into hub events.  The last
    theorem follows one private message through the wiring. *)

From S2P Require Import Prelude Utf8 GoStrings Json Envelope Codec.
From S2P Require Import Observe Client Events Hub HubFacts Membership Subscriber Redis Bus.

Local Open Scope Z_scope.

(** The handlers [main] installs: the standard subscribers and two publishers. *)
Inductive main_handler := HSub (h : sub_handler) | PubLocal | PubDirect.

Section wiring.
Context `{TT : TimeText} {R : Type} `{Redis R}.
Context (format_time : Time -> string) (b : Bus).

Record MainWorld := mkMain { chat : World main_handler; redis : R }.

(** The body of a handler's goroutine; a failed type assertion is recovered,
    and the error of [Publish] is ignored. *)
Definition run_main (o1 o2 : list string) (h : main_handler) (e : Event) (w : MainWorld) : MainWorld :=
  match h, e with
  | HSub h, _ => mkMain (run_task format_time o1 o2 h e (chat w)) (redis w)
  | PubLocal, MessageEvent When From Content _ =>
      mkMain (chat w) (Publish b (mkMessage "message" When From "" Content) (redis w)).2
  | PubDirect, DirectMessageEvent When From To Content =>
      mkMain (chat w) (Publish b (mkMessage "direct" When From To Content) (redis w)).2
  | _, _ => w
  end.

(** The subscriptions of the bus goroutine. *)
Definition subscribe_local : GoM (World main_handler) unit := Subscribe EventMessageLocal PubLocal.
Definition subscribe_direct : GoM (World main_handler) unit := Subscribe EventMessageDirect PubDirect.

Definition subscribe_bus : GoM (World main_handler) unit := _ ← subscribe_local; subscribe_direct.

(** The subscriptions of [main] on a new hub, bus included. *)
Definition wire : GoM (World main_handler) unit := _ ← RegisterAll HSub; subscribe_bus.

(** The consumer's callback; it always returns nil. *)
Definition on_message (m : Message) : GoM (World main_handler) unit :=
  if bool_decide (MType m = "message"%string) then BroadcastRemote (MFrom m) (MText m) (MWhen m)
  else if bool_decide (MType m = "direct"%string)
  then Emit (DirectMessageEvent (MWhen m) (MFrom m) (MTo m) (MText m))
  else mret tt.

(** One iteration of [Consume] with that callback. *)
Definition main_poll (consumer : string) (w : MainWorld) : MainWorld :=
  let '(_, _, (c, r)) := consume_poll (fun m c => (on_message m c).2) b consumer false (chat w, redis w) in
  mkMain c r.

(** Runs the goroutines that are waiting, in order. *)
Definition take_tasks (w : MainWorld) : MainWorld :=
  mkMain (mkWorld (heap (chat w)) (hub (chat w)) (w_metrics (chat w)) [] (now (chat w))) (redis w).

Definition run_tasks (o1 o2 : list string) (w : MainWorld) : MainWorld :=
  foldl (fun w he => run_main o1 o2 he.1 he.2 w) (take_tasks w) (tasks (chat w)).

(** The waiting goroutines run, then the consumer polls once. *)
Definition round (consumer : string) (o1 o2 : list string) (w : MainWorld) : MainWorld :=
  main_poll consumer (run_tasks o1 o2 w).

(** ** One private message through the wiring *)

(** The handler of private messages only writes to clients and counts. *)
Lemma direct_task_quiet when from to content o1 o2 (w : World main_handler) :
  world_wf w -> range_order w o1 -> range_order w o2 ->
  let w' := run_task format_time o1 o2 OnDirectMessage (DirectMessageEvent when from to content) w in
  world_wf w' /\ hub w' = hub w /\ tasks w' = tasks w.
Proof.
  intros I H1 H2. unfold run_task. simpl. unfold_go.
  destruct (SendToUser_walk o1 to (text_direct from content) w I H1) as (w1 & -> & I1 & Hh1 & Ht1 & _).
  destruct (existsb (named w to) o1); simpl.
  { split_and!; [exact (world_wf_metric MDirect w1 I1)|done|done]. }
  destruct (SendToUser_walk o2 from (text_offline to) w1 I1) as (w2 & -> & I2 & Hh2 & Ht2 & _);
    [by apply (range_order_hub w)|]. simpl.
  split_and!; [exact (world_wf_metric MDirect w2 I2)|congruence|congruence].
Qed.

Section circulation.
Context `{LW : !TimeTextLaws TT} `{RV : !RedisView R} `{RL : !RedisLaws R} `{RR : !RedisReliable R}.

(** The state in which the goroutines of one private-message event wait and the
    consumer group is up to date. *)
Record pending_direct (o1 o2 : list string) (e : Event) (w : MainWorld) : Prop := {
  pd_wf : world_wf (chat w);
  pd_o1 : range_order (chat w) o1;
  pd_o2 : range_order (chat w) o2;
  pd_tasks : tasks (chat w) = [(HSub OnDirectMessage, e); (PubDirect, e)];
  pd_handlers : emitted (hub (chat w)) e = [(HSub OnDirectMessage, e); (PubDirect, e)];
  pd_group : at_pos b (redis w) (length (xentries (stream b) (redis w))) [];
}.

(** A poll behind one freshly published message hands over just that one. *)
Lemma main_poll_one m v consumer (c : World main_handler) (r : R) :
  at_pos b r (length (xentries (stream b) r)) [] -> jMessage m = Some v -> message_utf8 m ->
  exists r', main_poll consumer (mkMain c (Publish b m r).2) = mkMain (on_message m c).2 r' /\
    at_pos b r' (length (xentries (stream b) r')) [] /\
    xentries (stream b) r' = xentries (stream b) r ++ [{[ "data"%string := Marshal v ]}].
Proof.
  intros Hat Ev Hu. unfold main_poll. cbn [chat redis]. set (r1 := (Publish b m r).2).
  assert (He : xentries (stream b) r1 = xentries (stream b) r ++ [{[ "data"%string := Marshal v ]}]).
  { unfold r1, Publish. rewrite Ev.
    destruct (xadd_entries (stream b) {[ "data"%string := Marshal v ]} r) as [E|[E _]]; [done|].
    rewrite xadd_ok in E. done. }
  destruct (consume_poll_reliable (fun m c => (on_message m c).2) b consumer false c r1 _ []
    (publish_at b r _ [] m Hat)) as (r' & E & Hat' & He'); [done|].
  rewrite He, length_app in E, Hat'. cbn [length] in E, Hat'.
  replace (min 100 _) with 1%nat in E, Hat' by lia.
  exists r'. rewrite E. split_and!; [|rewrite He', He, length_app; done|congruence].
  f_equal. unfold xslice. rewrite drop_app_length. unfold handled, handle_entry, raw_of, imap. cbn [take foldl Values compose].
  rewrite lookup_singleton_eq. cbn [default from_option id]. by rewrite (decode_published m v).
Qed.

Lemma round_republishes when from to content t consumer o1 o2 w :
  let e := DirectMessageEvent when from to content in
  let m := mkMessage "direct" when from to content in
  message_utf8 m -> time_text when = Some t -> pending_direct o1 o2 e w ->
  exists v, jMessage m = Some v /\ pending_direct o1 o2 e (round consumer o1 o2 w) /\
    xentries (stream b) (redis (round consumer o1 o2 w)) =
      xentries (stream b) (redis w) ++ [{[ "data"%string := Marshal v ]}].
Proof.
  intros e m Hu Ht [I H1 H2 Htk Hem Hg].
  destruct (jMessage_some m t Ht) as [v Ev]. exists v. split; [done|]. unfold round, run_tasks. rewrite Htk.
  cbn [foldl fst snd run_main e take_tasks chat redis]. set (c0 := mkWorld _ _ _ [] _).
  assert (I0 : world_wf c0) by (destruct I; by split).
  destruct (direct_task_quiet when from to content o1 o2 c0 I0 H1 H2) as (I1 & Hh1 & Ht1). fold e in I1, Hh1, Ht1 |- *.
  set (c1 := run_task _ _ _ _ _ c0) in *. fold m.
  destruct (main_poll_one m v consumer c1 (redis w) Hg Ev Hu) as (r' & -> & Hg' & He'). cbn [redis].
  split; [|done]. unfold on_message. cbn [MType m].
  rewrite bool_decide_false, bool_decide_true by done. cbn [MWhen MFrom MTo MText m]. rewrite Emit_eval. cbn [snd].
  assert (Hh : hub c1 = hub (chat w)) by (by rewrite Hh1). split; cbn [chat redis].
  - by apply world_wf_spawn.
  - unfold range_order in *. simpl. by rewrite Hh.
  - unfold range_order in *. simpl. by rewrite Hh.
  - simpl. rewrite Ht1, Hh. exact Hem.
  - simpl. by rewrite Hh.
  - done.
Qed.

(** C38 (liveness): a private message never leaves the bus.  Once its event has
    been emitted on a server that is alone on the stream, each round publishes
    it again, consumes its own entry and emits the same event anew: after [k]
    rounds the stream has [k] more copies and the goroutines of the next round
    are waiting. *)
Theorem direct_message_republished_forever when from to content t consumer o1 o2 w k :
  let e := DirectMessageEvent when from to content in
  let m := mkMessage "direct" when from to content in
  message_utf8 m -> time_text when = Some t -> pending_direct o1 o2 e w ->
  exists v, jMessage m = Some v /\
    xentries (stream b) (redis (Nat.iter k (round consumer o1 o2) w)) =
      xentries (stream b) (redis w) ++ replicate k {[ "data"%string := Marshal v ]} /\
    tasks (chat (Nat.iter k (round consumer o1 o2) w)) = [(HSub OnDirectMessage, e); (PubDirect, e)].
Proof.
  intros e m Hu Ht Hp. destruct (jMessage_some m t Ht) as [v Ev]. exists v.
  assert (Hk : pending_direct o1 o2 e (Nat.iter k (round consumer o1 o2) w) /\
    xentries (stream b) (redis (Nat.iter k (round consumer o1 o2) w)) =
      xentries (stream b) (redis w) ++ replicate k {[ "data"%string := Marshal v ]}).
  { induction k as [|k [IHp IHe]]; [by rewrite app_nil_r|]. simpl.
    destruct (round_republishes when from to content t consumer o1 o2 _ Hu Ht IHp) as (v' & Ev' & Hp' & He').
    split; [done|]. fold m in Ev'. assert (v' = v) as -> by congruence.
    rewrite He', IHe, <- app_assoc. f_equal. by rewrite <- replicate_cons_app. }
  destruct Hk as [Hpd He]. split_and!; [done|done|apply Hpd].
Qed.
End circulation.
End wiring.

(** ** The theorem at a concrete input *)
Import ListRedis DecimalTime.

(** The wiring on a new hub gives a well-formed world. *)
Lemma wire_wf t : world_wf (wire (fresh_world t)).2.
Proof.
  set (h := handlers (hub (wire (fresh_world 0)).2)).
  assert (HM : map_Forall (fun _ es => (length es <> 0)%nat /\ NoDup (he_id <$> es) /\
    Forall (fun e => 0 < he_id e <= 10) es) h) by (eapply bool_decide_eq_true_1; vm_compute; reflexivity).
  assert (Hh : handlers (hub (wire (fresh_world t)).2) = h) by (vm_compute; reflexivity).
  assert (Hn : nextHID (hub (wire (fresh_world t)).2) = 10) by (vm_compute; reflexivity). clearbody h.
  split.
  - intros l c Hl. vm_compute in Hl. discriminate.
  - intros k l Hl. vm_compute in Hl. discriminate.
  - intros ty es Hes. rewrite Hh in Hes. destruct (HM ty es Hes) as (H1 & H2 & H3).
    rewrite Hn. split; [intros ->; by apply H1|]. split; [exact H2|exact H3].
  - rewrite Hn. lia.
Qed.

Lemma direct_message_republished_forever_witness :
  let e := DirectMessageEvent 42 "alice" "bob" "hi" in
  let w0 := mkMain (Emit e (wire (fresh_world 1)).2).2 BusDemo.r0 in
  exists v, xentries "chat"%string (redis (Nat.iter 3 (round (TT := DecimalTime.text) (fun _ => ""%string) BusDemo.b "c1" [] []) w0)) =
    replicate 3 {[ "data"%string := Marshal v ]}.
Proof.
  intros e w0.
  destruct (direct_message_republished_forever (LW := DecimalTime.laws) (fun _ => ""%string) BusDemo.b
    42 "alice" "bob" "hi" (bytes "42") "c1" [] [] w0 3) as (v & _ & Hv & _).
  - repeat constructor.
  - vm_compute. reflexivity.
  - unfold w0. rewrite Emit_eval. split; cbn [chat redis snd].
    + apply world_wf_spawn, wire_wf.
    + vm_compute. reflexivity.
    + vm_compute. reflexivity.
    + vm_compute. reflexivity.
    + vm_compute. reflexivity.
    + split; vm_compute; [reflexivity|lia].
  - exists v. exact Hv.
Defined.
