(* ===== verification/Registry.v ===== *)
(** * Command registry: [internal/command/registry.go]

    [Register] files a command under its normalised name and aliases, [Get]
    looks one up, [Execute] parses a line, checks the permission and runs the
    handler.  Handlers are function values to the registry: their type [C] and
    their meaning [run] are parameters, instantiated in Builtin.v. *)

From S2P Require Import Prelude Utf8 GoStrings Observe Client Events Hub.

Definition levelUser : Z := 0.
Definition levelAdmin : Z := 1.

Section registry.
Context {C : Type}.

Record Command := mkCommand {
  CName : string;
  Aliases : list string;
  Help : string;
  MinLevel : Z;
  Handler : C;
}.

Record Registry := mkRegistry {
  byName : gmap string Command;
  clist : list Command;
}.

Definition NewRegistry : Registry := mkRegistry ∅ [].

Inductive reg_error :=
| ErrNilCommand
| ErrEmptyName
| ErrNameSlash (name : string)
| ErrDuplicate (name : string)
| ErrDuplicateAlias (alias : string).

Context {UT : UnicodeTables}.

(** [strings.ToLower(strings.TrimSpace(s))] *)
Definition normalize (s : string) : string := ToLower (TrimSpace s).

(** The alias loop: blank aliases are skipped, the first taken one stops it. *)
Fixpoint add_aliases (cmd : Command) (aliases : list string) (m : gmap string Command)
  : gmap string Command * option reg_error :=
  match aliases with
  | [] => (m, None)
  | item :: rest =>
      let alias := normalize item in
      if bool_decide (alias = EmptyString) then add_aliases cmd rest m
      else match m !! alias with
           | Some _ => (m, Some (ErrDuplicateAlias alias))
           | None => add_aliases cmd rest (<[alias := cmd]> m)
           end
  end.

Definition Register (cmd : option Command) (r : Registry) : option reg_error * Registry :=
  match cmd with
  | None => (Some ErrNilCommand, r)
  | Some cmd =>
      let name := normalize (CName cmd) in
      if bool_decide (name = EmptyString) then (Some ErrEmptyName, r)
      else if Contains name "/" then (Some (ErrNameSlash name), r)
      else match byName r !! name with
           | Some _ => (Some (ErrDuplicate name), r)
           | None =>
               match add_aliases cmd (Aliases cmd) (<[name := cmd]> (byName r)) with
               | (m, Some e) => (Some e, mkRegistry m (clist r))
               | (m, None) => (None, mkRegistry m (clist r ++ [cmd]))
               end
           end
  end.

Definition get_key (name : string) : string := ToLower (TrimPrefix (TrimSpace name) "/").

Definition Get (name : string) (r : Registry) : option Command := byName r !! get_key name.

Definition List_ (r : Registry) : list Command := clist r.

(** ** Execution *)

Record Context_ := mkContext {
  CtxClient : option loc;            (** [None] is a nil client *)
  Args : list string;
  Raw : string;
}.

Inductive cmd_error {E : Type} :=
| ErrNotFound (name : string)
| ErrPermission
| ErrHandler (e : E).
Arguments cmd_error : clear implicits.

Context {H E : Type}.
Abbreviation M := (GoM (World H)).

Definition checkPermission (c : option loc) (need : Z) : M bool :=
  match c with
  | None => mret true
  | Some l =>
      if (need <=? levelUser)%Z then mret true else
      cl ← deref l;
      mret match Meta cl with
           | None => false
           | Some m =>
               match m !! "level"%string with
               | Some s =>
                   if bool_decide (s = EmptyString) then false
                   else match Atoi s with
                        | (v, None) => (need <=? v)%Z
                        | (_, Some _) => false
                        end
               | None => false
               end
           end
  end.

(** What a handler does: it sees the registry (the help command lists it) and
    the context; it returns an optional error. *)
Context (run : Registry -> C -> Context_ -> M (option E)).

Definition Execute (r : Registry) (raw : string) (ctx : Context_) : M (bool * option (cmd_error E)) :=
  let raw := TrimSpace raw in
  if bool_decide (raw = EmptyString) || negb (HasPrefix raw "/") then mret (false, None) else
  match Fields raw with
  | [] => mret (true, None)
  | part0 :: rest =>
      let cmdName := TrimPrefix part0 "/" in
      match Get cmdName r with
      | None => _ ← IncCommandError "not_found"; mret (true, Some (ErrNotFound cmdName))
      | Some cmd =>
          checkPermission (CtxClient ctx) (MinLevel cmd) ≫= fun (ok : bool) =>
          if negb ok then _ ← IncCommandError "permission"; mret (true, Some ErrPermission) else
          let ctx := mkContext (CtxClient ctx) rest (Raw ctx) in
          _ ← IncCommand (CName cmd);
          run r (Handler cmd) ctx ≫= fun (res : option E) =>
          match res with
          | Some e => _ ← IncCommandError "handler"; mret (true, Some (ErrHandler e))
          | None => mret (true, None)
          end
      end
  end.
End registry.

Arguments Command : clear implicits.
Arguments Registry : clear implicits.
Arguments cmd_error : clear implicits.

(** ** Registration *)
Section registration.
Context {C : Type} {UT : UnicodeTables}.
Implicit Types (cmd : Command C) (r : Registry C).

(** The keys of the table are normalised and not empty; a listed command is
    found under its name and under each of its non-blank aliases; the listed
    names are distinct. *)
Record reg_wf r : Prop := {
  rw_keys : forall k cmd, byName r !! k = Some cmd -> k <> EmptyString /\
    exists s, k = normalize s /\ (s = CName cmd \/ s ∈ Aliases cmd);
  rw_name : forall cmd, cmd ∈ clist r -> byName r !! normalize (CName cmd) = Some cmd;
  rw_alias : forall cmd a, cmd ∈ clist r -> a ∈ Aliases cmd -> normalize a <> EmptyString ->
    byName r !! normalize a = Some cmd;
  rw_slash : forall cmd, cmd ∈ clist r -> Contains (normalize (CName cmd)) "/" = false;
  rw_nodup : NoDup (normalize ∘ CName <$> clist r);
}.

(** The alias loop only adds entries for the command, and on success all of
    its non-blank aliases are there. *)
Lemma add_aliases_spec cmd aliases (m : gmap string (Command C)) :
  let '(m', e) := add_aliases cmd aliases m in
  m ⊆ m' /\
  (forall k c, m' !! k = Some c -> m !! k = Some c \/
     (c = cmd /\ k <> EmptyString /\ exists a, a ∈ aliases /\ k = normalize a)) /\
  (e = None -> forall a, a ∈ aliases -> normalize a <> EmptyString -> m' !! normalize a = Some cmd) /\
  (forall err, e = Some err -> exists a, a ∈ aliases /\ err = ErrDuplicateAlias (normalize a) /\
     is_Some (m' !! normalize a)).
Proof.
  revert m. induction aliases as [|a rest IH]; intros m; simpl.
  { split_and!; [done|by left|set_solver|done]. }
  destruct (bool_decide_reflect (normalize a = EmptyString)) as [Ha|Ha].
  - specialize (IH m). destruct (add_aliases cmd rest m) as [m' e]. destruct IH as (H1 & H2 & H3 & H4).
    split_and!; [done| | |].
    + intros k c Hk. destruct (H2 k c Hk) as [?|(? & ? & a' & ? & ?)]; [by left|right].
      split_and!; try done. exists a'. set_solver.
    + intros He a' Hin Hne. apply elem_of_cons in Hin as [->|Hin]; [done|by apply H3].
    + intros err He. destruct (H4 err He) as (a' & ? & ? & ?). exists a'. set_solver.
  - destruct (m !! normalize a) as [c0|] eqn:Em.
    + split_and!; [done|by left|done|]. intros err [= <-]. exists a. rewrite Em. split_and!; [set_solver|done|eauto].
    + specialize (IH (<[normalize a := cmd]> m)).
      destruct (add_aliases cmd rest (<[normalize a := cmd]> m)) as [m' e]. destruct IH as (H1 & H2 & H3 & H4).
      split_and!.
      * etrans; [|exact H1]. by apply insert_subseteq.
      * intros k c Hk. destruct (H2 k c Hk) as [Hi|(? & ? & a' & ? & ?)].
        -- apply lookup_insert_Some in Hi as [[<- <-]|[_ Hi]]; [|by left]. right.
           split_and!; [done|done|]. exists a. set_solver.
        -- right. split_and!; try done. exists a'. set_solver.
      * intros He a' Hin Hne. apply elem_of_cons in Hin as [->|Hin]; [|by apply H3].
        eapply lookup_weaken; [|exact H1]. apply lookup_insert_eq.
      * intros err He. destruct (H4 err He) as (a' & ? & ? & ?). exists a'. set_solver.
Qed.

(** Registration never changes what a taken key means. *)
Lemma Register_mono (cmd : option (Command C)) r : byName r ⊆ byName (Register cmd r).2.
Proof.
  unfold Register. destruct cmd as [cmd|]; [|done].
  destruct (bool_decide _); [done|]. destruct (Contains _ _); [done|].
  destruct (byName r !! normalize (CName cmd)) eqn:E; [done|].
  pose proof (add_aliases_spec cmd (Aliases cmd) (<[normalize (CName cmd) := cmd]> (byName r))) as Hs.
  destruct (add_aliases _ _ _) as [m [e|]]; destruct Hs as (Hm & _); simpl;
    (etrans; [|exact Hm]); by apply insert_subseteq.
Qed.

Lemma reg_wf_new : reg_wf (NewRegistry (C := C)).
Proof. split; simpl; intros; try set_solver. apply NoDup_nil_2. Qed.

Lemma reg_wf_Register (cmd : option (Command C)) r : reg_wf r -> reg_wf (Register cmd r).2.
Proof.
  intros I. pose proof (Register_mono cmd r) as Hmono. unfold Register in *.
  destruct cmd as [cmd|]; [|done].
  destruct (bool_decide_reflect (normalize (CName cmd) = EmptyString)) as [|Hne]; [done|].
  destruct (Contains (normalize (CName cmd)) "/") eqn:Hsl; [done|].
  destruct (byName r !! normalize (CName cmd)) eqn:E; [done|].
  pose proof (add_aliases_spec cmd (Aliases cmd) (<[normalize (CName cmd) := cmd]> (byName r))) as Hs.
  destruct (add_aliases cmd (Aliases cmd) (<[normalize (CName cmd) := cmd]> (byName r))) as [m e].
  destruct Hs as (Hm & Hnew & Hall & _).
  assert (Hkeys : forall k c, m !! k = Some c -> k <> EmptyString /\
    exists s, k = normalize s /\ (s = CName c \/ s ∈ Aliases c)).
  { intros k c Hk. destruct (Hnew k c Hk) as [Hi|(-> & ? & a & ? & ?)]; [|eauto 6].
    apply lookup_insert_Some in Hi as [[<- <-]|[_ Hi]]; [eauto 6|]. by apply (rw_keys r I). }
  assert (Hcmd : m !! normalize (CName cmd) = Some cmd).
  { eapply lookup_weaken; [apply lookup_insert_eq|exact Hm]. }
  destruct e as [e|]; simpl in *; split; simpl; try done.
  - intros c Hc. eapply lookup_weaken; [by apply (rw_name r I)|done].
  - intros c a Hc Ha Hn. eapply lookup_weaken; [by apply (rw_alias r I)|done].
  - apply I.
  - apply I.
  - intros c [Hc| ->%list_elem_of_singleton]%elem_of_app; [|done].
    eapply lookup_weaken; [by apply (rw_name r I)|done].
  - intros c a [Hc| ->%list_elem_of_singleton]%elem_of_app Ha Hn; [|by apply Hall].
    eapply lookup_weaken; [by apply (rw_alias r I)|done].
  - intros c [Hc| ->%list_elem_of_singleton]%elem_of_app; [|done]. by apply (rw_slash r I).
  - rewrite fmap_app. apply NoDup_app. split; [apply I|]. split; [|apply NoDup_singleton].
    intros k Hk ->%list_elem_of_singleton. apply list_elem_of_fmap in Hk as (c & Ek & Hc).
    pose proof (rw_name r I c Hc) as Hb. simpl in Ek. rewrite <- Ek in Hb. congruence.
Qed.
End registration.

(** ** Properties of registration and lookup *)
Section lookup.
Context {C : Type} {UT : UnicodeTables}.
Implicit Types (cmd : Command C) (r : Registry C).

Lemma no_slash_key s : Contains (ToLower s) "/" = false -> TrimPrefix s "/" = s.
Proof.
  intros Hs. apply TrimPrefix_none. apply not_true_iff_false. intros Hp.
  apply HasPrefix_Contains, ToLower_slash in Hp. congruence.
Qed.

Lemma get_key_normalize s : Contains (normalize s) "/" = false -> get_key s = normalize s.
Proof. intros Hs. unfold get_key, normalize in *. by rewrite no_slash_key. Qed.

Lemma get_key_alias s : HasPrefix (TrimSpace s) "/" = false -> get_key s = normalize s.
Proof. intros Hs. unfold get_key, normalize. by rewrite TrimPrefix_none. Qed.

(** Registers the commands one after the other, whatever each call returns. *)
Definition register_all (cmds : list (option (Command C))) (r : Registry C) : Registry C :=
  fold_left (fun r0 c => (Register c r0).2) cmds r.

(** C31 (invariant): after any sequence of Register calls, failed ones included,
    the keys of the table are normalised names or aliases of the command they
    lead to, every listed command is found under its name and each of its
    non-blank aliases, and listed names are distinct and free of '/'. *)
Theorem registry_invariant cmds : reg_wf (register_all cmds NewRegistry).
Proof.
  assert (Hg : forall r, reg_wf r -> reg_wf (register_all cmds r)).
  { induction cmds as [|cmd cmds IH]; intros r Hr; [done|]. simpl. by apply IH, reg_wf_Register. }
  apply Hg, reg_wf_new.
Qed.

(** A successful Register makes the command available under
    its name and under each alias that is not blank and does not start with
    '/', appends it to the list, and keeps every earlier lookup. *)
Theorem register_then_get cmd r r' :
  Register (Some cmd) r = (None, r') ->
  Get (CName cmd) r' = Some cmd /\
  (forall a, a ∈ Aliases cmd -> normalize a <> EmptyString -> HasPrefix (TrimSpace a) "/" = false ->
     Get a r' = Some cmd) /\
  List_ r' = List_ r ++ [cmd] /\
  (forall name c, Get name r = Some c -> Get name r' = Some c).
Proof.
  intros Hr. pose proof (Register_mono (Some cmd) r) as Hmono. rewrite Hr in Hmono. simpl in Hmono.
  unfold Register in Hr. destruct (bool_decide _); [done|].
  destruct (Contains (normalize (CName cmd)) "/") eqn:Hsl; [done|].
  destruct (byName r !! normalize (CName cmd)) eqn:E; [done|].
  pose proof (add_aliases_spec cmd (Aliases cmd) (<[normalize (CName cmd) := cmd]> (byName r))) as Hs.
  destruct (add_aliases _ _ _) as [m [e|]]; [done|]. injection Hr as <-.
  destruct Hs as (Hm & _ & Hall & _). unfold Get, List_. simpl in *. split_and!.
  - rewrite get_key_normalize by done. eapply lookup_weaken; [apply lookup_insert_eq|exact Hm].
  - intros a Ha Hne Hp. rewrite get_key_alias by done. by apply Hall.
  - done.
  - intros name c Hc. by eapply lookup_weaken.
Qed.

(** Register is not atomic.  When it fails on an alias that is
    already taken, the command stays reachable under its name although the call
    returned an error and the command is not listed. *)
Theorem register_alias_conflict_leaves_name cmd r alias r' :
  Register (Some cmd) r = (Some (ErrDuplicateAlias alias), r') ->
  Get (CName cmd) r = None /\ Get (CName cmd) r' = Some cmd /\ List_ r' = List_ r.
Proof.
  intros Hr. unfold Register in Hr. destruct (bool_decide _); [done|].
  destruct (Contains (normalize (CName cmd)) "/") eqn:Hsl; [done|].
  destruct (byName r !! normalize (CName cmd)) eqn:E; [done|].
  pose proof (add_aliases_spec cmd (Aliases cmd) (<[normalize (CName cmd) := cmd]> (byName r))) as Hs.
  destruct (add_aliases _ _ _) as [m [e|]]; [|done]. injection Hr as -> <-.
  destruct Hs as (Hm & _). unfold Get, List_. rewrite get_key_normalize by done. simpl. split_and!; [done| |done].
  eapply lookup_weaken; [apply lookup_insert_eq|exact Hm].
Qed.
End lookup.

(** ** Properties of execution *)
#[local] Arguments add_metric : simpl never.

Section execution.
Context {C H E : Type} {UT : UnicodeTables}.
Context (run : Registry C -> C -> Context_ -> GoM (World H) (option E)).
Implicit Types (cmd : Command C) (r : Registry C) (w : World H).

Lemma slash_byte : (b2z "/"%char < 128)%Z /\ is_space (b2z "/"%char) = false.
Proof. by vm_compute. Qed.

(** A typed name that lower-cases to the name of a listed command finds it. *)
Lemma get_listed r cmd k :
  reg_wf r -> cmd ∈ clist r -> ToLower k = normalize (CName cmd) -> no_space k = true ->
  Get k r = Some cmd.
Proof.
  intros I Hc Hk Hs. unfold Get, get_key. rewrite TrimSpace_no_space by done.
  rewrite no_slash_key by (rewrite Hk; by apply (rw_slash r I)).
  rewrite Hk. by apply (rw_name r I).
Qed.

Lemma parse_line k rest :
  no_space k = true ->
  exists s, TrimSpace ("/" ++ k ++ " " ++ rest) = String "/" s /\
    Fields (String "/" s) = (String "/" k) :: Fields rest.
Proof.
  intros Hk. destruct slash_byte as [H1 H2].
  change ("/" ++ k ++ " " ++ rest)%string with (String "/" (k ++ String " " rest))%string.
  destruct (TrimSpace_head "/"%char (k ++ String " " rest)%string H1 H2) as [s Es].
  exists s. split; [done|]. rewrite <- Es, Fields_TrimSpace.
  change (String "/" (k ++ String " " rest)) with (String "/" k ++ String " " rest)%string.
  apply Fields_cons; [|done]. by rewrite no_space_cons.
Qed.

(** What Execute does after the lookup. *)
Definition dispatch r cmd (args : list string) (ctx : Context_) : GoM (World H) (bool * option (cmd_error E)) :=
  checkPermission (CtxClient ctx) (MinLevel cmd) ≫= fun (ok : bool) =>
  if negb ok then _ ← IncCommandError "permission"; mret (true, Some ErrPermission) else
  _ ← IncCommand (CName cmd);
  run r (Handler cmd) (mkContext (CtxClient ctx) args (Raw ctx)) ≫= fun (res : option E) =>
  match res with
  | Some e => _ ← IncCommandError "handler"; mret (true, Some (ErrHandler e))
  | None => mret (true, None)
  end.

Lemma Execute_line r cmd k rest ctx w :
  no_space k = true -> Get k r = Some cmd ->
  Execute run r ("/" ++ k ++ " " ++ rest) ctx w = dispatch r cmd (Fields rest) ctx w.
Proof.
  intros Hs Hg. unfold Execute. destruct (parse_line k rest Hs) as (s & Et & Ef). rewrite Et, Ef.
  simpl. by rewrite TrimPrefix_slash, Hg.
Qed.

(** C32 (functional): typing "/name args" runs the command listed under that
    name, in any letter case, with the words of the argument text as its
    arguments, once the permission check passes: the use is counted, the
    handler's outcome is the outcome of the call, and a handler error is
    counted and returned. *)
Theorem execute_runs_listed_command r cmd k rest ctx w :
  reg_wf r -> cmd ∈ clist r -> ToLower k = normalize (CName cmd) -> no_space k = true ->
  checkPermission (CtxClient ctx) (MinLevel cmd) w = (Ret true, w) ->
  Execute run r ("/" ++ k ++ " " ++ rest) ctx w =
    match run r (Handler cmd) (mkContext (CtxClient ctx) (Fields rest) (Raw ctx))
            (add_metric (MCommand (CName cmd)) w) with
    | (Ret None, w') => (Ret (true, None), w')
    | (Ret (Some e), w') => (Ret (true, Some (ErrHandler e)), add_metric (MCommandError "handler") w')
    | (Panic p, w') => (Panic p, w')
    end.
Proof.
  intros I Hc Hk Hs Hp. rewrite (Execute_line r cmd) by (done || by apply get_listed).
  unfold dispatch. unfold mbind at 1, GoM_bind at 1. rewrite Hp. simpl. unfold IncCommand. unfold_go.
  match goal with |- context [run ?a ?b ?c ?d] => by destruct (run a b c d) as [[[e|]|p] w'] end.
Qed.

(** A denied command does nothing: the only trace is the error
    counter, the handler is not run. *)
Theorem execute_denied r cmd k rest ctx w :
  reg_wf r -> cmd ∈ clist r -> ToLower k = normalize (CName cmd) -> no_space k = true ->
  checkPermission (CtxClient ctx) (MinLevel cmd) w = (Ret false, w) ->
  Execute run r ("/" ++ k ++ " " ++ rest) ctx w =
    (Ret (true, Some ErrPermission), add_metric (MCommandError "permission") w).
Proof.
  intros I Hc Hk Hs Hp. rewrite (Execute_line r cmd) by (done || by apply get_listed).
  unfold dispatch, mbind at 1, GoM_bind at 1. by rewrite Hp.
Qed.

(** Text that is blank or does not start with '/' after
    trimming is left to the chat: not handled, no error, nothing changed; and a
    line that does start with '/' always has a first word, so it is always
    handled (the empty-split branch is dead). *)
Theorem execute_handles_exactly_slash_lines r raw ctx w :
  (HasPrefix (TrimSpace raw) "/" = false -> Execute run r raw ctx w = (Ret (false, None), w)) /\
  (HasPrefix (TrimSpace raw) "/" = true ->
     Fields (TrimSpace raw) <> [] /\
     forall b e w', Execute run r raw ctx w = (Ret (b, e), w') -> b = true).
Proof.
  unfold Execute. split.
  - intros Hp. rewrite Hp. by rewrite orb_true_r.
  - intros Hp. pose proof Hp as Hp'. apply HasPrefix_slash in Hp' as [s Es].
    rewrite Hp, Es. destruct slash_byte as [H1 H2]. pose proof (Fields_nonempty "/" s H1 H2) as Hf.
    split; [done|]. simpl. destruct (Fields (String "/" s)) as [|p0 rest]; [done|].
    intros b e w'. destruct (Get (TrimPrefix p0 "/") r) as [cmd|]; [|unfold_go; naive_solver].
    unfold mbind at 1, GoM_bind at 1. destruct (checkPermission _ _ w) as [[ok|p] w1]; [|done].
    destruct ok; simpl; unfold_go; [|naive_solver].
    unfold IncCommand. unfold_go.
    match goal with |- context [run ?x ?y ?z ?t] => destruct (run x y z t) as [[[e0|]|p] w2] end;
      naive_solver.
Qed.

(** The level a client carries, if its metadata holds a readable number. *)
Definition level_of (cl : Client) : option Z :=
  match Meta cl with
  | Some m => match m !! "level"%string with
              | Some s => match Atoi s with (v, None) => Some v | _ => None end
              | None => None
              end
  | None => None
  end.

Lemma checkPermission_eval l cl need w :
  heap w !! l = Some cl ->
  checkPermission (Some l) need w =
    (Ret ((need <=? levelUser)%Z ||
          match level_of cl with Some v => (need <=? v)%Z | None => false end), w).
Proof.
  intros Hl. unfold checkPermission, level_of. destruct (need <=? levelUser)%Z; [done|]. unfold_go.
  unfold deref. unfold_go. rewrite Hl. destruct (Meta cl) as [m|]; [|done].
  destruct (m !! "level"%string) as [s|]; [|done].
  destruct (bool_decide_reflect (s = EmptyString)) as [->|]; [done|].
  by destruct (Atoi s) as [v [e|]].
Qed.

(** The permission check.  User commands are open to all; an
    admin command needs a client whose metadata holds a number of at least the
    command's level; a missing or unreadable level denies; the check changes
    nothing. *)
Theorem check_permission_spec l cl need w :
  heap w !! l = Some cl ->
  (need <= levelUser -> checkPermission (Some l) need w = (Ret true, w))%Z /\
  (levelUser < need -> checkPermission (Some l) need w = (Ret true, w) <->
     exists v, level_of cl = Some v /\ need <= v)%Z /\
  (exists b, checkPermission (Some l) need w = (Ret b, w)).
Proof.
  intros Hl. rewrite (checkPermission_eval l cl) by done. split_and!; [..|eauto].
  - intros Hn. by rewrite (proj2 (Z.leb_le _ _) Hn).
  - intros Hn. rewrite (proj2 (Z.leb_gt _ _) Hn). simpl. destruct (level_of cl) as [v|].
    + split; [intros [= Hv]; exists v; split; [done|by apply Z.leb_le]|].
      intros (v' & [= <-] & Hv). by rewrite (proj2 (Z.leb_le _ _) Hv).
    + split; [done|]. by intros (v & ? & _).
Qed.
End execution.

(** ** The theorems at concrete inputs

    One administrator command with an alias; lower-casing beyond ASCII does
    nothing. *)
Module RegDemo.
#[export] Instance tables : UnicodeTables := {| unicode_lower r := r |}.
Local Open Scope string_scope.

Definition shut : Command unit := mkCommand "Shut" ["sd"] "stop" levelAdmin tt.
Definition clash : Command unit := mkCommand "other" ["SD"] "stop" levelUser tt.
Definition reg : Registry unit := (Register (Some shut) NewRegistry).2.
Definition run (r : Registry unit) (h : unit) (ctx : Context_) : GoM (World unit) (option unit) := mret None.
Definition user : Client := mkClient "1" "alice" (Some ∅) [] 4 false false false.
Definition world : World unit := mkWorld {[ 0%nat := user ]} NewHub [] [] 5%Z.

Lemma reg_ok : reg_wf reg.
Proof. apply reg_wf_Register, reg_wf_new. Qed.
End RegDemo.
Import RegDemo.

Lemma register_then_get_witness : Get "SHUT" reg = Some shut /\ Get " sd " reg = Some shut.
Proof.
  destruct (register_then_get shut NewRegistry reg) as (H1 & H2 & _); [vm_compute; reflexivity|].
  split; [exact H1|]. rewrite <- (H2 "sd"%string); [vm_compute; reflexivity|set_solver|vm_compute; discriminate|vm_compute; reflexivity].
Defined.

Lemma register_alias_conflict_leaves_name_witness :
  let r' := (Register (Some clash) reg).2 in Get "other" r' = Some clash /\ List_ r' = List_ reg.
Proof.
  intros r'. destruct (register_alias_conflict_leaves_name clash reg "sd" r') as (_ & H2 & H3).
  - vm_compute. reflexivity.
  - split; [exact H2|exact H3].
Defined.

Lemma execute_runs_listed_command_witness :
  exists w', Execute run reg "/shut now please" (mkContext None [] "") world = (Ret (true, None), w').
Proof.
  eexists. rewrite (execute_runs_listed_command run reg shut "shut" "now please" (mkContext None [] "") world).
  - reflexivity.
  - apply reg_ok.
  - vm_compute. left.
  - vm_compute. reflexivity.
  - vm_compute. reflexivity.
  - reflexivity.
Defined.

Lemma execute_denied_witness :
  Execute run reg "/shut now" (mkContext (Some 0%nat) [] "") world =
    (Ret (true, Some ErrPermission), add_metric (MCommandError "permission") world).
Proof.
  apply (execute_denied run reg shut "shut" "now" (mkContext (Some 0%nat) [] "") world).
  - apply reg_ok.
  - vm_compute. left.
  - vm_compute. reflexivity.
  - vm_compute. reflexivity.
  - vm_compute. reflexivity.
Defined.
