(* ===== verification/Builtin.v ===== *)
(** * Built-in chat commands: [internal/command/builtin.go]

    Each handler closure is a constructor of [builtin]; its body is
    the definition [cmd_...] of that name and [run_builtin] calls it.  The walk orders of the hub's client map are an argument.  The
    theorems cover the wiring of the ten commands, the privilege commands, and
    the panic of an administrator who kicks himself. *)

From S2P Require Import Prelude Utf8 GoStrings Observe Client Events Hub HubFacts Membership Registry.

Inductive builtin :=
| CmdHelp | CmdQuit | CmdWho | CmdAuth | CmdKick | CmdBan | CmdMsg | CmdNotice | CmdPing | CmdSendfile.

Inductive handler_error :=
| UsageAuth | BadLevel (s : string)
| UsageKick
| UsageBan | BadMinutes
| UsageMsg | UsageNotice
| UsageSendfile | BadSize (e : scan_error).

Section builtin.
Context {H : Type} {UT : UnicodeTables}.
Abbreviation M := (GoM (World H)).
Local Open Scope string_scope.

(** [ctx.Client]: using a nil client dereferences a nil pointer. *)
Definition ctx_client (ctx : Context_) : M loc :=
  match CtxClient ctx with Some l => mret l | None => panic nil_deref end.

Definition ctx_send (ctx : Context_) (m : string) : M unit := l ← ctx_client ctx; Send l m.

Definition ok {A} : M (option A) := mret None.
Definition fail {A} (e : A) : M (option A) := mret (Some e).

Definition help_line (c : Command builtin) : string :=
  let aliases := match Aliases c with
                 | [] => ""
                 | _ => " (别名: " ++ Join (Aliases c) ", " ++ ")"
                 end in
  "/" ++ CName c ++ " - " ++ Help c ++ aliases.

Definition nl : string := String (ascii_of_nat 10) "".

(** Nanoseconds in a minute. *)
Definition Minute : Z := 60000000000.

(** [int(d.Minutes())]; exact for the whole-minute durations the handler
    computes without overflow. *)
Definition minutes_int (d : Z) : Z := Z.quot d Minute.

(** *** The handlers, one per command *)

Definition cmd_help (r : Registry builtin) (ctx : Context_) : M (option handler_error) :=
  _ ← ctx_send ctx (Join (help_line <$> List_ r) nl); ok.

Definition cmd_quit (ctx : Context_) : M (option handler_error) :=
  _ ← ctx_send ctx "再见！";
  l ← ctx_client ctx; _ ← UnregisterClient l; ok.

Definition cmd_who (order : list string) (ctx : Context_) : M (option handler_error) :=
  names ← ListNames order;
  _ ← ctx_send ctx ("在线用户：" ++ Join names ","); ok.

Definition cmd_auth (ctx : Context_) : M (option handler_error) :=
  match Args ctx with
  | [a] =>
      l ← ctx_client ctx;
      c ← deref l;
      _ ← (match Meta c with None => store l (set_meta c (Some ∅)) | Some _ => mret tt end);
      if negb (bool_decide (a = "0")) && negb (bool_decide (a = "1")) then fail (BadLevel a) else
      c ← deref l;
      _ ← store l (set_meta c (match Meta c with Some m => Some (<["level" := a]> m) | None => None end));
      _ ← ctx_send ctx ("已设置权限等级为: " ++ a); ok
  | _ => fail UsageAuth
  end.

Definition cmd_kick (order : list string) (ctx : Context_) : M (option handler_error) :=
  match Args ctx with
  | [name] =>
      KickByName order name ≫= fun (found : bool) =>
      if found then _ ← ctx_send ctx ("已踢出: " ++ name); ok
      else _ ← ctx_send ctx ("用户不在线: " ++ name); ok
  | _ => fail UsageKick
  end.

Definition cmd_ban (ctx : Context_) : M (option handler_error) :=
  match Args ctx with
  | [] => fail UsageBan
  | name :: rest =>
      let finish (d : Z) : M (option handler_error) :=
        _ ← BanFor name d;
        if (d =? 0)%Z then _ ← ctx_send ctx ("已永久封禁: " ++ name); ok
        else _ ← ctx_send ctx ("已封禁 " ++ name ++ " " ++ Itoa (minutes_int d) ++ " 分钟"); ok in
      match rest with
      | [] => finish 0%Z
      | arg :: _ =>
          match Sscan_int arg with
          | inr _ => fail BadMinutes
          | inl mins => if (mins <? 0)%Z then fail BadMinutes else finish (wrap64 (mins * Minute))
          end
      end
  end.

Definition cmd_msg (ctx : Context_) : M (option handler_error) :=
  match Args ctx with
  | to :: (_ :: _) as rest =>
      let text := Join (List.tl (Args ctx)) " " in
      l ← ctx_client ctx; c ← deref l; w ← get;
      _ ← Emit (DirectMessageEvent (now w) (Name c) to text); ok
  | _ => fail UsageMsg
  end.

Definition cmd_notice (ctx : Context_) : M (option handler_error) :=
  match Args ctx with
  | level :: (_ :: _) as rest =>
      let text := Join (List.tl (Args ctx)) " " in
      w ← get; _ ← Emit (SystemNoticeEvent (now w) level text); ok
  | _ => fail UsageNotice
  end.

Definition cmd_ping (ctx : Context_) : M (option handler_error) :=
  let detail := Join (Args ctx) " " in
  l ← ctx_client ctx; c ← deref l; w ← get;
  _ ← Emit (HeartbeatEvent (now w) (ID c) detail);
  _ ← ctx_send ctx "pong"; ok.

Definition cmd_sendfile (ctx : Context_) : M (option handler_error) :=
  match Args ctx with
  | to :: name :: sizeStr :: rest =>
      let mime := match rest with m :: _ => m | [] => "" end in
      match Sscan_int sizeStr with
      | inr e => fail (BadSize e)
      | inl size =>
          l ← ctx_client ctx; c ← deref l; w ← get;
          _ ← Emit (FileTransferEvent (now w) (Name c) to name size mime "");
          _ ← ctx_send ctx ("文件事件已提交: " ++ name); ok
      end
  | _ => fail UsageSendfile
  end.

(** Calling a handler; [help] closes over the registry. *)
Definition run_builtin (order : list string) (r : Registry builtin) (h : builtin) (ctx : Context_)
  : M (option handler_error) :=
  match h with
  | CmdHelp => cmd_help r ctx
  | CmdQuit => cmd_quit ctx
  | CmdWho => cmd_who order ctx
  | CmdAuth => cmd_auth ctx
  | CmdKick => cmd_kick order ctx
  | CmdBan => cmd_ban ctx
  | CmdMsg => cmd_msg ctx
  | CmdNotice => cmd_notice ctx
  | CmdPing => cmd_ping ctx
  | CmdSendfile => cmd_sendfile ctx
  end.

(** The commands, in the order they are registered. *)
Definition builtin_commands : list (Command builtin) :=
  [ mkCommand "help" [] "查看帮助" levelUser CmdHelp;
    mkCommand "quit" [] "退出聊天室" levelUser CmdQuit;
    mkCommand "who" [] "查看在线用户" levelUser CmdWho;
    mkCommand "auth" [] "授权设置: /auth <level> (0 用户, 1 管理员)" levelUser CmdAuth;
    mkCommand "kick" [] "踢人: /kick <name>" levelAdmin CmdKick;
    mkCommand "ban" [] "封禁: /ban <name> [minutes] (默认永久)" levelAdmin CmdBan;
    mkCommand "msg" [] "私信: /msg <to> <text>" levelUser CmdMsg;
    mkCommand "notice" [] "系统通知广播: /notice <level> <text>" levelUser CmdNotice;
    mkCommand "ping" [] "发送心跳: /ping [detail]" levelUser CmdPing;
    mkCommand "sendfile" [] "发送文件: /sendfile <to|*> <name> <size> [mime]" levelUser CmdSendfile ].

(** Registers in order and stops at the first error. *)
Fixpoint register_seq (cmds : list (Command builtin)) (r : Registry builtin)
  : option reg_error * Registry builtin :=
  match cmds with
  | [] => (None, r)
  | c :: rest => match Register (Some c) r with
                 | (Some e, r') => (Some e, r')
                 | (None, r') => register_seq rest r'
                 end
  end.

Definition RegisterBuiltins (r : Registry builtin) : option reg_error * Registry builtin :=
  register_seq builtin_commands r.

Definition builtins : Registry builtin := (RegisterBuiltins NewRegistry).2.

Lemma register_seq_wf cmds r : reg_wf r -> reg_wf (register_seq cmds r).2.
Proof.
  revert r. induction cmds as [|c cmds IH]; intros r Hr; [done|]. cbn [register_seq].
  pose proof (reg_wf_Register (Some c) r Hr) as Hw.
  destruct (Register (Some c) r) as [[e|] r']; [exact Hw|]. by apply IH.
Qed.

Lemma builtins_wf : reg_wf builtins.
Proof. apply register_seq_wf, reg_wf_new. Qed.

Lemma RegisterBuiltins_ok : RegisterBuiltins NewRegistry = (None, builtins) /\ clist builtins = builtin_commands.
Proof. split; vm_compute; reflexivity. Qed.

(** RegisterBuiltins on a new registry succeeds and lists the
    ten commands in order; only kick and ban require the admin level. *)
Lemma builtins_listed :
  (CName <$> List_ builtins) =
    ["help"; "quit"; "who"; "auth"; "kick"; "ban"; "msg"; "notice"; "ping"; "sendfile"] /\
  (forall c, c ∈ List_ builtins -> MinLevel c = levelAdmin <-> CName c = "kick" \/ CName c = "ban").
Proof.
  destruct RegisterBuiltins_ok as [_ H2]. unfold List_. rewrite H2. split; [done|].
  intros c Hc. unfold builtin_commands in Hc.
  repeat (apply elem_of_cons in Hc as [->|Hc];
    [split; [intros E; first [discriminate E|by left|by right] | intros [E|E]; first [discriminate E|reflexivity]]|]).
  by apply elem_of_nil in Hc.
Qed.

(** ** The privilege commands *)

Abbreviation exec order := (Execute (run_builtin order) builtins).

Lemma get_builtin k cmd : cmd ∈ builtin_commands -> k = CName cmd -> Get k builtins = Some cmd.
Proof.
  intros Hc ->. unfold builtin_commands in Hc.
  repeat (apply elem_of_cons in Hc as [->|Hc]; [vm_compute; reflexivity|]). by apply elem_of_nil in Hc.
Qed.

Lemma no_space_cname cmd : cmd ∈ builtin_commands -> no_space (CName cmd) = true.
Proof.
  intros Hc. unfold builtin_commands in Hc.
  repeat (apply elem_of_cons in Hc as [->|Hc]; [vm_compute; reflexivity|]). by apply elem_of_nil in Hc.
Qed.

(** A line "/name rest" for a built-in command is dispatched to it. *)
Lemma exec_line order cmd rest ctx (w : World H) :
  cmd ∈ builtin_commands ->
  exec order ("/" ++ CName cmd ++ " " ++ rest) ctx w =
    dispatch (run_builtin order) builtins cmd (Fields rest) ctx w.
Proof.
  intros Hc. apply Execute_line; [by apply no_space_cname|by apply get_builtin].
Qed.

(** The client after a successful "/auth a". *)
Definition with_level (a : string) (c : Client) : Client :=
  set_meta c (Some (<["level" := a]> match Meta c with Some m => m | None => ∅ end)).

Lemma run_auth_eval order r l c a raw (w : World H) :
  heap w !! l = Some c -> out_closed c = false -> a = "0" \/ a = "1" ->
  run_builtin order r CmdAuth (mkContext (Some l) [a] raw) w =
    (Ret None, after_send l (with_level a c) ("已设置权限等级为: " ++ a) (set_heap <[l := with_level a c]> w)).
Proof.
  intros Hl Ho Ha.
  assert (Hb : negb (bool_decide (a = "0")) && negb (bool_decide (a = "1")) = false).
  { destruct Ha as [->| ->]; reflexivity. }
  unfold run_builtin, cmd_auth. cbn [Args]. rewrite Hb. unfold ctx_send, ctx_client, store, ok. unfold_go. cbn [CtxClient].
  rewrite (deref_eval l c) by done. unfold with_level.
  destruct (Meta c) as [m|] eqn:Em; cbn beta iota.
  - rewrite (deref_eval l c) by done. rewrite Em.
    rewrite (Send_open_eval l (set_meta c (Some (<["level" := a]> m)))); [done|apply lookup_insert_eq|done].
  - rewrite (deref_eval l (set_meta c (Some ∅))) by apply lookup_insert_eq. cbn [Meta set_meta].
    replace (set_heap <[l := set_meta (set_meta c (Some ∅)) (Some (<["level" := a]> ∅))]>
      (set_heap <[l := set_meta c (Some ∅)]> w))
      with (set_heap <[l := set_meta c (Some (<["level" := a]> (∅ : gmap string string)))]> w)
      by (unfold set_heap; simpl; f_equal; by rewrite insert_insert_eq).
    rewrite (Send_open_eval l (set_meta c (Some (<["level" := a]> ∅)))); [done|apply lookup_insert_eq|done].
Qed.

(** Dispatch of a command whose permission check passes. *)
Lemma dispatch_ok order cmd args l raw a (w : World H) :
  checkPermission (Some l) (MinLevel cmd) w = (Ret true, w) ->
  dispatch (run_builtin order) builtins cmd args (mkContext (Some l) a raw) w =
    match run_builtin order builtins (Handler cmd) (mkContext (Some l) args raw)
            (add_metric (MCommand (CName cmd)) w) with
    | (Ret None, w') => (Ret (true, None), w')
    | (Ret (Some e), w') => (Ret (true, Some (ErrHandler e)), add_metric (MCommandError "handler") w')
    | (Panic p, w') => (Panic p, w')
    end.
Proof.
  intros Hp. unfold dispatch, IncCommand. cbn [CtxClient Raw]. unfold_go. rewrite Hp. cbn [negb].
  by destruct (run_builtin order builtins (Handler cmd) (mkContext (Some l) args raw)
    (add_metric (MCommand (CName cmd)) w)) as [[[e|]|p] w'].
Qed.

(** "/auth 1" is open to everybody and makes the caller an
    administrator: an open client that sends it gets no error and passes the
    admin check afterwards. *)
Theorem auth_grants_admin order l c (w : World H) raw :
  heap w !! l = Some c -> out_closed c = false ->
  exists w', exec order "/auth 1" (mkContext (Some l) [] raw) w = (Ret (true, None), w') /\
    checkPermission (Some l) levelAdmin w' = (Ret true, w').
Proof.
  intros Hl Ho.
  pose proof (exec_line order (mkCommand "auth" [] "授权设置: /auth <level> (0 用户, 1 管理员)" levelUser CmdAuth)
    "1" (mkContext (Some l) [] raw) w ltac:(set_solver)) as E. cbn [CName] in E.
  change ("/" ++ "auth" ++ " " ++ "1") with "/auth 1" in E. rewrite E. clear E.
  rewrite dispatch_ok by done. cbn [CName Handler]. change (Fields "1") with ["1"].
  set (w0 := add_metric (MCommand "auth") w).
  rewrite (run_auth_eval order builtins l c "1") by (done || by right).
  eexists. split; [reflexivity|].
  rewrite (checkPermission_eval l (deliver ("已设置权限等级为: " ++ "1") (with_level "1" c))).
  - unfold level_of, deliver, with_level. destruct (_ <? _)%nat; simpl; rewrite lookup_insert_eq; reflexivity.
  - rewrite after_send_heap by apply lookup_insert_eq. by rewrite decide_True.
Qed.

(** "/kick name" from an online administrator returns normally for
    everybody else's name, and panics with a send on a closed channel when the
    name is the administrator's own: the client is closed by the kick before
    the confirmation is sent to it. *)
Theorem kick_panics_exactly_on_self order l c v name raw (w : World H) :
  world_wf w -> range_order w order -> heap w !! l = Some c -> is_online w l c = true ->
  level_of c = Some v -> (levelAdmin <= v)%Z -> no_space name = true -> name <> "" ->
  (exec order ("/kick " ++ name) (mkContext (Some l) [] raw) w).1 =
    if bool_decide (Name c = name) then Panic send_on_closed else Ret (true, None).
Proof.
  intros I Ho Hl Hon Hv Hlev Hns Hne.
  pose proof (exec_line order (mkCommand "kick" [] "踢人: /kick <name>" levelAdmin CmdKick)
    name (mkContext (Some l) [] raw) w ltac:(set_solver)) as E. cbn [CName] in E.
  change ("/" ++ "kick" ++ " " ++ name) with ("/kick " ++ name) in E. rewrite E. clear E.
  rewrite dispatch_ok; cycle 1.
  { rewrite (checkPermission_eval l c), Hv by done. cbn [MinLevel]. rewrite (proj2 (Z.leb_le _ _) Hlev). done. }
  cbn [CName Handler]. rewrite Fields_one by done. unfold run_builtin, cmd_kick. cbn [Args].
  set (w0 := add_metric (MCommand "kick") w).
  assert (I0 : world_wf w0) by (by apply world_wf_metric).
  pose proof (kick_loop order name false w0 I0 (range_order_NoDup w order Ho)) as [H1 H2 H3 H4 _ _].
  unfold KickByName. unfold mbind at 1, GoM_bind at 1.
  rewrite (surjective_pairing (Range _ _ _ _)), H1.
  set (w1 := (Range order _ false w0).2) in *. clearbody w1.
  specialize (H4 l). rewrite (kicked_at_spec w0 order name l c I0 Ho Hl) in H4.
  change (is_online w0 l c) with (is_online w l c) in H4. change (heap w0) with (heap w) in H4.
  rewrite Hon, Hl in H4. cbn [andb] in H4.
  unfold ctx_send, ctx_client, ok. unfold_go. cbn [CtxClient].
  destruct (bool_decide (Name c = name)).
  - assert (Hp : forall m, Send l m w1 = (Panic send_on_closed, w1)).
    { intros m. rewrite (Send_eval l (client_close c)) by done. unfold client_send, client_close.
      destruct (closeOnce c) eqn:Ec; [|done]. pose proof (ww_heap w I l c Hl) as [_ _ [E1 _]]. by rewrite E1, Ec. }
    destruct (false || _); by rewrite Hp.
  - apply bool_decide_eq_true in Hon. destruct (ww_clients w I _ _ Hon) as (c' & Hl' & _ & Hop).
    assert (c' = c) as -> by congruence.
    destruct (false || _); by rewrite (Send_open_eval l c).
Qed.

(** The world after "/ban name ...". *)
Lemma run_ban_banned order r l c name arg rest mins raw (w : World H) :
  heap w !! l = Some c -> out_closed c = false -> Sscan_int arg = inl mins -> (0 <= mins)%Z ->
  let d := wrap64 (mins * Minute) in
  exists w', run_builtin order r CmdBan (mkContext (Some l) (name :: arg :: rest) raw) w = (Ret None, w') /\
    banned (hub w') = <[name := if (d <=? 0)%Z then 0%Z else (now w + d)%Z]> (banned (hub w)).
Proof.
  intros Hl Ho Hs Hm d. unfold run_builtin, cmd_ban. cbn [Args]. rewrite Hs, (proj2 (Z.ltb_ge _ _) Hm).
  fold d. unfold BanFor, ctx_send, ctx_client, ok. unfold_go. cbn [CtxClient].
  destruct (d =? 0)%Z; rewrite (Send_open_eval l c) by done; eexists; (split; [reflexivity|]);
    unfold after_send; by destruct (full c).
Qed.

(** "/ban name minutes" bans until exactly now + minutes for up to
    153722867 minutes; from 153722868 to 307445734 the 64-bit product of
    minutes and nanoseconds is negative and the ban becomes permanent. *)
Theorem ban_minutes_window order r l c name arg mins raw (w : World H) :
  heap w !! l = Some c -> out_closed c = false -> Sscan_int arg = inl mins -> (0 < mins <= 307445734)%Z ->
  exists w', run_builtin order r CmdBan (mkContext (Some l) [name; arg] raw) w = (Ret None, w') /\
    banned (hub w') !! name =
      Some (if (mins <=? 153722867)%Z then (now w + mins * 60000000000)%Z else 0%Z).
Proof.
  intros Hl Ho Hs Hm.
  destruct (run_ban_banned order r l c name arg [] mins raw w Hl Ho Hs ltac:(lia)) as (w' & E & Hb).
  exists w'. split; [done|]. rewrite Hb, lookup_insert_eq. f_equal. unfold wrap64, Minute.
  destruct (Z.leb_spec mins 153722867).
  - rewrite Z.mod_small by lia. rewrite (proj2 (Z.leb_gt _ _)) by lia. lia.
  - rewrite <- (Z.mod_unique (mins * 60000000000 + 9223372036854775808) 18446744073709551616 1
      (mins * 60000000000 + 9223372036854775808 - 18446744073709551616)) by lia.
    by rewrite (proj2 (Z.leb_le _ _)) by lia.
Qed.

(** "/quit" says goodbye and leaves: the farewell is the last
    message in the client's buffer when there is room, the client is closed and
    off line, and nobody else is affected. *)
Theorem quit_leaves order l c raw (w : World H) :
  world_wf w -> heap w !! l = Some c -> is_online w l c = true ->
  exists w', exec order "/quit " (mkContext (Some l) [] raw) w = (Ret (true, None), w') /\
    clients (hub w') = delete (ID c) (clients (hub w)) /\
    heap w' = <[l := client_close (deliver "再见！" c)]> (heap w).
Proof.
  intros I Hl Hon. apply bool_decide_eq_true in Hon.
  destruct (ww_clients w I _ _ Hon) as (c' & Hl' & _ & Hop). assert (c' = c) as -> by congruence.
  pose proof (exec_line order (mkCommand "quit" [] "退出聊天室" levelUser CmdQuit)
    "" (mkContext (Some l) [] raw) w ltac:(set_solver)) as E. cbn [CName] in E.
  change ("/" ++ "quit" ++ " " ++ "") with "/quit " in E. rewrite E. clear E.
  rewrite dispatch_ok by done. cbn [CName Handler]. unfold run_builtin, cmd_quit, ctx_send, ctx_client, ok.
  unfold_go. cbn [CtxClient]. set (w0 := add_metric (MCommand "quit") w).
  rewrite (Send_open_eval l c) by done. set (d := deliver "再见！" c).
  set (w1 := after_send l c "再见！" w0).
  assert (Hl1 : heap w1 !! l = Some d).
  { unfold w1. rewrite after_send_heap by done. by rewrite decide_True. }
  assert (Hid : ID d = ID c) by (unfold d, deliver; by destruct (_ <? _)%nat).
  assert (Hc1 : clients (hub w1) = clients (hub w)) by (unfold w1, after_send; by destruct (full c)).
  rewrite (UnregisterClient_eval l d l) by (done || by rewrite Hid, Hc1).
  eexists. split; [reflexivity|]. split; [simpl; by rewrite Hid, Hc1|].
  simpl. unfold w1, after_send, full, d, deliver. destruct (_ <? _)%nat; simpl; [|done].
  by rewrite insert_insert_eq.
Qed.

(** "/msg to words" posts exactly one private-message event,
    with the sender's own name, the first word as recipient and the remaining
    words joined by single blanks as text; with fewer than two words it is a
    usage error and nothing happens. *)
Theorem msg_posts_direct_event order r l c args raw (w : World H) :
  heap w !! l = Some c ->
  run_builtin order r CmdMsg (mkContext (Some l) args raw) w =
    match args with
    | to :: (_ :: _) as words =>
        (Ret None, spawn (emitted (hub w) (DirectMessageEvent (now w) (Name c) to (Join (List.tl args) " "))) w)
    | _ => (Ret (Some UsageMsg), w)
    end.
Proof.
  intros Hl. unfold run_builtin, cmd_msg. cbn [Args]. destruct args as [|to [|x words]]; [done|done|].
  unfold ctx_client, ok. unfold_go. cbn [CtxClient]. rewrite (deref_eval l c) by done.
  by rewrite Emit_eval.
Qed.
End builtin.

(** ** The theorems at concrete inputs

    Alice is an administrator, bob an ordinary user; both are online. *)
Module AdminDemo.
#[export] Instance tables : UnicodeTables := {| unicode_lower r := r |}.
Local Open Scope string_scope.

Definition admin : Client := set_meta Demo.alice (Some {[ "level" := "1" ]}).
Definition world : World unit := set_heap <[0%nat := admin]> (Demo.world unit).
Definition order : list string := elements (dom (clients (hub world))).

Lemma admin_world_ok : world_wf world.
Proof.
  apply (world_wf_heap (Demo.world unit) 0%nat Demo.alice); [apply Demo.world_ok|done| |done|by left].
  split; simpl; [lia|lia|done].
Qed.

Lemma admin_order_ok : range_order world order.
Proof. unfold range_order, order. reflexivity. Qed.
End AdminDemo.
Import AdminDemo.

Lemma kick_panics_exactly_on_self_witness :
  let exec := Execute (run_builtin order) builtins in
  (exec "/kick alice"%string (mkContext (Some 0%nat) [] "") world).1 = Panic send_on_closed /\
  (exec "/kick bob"%string (mkContext (Some 0%nat) [] "") world).1 = Ret (true, None).
Proof.
  intros exec. split.
  - apply (kick_panics_exactly_on_self order 0%nat admin 1%Z "alice" "" world admin_world_ok admin_order_ok);
      vm_compute; (reflexivity || discriminate).
  - apply (kick_panics_exactly_on_self order 0%nat admin 1%Z "bob" "" world admin_world_ok admin_order_ok);
      vm_compute; (reflexivity || discriminate).
Defined.

Lemma ban_minutes_window_witness :
  exists w', run_builtin order builtins CmdBan (mkContext (Some 0%nat) ["bob"; "200000000"]%string "") world = (Ret None, w') /\
    banned (hub w') !! "bob"%string = Some 0%Z.
Proof.
  apply (ban_minutes_window order builtins 0%nat admin "bob" "200000000" 200000000%Z "" world);
    [reflexivity|reflexivity|vm_compute; reflexivity|lia].
Defined.

Lemma auth_grants_admin_witness :
  exists w', Execute (run_builtin order) builtins "/auth 1" (mkContext (Some 1%nat) [] "") world = (Ret (true, None), w') /\
    checkPermission (Some 1%nat) levelAdmin w' = (Ret true, w').
Proof. apply (auth_grants_admin order 1%nat Demo.bob world ""); reflexivity. Defined.
