(* ===== verification/Main.v ===== *)
(** * The whole node: [cmd/server/main.go]

    [main] loads the configuration, sets the log level, builds the hub, the
    command table and the subscribers, chooses the options of the two servers
    and, when Redis is enabled, starts the goroutine that connects the hub to the
    bus; [bus_go] is that goroutine, one statement at a time.  [node_step] lets
    everything that acts on the hub happen in any order: clients come, talk, type
    commands, read and leave; waiting goroutines run; the bus goroutine moves on
    and polls; and all of them come apart into their single operations.  The
    theorems: start-up never panics and wires every event type to its handlers; in
    every state a node can reach, the type assertion of every waiting goroutine
    succeeds. *)

From S2P Require Import Prelude Utf8 GoStrings Json Envelope Codec Factory Conn Frame Session Gateway Servers Config.
From S2P Require Import Observe Client Events Hub HubFacts Membership Subscriber Redis Bus Wiring Registry Builtin.

Local Open Scope Z_scope.

(** The handler and the event fit. *)
Definition main_fits (h : main_handler) (t : EventType) : bool :=
  match h with
  | HSub h => fits h t
  | PubLocal => bool_decide (t = EventMessageLocal)
  | PubDirect => bool_decide (t = EventMessageDirect)
  end.

(** ** Start-up *)

(** Where the bus goroutine is: not started (Redis is not enabled), before
    [EnsureGroup], before the first and the second [Subscribe], in [Consume]. *)
Inductive bus_pc := BusOff | BusEnsure | BusLocal | BusDirect | BusConsume.

Section main.
Context `{UT : UnicodeTables} `{PL : ProtoLib} `{TT : TimeText} {R : Type} `{RD : Redis R}.

Record node := mkNode {
  n_level : Level;                      (** of the logger *)
  n_cmds : Registry builtin;
  n_tcp : string * Options;             (** listening address, options *)
  n_ws : WebSocketServer * (string * Options);
  n_http : string;                      (** listening address *)
  n_bus : option Bus;
  n_pc : bus_pc;                        (** of the bus goroutine *)
  n_state : MainWorld (R := R);
}.

Definition bus_enabled (cfg : Config) : bool := RedisEnable cfg && bool_decide (RedisAddr cfg <> ""%string).

Definition bus_of (cfg : Config) : option Bus :=
  if bus_enabled cfg then Some (New (RedisAddr cfg) (RedisDB cfg) (RedisStream cfg) (RedisGroup cfg)) else None.

(** One statement of the bus goroutine; the iterations of [Consume] are
    [main_poll]. *)
Definition bus_go (b : Bus) (pc : bus_pc) (w : MainWorld (R := R)) : bus_pc * MainWorld (R := R) :=
  match pc with
  | BusOff => (BusOff, w)
  | BusEnsure => (BusLocal, mkMain (chat w) (EnsureGroup b (redis w)))
  | BusLocal => (BusDirect, mkMain (subscribe_local (chat w)).2 (redis w))
  | BusDirect => (BusConsume, mkMain (subscribe_direct (chat w)).2 (redis w))
  | BusConsume => (BusConsume, w)
  end.

(** [main] up to its final [select]; the goroutines it starts come after it. *)
Definition main (env : environ) (t : Time) (r : R) : outcome node :=
  let cfg := Load env in
  let level := SetLevel (LogLevel cfg) (logger_init env) in
  match RegisterBuiltins NewRegistry with
  | (Some _, _) => Panic "RegisterBuiltins"
  | (None, cmds) =>
      match RegisterAll HSub (fresh_world t) with
      | (Panic p, _) => Panic p
      | (Ret _, c) =>
          Ret (mkNode level cmds
            (Listen (NewTCPServer (TCPAddr cfg)) (TCPAddr cfg) (tcp_main_options cfg))
            (NewWebSocketServer "/ws", Listen (NewWebSocketServer "/ws") (WSAddr cfg) (ws_main_options cfg))
            (HTTPAddr cfg) (bus_of cfg) (if bus_enabled cfg then BusEnsure else BusOff) (mkMain c r))
      end
  end.

(** The publishers an event reaches, as far as they have subscribed. *)
Definition publishers (pc : bus_pc) (e : Event) : list main_handler :=
  match pc, e with
  | (BusDirect | BusConsume), EvMessage me => if me_Local me then [PubLocal] else []
  | BusConsume, EvDirectMessage _ => [PubDirect]
  | _, _ => []
  end.

(** The hub with the handlers that are subscribed by then. *)
Definition wired (pc : bus_pc) : World main_handler :=
  match pc with
  | BusOff | BusEnsure | BusLocal => started HSub 0
  | BusDirect => (subscribe_local (started HSub 0)).2
  | BusConsume => (subscribe_bus (started HSub 0)).2
  end.

Definition task_ok (he : main_handler * Event) (w : World main_handler) : Prop :=
  main_fits he.1 (event_type he.2) = true /\ event_ok he.2 w.

(** ** What every state of a node satisfies *)

Record node_ok (pc : bus_pc) (w : World main_handler) : Prop := {
  no_wf : hub_wf w;
  (** nobody but the bus goroutine subscribes *)
  no_table : handlers (hub w) = handlers (hub (wired pc));
  no_next : nextHID (hub w) = nextHID (hub (wired pc));
  (** a waiting goroutine has an event of the type its handler asserts, about an
      existing client *)
  no_tasks : Forall (fun he => task_ok he w) (tasks w);
}.
End main.

(** ** The hub's operations keep it *)
Section kept.
Context (pc : bus_pc).
Abbreviation W := (World main_handler).
Abbreviation ok := (node_ok pc).
Implicit Types (w : W) (l : loc).

Lemma event_ok_mono e w w' : (forall l, is_Some (heap w !! l) -> is_Some (heap w' !! l)) -> event_ok e w -> event_ok e w'.
Proof. intros Hh. destruct e as [[? u ?]|[]|[]|[]|[]|[]]; simpl; auto. Qed.

Lemma wired_emitted e : emitted (hub (wired pc)) e = (fun h => (h, e)) <$> HSub (handler_for e) :: publishers pc e.
Proof.
  destruct pc, e as [[? ? d]|[? ? ? []]|[]|[]|[]|[]]; try reflexivity;
    unfold emitted, event_type, UserEvent_Type, handler_for; cbn [ue_Desc];
    destruct (bool_decide ("leave"%string = d)); reflexivity.
Qed.

Lemma publisher_fits e : Forall (fun h => main_fits h (event_type e) = true) (HSub (handler_for e) :: publishers pc e).
Proof.
  constructor; [apply handler_for_fits|]. destruct pc, e as [[? ? d]|[? ? ? []]|[]|[]|[]|[]]; repeat constructor.
Qed.

Lemma ok_emitted w e : ok w -> emitted (hub w) e = (fun h => (h, e)) <$> HSub (handler_for e) :: publishers pc e.
Proof. intros Hw. rewrite <- wired_emitted. apply emitted_same, Hw. Qed.

Lemma emitted_fits w e : ok w -> event_ok e w -> Forall (fun he => task_ok he w) (emitted (hub w) e).
Proof.
  intros Hw He. rewrite (ok_emitted w e Hw). apply Forall_fmap. eapply Forall_impl; [apply publisher_fits|]. by split.
Qed.

(** The world has moved on by some operations: no handler came or went, no client
    object was lost, and goroutines were added for the events [evs]. *)
Record moved w w' (evs : list Event) : Prop := {
  mv_wf : hub_wf w -> hub_wf w';
  mv_handlers : handlers (hub w') = handlers (hub w);
  mv_next : nextHID (hub w') = nextHID (hub w);
  mv_heap l : is_Some (heap w !! l) -> is_Some (heap w' !! l);
  mv_tasks : tasks w' = tasks w ++ (evs ≫= emitted (hub w));
  mv_events : Forall (fun e => event_ok e w) evs;
}.

Lemma moved_ok w w' evs : ok w -> moved w w' evs -> ok w'.
Proof.
  intros Hw [Hs Hh Hn Hm Ht He].
  assert (Ht' : forall he, task_ok he w -> task_ok he w').
  { intros he [? ?]. split; [done|]. by apply (event_ok_mono _ w). }
  split; [apply Hs, Hw|rewrite Hh; apply Hw|rewrite Hn; apply Hw|].
  rewrite Ht. apply Forall_app. split; [eapply Forall_impl; [apply Hw|done]|].
  apply Forall_bind. eapply Forall_impl; [exact He|]. intros e Hev.
  eapply Forall_impl; [by apply emitted_fits|done].
Qed.

(** Nothing is emitted. *)
Lemma quiet_ok w w' : ok w -> (hub_wf w -> hub_wf w') -> handlers (hub w') = handlers (hub w) ->
  nextHID (hub w') = nextHID (hub w) -> (forall l, is_Some (heap w !! l) -> is_Some (heap w' !! l)) -> tasks w' = tasks w -> ok w'.
Proof. intros Hw H1 H2 H3 H4 H5. apply (moved_ok w w' []); [done|]. split; auto. by rewrite app_nil_r. Qed.

Lemma heap_ok w l c : ok w -> (hub_wf w -> hub_wf (set_heap <[l := c]> w)) -> ok (set_heap <[l := c]> w).
Proof.
  intros Hw Hwf. apply (quiet_ok w); [done..| |done]. intros l' Hl. simpl.
  destruct (decide (l' = l)) as [->|Hne]; [rewrite lookup_insert_eq; eauto|by rewrite lookup_insert_ne].
Qed.

Lemma client_ok w l c c' : ok w -> heap w !! l = Some c -> ID c' = ID c -> (client_wf c -> client_wf c') ->
  ok (set_heap <[l := c']> w).
Proof.
  intros Hw Hl Hi Hc. apply heap_ok; [done|]. intros I. eapply hub_wf_heap; [done..| |done].
  eapply Hc, (hw_heap w I), Hl.
Qed.

Lemma keeps_deref l : keeps ok (deref l).
Proof. intros w Hw. unfold deref. unfold_go. by destruct (heap w !! l). Qed.

Lemma keeps_deref_then {A} l (f : Client -> GoM W A) :
  (forall c w, ok w -> heap w !! l = Some c -> ok (f c w).2) -> keeps ok (deref l ≫= f).
Proof. intros Hf w Hw. unfold deref. unfold_go. destruct (heap w !! l) as [c|] eqn:E; [by apply Hf|done]. Qed.

Lemma keeps_metric m : keeps ok (modify (add_metric m)).
Proof. apply keeps_modify. intros w Hw. apply (quiet_ok w); try done. intros []. by split. Qed.

Lemma keeps_Close l : keeps ok (Close l).
Proof.
  apply keeps_deref_then. intros c w Hw Hl. apply (client_ok w l c); [done..|apply client_close_id|apply client_close_wf].
Qed.

Lemma keeps_Send l m : keeps ok (Send l m).
Proof.
  apply keeps_deref_then. intros c w Hw Hl. destruct (client_send c m) as [[c' []]|p] eqn:E; [by apply keeps_metric| |done].
  apply (client_ok w l c); [done..| |intros Hc; by eapply client_send_wf].
  unfold client_send in E. destruct (out_closed c); [done|]. destruct (_ <? _)%nat; by simplify_eq.
Qed.

Lemma ok_Emit e w : ok w -> event_ok e w -> ok (Emit e w).2.
Proof.
  intros Hw He. rewrite Emit_eval. apply (moved_ok w _ [e]); [done|]. split; simpl; auto.
  - intros []. by split.
  - by rewrite app_nil_r.
Qed.

Lemma keeps_Emit e : (forall w, event_ok e w) -> keeps ok (Emit e).
Proof. intros He w Hw. by apply ok_Emit. Qed.

(** The operations inside [RegisterClient] and [UnregisterClient]. *)
Lemma store_ok w l c : ok w -> heap w !! l = Some c -> ok (set_hub (set_clients <[ID c := l]>) w).
Proof. intros Hw Hl. apply (quiet_ok w); try done. intros I. destruct (hub_wf_register l c w I Hl). by split. Qed.

Lemma delete_ok w k : ok w -> ok (set_hub (set_clients (delete k)) w).
Proof.
  intros Hw. apply (quiet_ok w); try done. intros [H1 H2 H3 H4]. split; try done.
  intros k' l Hk. simpl in Hk. apply lookup_delete_Some in Hk as [_ Hk]. by apply H2.
Qed.

Lemma keeps_RegisterClient l : keeps ok (RegisterClient l).
Proof.
  apply keeps_deref_then. intros c w Hw Hl. pose proof (store_ok w l c Hw Hl) as H1.
  set (w1 := set_hub (set_clients <[ID c := l]>) w) in *.
  assert (H2 : ok (Emit (UserEvent (now w1) l "joined") w1).2) by (apply ok_Emit; [done|by exists c]).
  unfold_go. fold w1. rewrite Emit_eval in *. by apply keeps_metric.
Qed.

Lemma keeps_UnregisterClient l : keeps ok (UnregisterClient l).
Proof.
  apply keeps_deref_then. intros c w Hw Hl. unfold_go. destruct (clients (hub w) !! ID c); [|by apply keeps_Close].
  pose proof (keeps_Close l _ (delete_ok w (ID c) Hw)) as H1. rewrite (Close_eval l c) in * by done. cbn [snd] in H1.
  apply (ok_Emit (UserEvent (now w) l "leave")) in H1; [|exists (client_close c); apply lookup_insert_eq].
  rewrite Emit_eval in *. by apply keeps_metric.
Qed.

Lemma keeps_BanFor name d : keeps ok (BanFor name d).
Proof. intros w Hw. apply (quiet_ok w); try done. intros []. by split. Qed.

Lemma keeps_IsBanned name : keeps ok (IsBanned name).
Proof.
  intros w Hw. unfold IsBanned. unfold_go. destruct (banned (hub w) !! name) as [u|]; [|done].
  destruct (u =? 0); [done|]. destruct (now w <? u); [done|]. apply (quiet_ok w); try done. intros []. by split.
Qed.
End kept.

#[export] Hint Resolve keeps_deref keeps_Send keeps_Close keeps_RegisterClient keeps_UnregisterClient keeps_BanFor keeps_metric : keeps.
#[export] Hint Extern 1 (keeps (node_ok _) (Emit _)) => apply keeps_Emit; intros ?; exact I : keeps.

(** ** Handlers and commands keep it *)
Section programs.
Context `{UT : UnicodeTables} `{TT : TimeText} {R : Type} `{RD : Redis R}.
Context (format_time : Time -> string).
Abbreviation W := (World main_handler).
Implicit Types (w : W) (pc : bus_pc).

Lemma keeps_run_sub pc o1 o2 h e : keeps (node_ok pc) (run_sub (H := main_handler) format_time o1 o2 h e).
Proof.
  destruct h, e as [[]|[]|[]|[]|[]|[]]; unfold run_sub, SendToAll, SendToUser, Range, IncMessage, IncDirect, IncHeartbeat;
    auto 20 with keeps.
Qed.

Lemma keeps_ctx_send pc ctx m : keeps (node_ok pc) (ctx_send ctx m).
Proof. unfold ctx_send, ctx_client. auto 20 with keeps. Qed.

Lemma keeps_cmd_auth pc ctx : keeps (node_ok pc) (cmd_auth ctx).
Proof.
  unfold cmd_auth, ok, fail, store. destruct (Args ctx) as [|a []]; auto with keeps.
  unfold ctx_client. destruct (CtxClient ctx) as [l|]; [|by intros w Hw].
  assert (Hst : forall c m w, node_ok pc w -> heap w !! l = Some c -> node_ok pc (set_heap <[l := set_meta c m]> w)).
  { intros c m w Hw Hl. apply (client_ok pc w l c); [done..|apply client_wf_set_meta]. }
  lazymatch goal with |- keeps _ (_ ≫= ?f) => change (keeps (node_ok pc) (f l)) end.
  apply keeps_deref_then. intros c w Hw Hl.
  apply bind_keeps; [destruct (Meta c); [done|by apply Hst]|]. intros _.
  destruct (negb _ && negb _); [apply keeps_ret|]. apply keeps_deref_then. intros c1 w1 Hw1 Hl1.
  apply bind_keeps; [by apply Hst|]. intros _. apply keeps_bind; [apply keeps_ctx_send|auto with keeps].
Qed.

Lemma keeps_run_builtin pc order r h ctx : keeps (node_ok pc) (run_builtin (H := main_handler) order r h ctx).
Proof.
  pose proof (keeps_ctx_send pc ctx) as Hs. pose proof (keeps_cmd_auth pc ctx) as Ha.
  destruct h; unfold run_builtin, cmd_help, cmd_quit, cmd_who, cmd_kick, cmd_ban, cmd_msg, cmd_notice, cmd_ping,
    cmd_sendfile, KickByName, ListNames, Range, ctx_client, ok, fail; auto 30 with keeps.
Qed.

Lemma keeps_Execute pc order r line ctx :
  keeps (node_ok pc) (Execute (run_builtin (H := main_handler) order) r line ctx).
Proof.
  pose proof (keeps_run_builtin pc order r) as Hb.
  unfold Execute, checkPermission, IncCommand, IncCommandError. auto 30 with keeps.
Qed.

Lemma keeps_on_message pc m : keeps (node_ok pc) (on_message m).
Proof. unfold on_message, BroadcastRemote. auto 20 with keeps. Qed.

(** Taking the [i]-th waiting goroutine. *)
Definition take_task (i : nat) (w : W) : W :=
  mkWorld (heap w) (hub w) (w_metrics w) (delete i (tasks w)) (now w).

Lemma node_ok_take pc i w : node_ok pc w -> node_ok pc (take_task i w).
Proof. intros [[] Ht Hn Hk]. split; [by split|done|done|]. by apply Forall_delete. Qed.

Lemma node_ok_run_main pc b o1 o2 h e (w : MainWorld (R := R)) :
  node_ok pc (chat w) -> node_ok pc (chat (run_main format_time b o1 o2 h e w)).
Proof.
  intros Hw. destruct h as [h| |]; [exact (keeps_run_sub pc o1 o2 h e _ Hw)|..];
    destruct e as [[]|[]|[]|[]|[]|[]]; exact Hw.
Qed.

Lemma consume_poll_keeps {X} (P : X -> Prop) handler b consumer c (s : X * R) :
  (forall m x, P x -> P (handler m x)) -> P s.1 -> P (consume_poll handler b consumer c s).2.1.
Proof.
  intros Hh Hs. unfold consume_poll. destruct (XReadGroup _ _ _ _ _) as [x r']. destruct x as [| |res]; [done..|].
  cbn [snd fst]. unfold consume_batch.
  assert (Hm : forall xs s, P s.1 -> P (foldl (consume_message handler b) s xs).1).
  { induction xs as [|x xs IH]; intros s0 H0; [done|]. cbn [foldl]. apply IH. unfold consume_message, handle_entry. simpl.
    destruct (decode_message _); auto. }
  assert (Hb : forall res s, P s.1 -> P (foldl (fun s msgs => foldl (consume_message handler b) s msgs) s res).1).
  { induction res0 as [|xs res0 IH]; intros s0 H0; [done|]. cbn [foldl]. auto. }
  by apply Hb.
Qed.

Lemma node_ok_poll pc b consumer (w : MainWorld (R := R)) :
  node_ok pc (chat w) -> node_ok pc (chat (main_poll b consumer w)).
Proof.
  intros Hw. unfold main_poll.
  pose proof (consume_poll_keeps (node_ok pc) (fun m c => (on_message m c).2) b consumer false (chat w, redis w)
    (fun m x => keeps_on_message pc m x) Hw) as Hk.
  by destruct (consume_poll _ _ _ _ _) as [[? ?] [c r]].
Qed.

(** A subscription of the bus goroutine. *)
Lemma node_ok_subscribe pc pc' t fn w : node_ok pc w -> nextHID (hub (wired pc)) < 100 ->
  handlers (hub (wired pc')) = handlers (hub (SubscribeCancelable t fn (wired pc)).2) ->
  nextHID (hub (wired pc')) = nextHID (hub (SubscribeCancelable t fn (wired pc)).2) ->
  node_ok pc' (Subscribe t fn w).2.
Proof.
  intros Hw Hb H1 H2. pose proof Hw as [I Ht Hn Hk].
  assert (Hnw : no_hid_wrap w) by (unfold no_hid_wrap; rewrite Hn; lia).
  split; [exact (hub_wf_subscribe t fn w I Hnw)|..].
  - rewrite H1. simpl. by rewrite Ht, Hn.
  - rewrite H2. simpl. by rewrite Hn.
  - exact Hk.
Qed.

Lemma node_ok_bus pc b (w : MainWorld (R := R)) :
  node_ok pc (chat w) -> node_ok (bus_go b pc w).1 (chat (bus_go b pc w).2).
Proof.
  intros Hw. destruct pc; cbn [bus_go fst snd chat]; [done| | | |done].
  - destruct Hw. by split.
  - apply (node_ok_subscribe BusLocal); [done|vm_compute; reflexivity..].
  - apply (node_ok_subscribe BusDirect); [done|vm_compute; reflexivity..].
Qed.

(** ** The steps of a node

    [cmds] is the command table, [bus] the bus if there is one.  First what
    happens to the hub: whole calls, and the operations the calls and handlers
    are made of, since between two operations of one goroutine those of any
    other may come. *)
Context (cmds : Registry builtin) (bus : option Bus).

Inductive chat_step : relation W :=
(* calls *)
| cs_new w l id n : heap w !! l = None -> chat_step w (set_heap <[l := NewClientWithBuffer id n]> w)
| cs_register w l : chat_step w (RegisterClient l w).2
| cs_leave w l : chat_step w (UnregisterClient l w).2
| cs_say w from content : chat_step w (BroadcastLocal from content w).2
| cs_line w order line ctx :                          (* also when the handler panics *)
    chat_step w (Execute (run_builtin order) cmds line ctx w).2
| cs_is_banned w name : chat_step w (IsBanned name w).2
(* operations *)
| cs_name w l c nm : heap w !! l = Some c -> chat_step w (set_heap <[l := set_name c nm]> w)
| cs_meta w l c m : heap w !! l = Some c -> chat_step w (set_heap <[l := set_meta c m]> w)
| cs_recv w l c : heap w !! l = Some c -> chat_step w (set_heap <[l := (Outgoing c).2]> w)
| cs_send w l m : chat_step w (Send l m w).2
| cs_close w l : chat_step w (Close l w).2
| cs_store w l c : heap w !! l = Some c -> chat_step w (set_hub (set_clients <[ID c := l]>) w)
| cs_delete w k : chat_step w (set_hub (set_clients (delete k)) w)
| cs_emit w e : event_ok e w -> chat_step w (Emit e w).2
| cs_ban w name d : chat_step w (BanFor name d w).2
| cs_metric w m : chat_step w (add_metric m w)
| cs_take w i : chat_step w (take_task i w)           (* a goroutine begins *)
| cs_tick w t : now w <= t -> chat_step w (at_time t w).

Record running := mkRun { rn_pc : bus_pc; rn_world : MainWorld (R := R) }.

Inductive node_step : relation running :=
| ns_chat pc s c' : chat_step (chat s) c' -> node_step (mkRun pc s) (mkRun pc (mkMain c' (redis s)))
| ns_task pc s b i h e o1 o2 :                        (* any waiting goroutine *)
    tasks (chat s) !! i = Some (h, e) -> bus = Some b \/ (exists h0, h = HSub h0) ->
    node_step (mkRun pc s) (mkRun pc (run_main format_time b o1 o2 h e (mkMain (take_task i (chat s)) (redis s))))
| ns_bus pc s b : bus = Some b -> node_step (mkRun pc s) (mkRun (bus_go b pc s).1 (bus_go b pc s).2)
| ns_poll s b consumer : bus = Some b -> node_step (mkRun BusConsume s) (mkRun BusConsume (main_poll b consumer s))
| ns_service pc s r : node_step (mkRun pc s) (mkRun pc (mkMain (chat s) r)).   (* other nodes use the service *)

Lemma chat_step_ok pc w w' : node_ok pc w -> chat_step w w' -> node_ok pc w'.
Proof.
  intros Hw Hs. destruct Hs as [w l id n Hl|w l|w l|w from content|w order line ctx|w name|w l c nm Hl|w l c m Hl|w l c Hl
    |w l m|w l|w l c Hl|w k|w e He|w name d|w m|w i|w t Ht].
  - apply heap_ok; [done|]. intros I. by apply hub_wf_new_client.
  - by apply keeps_RegisterClient.
  - by apply keeps_UnregisterClient.
  - apply (keeps_Emit pc (MessageEvent (now w) from content true)); done.
  - by apply keeps_Execute.
  - by apply keeps_IsBanned.
  - apply (client_ok pc w l c); [done..|apply client_wf_set_name].
  - apply (client_ok pc w l c); [done..|apply client_wf_set_meta].
  - apply (client_ok pc w l c); [done..|apply Outgoing_id|apply outgoing_wf].
  - by apply keeps_Send.
  - by apply keeps_Close.
  - by apply store_ok.
  - by apply delete_ok.
  - by apply ok_Emit.
  - by apply keeps_BanFor.
  - by apply (keeps_metric pc m w).
  - by apply node_ok_take.
  - apply (quiet_ok pc w); try done. intros []. by split.
Qed.

Lemma node_step_ok (s s' : running) :
  node_ok (rn_pc s) (chat (rn_world s)) -> node_step s s' -> node_ok (rn_pc s') (chat (rn_world s')).
Proof.
  intros Hw Hs. destruct Hs as [pc s c' Hc|pc s b i h e o1 o2 Hi Hb|pc s b Hb|s b consumer Hb|pc s r]; cbn [rn_pc rn_world chat] in *.
  - by eapply chat_step_ok.
  - by apply node_ok_run_main, node_ok_take.
  - by apply node_ok_bus.
  - by apply node_ok_poll.
  - done.
Qed.
End programs.

(** ** Theorems *)

Definition table_ok (n : Z) (es : list (handlerEntry main_handler)) : Prop :=
  length es <> O /\ NoDup (he_id <$> es) /\ Forall (fun e => 0 < he_id e <= n) es.

#[local] Instance table_ok_dec n es : Decision (table_ok n es).
Proof. unfold table_ok. apply _. Defined.

(** A hub with its subscribers and nothing else yet. *)
Lemma started_ok pc t : pc = BusOff \/ pc = BusEnsure -> node_ok pc (started HSub t).
Proof.
  intros Hpc. set (h := handlers (hub (started HSub 0))).
  assert (HM : map_Forall (fun _ es => table_ok 8 es) h) by (eapply bool_decide_eq_true_1; vm_compute; reflexivity).
  assert (Hh : handlers (hub (started HSub t)) = h) by (vm_compute; reflexivity).
  assert (Hn : nextHID (hub (started HSub t)) = 8) by (vm_compute; reflexivity).
  assert (Hp : handlers (hub (wired pc)) = h /\ nextHID (hub (wired pc)) = 8)
    by (destruct Hpc as [-> | ->]; split; vm_compute; reflexivity). clearbody h.
  split; [|by rewrite Hh, (proj1 Hp)|by rewrite Hn, (proj2 Hp)|vm_compute; constructor]. split.
  - intros l c Hl. vm_compute in Hl. discriminate.
  - intros k l Hl. vm_compute in Hl. discriminate.
  - intros ty es Hes. rewrite Hh in Hes. rewrite Hn. destruct (HM ty es Hes) as (H1 & H2 & H3).
    split; [intros ->; by apply H1|]. by split.
  - by rewrite Hn.
Qed.

(** ** Panics a computation does not raise *)

Definition avoids {S A} (msg : string) (c : GoM S A) : Prop := forall s, (c s).1 <> Panic msg.

Create HintDb avoids.

Section avoids.
Context {S : Type} (msg : string).

Lemma avoids_ret {A} (a : A) : avoids (S := S) msg (mret a).
Proof. by intros s. Qed.

Lemma avoids_get : avoids (S := S) msg get.
Proof. by intros s. Qed.

Lemma avoids_modify (f : S -> S) : avoids msg (modify f).
Proof. by intros s. Qed.

Lemma avoids_bind {A B} (c : GoM S A) (f : A -> GoM S B) : avoids msg c -> (forall a, avoids msg (f a)) -> avoids msg (c ≫= f).
Proof.
  intros Hc Hf s. unfold mbind, GoM_bind. specialize (Hc s). destruct (c s) as [[a|m] s']; [apply Hf|].
  intros [= ->]. done.
Qed.

Lemma avoids_fold_each {A B} (f : B -> A -> GoM S B) b l : (forall b x, avoids msg (f b x)) -> avoids msg (fold_each f b l).
Proof.
  intros Hf. revert b. induction l as [|x l IH]; intros b; [apply avoids_ret|]. apply avoids_bind; [apply Hf|done].
Qed.
End avoids.

Lemma deref_avoids {H} l : avoids conversion_panic (deref (H := H) l).
Proof. intros w. unfold deref. unfold_go. by destruct (heap w !! l). Qed.

Lemma Send_avoids {H} l m : avoids conversion_panic (Send (H := H) l m).
Proof.
  apply avoids_bind; [apply deref_avoids|]. intros c w. unfold client_send. destruct (out_closed c); [done|].
  by destruct (_ <? _)%nat.
Qed.

#[local] Hint Resolve avoids_ret avoids_get avoids_modify deref_avoids Send_avoids : avoids.
#[local] Hint Extern 2 (avoids _ (_ ≫= _)) => apply avoids_bind; [|intros ?] : avoids.
#[local] Hint Extern 2 (avoids _ (fold_each _ _ _)) => apply avoids_fold_each; intros ? ? : avoids.
#[local] Hint Extern 3 (avoids _ (match ?x with _ => _ end)) => destruct x : avoids.

(** The type assertion at the start of the handler succeeds, whatever the state
    is when it runs. *)
Definition asserts (format_time : Time -> string) (h : main_handler) (e : Event) : Prop :=
  match h with
  | HSub h => forall o1 o2, avoids conversion_panic (run_sub (H := main_handler) format_time o1 o2 h e)
  | PubLocal => exists me, e = EvMessage me
  | PubDirect => exists de, e = EvDirectMessage de
  end.

(** The handler returns when it runs undisturbed, at whatever order it walks the
    clients. *)
Definition returns (format_time : Time -> string) (h : main_handler) (e : Event) (w : World main_handler) : Prop :=
  match h with
  | HSub h => forall o1 o2, range_order w o1 -> range_order w o2 -> (run_sub format_time o1 o2 h e w).1 = Ret tt
  | PubLocal | PubDirect => True
  end.

Lemma fits_asserts format_time h e : main_fits h (event_type e) = true -> asserts format_time h e.
Proof.
  intros Hf. destruct h as [h| |].
  - intros o1 o2. destruct h, e as [[t u d]|[t f c [|]]|[t f to c]|[t lv c]|[t f to n s mi sk]|[t f dt]];
      unfold event_type, UserEvent_Type in Hf; cbn [ue_Desc] in Hf; try destruct (bool_decide ("leave"%string = d));
      try (exfalso; vm_compute in Hf; discriminate Hf); clear Hf;
      unfold run_sub, SendToAll, SendToUser, Range, IncMessage, IncDirect, IncHeartbeat; auto 20 with avoids.
  - destruct e as [[? ? d]|me|[]|[]|[]|[]]; try (vm_compute in Hf; discriminate); [|by exists me].
    exfalso. revert Hf. unfold event_type, UserEvent_Type. destruct (bool_decide _); vm_compute; discriminate.
  - destruct e as [[? ? d]|[? ? ? []]|de|[]|[]|[]]; try (vm_compute in Hf; discriminate); [|by exists de].
    exfalso. revert Hf. unfold event_type, UserEvent_Type. destruct (bool_decide _); vm_compute; discriminate.
Qed.

Lemma task_returns format_time he w : hub_wf w -> online_open w -> task_ok he w -> returns format_time he.1 he.2 w.
Proof.
  intros I Ho [Hf He]. destruct he as [[h| |] e]; [|done..]. intros o1 o2 H1 H2.
  apply run_sub_safe; try done. by apply world_wf_split.
Qed.

Section theorems.
Context `{UT : UnicodeTables} `{PL : ProtoLib} `{TT : TimeText} {R : Type} `{RD : Redis R}.

Lemma main_eval env t (r : R) :
  let cfg := Load env in
  main env t r = Ret (mkNode (parseLevel (LogLevel cfg)) builtins
    (Listen (NewTCPServer (TCPAddr cfg)) (TCPAddr cfg) (tcp_main_options cfg))
    (NewWebSocketServer "/ws", Listen (NewWebSocketServer "/ws") (WSAddr cfg) (ws_main_options cfg)) (HTTPAddr cfg) (bus_of cfg)
    (if bus_enabled cfg then BusEnsure else BusOff) (mkMain (started HSub t) r)).
Proof. intros cfg. unfold main. by rewrite (proj1 RegisterBuiltins_ok), RegisterAll_ret. Qed.

(** C25 (functional): start-up.  For every environment [main] reaches its final
    [select] without a panic: the registry lists the ten commands, only kick and
    ban for administrators; the hub has no clients, each event starts its
    standard subscriber and nothing else; the TCP server listens on the
    configured address, with a positive frame limit and a protocol manager.  A
    bus goroutine has been started exactly when Redis is enabled and has an
    address; once its first three statements have run, on the database and the
    stream of the configuration, local and private messages start their
    publisher too. *)
Theorem main_boots env t (r : R) :
  exists n, main env t r = Ret n /\
    CName <$> clist (n_cmds n) =
      ["help"; "quit"; "who"; "auth"; "kick"; "ban"; "msg"; "notice"; "ping"; "sendfile"]%string /\
    (forall c, c ∈ clist (n_cmds n) -> MinLevel c = levelAdmin <-> CName c = "kick"%string \/ CName c = "ban"%string) /\
    reg_wf (n_cmds n) /\
    n_level n = parseLevel (getEnv env "CHAT_LOG_LEVEL" "info") /\
    clients (hub (chat (n_state n))) = ∅ /\ tasks (chat (n_state n)) = [] /\
    (forall e, emitted (hub (chat (n_state n))) e = [(HSub (handler_for e), e)]) /\
    (is_Some (n_bus n) <-> RedisEnable (Load env) = true /\ RedisAddr (Load env) <> ""%string) /\
    (forall b, n_bus n = Some b ->
       bus_Addr b = RedisAddr (Load env) /\ bus_DB b = RedisDB (Load env) /\ stream b = RedisStream (Load env) /\
       exists w, Nat.iter 3 (uncurry (bus_go b)) (n_pc n, n_state n) = (BusConsume, w) /\
         redis w = EnsureGroup b r /\
         forall e, emitted (hub (chat w)) e = (fun h => (h, e)) <$> HSub (handler_for e) :: publishers BusConsume e) /\
    (n_tcp n).1 = TCPAddr (Load env) /\ Path (n_ws n).1 = "/ws"%string /\
    0 < OptMaxFrameSize (n_tcp n).2 /\
    GetTCPProtocolManager (n_tcp n).2 = Some (NewProtocolManager (TCPCodec (Load env))) /\
    GetWSProtocolManager (n_ws n).2.2 = Some (NewProtocolManager (WSCodec (Load env))).
Proof.
  eexists. split; [apply main_eval|]. cbn [n_cmds n_level n_bus n_pc n_state n_tcp n_ws chat snd].
  destruct builtins_listed as [Hn Ha]. split; [exact Hn|]. split; [exact Ha|]. split; [apply builtins_wf|].
  split; [f_equal; unfold Load; by destruct (Atoi _)|]. split; [reflexivity|]. split; [reflexivity|].
  split; [intros e; apply (started_emitted HSub t e)|]. unfold bus_of, bus_enabled.
  split; [|split; [|split_and!; [simpl; unfold tcp_listen_addr; by case_bool_decide|reflexivity|apply tcp_options_positive| |reflexivity]]].
  - destruct (RedisEnable (Load env)); simpl; [|by split; [intros []|intros []]].
    case_bool_decide; split; [by split|by eexists|by intros []|by intros []].
  - intros b Hb. destruct (RedisEnable (Load env) && _); [|done]. injection Hb as <-. split_and!; [done..|].
    eexists. split; [reflexivity|]. split; [reflexivity|]. intros e. rewrite <- (wired_emitted BusConsume e).
    apply emitted_same. vm_compute. reflexivity.
  - simpl. unfold tcp_options, tcp_main_options. by destruct (_ <=? 0).
Qed.

(** C9 (type): a running node is type safe.  Whole calls, the single operations
    of calls and handlers, waiting goroutines, the statements of the bus
    goroutine and the service may follow each other in any order.  In every
    state a started node can reach the hub is well formed; each event starts its
    standard subscriber and the publishers that have subscribed by then, and
    nothing else; the type assertion of every waiting goroutine succeeds
    whenever it runs; and, if every online client is open, a goroutine that runs
    undisturbed returns without a panic. *)
Theorem node_type_safe env t (r : R) n format_time s :
  main env t r = Ret n ->
  rtc (node_step format_time (n_cmds n) (n_bus n)) (mkRun (n_pc n) (n_state n)) s ->
  hub_wf (chat (rn_world s)) /\
  (forall e, emitted (hub (chat (rn_world s))) e =
     (fun h => (h, e)) <$> HSub (handler_for e) :: publishers (rn_pc s) e) /\
  Forall (fun he => asserts format_time he.1 he.2 /\
    (online_open (chat (rn_world s)) -> returns format_time he.1 he.2 (chat (rn_world s)))) (tasks (chat (rn_world s))).
Proof.
  intros Hn Hs. pose proof (main_eval env t r) as E. rewrite Hn in E. injection E as ->.
  assert (Hs' : node_ok (rn_pc s) (chat (rn_world s))).
  { eapply (rtc_invariant _ (fun s => node_ok (rn_pc s) (chat (rn_world s)))); [| |exact Hs].
    - intros x y. apply node_step_ok.
    - cbn [n_pc n_state rn_pc rn_world chat]. apply started_ok. destruct (bus_enabled _); auto. }
  split_and!; [apply Hs'|intros e; by apply ok_emitted|].
  eapply Forall_impl; [apply Hs'|]. intros he Hhe. split; [by apply fits_asserts, Hhe|].
  intros Ho. apply task_returns; [apply Hs'|done|done].
Qed.
End theorems.

(** ** The theorem at a concrete input

    An empty environment, so that Redis is enabled; the bus goroutine subscribes;
    two client objects of one ID are registered, the second between the [Store]
    and the event of the first; one talks. *)
Import ListRedis DecimalTime AdminDemo.

Module NodeDemo.
Definition env : environ := fun _ => ""%string.
Definition show (t : Time) : string := "now".
Definition c : Client := NewClientWithBuffer "1" 8.
Definition bus : Bus := default (mkBus "" 0 "" "") (bus_of (Load env)).

Definition subscribed : World main_handler := (subscribe_direct (subscribe_local (started HSub 7)).2).2.
Definition stored : World main_handler :=
  set_hub (set_clients <["1"%string := 0%nat]>) (set_heap <[1%nat := c]> (set_heap <[0%nat := c]> subscribed)).
Definition joined : World main_handler := (Emit (UserEvent 7 0%nat "joined") (RegisterClient 1%nat stored).2).2.
Definition talked : World main_handler := (BroadcastLocal "alice" "hi" joined).2.

Definition final : running (R := calm) := mkRun BusConsume (mkMain talked (EnsureGroup bus ListRedis.empty)).

Lemma rtc_eq {A} (R : relation A) x y : x = y -> rtc R x y.
Proof. by intros ->. Qed.
End NodeDemo.

Lemma node_type_safe_witness :
  exists n, main (UT := AdminDemo.tables) (PL := WireProto.lib) NodeDemo.env 7 ListRedis.empty = Ret n /\
    tasks NodeDemo.talked =
      [(HSub OnUserJoined, UserEvent 7 1%nat "joined"); (HSub OnUserJoined, UserEvent 7 0%nat "joined");
       (HSub OnMessageLocal, MessageEvent 7 "alice" "hi" true); (PubLocal, MessageEvent 7 "alice" "hi" true)] /\
    Forall (fun he => asserts NodeDemo.show he.1 he.2 /\
      (online_open NodeDemo.talked -> returns NodeDemo.show he.1 he.2 NodeDemo.talked)) (tasks NodeDemo.talked).
Proof.
  eexists. split; [apply main_eval|]. split; [vm_compute; reflexivity|].
  refine (proj2 (proj2 (node_type_safe (PL := WireProto.lib) NodeDemo.env 7 ListRedis.empty _ NodeDemo.show NodeDemo.final
    (main_eval NodeDemo.env 7 ListRedis.empty) _))).
  eapply rtc_l; [apply (ns_bus _ _ _ _ _ NodeDemo.bus); vm_compute; reflexivity|].
  eapply rtc_l; [apply (ns_bus _ _ _ _ _ NodeDemo.bus); vm_compute; reflexivity|].
  eapply rtc_l; [apply (ns_bus _ _ _ _ _ NodeDemo.bus); vm_compute; reflexivity|].
  eapply rtc_l; [apply ns_chat, (cs_new _ _ 0%nat "1" 8); reflexivity|].
  eapply rtc_l; [apply ns_chat, (cs_new _ _ 1%nat "1" 8); reflexivity|].
  eapply rtc_l; [apply ns_chat, (cs_store _ _ 0%nat NodeDemo.c); reflexivity|].
  eapply rtc_l; [apply ns_chat, (cs_register _ _ 1%nat)|].
  eapply rtc_l; [apply ns_chat, (cs_emit _ _ (UserEvent 7 0%nat "joined")); exists NodeDemo.c; reflexivity|].
  eapply rtc_l; [apply ns_chat, (cs_say _ _ "alice" "hi")|].
  apply NodeDemo.rtc_eq. vm_compute. reflexivity.
Defined.
